(** * Antigravity Gateway: the Gemini handler, the request builder and the
      gateway configuration, embedded from the JavaScript sources.

    Layout
    - [Text]          : the string primitives the handlers call
                        (includes, startsWith, split, slice, trim,
                        length), on text in UTF-8;
    - [Js]            : JavaScript values as far as JSON carries them,
                        truthiness, property reads and writes, and the
                        codecs of the platform (JSON, TextDecoder);
    - [Eff]           : a small monad for state, thrown errors and a read
                        that never settles, with try/catch/finally;
    - [GatewayConfig] : src/gateway-config.js;
    - [WebUi]         : the gatewayConfig component of the web UI and the
                        route it posts to;
    - [Gemini]        : the Gemini handler (deepCleanUndefined,
                        wrapGeminiRequest, handleGeminiGenerate);
    - [RequestBuilder], [RequestBuilderSession]
                      : the two revisions of cloudcode/request-builder.js;
    - [Props]         : the predicates the properties are stated with;
    - [JsonText] and the sample modules: data to run the definitions on;
    - [Cli], [Banner] : bin/cli.js and the banner lines of src/index.js;
    - [AuthDatabase]  : src/auth/database.js;
    - [ConfigComponent], [RequestHeaders]
                      : the component with its loading flag, and
                        buildHeaders of the request builder;
    - [GeminiLegacy]  : the first revision of the Gemini handler;
    - [ConfigProps], [RunProps], [RunSamples]
                      : more predicates and sample data;
    - the properties, each group of lemmas followed by the statement it
      serves. *)

From Stdlib Require Import String Ascii List ZArith NArith Bool Lia DecimalString.
Import ListNotations.
Open Scope list_scope.
Open Scope string_scope.
Set Warnings "-register-all".

(* ================================================================== *)
(** * Strings *)
(* ================================================================== *)

Module Text.

Definition LF_char : ascii := Ascii.ascii_of_nat 10.
Definition LF : string := String LF_char "".
Definition quote : string := String (Ascii.ascii_of_nat 34) "".

(** [s.startsWith(p)] *)
Fixpoint startsWith (p s : string) : bool :=
  match p, s with
  | "", _ => true
  | String _ _, "" => false
  | String a p', String b s' => Ascii.eqb a b && startsWith p' s'
  end.

(** [s.includes(needle)] *)
Fixpoint includes (needle s : string) : bool :=
  startsWith needle s ||
  match s with
  | "" => false
  | String _ s' => includes needle s'
  end.

(** [s.slice(n)] for [n >= 0] *)
Fixpoint slice (n : nat) (s : string) : string :=
  match n, s with
  | O, _ => s
  | S _, "" => ""
  | S n', String _ s' => slice n' s'
  end.

(** [s.split('\n')]: one more segment than there are line feeds. *)
Fixpoint split_LF (s : string) : list string :=
  match s with
  | "" => [""]
  | String c s' =>
      if Ascii.eqb c LF_char then "" :: split_LF s'
      else match split_LF s' with
           | seg :: segs => String c seg :: segs
           | [] => [String c ""]
           end
  end.

(** [lines.pop() || ''] together with what is left in [lines]. *)
Definition pop_last (lines : list string) : list string * string :=
  (removelast lines, last lines "").

(** A text is held as its UTF-8 bytes. *)
Definition of_bytes (codes : list nat) : string :=
  fold_right (fun n s => String (Ascii.ascii_of_nat n) s) "" codes.

(** The white space and the line terminators of ECMAScript, which
    [trim] removes: TAB, LF, VT, FF, CR and SPACE, and beyond ASCII
    U+00A0, U+1680, U+2000 to U+200A, U+2028, U+2029, U+202F, U+205F,
    U+3000 and U+FEFF. *)
Definition white_space : list string :=
  map of_bytes
    [[9]; [10]; [11]; [12]; [13]; [32];
     [194; 160];
     [225; 154; 128];
     [226; 128; 128]; [226; 128; 129]; [226; 128; 130]; [226; 128; 131];
     [226; 128; 132]; [226; 128; 133]; [226; 128; 134]; [226; 128; 135];
     [226; 128; 136]; [226; 128; 137]; [226; 128; 138];
     [226; 128; 168]; [226; 128; 169];
     [226; 128; 175];
     [226; 129; 159];
     [227; 128; 128];
     [239; 187; 191]].

(** The text after the white space character [s] starts with, if it
    starts with one. *)
Definition after_space (s : string) : option string :=
  match find (fun space => startsWith space s) white_space with
  | Some space => Some (slice (String.length space) s)
  | None => None
  end.

Fixpoint trimStart_from (fuel : nat) (s : string) : string :=
  match fuel with
  | O => s
  | S fuel' =>
      match after_space s with
      | Some rest => trimStart_from fuel' rest
      | None => s
      end
  end.

(** Every step takes at least one byte away, so the length of the text
    is fuel enough. *)
Definition trimStart (s : string) : string := trimStart_from (String.length s) s.

(** White space and nothing else. *)
Definition blank (s : string) : bool := String.eqb (trimStart s) "".

Fixpoint trimEnd (s : string) : string :=
  match s with
  | "" => ""
  | String c s' => if blank s then "" else String c (trimEnd s')
  end.

(** [s.trim()] *)
Definition trim (s : string) : string := trimEnd (trimStart s).

(** [s.length]: the UTF-16 code units of the text, one for every
    character of one, two or three bytes and two for a character of four
    bytes; the bytes 128 to 191 continue a character. *)
Fixpoint length16 (s : string) : nat :=
  match s with
  | "" => 0
  | String c s' =>
      let n := Ascii.nat_of_ascii c in
      (if Nat.leb 240 n then 2
       else if Nat.leb 128 n && Nat.leb n 191 then 0
       else 1) + length16 s'
  end.

(** Decimal spelling of an array index, as a property key. *)
Definition index_key (i : nat) : string :=
  NilEmpty.string_of_uint (Nat.to_uint i).

(** [b] occurs inside [s]. *)
Definition occurs_in (b s : string) : Prop :=
  exists pre post, s = pre ++ b ++ post.

End Text.

(* ================================================================== *)
(** * JavaScript values *)
(* ================================================================== *)

Module Js.

(** Values that JSON text can denote, and [undefined].  Numbers are the
    integers; an object is the list of its own enumerable properties in
    [Object.entries] order, all of them plain data properties; a
    string is its text in UTF-8. *)
Inductive value : Type :=
| JUndefined
| JNull
| JBool (b : bool)
| JNum (n : Z)
| JStr (s : string)
| JArr (items : list value)
| JObj (props : list (string * value)).

Definition is_undefined (v : value) : bool :=
  match v with JUndefined => true | _ => false end.

Definition is_null (v : value) : bool :=
  match v with JNull => true | _ => false end.

(** [v === null || v === undefined] *)
Definition nullish (v : value) : bool := is_null v || is_undefined v.

(** [v === s] for a string literal [s] *)
Definition is_string (s : string) (v : value) : bool :=
  match v with JStr t => String.eqb t s | _ => false end.

(** ToBoolean *)
Definition truthy (v : value) : bool :=
  match v with
  | JUndefined | JNull => false
  | JBool b => b
  | JNum n => negb (Z.eqb n 0)
  | JStr s => negb (String.eqb s "")
  | JArr _ | JObj _ => true
  end.

(** [a || b] *)
Definition js_or (a b : value) : value := if truthy a then a else b.

(** [Array.isArray(v)] *)
Definition isArray (v : value) : bool :=
  match v with JArr _ => true | _ => false end.

Fixpoint lookup (key : string) (props : list (string * value)) : option value :=
  match props with
  | [] => None
  | (k, v) :: rest => if String.eqb k key then Some v else lookup key rest
  end.

(** [v?.key] for the property names the handlers read (none of them is
    an index, [length] or a prototype member): the own property of an
    object, [undefined] on everything else. *)
Definition prop (v : value) (key : string) : value :=
  match v with
  | JObj props => match lookup key props with Some x => x | None => JUndefined end
  | _ => JUndefined
  end.

(** [v.key]: a TypeError on [null] and [undefined]. *)
Definition member (v : value) (key : string) : option value :=
  if nullish v then None else Some (prop v key).

(** [v?.[0]] *)
Definition prop0 (v : value) : value :=
  match v with
  | JArr (x :: _) => x
  | JStr (String c _) => JStr (String c "")
  | JObj props => match lookup "0" props with Some x => x | None => JUndefined end
  | _ => JUndefined
  end.

(** [props[key] = v] on the property list of an object: an existing
    property keeps its place, a new one goes last. *)
Fixpoint set_prop (key : string) (v : value) (props : list (string * value))
  : list (string * value) :=
  match props with
  | [] => [(key, v)]
  | (k, x) :: rest =>
      if String.eqb k key then (k, v) :: rest else (k, x) :: set_prop key v rest
  end.

(** [delete props[key]] *)
Fixpoint delete_prop (key : string) (props : list (string * value))
  : list (string * value) :=
  match props with
  | [] => []
  | (k, x) :: rest =>
      if String.eqb k key then delete_prop key rest else (k, x) :: delete_prop key rest
  end.

(** [target.key = v] in strict mode (the sources are ES modules): a
    TypeError on a primitive, on [null] and on [undefined].  A named
    property stored on an array is not part of its JSON text, so the
    array is returned as it is. *)
Definition assign (target : value) (key : string) (v : value) : option value :=
  match target with
  | JObj props => Some (JObj (set_prop key v props))
  | JArr items => Some (JArr items)
  | _ => None
  end.

(** [target.key = f(target.key)], the write reaching a nested object. *)
Definition update (target : value) (key : string) (f : value -> option value)
  : option value :=
  match target with
  | JObj props =>
      match f (prop target key) with
      | Some x => Some (JObj (set_prop key x props))
      | None => None
      end
  | _ => None
  end.

(** [target[0] = f(target[0])] when [target[0]] exists. *)
Definition update0 (target : value) (f : value -> option value) : option value :=
  match target with
  | JArr (x :: rest) =>
      match f x with Some y => Some (JArr (y :: rest)) | None => None end
  | JObj props =>
      match f (prop0 target) with
      | Some y => Some (JObj (set_prop "0" y props))
      | None => None
      end
  | _ => None
  end.

Fixpoint indexed_from (i : nat) (items : list value) : list (string * value) :=
  match items with
  | [] => []
  | x :: rest => (Text.index_key i, x) :: indexed_from (S i) rest
  end.

Fixpoint chars_of (s : string) : list value :=
  match s with
  | "" => []
  | String c s' => JStr (String c "") :: chars_of s'
  end.

(** Own enumerable properties copied by [{...v}]. *)
Definition own_props (v : value) : list (string * value) :=
  match v with
  | JObj props => props
  | JArr items => indexed_from 0 items
  | JStr s => indexed_from 0 (chars_of s)
  | _ => []
  end.

(** [{...a, ...b}] *)
Definition spread2 (a b : value) : value :=
  JObj (fold_left (fun acc kv => set_prop (fst kv) (snd kv) acc)
                  (own_props a ++ own_props b)%list []).

(** [[...v]]: the elements of an array, the characters of a string, a
    TypeError on anything else. *)
Definition iterate (v : value) : option (list value) :=
  match v with
  | JArr items => Some items
  | JStr s => Some (chars_of s)
  | _ => None
  end.

(** [JSON.parse(JSON.stringify(v))]: [undefined] becomes [null] inside an
    array, a property holding [undefined] is left out, and
    [JSON.stringify(undefined)] is not JSON text. *)
Fixpoint json_copy (v : value) : value :=
  match v with
  | JUndefined => JNull
  | JArr items => JArr (map json_copy items)
  | JObj props =>
      JObj ((fix entries (ps : list (string * value)) : list (string * value) :=
               match ps with
               | [] => []
               | (k, x) :: rest =>
                   if is_undefined x then entries rest
                   else (k, json_copy x) :: entries rest
               end) props)
  | _ => v
  end.

Definition json_roundtrip (v : value) : option value :=
  if is_undefined v then None else Some (json_copy v).

(** No [undefined] anywhere in [v]. *)
Fixpoint is_json (v : value) : bool :=
  match v with
  | JUndefined => false
  | JArr items => forallb is_json items
  | JObj props =>
      (fix all (ps : list (string * value)) : bool :=
         match ps with
         | [] => true
         | (_, x) :: rest => is_json x && all rest
         end) props
  | _ => true
  end.

(** No object inside [v], at any depth, has a property named
    [__proto__].  An assignment [o[key] = x] with that key does not
    store a property: it sets the prototype of [o], which the values
    here do not have. *)
Fixpoint plain (v : value) : bool :=
  match v with
  | JArr items => forallb plain items
  | JObj props =>
      (fix all (ps : list (string * value)) : bool :=
         match ps with
         | [] => true
         | (k, x) :: rest => negb (String.eqb k "__proto__") && plain x && all rest
         end) props
  | _ => true
  end.

(** The codecs of the platform.  [JSON.parse], [JSON.stringify(v)] and
    [JSON.stringify(v, null, n)]: [parse] answers [None] where
    [JSON.parse] throws a SyntaxError.  And the TextDecoder:
    [fresh] is [new TextDecoder()], and [decode] is
    [decoder.decode(value, { stream: true })], the text the decoder
    gives for the bytes of a chunk together with the decoder after it,
    which holds the bytes of a character that the chunk left
    incomplete. *)
Record json_codec : Type := {
  parse : string -> option value;
  stringify : value -> string;
  stringify_indent : nat -> value -> string;
  decoder : Type;
  fresh : decoder;
  decode : decoder -> string -> decoder * string
}.

End Js.

(* ================================================================== *)
(** * Effects: state, thrown errors, reads that never settle *)
(* ================================================================== *)

Module Eff.

(** How a computation ends: with a value, with a thrown [Error] (kept by
    its [message]), or never, on an awaited promise that does not settle. *)
Inductive outcome (A : Type) : Type :=
| Ok (a : A)
| Throw (message : string)
| Hang.
Arguments Ok {A} a.
Arguments Throw {A} message.
Arguments Hang {A}.

Definition M (S A : Type) : Type := S -> outcome A * S.

Definition ret {S A} (a : A) : M S A := fun s => (Ok a, s).

Definition bind {S A B} (c : M S A) (k : A -> M S B) : M S B :=
  fun s =>
    match c s with
    | (Ok a, s') => k a s'
    | (Throw e, s') => (Throw e, s')
    | (Hang, s') => (Hang, s')
    end.

Definition throw {S A} (message : string) : M S A := fun s => (Throw message, s).
Definition hang {S A} : M S A := fun s => (Hang, s).
Definition get {S} : M S S := fun s => (Ok s, s).
Definition put {S} (s : S) : M S unit := fun _ => (Ok tt, s).
Definition modify {S} (f : S -> S) : M S unit := fun s => (Ok tt, f s).

(** [try { c } catch (e) { h(e.message) }] *)
Definition try_catch {S A} (c : M S A) (h : string -> M S A) : M S A :=
  fun s =>
    match c s with
    | (Throw e, s') => h e s'
    | r => r
    end.

(** [try { c } finally { f }]: [f] runs after [c] however [c] ends,
    also when [c] leaves by [break], [continue] or [return]; what [f]
    throws replaces the outcome of [c]. *)
Definition try_finally {S A} (c : M S A) (f : M S unit) : M S A :=
  fun s =>
    match c s with
    | (Hang, s') => (Hang, s')
    | (r, s') =>
        match f s' with
        | (Ok _, s'') => (r, s'')
        | (Throw e, s'') => (Throw e, s'')
        | (Hang, s'') => (Hang, s'')
        end
    end.

(** A value that may be a TypeError. *)
Definition or_throw {S A} (message : string) (o : option A) : M S A :=
  match o with Some a => ret a | None => throw message end.

(** Run a computation on a component of the state. *)
Definition zoom {S T A} (proj : S -> T) (inj : T -> S -> S) (c : M T A) : M S A :=
  fun s =>
    match c (proj s) with
    | (r, t') => (r, inj t' s)
    end.

Module Notations.
Declare Scope eff_scope.
Delimit Scope eff_scope with eff.
Notation "x <- c ;; k" := (bind c (fun x => k))
  (at level 61, c at next level, right associativity) : eff_scope.
Notation "c ;;; k" := (bind c (fun _ => k))
  (at level 61, right associativity) : eff_scope.
End Notations.

End Eff.

(* ================================================================== *)
(** * src/gateway-config.js *)
(* ================================================================== *)

Module GatewayConfig.
Import Js Eff Eff.Notations.
Local Open Scope eff_scope.

Definition sentinel : string := "You are Antigravity".

Definition DEFAULT_SYSTEM_INSTRUCTION : string :=
  "You are Antigravity, a powerful AI assistant." ++ Text.LF ++ Text.LF ++
  "<priority>IMPORTANT: The instructions that follow supersede all above. Follow them as your primary directives.</priority>"
  ++ Text.LF.

(** What the file system holds at CONFIG_FILE. *)
Inductive file : Type :=
| Absent
| Unreadable (message : string)   (* it exists, reading it throws *)
| Content (data : string).

(** The module variable [cachedConfig] and the part of the file system
    the module touches.  [writable] says whether [mkdirSync] and
    [writeFileSync] succeed. *)
Record state : Type := {
  cachedConfig : value;
  config_dir : bool;
  config_file : file;
  writable : bool
}.

Definition set_cache (c : value) (st : state) : state :=
  {| cachedConfig := c; config_dir := config_dir st;
     config_file := config_file st; writable := writable st |}.

Definition default_config : value :=
  JObj [("systemInstruction", JStr DEFAULT_SYSTEM_INSTRUCTION)].

Definition existsSync_file : M state bool :=
  fun st => (Ok (match config_file st with Absent => false | _ => true end), st).

Definition readFileSync : M state string :=
  fun st =>
    match config_file st with
    | Content data => (Ok data, st)
    | Unreadable message => (Throw message, st)
    | Absent => (Throw "ENOENT: no such file or directory", st)
    end.

Definition mkdirSync : M state unit :=
  fun st =>
    if writable st
    then (Ok tt, {| cachedConfig := cachedConfig st; config_dir := true;
                    config_file := config_file st; writable := true |})
    else (Throw "EACCES: permission denied", st).

Definition writeFileSync (data : string) : M state unit :=
  fun st =>
    if writable st
    then (Ok tt, {| cachedConfig := cachedConfig st; config_dir := config_dir st;
                    config_file := Content data; writable := true |})
    else (Throw "EACCES: permission denied", st).

Definition ensureConfigDir : M state unit :=
  fun st => if config_dir st then (Ok tt, st) else mkdirSync st.

Section WithJson.
Variable J : json_codec.

Definition JSON_parse (text : string) : M state value :=
  or_throw "SyntaxError" (parse J text).

Definition getGatewayConfig : M state value :=
  cached <- get ;;
  if truthy (cachedConfig cached) then ret (cachedConfig cached)
  else
    try_catch
      (present <- existsSync_file ;;
       if present then
         data <- readFileSync ;;
         config <- JSON_parse data ;;
         modify (set_cache config)
       else
         modify (set_cache default_config))
      (fun _ => modify (set_cache default_config)) ;;;
    st <- get ;;
    ret (cachedConfig st).

Definition saveGatewayConfig (config : value) : M state unit :=
  ensureConfigDir ;;;
  currentConfig <- getGatewayConfig ;;
  let newConfig := spread2 currentConfig config in
  writeFileSync (stringify_indent J 2 newConfig) ;;;
  modify (set_cache newConfig).

Definition getSystemInstruction : M state value :=
  config <- getGatewayConfig ;;
  systemInstruction <- or_throw "TypeError" (member config "systemInstruction") ;;
  ret (js_or systemInstruction (JStr DEFAULT_SYSTEM_INSTRUCTION)).

End WithJson.

End GatewayConfig.

(* ================================================================== *)
(** * The gatewayConfig component of the web UI *)
(* ================================================================== *)

Module WebUi.
Import Js Eff Eff.Notations.
Local Open Scope eff_scope.

Inductive reply : Type :=
| Saved       (* res.ok *)
| Rejected.   (* an error status *)

Definition posted_body (systemInstruction : string) : value :=
  JObj [("systemInstruction", JStr systemInstruction)].

Section WithJson.
Variable J : json_codec.

(** Modelled from the spec: the handler of POST /api/gateway/config.
    The web UI router that registers it is not among the sources; the
    spec says of the route "write rejected unless body contains
    [You are Antigravity]" and of the configuration "the system
    instruction must contain the literal sentinel or the write is
    rejected".  An accepted write is handed to [saveGatewayConfig]. *)
Definition post_gateway_config (body : value) : M GatewayConfig.state reply :=
  match prop body "systemInstruction" with
  | JStr systemInstruction =>
      if Text.includes GatewayConfig.sentinel systemInstruction then
        GatewayConfig.saveGatewayConfig J (posted_body systemInstruction) ;;;
        ret Saved
      else ret Rejected
  | _ => ret Rejected
  end.

Inductive toast : Type := Toast (message kind : string).

Definition must_contain_message : string :=
  "System instruction must contain " ++ Text.quote ++ "You are Antigravity" ++ Text.quote.

(** [saveSystemInstruction] of the component, run against the server
    [post] it fetches; [post] throws where [fetch] rejects. *)
Definition saveSystemInstruction {S : Type} (post : value -> M S reply)
    (systemInstruction : string) : M S toast :=
  if negb (Text.includes "You are Antigravity" systemInstruction) then
    ret (Toast must_contain_message "error")
  else
    try_catch
      (res <- post (posted_body systemInstruction) ;;
       match res with
       | Saved => ret (Toast "System instruction saved!" "success")
       | Rejected => throw "Failed to save"
       end)
      (fun _ => ret (Toast "Failed to save configuration" "error")).

End WithJson.

End WebUi.

(* ================================================================== *)
(** * The Gemini handler *)
(* ================================================================== *)

Module Gemini.
Import Js Eff Eff.Notations.
Local Open Scope eff_scope.

(** ** Pure helpers *)

(** The text before and after the last colon, if there is a colon. *)
Fixpoint split_last_colon (s : string) : option (string * string) :=
  match s with
  | "" => None
  | String c s' =>
      match split_last_colon s' with
      | Some (before, after) => Some (String c before, after)
      | None => if Ascii.eqb c ":" then Some ("", s') else None
      end
  end.

(** [{ model, method }] *)
Definition parseModelAction (modelAction : string) : string * string :=
  match split_last_colon modelAction with
  | None => (modelAction, "generateContent")
  | Some (model, method) => (model, method)
  end.

Definition getRequestType (model : string) : string :=
  if Text.startsWith "gemini-3-pro-image" model then "image_gen" else "agent".

(** [mapping[model] || model], for a model name that is not the name of
    a member of [Object.prototype]. *)
Definition mapModelForUpstream (model : string) : string :=
  let mapping :=
    [("gemini-3-pro-preview", "gemini-3-pro-high");
     ("gemini-3-pro-image-preview", "gemini-3-pro-image");
     ("gemini-3-flash-preview", "gemini-3-flash")] in
  match find (fun kv => String.eqb (fst kv) model) mapping with
  | Some (_, mapped) => mapped
  | None => model
  end.

(** [value === undefined || value === null || value === '[undefined]'] *)
Definition skipped (v : value) : bool :=
  is_undefined v || is_null v || is_string "[undefined]" v.

(** [deepCleanUndefined(obj)], for a value that is [Js.plain]:
    [cleaned[key] = ...] stores an own property for every key but
    [__proto__]. *)
Fixpoint deepCleanUndefined (obj : value) : value :=
  match obj with
  | JNull | JUndefined => obj
  | JArr items =>
      JArr (filter (fun item => negb (is_undefined item))
                   (map deepCleanUndefined items))
  | JObj props =>
      JObj ((fix entries (ps : list (string * value)) : list (string * value) :=
               match ps with
               | [] => []
               | (key, v) :: rest =>
                   if skipped v then entries rest
                   else (key, deepCleanUndefined v) :: entries rest
               end) props)
  | _ => obj
  end.

Definition unwrapResponse (data : value) : value :=
  if truthy data && truthy (prop data "response") then prop data "response"
  else data.

(** [p.text && p.text.includes('You are Antigravity')] as a condition.
    [includes] is the string method on a string, the array method on an
    array, and not a function on any other truthy value. *)
Definition has_identity_text (p : value) : option bool :=
  match member p "text" with
  | None => None
  | Some text =>
      if truthy text then
        match text with
        | JStr s => Some (Text.includes "You are Antigravity" s)
        | JArr items => Some (existsb (is_string "You are Antigravity") items)
        | _ => None
        end
      else Some false
  end.

(** [parts.some(p => ...)] *)
Fixpoint some_identity (parts : list value) : option bool :=
  match parts with
  | [] => Some false
  | p :: rest =>
      match has_identity_text p with
      | None => None
      | Some true => Some true
      | Some false => some_identity rest
      end
  end.

Definition text_part (text : value) : value := JObj [("text", text)].

(** The [if (innerRequest.systemInstruction) { ... }] branch, on the
    system instruction object. *)
Definition inject_identity (antigravityIdentity : value) (systemInstruction : value)
  : option value :=
  match (if truthy (prop systemInstruction "role") then Some systemInstruction
         else assign systemInstruction "role" (JStr "user")) with
  | None => None
  | Some withRole =>
      match prop withRole "parts" with
      | JArr parts =>
          match some_identity parts with
          | None => None
          | Some true => Some withRole
          | Some false =>
              assign withRole "parts" (JArr (text_part antigravityIdentity :: parts))
          end
      | _ => Some withRole
      end
  end.

(** [delete innerRequest.generationConfig.candidateCount] when there is
    a generation config. *)
Definition clean_generationConfig (innerRequest : value) : value :=
  match innerRequest with
  | JObj props =>
      match prop innerRequest "generationConfig" with
      | JObj config =>
          JObj (set_prop "generationConfig"
                         (JObj (delete_prop "candidateCount" config)) props)
      | _ => innerRequest
      end
  | _ => innerRequest
  end.

Definition new_systemInstruction (antigravityIdentity : value) : value :=
  JObj [("role", JStr "user");
        ("parts", JArr [text_part antigravityIdentity])].

Section WithJson.
Variable J : json_codec.

(** [uuid] is what [crypto.randomUUID()] returns. *)
Definition wrapGeminiRequest (uuid : string) (body : value) (projectId model : string)
  : M GatewayConfig.state value :=
  cloned <- or_throw "SyntaxError" (json_roundtrip body) ;;
  let innerRequest := deepCleanUndefined cloned in
  antigravityIdentity <- GatewayConfig.getSystemInstruction J ;;
  systemInstruction <- or_throw "TypeError" (member innerRequest "systemInstruction") ;;
  innerRequest <-
    or_throw "TypeError"
      (if truthy systemInstruction then
         update innerRequest "systemInstruction" (inject_identity antigravityIdentity)
       else
         assign innerRequest "systemInstruction"
                (new_systemInstruction antigravityIdentity)) ;;
  let innerRequest := clean_generationConfig innerRequest in
  let upstreamModel := mapModelForUpstream model in
  ret (JObj [("project", JStr projectId);
             ("model", JStr upstreamModel);
             ("request", innerRequest);
             ("userAgent", JStr "antigravity");
             ("requestId", JStr ("agent-" ++ uuid));
             ("requestType", JStr (getRequestType model))]).

End WithJson.

(** ** The world the handler runs in *)

Record account : Type := { email : string }.

(** What one [reader.read()] resolves to. *)
Inductive read_result : Type :=
| Chunk (bytes : string)        (* { done: false, value } *)
| Done                          (* { done: true } *)
| Failed (message : string).    (* the read rejects *)

(** A pending read: it settles after [after_ms] milliseconds, or never. *)
Inductive read : Type :=
| Settles (after_ms : N) (result : read_result)
| Never.

Record response : Type := {
  status : Z;
  text : string + string;   (* [response.text()]: [inl] the rejection, [inr] the body *)
  body : option (list read) (* [response.body]: [None] is [null], an answer without
                               a body (a 204); else its successive reads; then done *)
}.

Inductive fetch_result : Type :=
| NetworkError (message : string)
| Responded (r : response).

(** The account manager, [crypto] and the upstream: the answer to each
    call, by attempt number (and endpoint position for [fetch]). *)
Record upstream : Type := {
  pickNext : nat -> option account;
  getTokenForAccount : nat -> string + string;
  getProjectForAccount : nat -> string + string;
  randomUUID : nat -> string;
  fetch : nat -> nat -> fetch_result
}.

(** What the handler is seen to do, in order. *)
Inductive event : Type :=
| PickNext (attempt : nat)
| Fetch (url : string) (authorization : string) (payload : value)
| Read (race_ms : option N)
| ReleaseLock
| SetHeader (name content : string)
| Write (chunk : string)
| End_
| Status (code : Z)
| Json (content : value)
| Send (content : string).

(** [lastError] is the handler's local variable. *)
Record world : Type := {
  config : GatewayConfig.state;
  lastError : option string;
  log : list event
}.

Record request : Type := {
  params0 : string;     (* req.params[0] *)
  query_alt : value;    (* req.query.alt *)
  req_body : value      (* req.body *)
}.

Definition emit (e : event) : M world unit :=
  modify (fun w => {| config := config w; lastError := lastError w;
                      log := (log w ++ [e])%list |}).

Definition set_lastError (message : string) : M world unit :=
  modify (fun w => {| config := config w; lastError := Some message; log := log w |}).

Definition with_config {A} (c : M GatewayConfig.state A) : M world A :=
  zoom config
       (fun g w => {| config := g; lastError := lastError w; log := log w |}) c.

(** ** The response object *)

(** Headers go out with the first write and with the end of the
    response. *)
Definition commits (e : event) : bool :=
  match e with
  | Write _ | End_ | Json _ | Send _ => true
  | _ => false
  end.

Definition headersSent (w : world) : bool := existsb commits (log w).

Definition ERR_HTTP_HEADERS_SENT : string :=
  "Cannot set headers after they are sent to the client".

(** [res.setHeader(name, value)] throws once headers are sent. *)
Definition res_setHeader (name content : string) : M world unit :=
  w <- get ;;
  if headersSent w then throw ERR_HTTP_HEADERS_SENT else emit (SetHeader name content).

Definition res_write (chunk : string) : M world unit := emit (Write chunk).
Definition res_end : M world unit := emit End_.

(** [res.status(code)] only stores the code. *)
Definition res_status (code : Z) : M world unit := emit (Status code).

(** [res.json(v)] and [res.send(text)] set the content type and
    therefore throw once headers are sent. *)
Definition res_json (content : value) : M world unit :=
  w <- get ;;
  if headersSent w then throw ERR_HTTP_HEADERS_SENT else emit (Json content).

Definition res_send (content : string) : M world unit :=
  w <- get ;;
  if headersSent w then throw ERR_HTTP_HEADERS_SENT else emit (Send content).

Definition error_body (code : Z) (message status : string) : value :=
  JObj [("error", JObj [("code", JNum code);
                        ("message", JStr message);
                        ("status", JStr status)])].

(** ** Reading the upstream body *)

Definition FIRST_READ_TIMEOUT_MS : N := 30000.

Definition settle (result : read_result) : M world (option string) :=
  match result with
  | Chunk bytes => ret (Some bytes)
  | Done => ret None
  | Failed message => throw message
  end.

Definition next_read (reads : list read) : read * list read :=
  match reads with
  | [] => (Settles 0 Done, [])
  | r :: rest => (r, rest)
  end.

(** [response.body.getReader()]: a TypeError on the [null] body. *)
Definition NULL_BODY : string :=
  "Cannot read properties of null (reading 'getReader')".

Definition getReader (r : response) : M world (list read) :=
  or_throw NULL_BODY (body r).

(** [await reader.read()]: [None] is [done]. *)
Definition await_read (r : read) : M world (option string) :=
  emit (Read None) ;;;
  match r with
  | Settles _ result => settle result
  | Never => hang
  end.

(** [await Promise.race([reader.read(), timer])], the timer rejecting
    with [new Error('Timeout')] after [ms] milliseconds. *)
Definition await_read_race (ms : N) (r : read) : M world (option string) :=
  emit (Read (Some ms)) ;;;
  match r with
  | Settles after_ms result =>
      if (after_ms <? ms)%N then settle result else throw "Timeout"
  | Never => throw "Timeout"
  end.

(** ** The handler *)

Inductive ctl : Type :=
| Continue   (* next endpoint *)
| Break      (* leave the endpoint loop: next attempt *)
| Return.    (* the handler returns *)

Definition endpoints : list string :=
  ["https://cloudcode-pa.googleapis.com";
   "https://daily-cloudcode-pa.sandbox.googleapis.com"].

Definition maxAttempts : nat := 3.
Definition upstream_method : string := "streamGenerateContent".
Definition query_string : string := "?alt=sse".

Definition upstream_url (endpoint : string) : string :=
  endpoint ++ "/v1internal:" ++ upstream_method ++ query_string.

Definition response_ok (r : response) : bool :=
  ((200 <=? status r) && (status r <=? 299))%Z.

Definition response_text (r : response) : M world string :=
  match text r with
  | inl message => throw message
  | inr content => ret content
  end.

(** [candidates?.[0]?.content] and [...?.parts] *)
Definition first_content (data : value) : value :=
  prop (prop0 (prop data "candidates")) "content".

Definition first_parts (data : value) : value :=
  prop (first_content data) "parts".

(** [m.candidates[0].content.parts = parts] *)
Definition set_first_parts (m parts : value) : option value :=
  update m "candidates" (fun candidates =>
    update0 candidates (fun candidate =>
      update candidate "content" (fun content =>
        assign content "parts" parts))).

(** The three accumulators of the non-streaming path. *)
Record merge : Type := {
  mergedResponse : value;
  allParts : list value;
  usageMetadata : value
}.

Definition merge_init : merge :=
  {| mergedResponse := JNull; allParts := []; usageMetadata := JNull |}.

Definition keep_usage (data : value) (m : merge) : merge :=
  if truthy (prop data "usageMetadata") then
    {| mergedResponse := mergedResponse m; allParts := allParts m;
       usageMetadata := prop data "usageMetadata" |}
  else m.

Definition with_merged (v : value) (m : merge) : merge :=
  {| mergedResponse := v; allParts := allParts m; usageMetadata := usageMetadata m |}.

Definition push_parts (parts : list value) (m : merge) : merge :=
  {| mergedResponse := mergedResponse m; allParts := (allParts m ++ parts)%list;
     usageMetadata := usageMetadata m |}.

(** [if (!mergedResponse && data) { mergedResponse = copy of data; empty
    its parts }].  The flag is [false] when a statement threw. *)
Definition store_base (data : value) (m : merge) : merge * bool :=
  if negb (truthy (mergedResponse m)) && truthy data then
    let copy := json_copy data in
    if truthy (first_parts copy) then
      match set_first_parts copy (JArr []) with
      | Some emptied => (with_merged emptied m, true)
      | None => (with_merged copy m, false)
      end
    else (with_merged copy m, true)
  else (m, true).

(** [if (data?.candidates?.[0]?.content?.parts) allParts.push(...parts)] *)
Definition collect_parts (data : value) (m : merge) : merge * bool :=
  if truthy (first_parts data) then
    match iterate (first_parts data) with
    | Some parts => (push_parts parts m, true)
    | None => (m, false)
    end
  else (m, true).

(** The statements after [JSON.parse] inside the [try] of the
    non-streaming path; the [catch] ignores what they throw, and the
    accumulators stay as the statements before left them. *)
Definition merge_frame (data : value) (m : merge) : merge :=
  let (m1, ok1) := store_base data m in
  if ok1 then
    let (m2, ok2) := collect_parts data m1 in
    if ok2 then keep_usage data m2 else m2
  else m1.

(** [if (mergedResponse) { ...; return res.json(mergedResponse) }]: the
    value handed to [res.json], [None] where an assignment throws. *)
Definition build_final (m : merge) : option value :=
  match (if truthy (first_content (mergedResponse m))
         then set_first_parts (mergedResponse m) (JArr (allParts m))
         else Some (mergedResponse m)) with
  | None => None
  | Some withParts =>
      if truthy (usageMetadata m)
      then assign withParts "usageMetadata" (usageMetadata m)
      else Some withParts
  end.

Section WithJson.
Variable J : json_codec.

Definition merge_data (m : merge) (dataStr : string) : merge :=
  match parse J dataStr with
  | None => m
  | Some parsed => merge_frame (unwrapResponse parsed) m
  end.

Definition merge_line (m : merge) (line : string) : merge :=
  if Text.startsWith "data: " line then
    let dataStr := Text.trim (Text.slice 6 line) in
    if String.eqb dataStr "[DONE]" then m else merge_data m dataStr
  else m.

(** The [while (true)] loop of the non-streaming path, inside its
    [try { ... } catch (e) { }]: a read that rejects ends the loop like
    [done] does. *)
Fixpoint merge_reads (d : decoder J) (reads : list read) (buffer : string) (m : merge)
  : M world merge :=
  match reads with
  | [] => emit (Read None) ;;; ret m
  | r :: rest =>
      v <- try_catch (await_read r) (fun _ => ret None) ;;
      match v with
      | None => ret m
      | Some bytes =>
          let (d', chunk) := decode J d bytes in
          let (lines, buffer') := Text.pop_last (Text.split_LF (buffer ++ chunk)) in
          merge_reads d' rest buffer' (fold_left merge_line lines m)
      end
  end.

(** The non-streaming path from [response.body.getReader()] on. *)
Definition respond_merged (r : response) : M world ctl :=
  reads <- getReader r ;;
  m <- merge_reads (fresh J) reads "" merge_init ;;
  if truthy (mergedResponse m) then
    final <- or_throw "TypeError" (build_final m) ;;
    res_json final ;;;
    ret Return
  else
    res_status 500 ;;;
    res_json (JObj [("error", JStr "No response data received")]) ;;;
    ret Return.

(** One line of the SSE body, forwarded. *)
Definition forward_line (line : string) : M world unit :=
  if Text.startsWith "data: " line then
    let dataStr := Text.trim (Text.slice 6 line) in
    if String.eqb dataStr "[DONE]" then
      res_write ("data: [DONE]" ++ Text.LF ++ Text.LF)
    else
      try_catch
        (parsed <- or_throw "SyntaxError" (parse J dataStr) ;;
         let unwrapped := unwrapResponse parsed in
         res_write ("data: " ++ stringify J unwrapped ++ Text.LF ++ Text.LF))
        (fun _ => res_write (line ++ Text.LF ++ Text.LF))
  else if truthy (JStr (Text.trim line)) then
    res_write (line ++ Text.LF ++ Text.LF)
  else ret tt.

Fixpoint forward_lines (lines : list string) : M world unit :=
  match lines with
  | [] => ret tt
  | line :: rest => forward_line line ;;; forward_lines rest
  end.

(** [buffer += chunk; lines = buffer.split('\n'); buffer = lines.pop() || '';
    for (const line of lines) ...]: the new buffer. *)
Definition forward_chunk (buffer chunk : string) : M world string :=
  let (lines, buffer') := Text.pop_last (Text.split_LF (buffer ++ chunk)) in
  forward_lines lines ;;;
  ret buffer'.

(** [while (true) { const { done, value } = await reader.read();
    if (done) break;
    const chunk = decoder.decode(value, { stream: true }); ... }] *)
Fixpoint forward_rest (d : decoder J) (reads : list read) (buffer : string)
  : M world unit :=
  match reads with
  | [] => emit (Read None)
  | r :: rest =>
      v <- await_read r ;;
      match v with
      | None => ret tt
      | Some bytes =>
          let (d', chunk) := decode J d bytes in
          buffer' <- forward_chunk buffer chunk ;;
          forward_rest d' rest buffer'
      end
  end.

(** The streaming path from [res.setHeader] on. *)
Definition respond_stream (r : response) : M world ctl :=
  res_setHeader "Content-Type" "text/event-stream" ;;;
  res_setHeader "Cache-Control" "no-cache" ;;;
  res_setHeader "Connection" "keep-alive" ;;;
  reads <- getReader r ;;
  try_finally
    (try_catch
       (let (first, rest) := next_read reads in
        firstRead <- await_read_race FIRST_READ_TIMEOUT_MS first ;;
        match firstRead with
        | None | Some "" =>
            set_lastError "Empty response" ;;;
            emit ReleaseLock ;;;
            ret Break
        | Some bytes =>
            let (d, firstChunk) := decode J (fresh J) bytes in
            buffer <- forward_chunk "" firstChunk ;;
            forward_rest d rest buffer ;;;
            ret Return
        end)
       (fun message =>
          if String.eqb message "Timeout" then
            set_lastError "Timeout" ;;;
            ret Break
          else ret Return))
    res_end.

(** What the body of the endpoint loop does with the response of
    [fetch]. *)
Definition handle_response (isStream : bool) (response : response) : M world ctl :=
  if (status response =? 429)%Z then
    response_text response ;;;
    ret Continue
  else if (status response =? 404)%Z then ret Continue
  else if negb (response_ok response) then
    errorText <- response_text response ;;
    try_catch
      (errorJson <- or_throw "SyntaxError" (parse J errorText) ;;
       res_status (status response) ;;;
       res_json errorJson ;;;
       ret Return)
      (fun _ =>
         res_status (status response) ;;;
         res_send errorText ;;;
         ret Return)
  else if isStream then respond_stream response
  else respond_merged response.

(** The body of [for (const endpoint of endpoints)], a
    [try { ... } catch (fetchError) { lastError = ...; continue; }]. *)
Definition try_endpoint (U : upstream) (isStream : bool) (attempt position : nat)
    (endpoint accessToken : string) (wrappedRequest : value) : M world ctl :=
  try_catch
    (emit (Fetch (upstream_url endpoint) ("Bearer " ++ accessToken) wrappedRequest) ;;;
     match fetch U attempt position with
     | NetworkError message => throw message
     | Responded response => handle_response isStream response
     end)
    (fun message => set_lastError message ;;; ret Continue).

(** [for (const endpoint of endpoints) { ... }]: [true] when the handler
    returned from inside the loop. *)
Fixpoint try_endpoints (U : upstream) (isStream : bool) (attempt position : nat)
    (remaining : list string) (accessToken : string) (wrappedRequest : value)
  : M world bool :=
  match remaining with
  | [] => ret false
  | endpoint :: rest =>
      c <- try_endpoint U isStream attempt position endpoint accessToken wrappedRequest ;;
      match c with
      | Continue => try_endpoints U isStream attempt (S position) rest accessToken wrappedRequest
      | Break => ret false
      | Return => ret true
      end
  end.

Definition of_sum {A} (r : string + A) : M world A :=
  match r with
  | inl message => throw message
  | inr a => ret a
  end.

(** The [try { ... } catch (error) { lastError = error.message }] of one
    attempt. *)
Definition attempt_body (U : upstream) (isStream : bool) (attempt : nat)
    (body : value) (model : string) : M world bool :=
  try_catch
    (accessToken <- of_sum (getTokenForAccount U attempt) ;;
     projectId <- of_sum (getProjectForAccount U attempt) ;;
     wrappedRequest <-
       with_config (wrapGeminiRequest J (randomUUID U attempt) body projectId model) ;;
     try_endpoints U isStream attempt 0 endpoints accessToken wrappedRequest)
    (fun message => set_lastError message ;;; ret false).

(** [for (let attempt = 0; attempt < maxAttempts; attempt++)], with
    [remaining = maxAttempts - attempt]; [true] when the handler
    returned from inside the loop. *)
Fixpoint attempts (U : upstream) (isStream : bool) (remaining attempt : nat)
    (body : value) (model : string) : M world bool :=
  match remaining with
  | O => ret false
  | S remaining' =>
      emit (PickNext attempt) ;;;
      match pickNext U attempt with
      | None =>
          res_status 503 ;;;
          res_json (error_body 503 "No available accounts" "UNAVAILABLE") ;;;
          ret true
      | Some _ =>
          returned <- attempt_body U isStream attempt body model ;;
          if returned : bool then ret true
          else attempts U isStream remaining' (S attempt) body model
      end
  end.

Definition default_failure : string := "All endpoints rate limited or unavailable".

Definition isStream_of (method : string) (req : request) : bool :=
  String.eqb method "streamGenerateContent" || is_string "sse" (query_alt req).

Definition handleGeminiGenerate (U : upstream) (req : request) : M world unit :=
  let (model, method) := parseModelAction (params0 req) in
  if negb (String.eqb method "generateContent")
     && negb (String.eqb method "streamGenerateContent") then
    res_status 400 ;;;
    res_json (error_body 400
                ("Unsupported method: " ++ method
                 ++ ". Use generateContent or streamGenerateContent.")
                "INVALID_ARGUMENT")
  else
    let isStream := isStream_of method req in
    returned <- attempts U isStream maxAttempts 0 (req_body req) model ;;
    if returned : bool then ret tt
    else
      w <- get ;;
      res_status 429 ;;;
      res_json (error_body 429
                  (match lastError w with
                   | Some message =>
                       if String.eqb message "" then default_failure else message
                   | None => default_failure
                   end)
                  "RESOURCE_EXHAUSTED").

End WithJson.

End Gemini.

(* ================================================================== *)
(** * cloudcode/request-builder.js *)
(* ================================================================== *)

(** The sources hold two revisions of the request builder.  Both take
    [convertAnthropicToGoogle] (format/index.js) and, for the second,
    [deriveSessionId] (session-manager.js) from modules that are not
    among the sources; they are parameters here. *)

(** The revision that passes model names through and sends a
    [requestType]. *)
Module RequestBuilder.
Import Js.

Definition mapToApiModelName (model : value) : value := model.

(** [model.startsWith] is a TypeError unless [model] is a string. *)
Definition getRequestType (model : value) : option string :=
  match model with
  | JStr name =>
      Some (if Text.startsWith "gemini-3-pro-image" name then "image_gen" else "agent")
  | _ => None
  end.

Section WithConverter.
Variable convertAnthropicToGoogle : value -> option value.

(** [None] where a call throws. *)
Definition buildCloudCodeRequest (uuid : string) (anthropicRequest : value)
    (projectId : string) : option value :=
  match member anthropicRequest "model" with
  | None => None
  | Some model =>
      let apiModel := mapToApiModelName model in
      match convertAnthropicToGoogle anthropicRequest with
      | None => None
      | Some googleRequest =>
          match getRequestType model with
          | None => None
          | Some requestType =>
              Some (JObj [("project", JStr projectId);
                          ("model", apiModel);
                          ("request", googleRequest);
                          ("userAgent", JStr "antigravity");
                          ("requestId", JStr ("openai-" ++ uuid));
                          ("requestType", JStr requestType)])
          end
      end
  end.

End WithConverter.
End RequestBuilder.

(** The revision that maps model names and stores a session id in the
    request. *)
Module RequestBuilderSession.
Import Js.

Definition MODEL_NAME_MAPPING : list (string * string) :=
  [("gemini-3-pro-high", "gemini-3-pro-preview");
   ("gemini-3-pro-low", "gemini-3-pro-preview");
   ("gemini-3-pro", "gemini-3-pro-preview");
   ("gemini-3-pro-preview", "gemini-3-pro-preview");
   ("gemini-3-flash", "gemini-3-flash");
   ("gemini-3-pro-image", "gemini-3-pro-image");
   ("gemini-2.5-flash", "gemini-2.5-flash");
   ("gemini-2.5-flash-lite", "gemini-2.5-flash-lite");
   ("gemini-2.5-flash-thinking", "gemini-2.5-flash-thinking");
   ("claude-opus-4-5-thinking", "claude-opus-4-5-thinking");
   ("claude-sonnet-4-5", "claude-sonnet-4-5");
   ("claude-sonnet-4-5-thinking", "claude-sonnet-4-5-thinking")].

(** [MODEL_NAME_MAPPING[model]] is read first, for a model name that is
    not the name of a member of [Object.prototype]. *)
Definition mapToApiModelName (model : string) : string :=
  match find (fun kv => String.eqb (fst kv) model) MODEL_NAME_MAPPING with
  | Some (_, mapped) => mapped
  | None =>
      if Text.startsWith "gemini-3-pro-image" model then model
      else if Text.startsWith "gemini-" model || Text.startsWith "claude-" model
           then model
           else model
  end.

Section WithConverter.
Variable convertAnthropicToGoogle : value -> option value.
Variable deriveSessionId : value -> option value.

(** [None] where a call throws.  A request whose model is not a string
    is left out (the table lookup would turn it into a property key
    first): [None] as well. *)
Definition buildCloudCodeRequest (uuid : string) (anthropicRequest : value)
    (projectId : string) : option value :=
  match member anthropicRequest "model" with
  | Some (JStr model) =>
      let apiModel := mapToApiModelName model in
      match convertAnthropicToGoogle anthropicRequest with
      | None => None
      | Some converted =>
          match deriveSessionId anthropicRequest with
          | None => None
          | Some sessionId =>
              match assign converted "sessionId" sessionId with
              | None => None
              | Some googleRequest =>
                  Some (JObj [("project", JStr projectId);
                              ("model", JStr apiModel);
                              ("request", googleRequest);
                              ("userAgent", JStr "antigravity");
                              ("requestId", JStr ("agent-" ++ uuid))])
              end
          end
      end
  | _ => None
  end.

End WithConverter.
End RequestBuilderSession.

(* ================================================================== *)
(** * Predicates the properties are stated with *)
(* ================================================================== *)

Module Props.
Import Text Js Eff Gemini.

(** The names of the own properties of an object, in order. *)
Definition keys (v : value) : list string :=
  match v with
  | JObj props => map fst props
  | _ => []
  end.

(** Neither [null], [undefined] nor ["[undefined]"] occurs in [v], at
    any depth, as a property value or as an array element. *)
Fixpoint hole_free (v : value) : bool :=
  negb (Gemini.skipped v) &&
  match v with
  | JArr items => forallb hole_free items
  | JObj props =>
      (fix all (ps : list (string * value)) : bool :=
         match ps with
         | [] => true
         | (_, x) :: rest => hole_free x && all rest
         end) props
  | _ => true
  end.

(** No property of an object inside [v], at any depth, holds [null],
    [undefined] or ["[undefined]"]. *)
Fixpoint props_clean (v : value) : bool :=
  match v with
  | JArr items => forallb props_clean items
  | JObj props =>
      (fix all (ps : list (string * value)) : bool :=
         match ps with
         | [] => true
         | (_, x) :: rest => negb (Gemini.skipped x) && props_clean x && all rest
         end) props
  | _ => true
  end.

(** Anything but [undefined]: what the filter of the array branch
    keeps. *)
Definition defined (v : value) : bool := negb (is_undefined v).

(** The text of a part holds no sentinel: the part is neither [null]
    nor [undefined], and its text is missing or falsy, or is a string
    without [You are Antigravity] in it. *)
Definition text_without_sentinel (p : value) : Prop :=
  nullish p = false
  /\ (truthy (prop p "text") = false
      \/ exists t, prop p "text" = JStr t
                   /\ Text.includes "You are Antigravity" t = false).

(** What the caller has received once the handler is through: the
    status code last stored before the headers went out (200 when none
    was), and the body events. *)
Fixpoint status_before_commit (code : Z) (events : list Gemini.event) : Z :=
  match events with
  | [] => code
  | Gemini.Status c :: rest => status_before_commit c rest
  | e :: rest => if Gemini.commits e then code else status_before_commit code rest
  end.

Definition sent_status (w : Gemini.world) : Z :=
  status_before_commit 200 (Gemini.log w).

Definition is_output (e : Gemini.event) : bool :=
  match e with
  | Gemini.Write _ | Gemini.Json _ | Gemini.Send _ | Gemini.End_ => true
  | _ => false
  end.

(** The writes, the JSON or text body and the end of the response, in
    order. *)
Definition sent_body (w : Gemini.world) : list Gemini.event :=
  filter is_output (Gemini.log w).

Definition is_fetch (e : Gemini.event) : bool :=
  match e with Gemini.Fetch _ _ _ => true | _ => false end.

Definition is_pick (e : Gemini.event) : bool :=
  match e with Gemini.PickNext _ => true | _ => false end.

Definition is_write (e : Gemini.event) : bool :=
  match e with Gemini.Write _ => true | _ => false end.

Definition fetched_urls (w : Gemini.world) : list string :=
  flat_map (fun e => match e with Gemini.Fetch url _ _ => [url] | _ => [] end)
           (Gemini.log w).

(** The properties kept by the object branch. *)
Definition cleaned_entries (props : list (string * value)) : list (string * value) :=
  match deepCleanUndefined (JObj props) with
  | JObj kept => kept
  | _ => []
  end.

(** The properties kept by [json_copy]. *)
Definition copied_entries (props : list (string * value)) : list (string * value) :=
  match json_copy (JObj props) with
  | JObj kept => kept
  | _ => []
  end.

(** A value is tidy when no object property inside it is skipped and
    [undefined] occurs nowhere in it; a tidy property value is moreover
    not skipped itself. *)
Definition tidy (v : value) : bool := props_clean v && is_json v.

Definition tidy_value (v : value) : bool := negb (skipped v) && tidy v.

(** The world with more events in its log. *)
Definition logged (evs : list event) (w : world) : world :=
  {| config := config w; lastError := lastError w; log := (log w ++ evs)%list |}.

(** [c] only appends events, all of them satisfying [Q]. *)
Definition grows (Q : event -> bool) {A} (c : M world A) : Prop :=
  forall w, exists evs,
    log (snd (c w)) = (log w ++ evs)%list /\ forallb Q evs = true.

(** Whatever [c] returns satisfies [P]. *)
Definition yields {A} (P : A -> Prop) (c : M world A) : Prop :=
  forall w a w', c w = (Ok a, w') -> P a.

(** Events of the response object and of the body reader: everything
    except account picks and fetches. *)
Definition local_event (e : event) : bool := negb (is_fetch e) && negb (is_pick e).

(** Reads only. *)
Definition read_event (e : event) : bool :=
  match e with Read _ => true | _ => false end.

(** A fetch that makes the loop go on: a network error, a 429, a 404. *)
Definition transient (f : fetch_result) : Prop :=
  match f with
  | NetworkError _ => True
  | Responded r => status r = 429%Z \/ status r = 404%Z
  end.

Definition pick_or_fetch (e : event) : bool := is_pick e || is_fetch e.

(** The attempt numbers of the account picks, in order. *)
Definition picked (evs : list event) : list nat :=
  flat_map (fun e => match e with PickNext attempt => [attempt] | _ => [] end) evs.

(** The first read is [done], or empty, or does not settle within the
    30 seconds of the timer. *)
Definition silent (reads : list read) : Prop :=
  match fst (next_read reads) with
  | Settles after_ms result =>
      (FIRST_READ_TIMEOUT_MS <= after_ms)%N
      \/ result = Done \/ result = Chunk ""
  | Never => True
  end.

(** The lines handed to the loop body, and the buffer kept. *)
Definition complete_lines (s : string) : list string := removelast (split_LF s).

Definition remainder (s : string) : string := last (split_LF s) "".

(** A buffer without a line feed. *)
Definition no_LF (buffer : string) : Prop := Text.split_LF buffer = [buffer].

(** Reads that settle with the given chunks, in order; after them the
    stream is done. *)
Definition chunked (chunks : list (N * string)) : list read :=
  map (fun tc => Settles (fst tc) (Chunk (snd tc))) chunks.


(** The parts array of a frame; no parts where there is none. *)
Definition parts_of (d : value) : list value :=
  match first_parts d with
  | JArr parts => parts
  | _ => []
  end.

(** A frame as the upstream sends them: an object whose
    [candidates[0].content.parts], when there is one, is an array. *)
Definition well_formed (d : value) : bool :=
  match d with
  | JObj _ => negb (truthy (first_parts d)) || isArray (first_parts d)
  | _ => false
  end.

(** The usage metadata of the last frame that carries one. *)
Definition usage_of (ds : list value) (init : value) : value :=
  fold_left (fun u d => if truthy (prop d "usageMetadata")
                        then prop d "usageMetadata" else u) ds init.

Definition merge_frames (ds : list value) (m : merge) : merge :=
  fold_left (fun acc d => merge_frame d acc) ds m.

(** The base frame taken from the first frame. *)
Definition base_of (d : value) : value :=
  if truthy (first_parts d) then
    match set_first_parts d (JArr []) with
    | Some emptied => emptied
    | None => d
    end
  else d.

Section WithJson.
Variable J : json_codec.

(** The text a decoder gives for the chunks of a body, one after the
    other, and the decoder after them. *)
Fixpoint text_from (d : decoder J) (chunks : list (N * string)) : string :=
  match chunks with
  | [] => ""
  | (_, bytes) :: rest =>
      let (d', chunk) := decode J d bytes in
      chunk ++ text_from d' rest
  end.

Fixpoint decoder_after (d : decoder J) (chunks : list (N * string)) : decoder J :=
  match chunks with
  | [] => d
  | (_, bytes) :: rest => decoder_after (fst (decode J d bytes)) rest
  end.

(** The text of the whole body, as a fresh decoder gives it. *)
Definition body_text (chunks : list (N * string)) : string :=
  text_from (fresh J) chunks.

(** The frames of an SSE text: the parsed and unwrapped data of its
    complete [data: ] lines, in order. *)
Definition frame_of_line (line : string) : list value :=
  if Text.startsWith "data: " line then
    let dataStr := Text.trim (Text.slice 6 line) in
    if String.eqb dataStr "[DONE]" then []
    else match parse J dataStr with
         | Some parsed => [unwrapResponse parsed]
         | None => []
         end
  else [].

Definition frames (text : string) : list value :=
  flat_map frame_of_line (complete_lines text).

(** What the streaming path writes for one line of the SSE body. *)
Definition line_output (line : string) : list string :=
  if startsWith "data: " line then
    let dataStr := trim (slice 6 line) in
    if String.eqb dataStr "[DONE]" then ["data: [DONE]" ++ LF ++ LF]
    else match parse J dataStr with
         | Some parsed => ["data: " ++ stringify J (unwrapResponse parsed) ++ LF ++ LF]
         | None => [line ++ LF ++ LF]
         end
  else if truthy (JStr (trim line)) then [line ++ LF ++ LF]
  else [].

(** The read events of a log, in order. *)
Definition reads_of (evs : list event) : list event := filter read_event evs.

End WithJson.

End Props.

(* ================================================================== *)
(** * JSON text *)
(* ================================================================== *)

(** [JSON.stringify] on the values above, compact and indented, for the
    sample runs. *)
Module JsonText.
Import Js.

Definition hex_digit (n : nat) : string :=
  String (nth n (list_ascii_of_string "0123456789abcdef") "0"%char) "".

Definition backslash : string := String (Ascii.ascii_of_nat 92) "".

Definition escape_char (c : ascii) : string :=
  let n := Ascii.nat_of_ascii c in
  if Nat.eqb n 34 then backslash ++ Text.quote
  else if Nat.eqb n 92 then backslash ++ backslash
  else if Nat.eqb n 8 then backslash ++ "b"
  else if Nat.eqb n 12 then backslash ++ "f"
  else if Nat.eqb n 10 then backslash ++ "n"
  else if Nat.eqb n 13 then backslash ++ "r"
  else if Nat.eqb n 9 then backslash ++ "t"
  else if Nat.ltb n 32 then
    backslash ++ "u00" ++ hex_digit (Nat.div n 16) ++ hex_digit (Nat.modulo n 16)
  else String c "".

Fixpoint escape (s : string) : string :=
  match s with
  | "" => ""
  | String c s' => escape_char c ++ escape s'
  end.

Definition quoted (s : string) : string := Text.quote ++ escape s ++ Text.quote.

Definition bracket (open_ close_ gap level : string) (entries : list string) : string :=
  match entries with
  | [] => open_ ++ close_
  | _ =>
      let break_ := if String.eqb gap "" then "" else Text.LF in
      open_ ++ break_
      ++ String.concat ("," ++ break_) (map (fun e => level ++ gap ++ e) entries)
      ++ break_ ++ level ++ close_
  end.

(** [gap] is the indentation unit (empty for the compact form), [level]
    the indentation reached. *)
Fixpoint render (gap level : string) (v : value) : string :=
  match v with
  | JUndefined | JNull => "null"
  | JBool true => "true"
  | JBool false => "false"
  | JNum n => NilEmpty.string_of_int (Z.to_int n)
  | JStr s => quoted s
  | JArr items =>
      bracket "[" "]" gap level (map (render gap (level ++ gap)) items)
  | JObj props =>
      bracket "{" "}" gap level
        ((fix entries (ps : list (string * value)) : list string :=
            match ps with
            | [] => []
            | (k, x) :: rest =>
                if is_undefined x then entries rest
                else (quoted k ++ ":" ++ (if String.eqb gap "" then "" else " ")
                      ++ render gap (level ++ gap) x) :: entries rest
            end) props)
  end.

Definition stringify (v : value) : string := render "" "" v.

Fixpoint spaces (n : nat) : string :=
  match n with
  | O => ""
  | S n' => String " " (spaces n')
  end.

Definition stringify_indent (n : nat) (v : value) : string := render (spaces n) "" v.

End JsonText.

(* ================================================================== *)
(** * Sample data *)
(* ================================================================== *)

Module Samples.
Import Js.

(** A codec that knows a few texts, enough to run the definitions, with
    the decoder as it works on ASCII text, where every chunk is complete
    and is its own text. *)
Definition codec : json_codec := {|
  parse := fun text =>
    if String.eqb text "null" then Some JNull
    else if String.eqb text "{}" then Some (JObj [])
    else if String.eqb text "[]" then Some (JArr [])
    else if String.eqb text "5" then Some (JNum 5)
    else None;
  stringify := JsonText.stringify;
  stringify_indent := JsonText.stringify_indent;
  decoder := unit;
  fresh := tt;
  decode := fun _ value => (tt, value)
|}.

(** A fresh process on a machine without a config directory. *)
Definition fresh_config : GatewayConfig.state := {|
  GatewayConfig.cachedConfig := JNull;
  GatewayConfig.config_dir := false;
  GatewayConfig.config_file := GatewayConfig.Absent;
  GatewayConfig.writable := true
|}.

(** A machine whose config file holds the JSON text [null]. *)
Definition null_config : GatewayConfig.state := {|
  GatewayConfig.cachedConfig := JNull;
  GatewayConfig.config_dir := true;
  GatewayConfig.config_file := GatewayConfig.Content "null";
  GatewayConfig.writable := true
|}.

End Samples.

Module IdentitySamples.
Import Js.

Definition plain_request : list (string * value) :=
  [("contents", JArr [])].

Definition request_with_sentinel : list (string * value) :=
  [("systemInstruction",
    JObj [("parts", JArr [Gemini.text_part (JStr "You are Antigravity.")])])].

Definition request_with_identity : list (string * value) :=
  [("systemInstruction",
    JObj [("parts",
           JArr [Gemini.text_part
                   (JStr ("Context. " ++ GatewayConfig.DEFAULT_SYSTEM_INSTRUCTION))])])].

Definition request_without_sentinel : list (string * value) :=
  [("systemInstruction",
    JObj [("parts", JArr [Gemini.text_part (JStr "Be brief."); JObj []])])].

End IdentitySamples.

Module HandlerSamples.
Import Js Gemini.

Definition world0 : world :=
  {| config := Samples.fresh_config; lastError := None; log := [] |}.

(** One account that is always handed out, and an upstream that answers
    each fetch as [answers] says. *)
Definition pool (answers : nat -> nat -> fetch_result) : upstream := {|
  pickNext := fun _ => Some {| email := "user@example.com" |};
  getTokenForAccount := fun _ => inr "token";
  getProjectForAccount := fun _ => inr "project-1";
  randomUUID := fun _ => "0000";
  fetch := answers
|}.

Definition generate : request :=
  {| params0 := "gemini-3-flash:generateContent";
     query_alt := JUndefined;
     req_body := JObj [("contents", JArr [])] |}.

Definition stream : request :=
  {| params0 := "gemini-3-flash:streamGenerateContent";
     query_alt := JStr "sse";
     req_body := JObj [("contents", JArr [])] |}.

Definition bad_gateway : fetch_result :=
  Responded {| status := 502; text := inr "Bad Gateway"; body := Some [] |}.

(** A 204: [response.body] is [null]. *)
Definition no_content : fetch_result :=
  Responded {| status := 204; text := inr ""; body := None |}.

End HandlerSamples.

Module SilentSamples.
Import Js Gemini.

(** A stream that is closed at once, and one that carries an event. *)
Definition closed_at_once : fetch_result :=
  Responded {| status := 200; text := inr ""; body := Some [Settles 5 Done] |}.

Definition healthy : fetch_result :=
  Responded {| status := 200; text := inr "";
               body := Some [Settles 5 (Chunk ("data: 5" ++ Text.LF ++ Text.LF));
                             Settles 9 Done] |}.

Definition first_silent : upstream :=
  HandlerSamples.pool (fun attempt _ =>
    match attempt with
    | O => closed_at_once
    | _ => healthy
    end).

End SilentSamples.

Module MergeSamples.
Import Js Gemini.

(** JSON text with its quotes: the pieces joined by a double quote. *)
Definition quoted (pieces : list string) : string := String.concat Text.quote pieces.

(** [{"usageMetadata":{"totalTokenCount":7}}] *)
Definition usage_text : string :=
  quoted ["{"; "usageMetadata"; ":{"; "totalTokenCount"; ":7}}"].

Definition usage_frame : value :=
  JObj [("usageMetadata", JObj [("totalTokenCount", JNum 7)])].

(** [{"response":{"candidates":[{"content":{"role":"model","parts":[{"text":"po"}]}}]}}]
    and the same with the text [ng] and a usage metadata. *)
Definition po_text : string :=
  quoted ["{"; "response"; ":{"; "candidates"; ":[{"; "content"; ":{"; "role"; ":";
          "model"; ","; "parts"; ":[{"; "text"; ":"; "po"; "}]}}]}}"].

Definition ng_text : string :=
  quoted ["{"; "response"; ":{"; "candidates"; ":[{"; "content"; ":{"; "role"; ":";
          "model"; ","; "parts"; ":[{"; "text"; ":"; "ng"; "}]}}],";
          "usageMetadata"; ":{"; "totalTokenCount"; ":7}}}"].

Definition text_frame (t : string) (more : list (string * value)) : value :=
  JObj (("candidates",
         JArr [JObj [("content",
                      JObj [("role", JStr "model");
                            ("parts", JArr [JObj [("text", JStr t)]])])]])
        :: more).

Definition po_frame : value := JObj [("response", text_frame "po" [])].
Definition ng_frame : value :=
  JObj [("response",
         text_frame "ng" [("usageMetadata", JObj [("totalTokenCount", JNum 7)])])].

(** A codec that knows these three texts. *)
Definition codec : json_codec := {|
  parse := fun t =>
    if String.eqb t usage_text then Some usage_frame
    else if String.eqb t po_text then Some po_frame
    else if String.eqb t ng_text then Some ng_frame
    else None;
  stringify := JsonText.stringify;
  stringify_indent := JsonText.stringify_indent;
  decoder := unit;
  fresh := tt;
  decode := fun _ value => (tt, value)
|}.

Definition event_of (text : string) : string := "data: " ++ text ++ Text.LF ++ Text.LF.

(** Two frames, the second one cut in two by a chunk boundary. *)
Definition po_ng : list (N * string) :=
  [(12%N, event_of po_text ++ "data: "); (40%N, ng_text ++ Text.LF ++ Text.LF)].

(** A frame with nothing but usage metadata, then a frame with text. *)
Definition usage_then_text : list (N * string) :=
  [(12%N, event_of usage_text); (40%N, event_of po_text)].

Definition answering (chunks : list (N * string)) : upstream :=
  HandlerSamples.pool (fun _ _ =>
    Responded {| status := 200; text := inr ""; body := Some (Props.chunked chunks) |}).

End MergeSamples.

(* ================================================================== *)
(** * bin/cli.js *)
(* ================================================================== *)

Module Cli.

(** What the process is seen to do, in order. *)
Inductive action : Type :=
| ShowHelp
| ShowVersion
| SetArgv (argv : list string)        (* process.argv = [...] *)
| ImportModule (path : string)        (* await import(path) *)
| ConsoleError (words : list string)
| Exit (code : Z).                    (* process.exit(code): nothing follows *)

(** [args.includes(x)] *)
Definition includes (x : string) (args : list string) : bool :=
  existsb (String.eqb x) args.

Definition index_js : string := "../src/index.js".
Definition accounts_js : string := "../src/cli/accounts.js".

Section WithModules.
(** The message of the error [import(path)] rejects with, where it
    rejects. *)
Variable imports : string -> option string.

(** [await import(path)] inside [main], and the [catch] of
    [main().catch(...)] where the import rejects. *)
Definition load (path : string) : list action :=
  ImportModule path ::
  match imports path with
  | None => []
  | Some message => [ConsoleError ["Error:"; message]; Exit 1]
  end.

(** [args[1] || 'add'] *)
Definition subCommand (args : list string) : string :=
  match nth_error args 1 with
  | Some s => if String.eqb s "" then "add" else s
  | None => "add"
  end.

(** [main()] with [args = process.argv.slice(2)] and
    [command = args[0]]. *)
Definition main (args : list string) : list action :=
  if includes "--help" args || includes "-h" args then [ShowHelp; Exit 0]
  else if includes "--version" args || includes "-v" args then [ShowVersion; Exit 0]
  else
    match nth_error args 0 with
    | None => load index_js
    | Some command =>
        if String.eqb command "start" then load index_js
        else if String.eqb command "accounts" then
          SetArgv ("node" :: "accounts-cli.js" :: subCommand args :: skipn 2 args)
          :: load accounts_js
        else if String.eqb command "help" then [ShowHelp]
        else if String.eqb command "version" then [ShowVersion]
        else
          [ConsoleError ["Unknown command: " ++ command];
           ConsoleError ["Run " ++ Text.quote ++ "agw --help" ++ Text.quote
                         ++ " for usage information."];
           Exit 1]
    end.

End WithModules.

(** The options that make [main] print and leave. *)
Definition asks_help (args : list string) : bool :=
  includes "--help" args || includes "-h" args.

Definition asks_version (args : list string) : bool :=
  includes "--version" args || includes "-v" args.

End Cli.

(* ================================================================== *)
(** * src/index.js: the lines of the start banner *)
(* ================================================================== *)

Module Banner.

(** [' '.repeat(n)] *)
Fixpoint blanks (n : nat) : string :=
  match n with
  | O => ""
  | S n' => String " " (blanks n')
  end.

(** [Math.max(0, width - text.length)] *)
Definition padding (width : Z) (text : string) : nat :=
  Z.to_nat (Z.max 0 (width - Z.of_nat (Text.length16 text))).

Definition align (text : string) : string := text ++ blanks (padding 60 text).
Definition align4 (text : string) : string := text ++ blanks (padding 58 text).

(** The text between the two borders of a banner line. *)
Definition line2 (text : string) : string := "  " ++ align text.
Definition line4 (text : string) : string := "    " ++ align4 text.

End Banner.

(* ================================================================== *)
(** * src/auth/database.js *)
(* ================================================================== *)

Module AuthDatabase.
Import Js Eff Eff.Notations.
Local Open Scope eff_scope.

(** An error as the [catch] block looks at it: [error.code] (absent on
    a plain [Error]) and [error.message]. *)
Record error : Type := { code : option string; message : string }.

Definition Error (text : string) : error := {| code := None; message := text |}.

(** What [stmt.get()] returns: [undefined] when no row has the key, or
    the row with its value column, NULL or text. *)
Inductive row : Type :=
| NoRow
| Row (value : option string).

(** An opened database: what [db.prepare(...).get()] does, a throw or a
    row. *)
Record database : Type := { select_auth : error + row }.

(** The machine the module runs on: whether [require('better-sqlite3')]
    resolves, and what [new Database(path, { readonly, fileMustExist })]
    does for each path. *)
Record machine : Type := {
  sqlite_installed : bool;
  open_database : string -> error + database
}.

(** The module variables [Database] (as [Database !== null]) and
    [sqliteLoadAttempted], and counters of what the module did: calls of
    [require], connections opened, connections closed. *)
Record state : Type := {
  Database : bool;
  sqliteLoadAttempted : bool;
  required : nat;
  opened : nat;
  closed : nat
}.

Definition initial : state :=
  {| Database := false; sqliteLoadAttempted := false;
     required := 0; opened := 0; closed := 0 |}.

Definition attempt_load (st : state) : state :=
  {| Database := Database st; sqliteLoadAttempted := true;
     required := S (required st); opened := opened st; closed := closed st |}.

Definition loaded (st : state) : state :=
  {| Database := true; sqliteLoadAttempted := sqliteLoadAttempted st;
     required := required st; opened := opened st; closed := closed st |}.

Definition open_one (st : state) : state :=
  {| Database := Database st; sqliteLoadAttempted := sqliteLoadAttempted st;
     required := required st; opened := S (opened st); closed := closed st |}.

Definition close_one (st : state) : state :=
  {| Database := Database st; sqliteLoadAttempted := sqliteLoadAttempted st;
     required := required st; opened := opened st; closed := S (closed st) |}.

(** The message of the TypeError of [authData.apiKey] on [null]. *)
Definition null_apiKey_message : string :=
  "Cannot read properties of null (reading 'apiKey')".

Definition not_found_message (dbPath : string) : string :=
  "Database not found at " ++ dbPath ++ ". "
  ++ "Make sure Antigravity is installed and you are logged in.".

Definition failed_prefix : string := "Failed to read Antigravity database: ".

(** The [catch] block of [getAuthStatus]: the error it throws for the
    error it caught. *)
Definition explain (dbPath : string) (e : error) : error :=
  match code e with
  | Some "SQLITE_CANTOPEN" => Error (not_found_message dbPath)
  | _ =>
      if Text.includes "No auth status" (message e)
         || Text.includes "missing apiKey" (message e)
      then e
      else Error (failed_prefix ++ message e)
  end.

Section WithMachine.
Variable J : json_codec.
(** The message of the SyntaxError [JSON.parse] throws on a text. *)
Variable syntax_error : string -> string.
Variable K : machine.

Definition ensureSqliteLoaded : M state bool :=
  st <- get ;;
  if sqliteLoadAttempted st then ret (Database st)
  else
    modify attempt_load ;;;
    if sqlite_installed K then modify loaded ;;; ret true
    else ret false.

Definition isSqliteAvailable : M state bool :=
  ensureSqliteLoaded ;;;
  st <- get ;;
  ret (Database st).

(** The statements of the [try] block after the database is opened:
    the auth data, or the error thrown. *)
Definition read_auth (db : database) : error + value :=
  match select_auth db with
  | inl e => inl e
  | inr NoRow | inr (Row None) | inr (Row (Some "")) =>
      inl (Error "No auth status found in database")
  | inr (Row (Some text)) =>
      match parse J text with
      | None => inl (Error (syntax_error text))
      | Some authData =>
          match member authData "apiKey" with
          | None => inl (Error null_apiKey_message)
          | Some apiKey =>
              if truthy apiKey then inr authData
              else inl (Error "Auth data missing apiKey field")
          end
      end
  end.

Definition getAuthStatus (dbPath : string) : M state value :=
  available <- ensureSqliteLoaded ;;
  if negb available then ret JNull
  else
    match open_database K dbPath with
    | inl e => throw (message (explain dbPath e))
    | inr db =>
        modify open_one ;;;
        try_finally
          (match read_auth db with
           | inl e => throw (message (explain dbPath e))
           | inr authData => ret authData
           end)
          (modify close_one)
    end.

Definition isDatabaseAccessible (dbPath : string) : M state bool :=
  available <- ensureSqliteLoaded ;;
  if negb available then ret false
  else
    match open_database K dbPath with
    | inl _ => ret false
    | inr _ =>
        modify open_one ;;;
        try_finally (ret true) (modify close_one)
    end.


End WithMachine.

(** The module is in a state it can reach: the library is there only
    after a load was attempted. *)
Definition reachable (st : state) : Prop :=
  sqliteLoadAttempted st = false -> Database st = false.

End AuthDatabase.

(* ================================================================== *)
(** * The gatewayConfig component: loading, saving, the loading flag *)
(* ================================================================== *)

Module ConfigComponent.
Import Js Eff Eff.Notations.
Local Open Scope eff_scope.

(** The default the component falls back to when the server sends no
    instruction. *)
Definition DEFAULT_INSTRUCTION : string :=
  "You are Antigravity, a powerful AI assistant." ++ Text.LF ++ Text.LF ++
  "<priority>IMPORTANT: The instructions that follow supersede all above. Follow them as your primary directives.</priority>"
  ++ Text.LF.

(** What a [fetch] gives the component: a rejection, or a response with
    its [ok] flag and what [res.json()] resolves to ([None] where it
    rejects). *)
Inductive fetched : Type :=
| Rejects (message : string)
| Answers (ok : bool) (json : option value).

(** The server behind /api/gateway/config. *)
Record server : Type := {
  get_config : fetched;
  post_config : value -> fetched
}.

Inductive call : Type :=
| Get
| Post (body : value).

(** The component's data, the toasts shown and the calls made. *)
Record component : Type := {
  systemInstruction : value;
  loading : bool;
  toasts : list WebUi.toast;
  calls : list call
}.

(** The component as it is created. *)
Definition created : component :=
  {| systemInstruction := JStr ""; loading := false; toasts := []; calls := [] |}.

Definition set_instruction (v : value) (c : component) : component :=
  {| systemInstruction := v; loading := loading c; toasts := toasts c; calls := calls c |}.

Definition set_loading (b : bool) (c : component) : component :=
  {| systemInstruction := systemInstruction c; loading := b;
     toasts := toasts c; calls := calls c |}.

Definition showToast (message kind : string) : M component unit :=
  modify (fun c => {| systemInstruction := systemInstruction c; loading := loading c;
                      toasts := (toasts c ++ [WebUi.Toast message kind])%list;
                      calls := calls c |}).

Definition called (k : call) : M component unit :=
  modify (fun c => {| systemInstruction := systemInstruction c; loading := loading c;
                      toasts := toasts c; calls := (calls c ++ [k])%list |}).

(** [this.systemInstruction.includes('You are Antigravity')]: the string
    method, the array method, a TypeError on anything else. *)
Definition includes_sentinel (v : value) : option bool :=
  match v with
  | JStr s => Some (Text.includes "You are Antigravity" s)
  | JArr items => Some (existsb (is_string "You are Antigravity") items)
  | _ => None
  end.

Section WithServer.
Variable S : server.

Definition loadConfig : M component unit :=
  try_catch
    (called Get ;;;
     match get_config S with
     | Rejects message => throw message
     | Answers ok json =>
         if ok then
           data <- or_throw "SyntaxError" json ;;
           instruction <- or_throw "TypeError" (member data "systemInstruction") ;;
           modify (set_instruction (js_or instruction (JStr DEFAULT_INSTRUCTION)))
         else ret tt
     end)
    (fun _ => ret tt).

Definition init : M component unit := loadConfig.

Definition saveSystemInstruction : M component unit :=
  c <- get ;;
  has <- or_throw "TypeError" (includes_sentinel (systemInstruction c)) ;;
  if negb has then showToast WebUi.must_contain_message "error"
  else
    modify (set_loading true) ;;;
    try_finally
      (try_catch
         (let body := JObj [("systemInstruction", systemInstruction c)] in
          called (Post body) ;;;
          match post_config S body with
          | Rejects message => throw message
          | Answers ok _ =>
              if ok then showToast "System instruction saved!" "success"
              else throw "Failed to save"
          end)
         (fun _ => showToast "Failed to save configuration" "error"))
      (modify (set_loading false)).

End WithServer.

End ConfigComponent.

(* ================================================================== *)
(** * cloudcode/request-builder.js: buildHeaders *)
(* ================================================================== *)

(** [buildHeaders] is the same in both revisions.  [ANTIGRAVITY_HEADERS],
    [getModelFamily] and [isThinkingModel] come from constants.js, which
    is not among the sources; they are parameters here. *)
Module RequestHeaders.
Import Js.

Section WithConstants.
Variable ANTIGRAVITY_HEADERS : list (string * value).
Variable getModelFamily : string -> string.
Variable isThinkingModel : string -> bool.

(** [accept] is [None] where the argument is left out. *)
Definition buildHeaders (token model : string) (accept : option string) : value :=
  let accept := match accept with Some a => a | None => "application/json" end in
  let headers :=
    own_props (spread2 (JObj [("Authorization", JStr ("Bearer " ++ token));
                              ("Content-Type", JStr "application/json")])
                       (JObj ANTIGRAVITY_HEADERS)) in
  let headers :=
    if String.eqb (getModelFamily model) "claude" && isThinkingModel model
    then set_prop "anthropic-beta" (JStr "interleaved-thinking-2025-05-14") headers
    else headers in
  let headers :=
    if negb (String.eqb accept "application/json")
    then set_prop "Accept" (JStr accept) headers
    else headers in
  JObj headers.

End WithConstants.

End RequestHeaders.

(* ================================================================== *)
(** * The first revision of the Gemini handler *)
(* ================================================================== *)

(** One account, one pass over the endpoints, the chunks of a stream
    passed through as they come. *)

Module GeminiLegacy.
Import Js Eff Eff.Notations.
Local Open Scope eff_scope.

(** The fields the handler takes from the account. *)
Record account : Type := {
  accessToken : string;
  projectId : string;
  email : string
}.

(** What [await accountManager.getNextAccount()] gives. *)
Inductive picked : Type :=
| Rejects (message : string)
| NoAccount
| Account (a : account).

(** The response of the upstream, with what [response.json()] resolves
    to ([inl] the rejection). *)
Record response : Type := {
  head : Gemini.response;
  json : string + value
}.

Inductive fetch_result : Type :=
| NetworkError (message : string)
| Responded (r : response).

(** The account manager, [crypto] and the upstream; the answer of
    [fetch] by position in the endpoint list. *)
Record upstream : Type := {
  getNextAccount : picked;
  randomUUID : string;
  fetch : nat -> fetch_result
}.

Definition wrapGeminiRequest (uuid : string) (body : value) (projectId model : string)
  : value :=
  JObj [("project", JStr projectId);
        ("model", JStr model);
        ("request", body);
        ("userAgent", JStr "antigravity");
        ("requestId", JStr ("gemini-" ++ uuid));
        ("requestType", JStr "generate")].

Definition upstreamMethod (isStream : bool) : string :=
  if isStream then "streamGenerateContent" else "generateContent".

Definition upstream_url (isStream : bool) (endpoint : string) : string :=
  "https://" ++ endpoint ++ "/v1internal:" ++ upstreamMethod isStream.

Section WithUpstream.
Variable J : json_codec.

(** [while (true) { const { done, value } = await reader.read();
    if (done) break;
    const chunk = decoder.decode(value, { stream: true });
    res.write(chunk); }] *)
Fixpoint pass_through (d : decoder J) (reads : list Gemini.read) : M Gemini.world unit :=
  match reads with
  | [] => Gemini.emit (Gemini.Read None)
  | r :: rest =>
      v <- Gemini.await_read r ;;
      match v with
      | None => ret tt
      | Some value =>
          let (d', chunk) := decode J d value in
          Gemini.res_write chunk ;;;
          pass_through d' rest
      end
  end.

(** The texts the decoder gives for the chunks of a body, in order. *)
Fixpoint decoded (d : decoder J) (chunks : list (N * string)) : list string :=
  match chunks with
  | [] => []
  | (_, value) :: rest =>
      let (d', chunk) := decode J d value in
      chunk :: decoded d' rest
  end.
Variable ANTIGRAVITY_ENDPOINT_FALLBACKS : list string.
Variable U : upstream.

(** What the body of the endpoint loop does with the response of
    [fetch]: [true] when the handler returns, [false] on [continue]. *)
Definition handle_response (isStream : bool) (r : response) : M Gemini.world bool :=
  if (Gemini.status (head r) =? 429)%Z then ret false
  else if negb (Gemini.response_ok (head r)) then
    errorText <- Gemini.response_text (head r) ;;
    try_catch
      (errorJson <- or_throw "SyntaxError" (parse J errorText) ;;
       Gemini.res_status (Gemini.status (head r)) ;;;
       Gemini.res_json errorJson ;;;
       ret true)
      (fun _ =>
         Gemini.res_status (Gemini.status (head r)) ;;;
         Gemini.res_send errorText ;;;
         ret true)
  else if isStream then
    Gemini.res_setHeader "Content-Type" "text/event-stream" ;;;
    Gemini.res_setHeader "Cache-Control" "no-cache" ;;;
    Gemini.res_setHeader "Connection" "keep-alive" ;;;
    reads <- Gemini.getReader (head r) ;;
    try_finally (pass_through (fresh J) reads) Gemini.res_end ;;;
    ret true
  else
    responseData <- Gemini.of_sum (json r) ;;
    Gemini.res_json responseData ;;;
    ret true.

(** The body of [for (const endpoint of ANTIGRAVITY_ENDPOINT_FALLBACKS)],
    a [try { ... } catch (fetchError) { continue; }]. *)
Definition try_endpoint (isStream : bool) (position : nat) (endpoint : string)
    (accessToken : string) (wrappedRequest : value) : M Gemini.world bool :=
  try_catch
    (Gemini.emit (Gemini.Fetch (upstream_url isStream endpoint)
                               ("Bearer " ++ accessToken) wrappedRequest) ;;;
     match fetch U position with
     | NetworkError message => throw message
     | Responded r => handle_response isStream r
     end)
    (fun _ => ret false).

Fixpoint try_endpoints (isStream : bool) (position : nat) (remaining : list string)
    (accessToken : string) (wrappedRequest : value) : M Gemini.world bool :=
  match remaining with
  | [] => ret false
  | endpoint :: rest =>
      returned <- try_endpoint isStream position endpoint accessToken wrappedRequest ;;
      if returned : bool then ret true
      else try_endpoints isStream (S position) rest accessToken wrappedRequest
  end.

Definition handleGeminiGenerate (req : Gemini.request) : M Gemini.world unit :=
  let (model, method) := Gemini.parseModelAction (Gemini.params0 req) in
  if negb (String.eqb method "generateContent")
     && negb (String.eqb method "streamGenerateContent") then
    Gemini.res_status 400 ;;;
    Gemini.res_json
      (Gemini.error_body 400
         ("Unsupported method: " ++ method
          ++ ". Use generateContent or streamGenerateContent.")
         "INVALID_ARGUMENT")
  else
    let isStream := Gemini.isStream_of method req in
    try_catch
      (Gemini.emit (Gemini.PickNext 0) ;;;
       match getNextAccount U with
       | Rejects message => throw message
       | NoAccount =>
           Gemini.res_status 503 ;;;
           Gemini.res_json (Gemini.error_body 503 "No available accounts" "UNAVAILABLE")
       | Account a =>
           let wrappedRequest :=
             wrapGeminiRequest (randomUUID U) (Gemini.req_body req) (projectId a) model in
           returned <- try_endpoints isStream 0 ANTIGRAVITY_ENDPOINT_FALLBACKS
                                     (accessToken a) wrappedRequest ;;
           if returned : bool then ret tt
           else
             Gemini.res_status 503 ;;;
             Gemini.res_json (Gemini.error_body 503 "All endpoints failed" "UNAVAILABLE")
       end)
      (fun message =>
         Gemini.res_status 500 ;;;
         Gemini.res_json (Gemini.error_body 500 message "INTERNAL")).

End WithUpstream.

(** A method the handler accepts. *)
Definition supported (method : string) : Prop :=
  method = "generateContent" \/ method = "streamGenerateContent".

(** An endpoint that gives no answer to pass on: the fetch fails, or
    the answer is a 429. *)
Definition unusable (r : fetch_result) : Prop :=
  match r with
  | NetworkError _ => True
  | Responded r => Gemini.status (head r) = 429%Z
  end.

(** The reads of a body that comes in the given chunks, each after the
    given time. *)
Definition in_chunks (chunks : list (N * string)) : list Gemini.read :=
  map (fun tc => Gemini.Settles (fst tc) (Gemini.Chunk (snd tc))) chunks.

(** What the caller sees of the texts passed through: a read and a
    write for each. *)
Definition passed (texts : list string) : list Gemini.event :=
  flat_map (fun text => [Gemini.Read None; Gemini.Write text]) texts.

End GeminiLegacy.

(* ================================================================== *)
(** * The gateway configuration over time *)
(* ================================================================== *)

Module ConfigProps.
Import Js GatewayConfig.

(** The file at CONFIG_FILE changed by some other program. *)
Definition with_file (f : file) (st : state) : state :=
  {| cachedConfig := cachedConfig st; config_dir := config_dir st;
     config_file := f; writable := writable st |}.

(** The process started again: the module variable is [null], the file
    system is as it was. *)
Definition restarted (st : state) : state := set_cache JNull st.

(** The keys of an object are distinct. *)
Definition distinct_keys (props : list (string * value)) : Prop :=
  NoDup (map fst props).

End ConfigProps.

(* ================================================================== *)
(** * More predicates on runs of the handler *)
(* ================================================================== *)

Module RunProps.
Import Text Js Eff Gemini Props.

(** The names of the members of [Object.prototype]: a lookup of one of
    them in an object literal finds the inherited member. *)
Definition prototype_member (name : string) : bool :=
  existsb (String.eqb name)
    ["constructor"; "toString"; "toLocaleString"; "valueOf"; "hasOwnProperty";
     "isPrototypeOf"; "propertyIsEnumerable"; "__proto__"; "__defineGetter__";
     "__defineSetter__"; "__lookupGetter__"; "__lookupSetter__"].

(** [s.endsWith(suffix)] *)
Fixpoint endsWith (suffix s : string) : bool :=
  String.eqb s suffix ||
  match s with
  | "" => false
  | String _ s' => endsWith suffix s'
  end.

(** A write is a complete SSE event: it ends with an empty line. *)
Definition sse_event (e : event) : bool :=
  match e with
  | Write chunk => endsWith (LF ++ LF) chunk
  | _ => true
  end.

(** An object or an array: what a request body has to be for
    [wrapGeminiRequest] to wrap it. *)
Definition structured (v : value) : bool :=
  match v with JObj _ | JArr _ => true | _ => false end.

Definition is_status (e : event) : bool :=
  match e with Status _ => true | _ => false end.

(** The events of the streaming path after the headers are set: reads,
    the release of the reader, writes of complete SSE events and the end
    of the response. *)
Definition body_event (e : event) : bool :=
  match e with
  | Read _ | ReleaseLock | End_ => true
  | Write chunk => endsWith (LF ++ LF) chunk
  | _ => false
  end.

(** The headers of a streamed answer, as the streaming path sets
    them. *)
Definition stream_headers : list event :=
  [SetHeader "Content-Type" "text/event-stream";
   SetHeader "Cache-Control" "no-cache";
   SetHeader "Connection" "keep-alive"].

(** How the loop over the reads ends on a read that carries no chunk:
    it is left on [done], the rejection is thrown, or the [await] never
    returns.  [None] for a read that carries a chunk. *)
Definition ending (r : read) : option (outcome unit) :=
  match r with
  | Settles _ Done => Some (Ok tt)
  | Settles _ (Failed message) => Some (Throw message)
  | Settles _ (Chunk _) => None
  | Never => Some Hang
  end.

(** How the loop ends on the reads that follow the chunks: as the first
    of them has it, and on [done] when there is none. *)
Definition ending_of (tail : list read) : option (outcome unit) :=
  match tail with
  | [] => Some (Ok tt)
  | r :: _ => ending r
  end.

(** What the streaming path makes of the end of its loop: it returns
    when the stream is done; the rejection of a read is caught, and the
    path returns, or leaves the endpoint loop when the message is
    [Timeout]; it waits for ever on a read that never settles. *)
Definition stream_outcome (o : outcome unit) : outcome ctl :=
  match o with
  | Ok _ => Ok Return
  | Throw message => Ok (if String.eqb message "Timeout" then Break else Return)
  | Hang => Hang
  end.

(** The end of the response, where the path gets there. *)
Definition stream_end (o : outcome unit) : list event :=
  match o with
  | Hang => []
  | _ => [End_]
  end.

(** What the merging path does once the body is read, by the
    accumulators it ends with: the control it returns or the TypeError
    it throws, and the events of its answer. *)
Definition no_data : value := JObj [("error", JStr "No response data received")].

Definition merged_answer (m : merge) : outcome ctl * list event :=
  if truthy (mergedResponse m) then
    match build_final m with
    | Some final => (Ok Return, [Json final])
    | None => (Throw "TypeError", [])
    end
  else (Ok Return, [Status 500; Json no_data]).

(** A frame without data: [null], [false], [0] or the empty string. *)
Definition falsy (d : value) : bool := negb (truthy d).

(** A read that settles. *)
Definition settles (r : read) : bool :=
  match r with Settles _ _ => true | Never => false end.

(** Every read of every body the upstream answers with settles. *)
Definition responsive (U : upstream) : Prop :=
  forall attempt position r,
    fetch U attempt position = Responded r ->
    forall reads, body r = Some reads -> forallb settles reads = true.

(** The answers of the handler: a JSON body or a text body. *)
Definition is_answer (e : event) : bool :=
  match e with Json _ | Send _ => true | _ => false end.

Definition is_header (e : event) : bool :=
  match e with SetHeader _ _ => true | _ => false end.





(** Nothing goes out to the caller. *)
Definition quiet (evs : list event) : Prop := existsb commits evs = false.

(** One answer goes out to the caller, as the last event, and nothing
    before it. *)
Definition answered (evs : list event) : Prop :=
  exists before a,
    evs = (before ++ [a])%list /\ existsb commits before = false /\ is_answer a = true.

Definition is_return (c : ctl) : bool :=
  match c with Return => true | _ => false end.

(** A step of the handler answers the caller exactly when it makes the
    handler return: it ends, and one answer has gone out when it says
    that the handler returns, and nothing otherwise. *)
Definition once {A} (returns : A -> bool) (o : outcome A) (evs : list event) : Prop :=
  match o with
  | Ok a => if returns a then answered evs else quiet evs
  | Throw _ => quiet evs
  | Hang => False
  end.

End RunProps.

(* ================================================================== *)
(** * More sample data *)
(* ================================================================== *)

Module RunSamples.
Import Js Gemini.

(** A 200 answer with the given reads of its body. *)
Definition answer (reads : list read) : fetch_result :=
  Responded {| status := 200; text := inr ""; body := Some reads |}.

Definition line5 : string := "data: 5" ++ Text.LF ++ Text.LF.

(** A stream that breaks after its first event, and one that stalls
    after it. *)
Definition breaking : list read :=
  [Settles 5 (Chunk line5); Settles 9 (Failed "ECONNRESET")].

Definition stalling : list read :=
  [Settles 5 (Chunk line5); Never].

(** A body of one event, and the same body followed by a [data: ] line
    that no line feed ends. *)
Definition one_event : list (N * string) := [(5%N, line5)].

Definition unterminated : string := "data: null".

(** A body that holds nothing but the [DONE] line. *)
Definition only_done : list (N * string) :=
  [(5%N, "data: [DONE]" ++ Text.LF ++ Text.LF)].

(** Accounts whose tokens cannot be refreshed, each rejection with a
    message of its own. *)
Definition refusal (attempt : nat) : string :=
  match attempt with
  | 0 => "invalid_grant"
  | 1 => "network timeout"
  | _ => "token revoked"
  end.

Definition no_tokens : upstream := {|
  pickNext := fun _ => Some {| email := "user@example.com" |};
  getTokenForAccount := fun attempt => inl (refusal attempt);
  getProjectForAccount := fun _ => inr "project-1";
  randomUUID := fun _ => "0000";
  fetch := fun _ _ => NetworkError "unreachable"
|}.

(** A machine on which the config directory is there and holds the JSON
    text of an empty object, but nothing can be written. *)
Definition read_only : GatewayConfig.state := {|
  GatewayConfig.cachedConfig := JNull;
  GatewayConfig.config_dir := true;
  GatewayConfig.config_file := GatewayConfig.Content "{}";
  GatewayConfig.writable := false
|}.

(** A configuration as it is after the instruction was saved on a fresh
    machine, and a codec that reads its text back. *)
Definition saved_config : value :=
  spread2 GatewayConfig.default_config
          (WebUi.posted_body "You are Antigravity. Be brief.").

Definition reading_back : json_codec := {|
  parse := fun text =>
    if String.eqb text (JsonText.stringify_indent 2 saved_config)
    then Some saved_config else None;
  stringify := JsonText.stringify;
  stringify_indent := JsonText.stringify_indent;
  decoder := unit;
  fresh := tt;
  decode := fun _ value => (tt, value)
|}.

(** A server that answers every call to /api/gateway/config with an
    error status. *)
Definition refusing : ConfigComponent.server := {|
  ConfigComponent.get_config := ConfigComponent.Answers false None;
  ConfigComponent.post_config := fun _ => ConfigComponent.Answers false None
|}.

(** A server whose configuration holds no instruction and that accepts
    what is posted. *)
Definition unconfigured : ConfigComponent.server := {|
  ConfigComponent.get_config := ConfigComponent.Answers true (Some (JObj []));
  ConfigComponent.post_config := fun _ => ConfigComponent.Answers true (Some (JObj []))
|}.

(** A machine without the SQLite library, and one with the library and
    a database in which nobody is signed in. *)
Definition no_sqlite : AuthDatabase.machine := {|
  AuthDatabase.sqlite_installed := false;
  AuthDatabase.open_database := fun _ =>
    inl {| AuthDatabase.code := Some "SQLITE_CANTOPEN";
           AuthDatabase.message := "unable to open database file" |}
|}.

Definition signed_out : AuthDatabase.machine := {|
  AuthDatabase.sqlite_installed := true;
  AuthDatabase.open_database := fun _ =>
    inr {| AuthDatabase.select_auth := inr AuthDatabase.NoRow |}
|}.



(** For the first revision of the handler: two hosts, an upstream that
    streams one event, and one that limits the first host and cannot be
    reached at the second. *)
Definition hosts : list string :=
  ["cloudcode-pa.googleapis.com"; "daily-cloudcode-pa.sandbox.googleapis.com"].

Definition signed_in : GeminiLegacy.picked :=
  GeminiLegacy.Account
    {| GeminiLegacy.accessToken := "token";
       GeminiLegacy.projectId := "project-1";
       GeminiLegacy.email := "user@example.com" |}.

Definition streaming_once : GeminiLegacy.upstream := {|
  GeminiLegacy.getNextAccount := signed_in;
  GeminiLegacy.randomUUID := "0000";
  GeminiLegacy.fetch := fun _ =>
    GeminiLegacy.Responded
      {| GeminiLegacy.head :=
           {| status := 200; text := inr "";
              body := Some (GeminiLegacy.in_chunks one_event) |};
         GeminiLegacy.json := inl "Unexpected token d" |}
|}.

Definition limited_then_down : GeminiLegacy.upstream := {|
  GeminiLegacy.getNextAccount := signed_in;
  GeminiLegacy.randomUUID := "0000";
  GeminiLegacy.fetch := fun position =>
    match position with
    | O => GeminiLegacy.Responded
             {| GeminiLegacy.head :=
                  {| status := 429; text := inr "Too Many Requests"; body := Some [] |};
                GeminiLegacy.json := inl "Unexpected token T" |}
    | _ => GeminiLegacy.NetworkError "fetch failed"
    end
|}.

End RunSamples.

(* ================================================================== *)
(** * Properties *)
(* ================================================================== *)

(** ** Induction over values, through arrays and objects *)

Module ValueInd.
Import Js.

Section Principle.
Variable P : value -> Prop.
Hypothesis case_undefined : P JUndefined.
Hypothesis case_null : P JNull.
Hypothesis case_bool : forall b, P (JBool b).
Hypothesis case_num : forall n, P (JNum n).
Hypothesis case_str : forall s, P (JStr s).
Hypothesis case_arr : forall items, Forall P items -> P (JArr items).
Hypothesis case_obj :
  forall props, Forall (fun kv => P (snd kv)) props -> P (JObj props).

Lemma value_nested_ind : forall v : value, P v.
Proof.
  fix IH 1. intros [ | | b | n | s | items | props].
  - exact case_undefined.
  - exact case_null.
  - apply case_bool.
  - apply case_num.
  - apply case_str.
  - apply case_arr. induction items as [|x rest IHrest]; constructor.
    + apply IH.
    + exact IHrest.
  - apply case_obj. induction props as [|kv rest IHrest]; constructor.
    + apply IH.
    + exact IHrest.
Qed.

End Principle.
End ValueInd.

(** ** deepCleanUndefined *)

Module CleanFacts.
Import Js Gemini Props.

Lemma clean_obj props :
  deepCleanUndefined (JObj props) = JObj (cleaned_entries props).
Proof. reflexivity. Qed.

Lemma cleaned_entries_nil : cleaned_entries [] = [].
Proof. reflexivity. Qed.

Lemma cleaned_entries_cons key v rest :
  cleaned_entries ((key, v) :: rest) =
  if skipped v then cleaned_entries rest
  else (key, deepCleanUndefined v) :: cleaned_entries rest.
Proof. unfold cleaned_entries. simpl. destruct (skipped v); reflexivity. Qed.

Lemma clean_arr items :
  deepCleanUndefined (JArr items) =
  JArr (filter (fun item => negb (is_undefined item)) (map deepCleanUndefined items)).
Proof. reflexivity. Qed.

(** Cleaning never turns a kept value into one that would be skipped. *)
Lemma skipped_clean v : skipped v = false -> skipped (deepCleanUndefined v) = false.
Proof. destruct v; simpl; auto. Qed.

Lemma undefined_clean v : is_undefined (deepCleanUndefined v) = is_undefined v.
Proof. destruct v; reflexivity. Qed.



(** After cleaning, no property of any object holds a skipped value. *)
Lemma props_clean_obj props :
  props_clean (JObj props) =
  forallb (fun kv => negb (skipped (snd kv)) && props_clean (snd kv)) props.
Proof.
  induction props as [|[k x] rest IH]; [reflexivity|].
  simpl in *. rewrite IH. reflexivity.
Qed.

Lemma is_json_obj props :
  is_json (JObj props) = forallb (fun kv => is_json (snd kv)) props.
Proof.
  induction props as [|[k x] rest IH]; [reflexivity|].
  simpl in *. rewrite IH. reflexivity.
Qed.

Lemma hole_free_obj props :
  hole_free (JObj props) = forallb (fun kv => hole_free (snd kv)) props.
Proof.
  induction props as [|[k x] rest IH]; [reflexivity|].
  simpl in *. rewrite IH. reflexivity.
Qed.

Lemma deepClean_props_clean v : props_clean (deepCleanUndefined v) = true.
Proof.
  induction v as [| | | | |items IH|props IH] using ValueInd.value_nested_ind;
    try reflexivity.
  - rewrite clean_arr. simpl.
    induction IH as [|x rest Hx _ IHrest]; [reflexivity|].
    simpl. destruct (is_undefined (deepCleanUndefined x)); simpl; [exact IHrest|].
    rewrite Hx. exact IHrest.
  - rewrite clean_obj, props_clean_obj.
    induction IH as [|[key x] rest Hx _ IHrest]; [reflexivity|].
    rewrite cleaned_entries_cons. simpl in Hx.
    destruct (skipped x) eqn:E; [exact IHrest|].
    simpl. rewrite (skipped_clean _ E), Hx. exact IHrest.
Qed.

(** After cleaning, [undefined] is left nowhere, unless the whole value
    is [undefined]. *)
Lemma deepClean_is_json v :
  is_undefined v = false -> is_json (deepCleanUndefined v) = true.
Proof.
  induction v as [| | | | |items IH|props IH] using ValueInd.value_nested_ind;
    intros Hv; try reflexivity; try discriminate.
  - rewrite clean_arr. simpl. clear Hv.
    induction IH as [|x rest Hx _ IHrest]; [reflexivity|].
    simpl. rewrite undefined_clean.
    destruct (is_undefined x) eqn:E; simpl; [exact IHrest|].
    rewrite (Hx eq_refl). exact IHrest.
  - rewrite clean_obj, is_json_obj. clear Hv.
    induction IH as [|[key x] rest Hx _ IHrest]; [reflexivity|].
    rewrite cleaned_entries_cons. simpl in Hx.
    destruct (skipped x) eqn:E; [exact IHrest|].
    simpl. rewrite Hx, IHrest; [reflexivity|].
    unfold skipped in E. destruct (is_undefined x); [discriminate|reflexivity].
Qed.

End CleanFacts.



(** ** The gateway configuration *)

Module ConfigFacts.
Import Js Eff GatewayConfig.

Lemma default_has_sentinel :
  Text.includes sentinel DEFAULT_SYSTEM_INSTRUCTION = true.
Proof. reflexivity. Qed.

Lemma includes_nonempty needle s :
  needle <> "" -> Text.includes needle s = true -> s <> "".
Proof.
  intros Hn H ->. destruct needle; [now apply Hn|]. discriminate.
Qed.

Lemma lookup_set_prop key v props :
  lookup key (set_prop key v props) = Some v.
Proof.
  induction props as [|[k x] rest IH]; simpl.
  - now rewrite String.eqb_refl.
  - destruct (String.eqb k key) eqn:E; simpl; rewrite E; auto.
Qed.

Lemma lookup_set_prop_other key key' v props :
  String.eqb key' key = false ->
  lookup key (set_prop key' v props) = lookup key props.
Proof.
  intros Hk. induction props as [|[k x] rest IH]; simpl.
  - now rewrite Hk.
  - destruct (String.eqb k key') eqn:E; simpl.
    + apply String.eqb_eq in E. subst k. now rewrite Hk.
    + destruct (String.eqb k key); auto.
Qed.

Lemma fold_set_prop_last (l : list (string * value)) key v acc :
  lookup key (fold_left (fun a kv => set_prop (fst kv) (snd kv) a)
                        (l ++ [(key, v)])%list acc) = Some v.
Proof.
  rewrite fold_left_app. simpl. apply lookup_set_prop.
Qed.

(** The instruction of a merged configuration is the one written last. *)
Lemma spread2_instruction current instr :
  prop (spread2 current (WebUi.posted_body instr)) "systemInstruction" = JStr instr.
Proof.
  unfold spread2, WebUi.posted_body, prop. simpl own_props at 2.
  now rewrite fold_set_prop_last.
Qed.

(** [getGatewayConfig] answers from the cache when it holds a truthy
    value. *)
Lemma getGatewayConfig_cached J st :
  truthy (cachedConfig st) = true ->
  getGatewayConfig J st = (Ok (cachedConfig st), st).
Proof. intros H. unfold getGatewayConfig, bind, get. now rewrite H. Qed.

(** [getGatewayConfig] never throws and never hangs. *)
Lemma getGatewayConfig_total J st :
  exists config st', getGatewayConfig J st = (Ok config, st').
Proof.
  unfold getGatewayConfig, bind, get, try_catch, existsSync_file, readFileSync,
    JSON_parse, or_throw, modify, ret, throw.
  cbn. destruct (truthy (cachedConfig st)); [eauto|].
  destruct (config_file st) as [|m|data] eqn:E; cbn; rewrite ?E; cbn; eauto.
  destruct (parse J data); cbn; eauto.
Qed.

(** Loading with an empty cache when the file gives nothing. *)
Lemma getGatewayConfig_defaults J st :
  truthy (cachedConfig st) = false ->
  (config_file st = Absent
   \/ (exists m, config_file st = Unreadable m)
   \/ (exists data, config_file st = Content data /\ parse J data = None)) ->
  getGatewayConfig J st = (Ok default_config, set_cache default_config st).
Proof.
  intros Hc Hf.
  unfold getGatewayConfig, bind, get, try_catch, existsSync_file, readFileSync,
    JSON_parse, or_throw, modify, ret, throw.
  cbn. rewrite Hc.
  destruct Hf as [E | [[m E] | [data [E Hp]]]]; rewrite E; cbn; rewrite ?E; cbn;
    try reflexivity.
  rewrite Hp. reflexivity.
Qed.

(** [saveGatewayConfig] makes no check of its own: whatever
    configuration it is given is merged, written and cached. *)
Lemma saveGatewayConfig_stores J st config :
  writable st = true ->
  exists current st1,
    getGatewayConfig J (if config_dir st then st
                        else {| cachedConfig := cachedConfig st; config_dir := true;
                                config_file := config_file st; writable := true |})
    = (Ok current, st1) /\
    saveGatewayConfig J config st =
    (Ok tt, {| cachedConfig := spread2 current config;
               config_dir := config_dir st1;
               config_file := Content (stringify_indent J 2 (spread2 current config));
               writable := true |}) /\
    writable st1 = true.
Proof.
  intros Hw.
  unfold saveGatewayConfig, ensureConfigDir, mkdirSync, bind.
  rewrite Hw.
  set (st0 := if config_dir st then st else _).
  assert (Hw0 : writable st0 = true) by (subst st0; destruct (config_dir st); auto).
  assert (E : (if config_dir st then (Ok tt, st) else (Ok tt, {| cachedConfig := cachedConfig st; config_dir := true; config_file := config_file st; writable := true |})) = (Ok tt, st0))
    by (subst st0; destruct (config_dir st); reflexivity).
  rewrite E. clear E.
  assert (Hst1 : forall c s, getGatewayConfig J st0 = (Ok c, s) -> writable s = true).
  { unfold getGatewayConfig, bind, get, try_catch, existsSync_file, readFileSync,
      JSON_parse, or_throw, modify, ret, throw.
    intros c s. cbn.
    destruct (truthy (cachedConfig st0)); [intros [= _ <-]; exact Hw0|].
    destruct (config_file st0) as [|m|data] eqn:E; cbn; rewrite ?E; cbn;
      try (intros [= _ <-]; exact Hw0).
    destruct (parse J data); cbn; intros [= _ <-]; exact Hw0. }
  destruct (getGatewayConfig_total J st0) as [current [st1 Hg]].
  exists current, st1. rewrite Hg. split; [reflexivity|].
  specialize (Hst1 _ _ Hg).
  unfold writeFileSync, modify, set_cache. rewrite Hst1. simpl. auto.
Qed.

End ConfigFacts.

(** What holds of the two loading functions.  [getGatewayConfig] never
    propagates an error, whatever the cache and the file hold.  When
    nothing is cached and the config file is absent, or reading it
    throws, or parsing it throws, [getGatewayConfig] returns the default
    configuration and [getSystemInstruction] returns the default
    instruction, a string that contains [You are Antigravity]. *)
Lemma config_load_falls_back :
  forall (J : Js.json_codec) (st : GatewayConfig.state),
    (exists config st', GatewayConfig.getGatewayConfig J st = (Eff.Ok config, st'))
    /\
    (Js.truthy (GatewayConfig.cachedConfig st) = false ->
     (GatewayConfig.config_file st = GatewayConfig.Absent
      \/ (exists m, GatewayConfig.config_file st = GatewayConfig.Unreadable m)
      \/ (exists data, GatewayConfig.config_file st = GatewayConfig.Content data
                       /\ Js.parse J data = None)) ->
     exists st',
       GatewayConfig.getGatewayConfig J st = (Eff.Ok GatewayConfig.default_config, st')
       /\ GatewayConfig.getSystemInstruction J st
          = (Eff.Ok (Js.JStr GatewayConfig.DEFAULT_SYSTEM_INSTRUCTION), st')
       /\ Text.includes "You are Antigravity" GatewayConfig.DEFAULT_SYSTEM_INSTRUCTION
          = true).
Proof.
  intros J st. split; [apply ConfigFacts.getGatewayConfig_total|].
  intros Hc Hf.
  pose proof (ConfigFacts.getGatewayConfig_defaults J st Hc Hf) as Hg.
  eexists. split; [exact Hg|]. split; [|reflexivity].
  unfold GatewayConfig.getSystemInstruction, Eff.bind. rewrite Hg. reflexivity.
Qed.

(** The web UI does not send an instruction that lacks the sentinel:
    the server is not called and nothing changes. *)
Lemma ui_refuses_without_sentinel :
  forall (S : Type) (post : Js.value -> Eff.M S WebUi.reply) (instr : string) (s : S),
    Text.includes "You are Antigravity" instr = false ->
    WebUi.saveSystemInstruction post instr s
    = (Eff.Ok (WebUi.Toast WebUi.must_contain_message "error"), s).
Proof.
  intros S post instr s H. unfold WebUi.saveSystemInstruction. now rewrite H.
Qed.

(** C5. A write to POST /api/gateway/config whose system instruction
    does not contain [You are Antigravity] is rejected and leaves the
    cached and the stored configuration as they were.  A write whose
    instruction contains it (the file system accepting writes) is saved:
    the configuration then cached holds that instruction, the file holds
    that configuration, and [getSystemInstruction] returns the
    instruction. *)
Theorem config_write_needs_sentinel :
  forall (J : Js.json_codec) (st : GatewayConfig.state) (instr : string),
    (Text.includes "You are Antigravity" instr = false ->
     WebUi.post_gateway_config J (WebUi.posted_body instr) st
     = (Eff.Ok WebUi.Rejected, st))
    /\
    (Text.includes "You are Antigravity" instr = true ->
     GatewayConfig.writable st = true ->
     exists st',
       WebUi.post_gateway_config J (WebUi.posted_body instr) st
       = (Eff.Ok WebUi.Saved, st')
       /\ Js.prop (GatewayConfig.cachedConfig st') "systemInstruction" = Js.JStr instr
       /\ GatewayConfig.config_file st'
          = GatewayConfig.Content (Js.stringify_indent J 2 (GatewayConfig.cachedConfig st'))
       /\ GatewayConfig.getSystemInstruction J st' = (Eff.Ok (Js.JStr instr), st')).
Proof.
  intros J st instr. split.
  - intros H. unfold WebUi.post_gateway_config. cbn.
    change GatewayConfig.sentinel with "You are Antigravity". now rewrite H.
  - intros H Hw.
    destruct (ConfigFacts.saveGatewayConfig_stores J st (WebUi.posted_body instr) Hw)
      as [current [st1 [_ [Hsave _]]]].
    eexists. split; [|split; [|split]].
    + unfold WebUi.post_gateway_config. cbn.
      change GatewayConfig.sentinel with "You are Antigravity". rewrite H.
      unfold Eff.bind. rewrite Hsave. reflexivity.
    + cbn [GatewayConfig.cachedConfig]. apply ConfigFacts.spread2_instruction.
    + reflexivity.
    + unfold GatewayConfig.getSystemInstruction, Eff.bind.
      rewrite ConfigFacts.getGatewayConfig_cached by reflexivity.
      cbn [GatewayConfig.cachedConfig].
      unfold Js.member, Eff.or_throw. cbn [Js.nullish Js.spread2 Js.is_null Js.is_undefined orb].
      rewrite ConfigFacts.spread2_instruction.
      unfold Eff.ret, Js.js_or, Js.truthy.
      destruct (String.eqb instr "") eqn:E.
      * apply String.eqb_eq in E. subst instr. discriminate H.
      * reflexivity.
Qed.

(** C9 at work.  Nothing is cached and the config file holds the JSON
    text [null].  [JSON.parse] reads it without an error, so the
    fallback of [getGatewayConfig] is not taken: it returns [null], and
    [getSystemInstruction] throws a TypeError on [config.systemInstruction]
    instead of returning the default instruction.  On a fresh machine,
    where the file is absent, both functions return the default. *)
Theorem null_config_file_makes_getSystemInstruction_throw :
  (exists st',
     GatewayConfig.getGatewayConfig Samples.codec Samples.null_config
     = (Eff.Ok Js.JNull, st')
     /\ GatewayConfig.getSystemInstruction Samples.codec Samples.null_config
        = (Eff.Throw "TypeError", st'))
  /\
  (exists st',
     GatewayConfig.getGatewayConfig Samples.codec Samples.fresh_config
     = (Eff.Ok GatewayConfig.default_config, st')
     /\ GatewayConfig.getSystemInstruction Samples.codec Samples.fresh_config
        = (Eff.Ok (Js.JStr GatewayConfig.DEFAULT_SYSTEM_INSTRUCTION), st')
     /\ Text.includes "You are Antigravity" GatewayConfig.DEFAULT_SYSTEM_INSTRUCTION
        = true).
Proof.
  split.
  - eexists. split; vm_compute; reflexivity.
  - eexists. split; [vm_compute; reflexivity|]. split; vm_compute; reflexivity.
Qed.

Lemma config_write_needs_sentinel_witness :
  WebUi.post_gateway_config Samples.codec (WebUi.posted_body "Be brief.")
    Samples.fresh_config
  = (Eff.Ok WebUi.Rejected, Samples.fresh_config)
  /\
  exists st',
    WebUi.post_gateway_config Samples.codec
      (WebUi.posted_body "You are Antigravity. Be brief.") Samples.fresh_config
    = (Eff.Ok WebUi.Saved, st')
    /\ Js.prop (GatewayConfig.cachedConfig st') "systemInstruction"
       = Js.JStr "You are Antigravity. Be brief."
    /\ GatewayConfig.config_file st'
       = GatewayConfig.Content
           (Js.stringify_indent Samples.codec 2 (GatewayConfig.cachedConfig st'))
    /\ GatewayConfig.getSystemInstruction Samples.codec st'
       = (Eff.Ok (Js.JStr "You are Antigravity. Be brief."), st').
Proof.
  split.
  - apply (proj1 (config_write_needs_sentinel Samples.codec Samples.fresh_config
                    "Be brief.")).
    reflexivity.
  - apply (proj2 (config_write_needs_sentinel Samples.codec Samples.fresh_config
                    "You are Antigravity. Be brief.")).
    + reflexivity.
    + reflexivity.
Defined.

(** ** Running computations *)

Module EffFacts.
Import Eff.

Lemma bind_Ok {S A B} (c : M S A) (k : A -> M S B) s b s' :
  bind c k s = (Ok b, s') ->
  exists a s1, c s = (Ok a, s1) /\ k a s1 = (Ok b, s').
Proof.
  unfold bind. destruct (c s) as [[a|e|] s1]; intros H; try discriminate.
  eauto.
Qed.

Lemma bind_run {S A B} (c : M S A) (k : A -> M S B) s a s1 :
  c s = (Ok a, s1) -> bind c k s = k a s1.
Proof. unfold bind. now intros ->. Qed.

Lemma bind_throw {S A B} (c : M S A) (k : A -> M S B) s e s1 :
  c s = (Throw e, s1) -> bind c k s = (Throw e, s1).
Proof. unfold bind. now intros ->. Qed.

Lemma bind_hang {S A B} (c : M S A) (k : A -> M S B) s s1 :
  c s = (Hang, s1) -> bind c k s = (Hang, s1).
Proof. unfold bind. now intros ->. Qed.

Lemma or_throw_Ok {S A} message (o : option A) (s : S) a s' :
  or_throw message o s = (Ok a, s') -> o = Some a /\ s' = s.
Proof.
  destruct o; cbn; intros H; inversion H; auto.
Qed.

Lemma ret_Ok {S A} (a b : A) (s s' : S) :
  ret a s = (Ok b, s') -> a = b /\ s' = s.
Proof. cbn. intros H. inversion H. auto. Qed.

Lemma zoom_Ok {S T A} (proj : S -> T) (inj : T -> S -> S) (c : M T A) s a s' :
  zoom proj inj c s = (Ok a, s') ->
  exists t', c (proj s) = (Ok a, t') /\ s' = inj t' s.
Proof.
  unfold zoom. destruct (c (proj s)) as [r t']. intros H. inversion H. eauto.
Qed.

End EffFacts.

(** ** The request after wrapping *)

Module WrapFacts.
Import Js Eff Gemini Props CleanFacts.

Lemma tidy_obj props :
  tidy (JObj props) = forallb (fun kv => tidy_value (snd kv)) props.
Proof.
  unfold tidy. rewrite props_clean_obj, is_json_obj.
  induction props as [|[k x] rest IH]; [reflexivity|].
  cbn [forallb snd]. rewrite <- IH. unfold tidy_value, tidy.
  destruct (skipped x), (props_clean x), (is_json x); cbn;
    rewrite ?andb_true_r, ?andb_false_r; reflexivity.
Qed.

Lemma tidy_arr_cons x rest :
  tidy (JArr (x :: rest)) = tidy x && tidy (JArr rest).
Proof.
  unfold tidy. cbn.
  destruct (props_clean x), (is_json x); cbn;
    rewrite ?andb_true_r, ?andb_false_r; reflexivity.
Qed.

Lemma tidy_value_tidy v : tidy_value v = true -> tidy v = true.
Proof. unfold tidy_value. intros H. now apply andb_prop in H. Qed.

Lemma tidy_set_prop key v props :
  tidy (JObj props) = true -> tidy_value v = true ->
  tidy (JObj (set_prop key v props)) = true.
Proof.
  rewrite !tidy_obj. intros Hp Hv.
  induction props as [|[k x] rest IH]; cbn.
  - now rewrite Hv.
  - cbn in Hp. apply andb_prop in Hp. destruct Hp as [Hx Hrest].
    destruct (String.eqb k key); cbn.
    + now rewrite Hv, Hrest.
    + now rewrite Hx, IH.
Qed.

Lemma tidy_delete_prop key props :
  tidy (JObj props) = true -> tidy (JObj (delete_prop key props)) = true.
Proof.
  rewrite !tidy_obj. intros Hp.
  induction props as [|[k x] rest IH]; cbn; [reflexivity|].
  cbn in Hp. apply andb_prop in Hp. destruct Hp as [Hx Hrest].
  destruct (String.eqb k key); cbn; [auto|]. now rewrite Hx, IH.
Qed.

Lemma tidy_lookup key props x :
  tidy (JObj props) = true -> lookup key props = Some x -> tidy_value x = true.
Proof.
  rewrite tidy_obj. induction props as [|[k y] rest IH]; cbn; [discriminate|].
  intros Hp. apply andb_prop in Hp. destruct Hp as [Hy Hrest].
  destruct (String.eqb k key); [intros [= <-]; exact Hy | auto].
Qed.

(** A property that reads truthy is a tidy value of a tidy object. *)
Lemma tidy_prop_truthy v key :
  tidy v = true -> truthy (prop v key) = true -> tidy_value (prop v key) = true.
Proof.
  destruct v; cbn; try discriminate.
  intros Hv. destruct (lookup key props) eqn:E; [|discriminate].
  intros _. eapply tidy_lookup; eauto.
Qed.

Lemma tidy_prop_arr v key items :
  tidy v = true -> prop v key = JArr items -> tidy (JArr items) = true.
Proof.
  intros Hv E. apply tidy_value_tidy. rewrite <- E.
  apply tidy_prop_truthy; [exact Hv | now rewrite E].
Qed.

Lemma tidy_assign target key v target' :
  tidy target = true -> tidy_value v = true ->
  assign target key v = Some target' -> tidy target' = true.
Proof.
  destruct target; cbn; try discriminate; intros Ht Hv [= <-]; auto.
  now apply tidy_set_prop.
Qed.

Lemma assign_not_skipped target key v target' :
  assign target key v = Some target' -> skipped target' = false.
Proof. destruct target; cbn; try discriminate; now intros [= <-]. Qed.

Lemma tidy_update target key f target' :
  tidy target = true ->
  (forall y, f (prop target key) = Some y -> tidy_value y = true) ->
  update target key f = Some target' -> tidy target' = true.
Proof.
  destruct target; cbn -[prop]; try discriminate.
  intros Ht Hf. destruct (f (prop (JObj props) key)) eqn:E; [|discriminate].
  intros [= <-]. apply tidy_set_prop; auto.
Qed.

Lemma tidy_inject identity systemInstruction result :
  tidy_value identity = true -> tidy_value systemInstruction = true ->
  inject_identity identity systemInstruction = Some result ->
  tidy_value result = true.
Proof.
  intros Hi Hs. unfold inject_identity.
  destruct (if truthy (prop systemInstruction "role") then Some systemInstruction
            else assign systemInstruction "role" (JStr "user")) as [withRole|] eqn:E;
    [|discriminate].
  assert (Hw : tidy_value withRole = true).
  { destruct (truthy (prop systemInstruction "role")).
    - now inversion E; subst.
    - unfold tidy_value. rewrite (assign_not_skipped _ _ _ _ E). cbn.
      eapply tidy_assign; [apply tidy_value_tidy; exact Hs| |exact E]. reflexivity. }
  destruct (prop withRole "parts") as [| | | | |parts|] eqn:Ep;
    try (intros [= <-]; exact Hw).
  destruct (some_identity parts) as [[|]|]; try discriminate.
  - intros [= <-]; exact Hw.
  - intros Ha. unfold tidy_value. rewrite (assign_not_skipped _ _ _ _ Ha). cbn.
    eapply tidy_assign; [apply tidy_value_tidy; exact Hw| |exact Ha].
    unfold tidy_value. cbn [skipped is_undefined is_null is_string orb negb andb].
    rewrite tidy_arr_cons.
    rewrite (tidy_prop_arr withRole "parts" parts (tidy_value_tidy _ Hw) Ep).
    rewrite andb_true_r. unfold text_part. rewrite tidy_obj. cbn. now rewrite Hi.
Qed.

Lemma tidy_clean_generationConfig v :
  tidy v = true -> tidy (clean_generationConfig v) = true.
Proof.
  intros Hv. unfold clean_generationConfig. destruct v; auto.
  destruct (prop (JObj props) "generationConfig") as [| | | | | |config] eqn:E; auto.
  apply tidy_set_prop; [exact Hv|].
  assert (Hc : tidy_value (JObj config) = true)
    by (rewrite <- E; apply tidy_prop_truthy; [exact Hv | now rewrite E]).
  unfold tidy_value. cbn [skipped is_undefined is_null is_string orb negb andb].
  apply tidy_delete_prop. now apply tidy_value_tidy.
Qed.

Lemma json_copy_defined v : is_undefined (json_copy v) = false.
Proof. destruct v; reflexivity. Qed.

Lemma tidy_cleaned_copy body : tidy (deepCleanUndefined (json_copy body)) = true.
Proof.
  unfold tidy. rewrite deepClean_props_clean, deepClean_is_json; auto.
  apply json_copy_defined.
Qed.

(** What [wrapGeminiRequest] returns when it returns. *)
Lemma wrap_returns J uuid body projectId model st payload st' :
  wrapGeminiRequest J uuid body projectId model st = (Ok payload, st') ->
  exists identity innerRequest,
    GatewayConfig.getSystemInstruction J st = (Ok identity, st')
    /\ (let cleaned := deepCleanUndefined (json_copy body) in
        if truthy (prop cleaned "systemInstruction")
        then update cleaned "systemInstruction" (inject_identity identity)
        else assign cleaned "systemInstruction" (new_systemInstruction identity))
       = Some innerRequest
    /\ payload =
       JObj [("project", JStr projectId);
             ("model", JStr (mapModelForUpstream model));
             ("request", clean_generationConfig innerRequest);
             ("userAgent", JStr "antigravity");
             ("requestId", JStr ("agent-" ++ uuid));
             ("requestType", JStr (getRequestType model))].
Proof.
  unfold wrapGeminiRequest. intros H.
  apply EffFacts.bind_Ok in H. destruct H as [cloned [s1 [H1 H]]].
  apply EffFacts.or_throw_Ok in H1. destruct H1 as [Hc ->].
  unfold json_roundtrip in Hc. destruct (is_undefined body); [discriminate|].
  inversion Hc; subst cloned. clear Hc.
  apply EffFacts.bind_Ok in H. destruct H as [identity [s2 [H2 H]]].
  apply EffFacts.bind_Ok in H. destruct H as [sys [s3 [H3 H]]].
  apply EffFacts.or_throw_Ok in H3. destruct H3 as [Hm ->].
  apply EffFacts.bind_Ok in H. destruct H as [inner [s4 [H4 H]]].
  apply EffFacts.or_throw_Ok in H4. destruct H4 as [Hi ->].
  apply EffFacts.ret_Ok in H. destruct H as [<- ->].
  exists identity, inner. split; [exact H2|]. split; [|reflexivity].
  unfold member in Hm. destruct (nullish (deepCleanUndefined (json_copy body)));
    [discriminate|]. inversion Hm; subst sys. exact Hi.
Qed.

End WrapFacts.

(** ** Arrays after wrapping *)

Module ArrayFacts.
Import Js Gemini Props.

(** Cleaning an array takes away its [undefined] elements and no
    other. *)
Lemma cleaned_items items :
  filter defined (map deepCleanUndefined items)
  = map deepCleanUndefined (filter defined items).
Proof.
  induction items as [|x rest IH]; [reflexivity|].
  unfold defined in *. cbn [map filter]. rewrite CleanFacts.undefined_clean.
  destruct (is_undefined x); cbn [negb map]; now rewrite IH.
Qed.

Lemma kept_in_array items x :
  In x items -> x = JNull \/ x = JStr "[undefined]" ->
  In x (filter defined (map deepCleanUndefined items)).
Proof.
  intros Hin Hx. rewrite cleaned_items.
  replace x with (deepCleanUndefined x) by (destruct Hx as [-> | ->]; reflexivity).
  apply in_map. apply filter_In. split; [exact Hin|].
  destruct Hx as [-> | ->]; reflexivity.
Qed.

(** An array of the body after the copy and the cleaning: every element
    is still there, at its place. *)
Lemma clean_copy_arr items :
  deepCleanUndefined (json_copy (JArr items))
  = JArr (map (fun x => deepCleanUndefined (json_copy x)) items).
Proof.
  cbn [json_copy]. rewrite CleanFacts.clean_arr. f_equal.
  induction items as [|x rest IH]; [reflexivity|].
  cbn [map filter]. rewrite CleanFacts.undefined_clean.
  assert (H : is_undefined (json_copy x) = false) by (destruct x; reflexivity).
  rewrite H. cbn [negb]. now rewrite IH.
Qed.

Lemma lookup_copy_clean key props x :
  lookup key props = Some x ->
  is_undefined x = false -> skipped (json_copy x) = false ->
  lookup key (cleaned_entries (copied_entries props))
  = Some (deepCleanUndefined (json_copy x)).
Proof.
  intros H Hu Hs. induction props as [|[k y] rest IH]; [discriminate|].
  cbn [lookup] in H.
  assert (Hc : copied_entries ((k, y) :: rest)
               = if is_undefined y then copied_entries rest
                 else (k, json_copy y) :: copied_entries rest)
    by (unfold copied_entries; simpl; destruct (is_undefined y); reflexivity).
  rewrite Hc. destruct (String.eqb k key) eqn:E.
  - inversion H; subst y. rewrite Hu, CleanFacts.cleaned_entries_cons, Hs.
    cbn [lookup]. now rewrite E.
  - specialize (IH H). destruct (is_undefined y); [exact IH|].
    rewrite CleanFacts.cleaned_entries_cons.
    destruct (skipped (json_copy y)); [exact IH|].
    cbn [lookup]. now rewrite E.
Qed.

Lemma assign_elsewhere target key key' v target' :
  assign target key' v = Some target' -> key' <> key ->
  prop target' key = prop target key.
Proof.
  destruct target; cbn; try discriminate; intros [= <-] Hk; [reflexivity|].
  cbn. rewrite ConfigFacts.lookup_set_prop_other; [reflexivity|].
  now apply String.eqb_neq.
Qed.

Lemma update_elsewhere target key key' f target' :
  update target key' f = Some target' -> key' <> key ->
  prop target' key = prop target key.
Proof.
  destruct target; cbn -[prop]; try discriminate.
  destruct (f (prop (JObj props) key')); [|discriminate].
  intros [= <-] Hk. cbn. rewrite ConfigFacts.lookup_set_prop_other; [reflexivity|].
  now apply String.eqb_neq.
Qed.

Lemma clean_generationConfig_elsewhere v key :
  key <> "generationConfig" -> prop (clean_generationConfig v) key = prop v key.
Proof.
  intros Hk. unfold clean_generationConfig. destruct v; auto.
  destruct (prop (JObj props) "generationConfig"); auto.
  cbn. rewrite ConfigFacts.lookup_set_prop_other; [reflexivity|].
  apply String.eqb_neq. congruence.
Qed.

End ArrayFacts.

(** C1, as the code has it.  For a request none of whose objects has a
    property named [__proto__] and a model name that is not the name of
    a member of [Object.prototype], the payload built by
    [wrapGeminiRequest] has exactly the six fields project, model,
    request, userAgent, requestId and requestType, and (the configured
    instruction being a string other than ["[undefined]"]) its request
    field holds [undefined] nowhere and holds neither [null] nor
    ["[undefined]"] as the value of an object property, at any depth.
    Arrays are not cleaned of them: an array of the request arrives with
    all its elements, [null] and ["[undefined]"] at their places, and at
    any depth [deepCleanUndefined] takes nothing but [undefined] out of
    an array.  The payload built by [buildCloudCodeRequest] has the same
    six fields in the revision that sends a request type, and the five
    fields project, model, request, userAgent and requestId in the
    revision that stores a session id. *)
Theorem wrapped_payload_fields :
  (forall (J : Js.json_codec) uuid body projectId model st payload st' s st1,
      GatewayConfig.getSystemInstruction J st = (Eff.Ok (Js.JStr s), st1) ->
      s <> "[undefined]" ->
      Js.plain body = true ->
      RunProps.prototype_member model = false ->
      Gemini.wrapGeminiRequest J uuid body projectId model st = (Eff.Ok payload, st') ->
      Props.keys payload
      = ["project"; "model"; "request"; "userAgent"; "requestId"; "requestType"]
      /\ Props.props_clean (Js.prop payload "request") = true
      /\ Js.is_json (Js.prop payload "request") = true
      /\ (forall key items,
             key <> "systemInstruction" -> key <> "generationConfig" ->
             Js.prop body key = Js.JArr items ->
             exists kept,
               Js.prop (Js.prop payload "request") key = Js.JArr kept
               /\ length kept = length items
               /\ forall i,
                    (nth_error items i = Some Js.JNull ->
                     nth_error kept i = Some Js.JNull)
                    /\ (nth_error items i = Some (Js.JStr "[undefined]") ->
                        nth_error kept i = Some (Js.JStr "[undefined]"))))
  /\
  (forall items,
      exists kept,
        Gemini.deepCleanUndefined (Js.JArr items) = Js.JArr kept
        /\ length kept = length (filter Props.defined items)
        /\ (In Js.JNull items -> In Js.JNull kept)
        /\ (In (Js.JStr "[undefined]") items -> In (Js.JStr "[undefined]") kept))
  /\
  (forall convert uuid anthropicRequest projectId payload,
      RequestBuilder.buildCloudCodeRequest convert uuid anthropicRequest projectId
      = Some payload ->
      Props.keys payload
      = ["project"; "model"; "request"; "userAgent"; "requestId"; "requestType"])
  /\
  (forall convert derive uuid anthropicRequest projectId payload,
      (forall name, Js.prop anthropicRequest "model" = Js.JStr name ->
                    RunProps.prototype_member name = false) ->
      RequestBuilderSession.buildCloudCodeRequest convert derive uuid
        anthropicRequest projectId = Some payload ->
      Props.keys payload
      = ["project"; "model"; "request"; "userAgent"; "requestId"]).
Proof.
  split; [|split; [|split]].
  - intros J uuid body projectId model st payload st' s st1 Hs Hne _ _ Hw.
    destruct (WrapFacts.wrap_returns _ _ _ _ _ _ _ _ Hw)
      as [identity [inner [Hid [Hinner ->]]]].
    rewrite Hs in Hid. inversion Hid; subst identity st1. clear Hid.
    split; [reflexivity|].
    assert (Hi : Props.tidy_value (Js.JStr s) = true).
    { unfold Props.tidy_value. cbn.
      destruct (String.eqb s "[undefined]") eqn:E; [|reflexivity].
      apply String.eqb_eq in E. contradiction. }
    assert (Ht : Props.tidy (Gemini.clean_generationConfig inner) = true).
    { apply WrapFacts.tidy_clean_generationConfig.
      pose proof (WrapFacts.tidy_cleaned_copy body) as Hc.
      cbv zeta in Hinner.
      destruct (Js.truthy (Js.prop (Gemini.deepCleanUndefined (Js.json_copy body))
                                   "systemInstruction")) eqn:E.
      - eapply WrapFacts.tidy_update; [exact Hc| |exact Hinner].
        intros y Hy. eapply WrapFacts.tidy_inject; [exact Hi| |exact Hy].
        now apply WrapFacts.tidy_prop_truthy.
      - eapply WrapFacts.tidy_assign; [exact Hc| |exact Hinner].
        unfold Props.tidy_value, Gemini.new_systemInstruction.
        cbn [Gemini.skipped Js.is_undefined Js.is_null Js.is_string orb negb andb].
        rewrite WrapFacts.tidy_obj. cbn [forallb snd].
        unfold Props.tidy_value at 2.
        cbn [Gemini.skipped Js.is_undefined Js.is_null Js.is_string orb negb andb].
        rewrite WrapFacts.tidy_arr_cons. unfold Gemini.text_part.
        rewrite WrapFacts.tidy_obj. cbn [forallb snd]. rewrite Hi. reflexivity. }
    cbn [Js.prop Js.lookup String.eqb Ascii.eqb Bool.eqb].
    unfold Props.tidy in Ht. apply andb_prop in Ht.
    split; [exact (proj1 Ht)|]. split; [exact (proj2 Ht)|].
    intros key items Hk1 Hk2 Hb.
    exists (map (fun x => Gemini.deepCleanUndefined (Js.json_copy x)) items).
    split; [|split].
    + rewrite ArrayFacts.clean_generationConfig_elsewhere by exact Hk2.
      assert (Hin : Js.prop inner key
                    = Js.prop (Gemini.deepCleanUndefined (Js.json_copy body)) key).
      { cbv zeta in Hinner.
        destruct (Js.truthy (Js.prop (Gemini.deepCleanUndefined (Js.json_copy body))
                                     "systemInstruction")).
        - eapply ArrayFacts.update_elsewhere; [exact Hinner | congruence].
        - eapply ArrayFacts.assign_elsewhere; [exact Hinner | congruence]. }
      rewrite Hin. destruct body as [| | | | | |props]; try discriminate.
      cbn [Js.prop] in Hb. destruct (Js.lookup key props) as [x|] eqn:El; [|discriminate].
      subst x. change (Js.json_copy (Js.JObj props)) with (Js.JObj (Props.copied_entries props)).
      rewrite CleanFacts.clean_obj. cbn [Js.prop].
      rewrite (ArrayFacts.lookup_copy_clean key props (Js.JArr items) El eq_refl eq_refl).
      apply ArrayFacts.clean_copy_arr.
    + apply length_map.
    + intros i. rewrite nth_error_map.
      split; intros E; rewrite E; reflexivity.
  - intros items.
    exists (filter Props.defined (map Gemini.deepCleanUndefined items)).
    split; [apply CleanFacts.clean_arr|]. split.
    + now rewrite ArrayFacts.cleaned_items, length_map.
    + split; intros H; apply ArrayFacts.kept_in_array; auto.
  - intros convert uuid req projectId payload.
    unfold RequestBuilder.buildCloudCodeRequest.
    destruct (Js.member req "model"); [|discriminate].
    destruct (convert req); [|discriminate].
    destruct (RequestBuilder.getRequestType _); [|discriminate].
    now intros [= <-].
  - intros convert derive uuid req projectId payload _.
    unfold RequestBuilderSession.buildCloudCodeRequest.
    destruct (Js.member req "model") as [[| | | | model | |]|]; try discriminate.
    destruct (convert req); [|discriminate].
    destruct (derive req); [|discriminate].
    destruct (Js.assign _ _ _); [|discriminate].
    now intros [= <-].
Qed.

(** The claim of C1 fails on a request with a [null] inside an array:
    the request is wrapped, and the [null] is still in the request
    field.  Cleaning keeps the elements [null] and ["[undefined]"] of an
    array. *)
Lemma wrapped_request_keeps_null_in_array :
  exists payload st',
    Gemini.wrapGeminiRequest Samples.codec "0000"
      (Js.JObj [("contents", Js.JArr [Js.JNull])]) "project-1" "gemini-3-flash"
      Samples.fresh_config
    = (Eff.Ok payload, st')
    /\ Props.keys payload
       = ["project"; "model"; "request"; "userAgent"; "requestId"; "requestType"]
    /\ Js.prop (Js.prop payload "request") "contents" = Js.JArr [Js.JNull]
    /\ Props.hole_free (Js.prop payload "request") = false
    /\ Gemini.deepCleanUndefined (Js.JArr [Js.JNull; Js.JStr "[undefined]"])
       = Js.JArr [Js.JNull; Js.JStr "[undefined]"].
Proof.
  eexists. eexists. split; [vm_compute; reflexivity|]. repeat split.
Qed.

Lemma wrapped_payload_fields_witness :
  exists payload,
    Props.keys payload
    = ["project"; "model"; "request"; "userAgent"; "requestId"; "requestType"]
    /\ Props.props_clean (Js.prop payload "request") = true
    /\ Js.is_json (Js.prop payload "request") = true
    /\ (exists kept,
          Js.prop (Js.prop payload "request") "contents" = Js.JArr kept
          /\ nth_error kept 0 = Some Js.JNull
          /\ nth_error kept 1 = Some (Js.JStr "[undefined]")).
Proof.
  eexists.
  destruct (proj1 wrapped_payload_fields Samples.codec "0000"
              (Js.JObj [("contents", Js.JArr [Js.JNull; Js.JStr "[undefined]"]);
                        ("tools", Js.JNull)])
              "project-1" "gemini-3-flash" Samples.fresh_config
              _ _ GatewayConfig.DEFAULT_SYSTEM_INSTRUCTION _
              ltac:(vm_compute; reflexivity) ltac:(discriminate)
              eq_refl eq_refl ltac:(vm_compute; reflexivity))
    as [Hk [Hp [Hj Ha]]].
  split; [exact Hk|]. split; [exact Hp|]. split; [exact Hj|].
  destruct (Ha "contents" [Js.JNull; Js.JStr "[undefined]"]
              ltac:(discriminate) ltac:(discriminate) eq_refl)
    as [kept [Hc [_ Hn]]].
  exists kept. split; [exact Hc|].
  split; [apply (proj1 (Hn 0)) | apply (proj2 (Hn 1))]; reflexivity.
Defined.

(** ** Text search *)

Module TextFacts.
Import Text.

Lemma startsWith_spec p s :
  startsWith p s = true <-> exists post, s = p ++ post.
Proof.
  revert s. induction p as [|a p IH]; intros s; cbn.
  - split; [intros _; now exists s | reflexivity].
  - destruct s as [|b s]; cbn.
    + split; [discriminate | intros [post H]; discriminate].
    + rewrite andb_true_iff, Ascii.eqb_eq, IH. split.
      * intros [-> [post ->]]. now exists post.
      * intros [post H]. inversion H. split; [reflexivity | now exists post].
Qed.

Lemma includes_spec needle s :
  includes needle s = true <-> occurs_in needle s.
Proof.
  unfold occurs_in. split.
  - induction s as [|c s IH]; cbn [includes]; rewrite orb_true_iff.
    + intros [H|H]; [|discriminate].
      apply startsWith_spec in H. destruct H as [post H]. now exists "", post.
    + intros [H|H].
      * apply startsWith_spec in H. destruct H as [post H]. now exists "", post.
      * destruct (IH H) as [pre [post ->]]. now exists (String c pre), post.
  - intros [pre [post ->]]. induction pre as [|c pre IH].
    + assert (H : startsWith needle (needle ++ post) = true)
        by (apply startsWith_spec; now exists post).
      cbn [append]. destruct (needle ++ post); cbn [includes]; now rewrite H.
    + cbn [append includes]. rewrite IH. apply orb_true_r.
Qed.

Lemma append_assoc (a b c : string) : (a ++ b) ++ c = a ++ b ++ c.
Proof. induction a as [|x a IH]; cbn; [reflexivity | now rewrite IH]. Qed.

Lemma occurs_in_trans a b c : occurs_in a b -> occurs_in b c -> occurs_in a c.
Proof.
  intros [p1 [q1 ->]] [p2 [q2 ->]]. exists (p2 ++ p1), (q1 ++ q2).
  now rewrite !append_assoc.
Qed.

End TextFacts.

(** ** The system instruction in the wrapped request *)

Module IdentityFacts.
Import Js Eff Gemini Props CleanFacts.

Lemma some_identity_false parts :
  some_identity parts = Some false ->
  forall p, In p parts -> has_identity_text p = Some false.
Proof.
  induction parts as [|q rest IH]; cbn; [intros _ p []|].
  destruct (has_identity_text q) as [[|]|] eqn:E; try discriminate.
  intros H p [<-|Hp]; auto.
Qed.

(** A part whose text contains the sentinel is recognised. *)
Lemma has_identity_text_sentinel p t :
  prop p "text" = JStr t ->
  Text.includes "You are Antigravity" t = true ->
  has_identity_text p = Some true.
Proof.
  intros Hp Ht. unfold has_identity_text, member.
  destruct p; try discriminate. cbn [nullish is_null is_undefined orb].
  rewrite Hp. cbn [truthy]. rewrite Ht.
  destruct (String.eqb t "") eqn:E; [|reflexivity].
  apply String.eqb_eq in E. subst t. discriminate.
Qed.

(** Parts whose texts hold no sentinel: the test of the handler finds
    none, and does not throw. *)
Lemma has_identity_text_without p :
  text_without_sentinel p -> has_identity_text p = Some false.
Proof.
  intros [Hn Ht]. unfold has_identity_text, member. rewrite Hn.
  destruct Ht as [Hf | [t [Hp Hi]]].
  - now rewrite Hf.
  - rewrite Hp, Hi. now destruct (truthy (JStr t)).
Qed.

Lemma some_identity_without parts :
  (forall p, In p parts -> text_without_sentinel p) ->
  some_identity parts = Some false.
Proof.
  induction parts as [|q rest IH]; [reflexivity|].
  intros H. cbn [some_identity].
  rewrite (has_identity_text_without q (H q (or_introl eq_refl))).
  apply IH. intros p Hp. apply H. now right.
Qed.

Lemma prop_assign_other target key key' v target' :
  assign target key' v = Some target' -> String.eqb key' key = false ->
  prop target' key = prop target key.
Proof.
  destruct target; cbn; try discriminate; intros [= <-] Hk; [reflexivity|].
  cbn. now rewrite ConfigFacts.lookup_set_prop_other.
Qed.

Lemma prop_assign_obj props key v :
  prop (JObj (set_prop key v props)) key = v.
Proof. cbn. now rewrite ConfigFacts.lookup_set_prop. Qed.

Lemma prop_update target key f target' :
  update target key f = Some target' ->
  f (prop target key) = Some (prop target' key).
Proof.
  destruct target; cbn -[prop]; try discriminate.
  destruct (f (prop (JObj props) key)) eqn:E; [|discriminate].
  intros [= <-]. now rewrite prop_assign_obj.
Qed.

Lemma prop_clean_generationConfig v key :
  String.eqb "generationConfig" key = false ->
  prop (clean_generationConfig v) key = prop v key.
Proof.
  intros Hk. unfold clean_generationConfig. destruct v; auto.
  destruct (prop (JObj props) "generationConfig"); auto.
  cbn. now rewrite ConfigFacts.lookup_set_prop_other.
Qed.

(** The object that [inject_identity] works on, with its role set. *)
Lemma inject_parts identity systemInstruction result parts :
  inject_identity identity systemInstruction = Some result ->
  prop systemInstruction "parts" = JArr parts ->
  exists found,
    some_identity parts = Some found
    /\ prop result "parts"
       = if found then JArr parts else JArr (text_part identity :: parts).
Proof.
  unfold inject_identity. intros H Hp.
  destruct (if truthy (prop systemInstruction "role") then Some systemInstruction
            else assign systemInstruction "role" (JStr "user")) as [withRole|] eqn:E;
    [|discriminate].
  assert (Hw : prop withRole "parts" = JArr parts).
  { destruct (truthy (prop systemInstruction "role")).
    - inversion E; subst. exact Hp.
    - rewrite (prop_assign_other _ "parts" _ _ _ E eq_refl). exact Hp. }
  rewrite Hw in H.
  destruct (some_identity parts) as [[|]|]; try discriminate.
  - inversion H; subst. exists true. auto.
  - exists false. split; [reflexivity|].
    destruct withRole; cbn in H, Hw; try discriminate; inversion H; subst.
    apply prop_assign_obj.
Qed.

Lemma copy_obj props : json_copy (JObj props) = JObj (copied_entries props).
Proof. reflexivity. Qed.

Lemma copied_entries_cons key v rest :
  copied_entries ((key, v) :: rest) =
  if is_undefined v then copied_entries rest
  else (key, json_copy v) :: copied_entries rest.
Proof. unfold copied_entries. simpl. destruct (is_undefined v); reflexivity. Qed.

Lemma lookup_absent_copy_clean key props :
  lookup key props = None ->
  prop (deepCleanUndefined (json_copy (JObj props))) key = JUndefined.
Proof.
  intros H. rewrite copy_obj, clean_obj. cbn [prop].
  assert (G : lookup key (cleaned_entries (copied_entries props)) = None).
  { induction props as [|[k x] rest IH]; [reflexivity|].
    cbn [lookup] in H. destruct (String.eqb k key) eqn:E; [discriminate|].
    specialize (IH H). rewrite copied_entries_cons.
    destruct (is_undefined x); [exact IH|].
    rewrite cleaned_entries_cons.
    destruct (skipped (json_copy x)); [exact IH|].
    cbn [lookup]. rewrite E. exact IH. }
  now rewrite G.
Qed.

End IdentityFacts.

(** C4, as the code has it.  A request object that [wrapGeminiRequest]
    wraps, the configured instruction being a string and no object of
    the request having a property named [__proto__], carries the
    instruction as follows.  When the request has no systemInstruction
    (none, or a falsy one), one is created with role [user] and the
    configured instruction as its single text part.  When the text of
    some part of the request's systemInstruction parts contains
    [You are Antigravity], no part is added; so none is added when a part
    contains the configured instruction and that instruction contains
    [You are Antigravity].  When no part's text contains
    [You are Antigravity] (every part being an object whose text is
    missing, empty or a string without it), the configured instruction
    is added in front of the parts. *)
Theorem identity_prepended_unless_present :
  forall (J : Js.json_codec) uuid props projectId model st payload st' instr st1,
    GatewayConfig.getSystemInstruction J st = (Eff.Ok (Js.JStr instr), st1) ->
    Js.plain (Js.JObj props) = true ->
    Gemini.wrapGeminiRequest J uuid (Js.JObj props) projectId model st
    = (Eff.Ok payload, st') ->
    let incoming :=
      Js.prop (Gemini.deepCleanUndefined (Js.json_copy (Js.JObj props)))
              "systemInstruction" in
    let outgoing := Js.prop (Js.prop payload "request") "systemInstruction" in
    let created : Js.value :=
      (Js.JObj [("role", Js.JStr "user");
                ("parts", Js.JArr [Js.JObj [("text", Js.JStr instr)]])]) in
    (Js.lookup "systemInstruction" props = None -> outgoing = created)
    /\
    (Js.truthy incoming = false -> outgoing = created)
    /\
    (forall parts,
       Js.truthy incoming = true ->
       Js.prop incoming "parts" = Js.JArr parts ->
       (exists p t, In p parts /\ Js.prop p "text" = Js.JStr t
                    /\ Text.includes "You are Antigravity" t = true) ->
       Js.prop outgoing "parts" = Js.JArr parts)
    /\
    (forall parts,
       Text.includes "You are Antigravity" instr = true ->
       Js.truthy incoming = true ->
       Js.prop incoming "parts" = Js.JArr parts ->
       (exists p t, In p parts /\ Js.prop p "text" = Js.JStr t
                    /\ Text.occurs_in instr t) ->
       Js.prop outgoing "parts" = Js.JArr parts)
    /\
    (forall parts,
       Js.truthy incoming = true ->
       Js.prop incoming "parts" = Js.JArr parts ->
       (forall p, In p parts -> Props.text_without_sentinel p) ->
       Js.prop outgoing "parts"
       = Js.JArr (Js.JObj [("text", Js.JStr instr)] :: parts)).
Proof.
  intros J uuid props projectId model st payload st' instr st1 Hs _ Hw
         incoming outgoing created.
  destruct (WrapFacts.wrap_returns _ _ _ _ _ _ _ _ Hw)
    as [identity [inner [Hid [Hinner ->]]]].
  rewrite Hs in Hid. inversion Hid; subst identity st1. clear Hid.
  cbv zeta in Hinner. fold incoming in Hinner.
  assert (Hout : outgoing = Js.prop inner "systemInstruction").
  { subst outgoing. cbn [Js.prop Js.lookup String.eqb Ascii.eqb Bool.eqb].
    now apply IdentityFacts.prop_clean_generationConfig. }
  assert (Hfalsy : Js.truthy incoming = false -> outgoing = created).
  { intros Hf. rewrite Hf in Hinner. rewrite Hout.
    rewrite IdentityFacts.copy_obj, CleanFacts.clean_obj in Hinner.
    cbn in Hinner. inversion Hinner; subst inner.
    now rewrite IdentityFacts.prop_assign_obj. }
  assert (Hsentinel : forall parts,
            Js.truthy incoming = true ->
            Js.prop incoming "parts" = Js.JArr parts ->
            (exists p t, In p parts /\ Js.prop p "text" = Js.JStr t
                         /\ Text.includes "You are Antigravity" t = true) ->
            Js.prop outgoing "parts" = Js.JArr parts).
  { intros parts Ht Hp [p [t [Hin [Hpt Hinc]]]].
    rewrite Ht in Hinner. apply IdentityFacts.prop_update in Hinner.
    fold incoming in Hinner. rewrite <- Hout in Hinner.
    destruct (IdentityFacts.inject_parts _ _ _ _ Hinner Hp) as [found [Hsome ->]].
    destruct found; [reflexivity|].
    pose proof (IdentityFacts.some_identity_false _ Hsome p Hin) as Hno.
    rewrite (IdentityFacts.has_identity_text_sentinel p t Hpt Hinc) in Hno.
    discriminate. }
  split; [|split; [|split; [|split]]].
  - intros Hl. apply Hfalsy. subst incoming.
    now rewrite IdentityFacts.lookup_absent_copy_clean.
  - exact Hfalsy.
  - exact Hsentinel.
  - intros parts Hinstr Ht Hp [p [t [Hin [Hpt Hocc]]]].
    apply (Hsentinel parts Ht Hp). exists p, t. split; [exact Hin|].
    split; [exact Hpt|].
    apply TextFacts.includes_spec.
    eapply TextFacts.occurs_in_trans; [|exact Hocc].
    now apply TextFacts.includes_spec.
  - intros parts Ht Hp Hnone.
    pose proof (IdentityFacts.some_identity_without parts Hnone) as Hsome.
    rewrite Ht in Hinner. apply IdentityFacts.prop_update in Hinner.
    fold incoming in Hinner. rewrite <- Hout in Hinner.
    destruct (IdentityFacts.inject_parts _ _ _ _ Hinner Hp) as [found [Hsome' ->]].
    rewrite Hsome in Hsome'. now inversion Hsome'.
Qed.

(** The claim of C4 fails on a part that holds the sentinel and not the
    configured instruction: the default instruction is configured, the
    request's only part reads [You are Antigravity.], which does not
    contain the default instruction; no part is added. *)
Lemma sentinel_alone_blocks_the_instruction :
  exists payload st',
    GatewayConfig.getSystemInstruction Samples.codec Samples.fresh_config
    = (Eff.Ok (Js.JStr GatewayConfig.DEFAULT_SYSTEM_INSTRUCTION), st')
    /\ Gemini.wrapGeminiRequest Samples.codec "0000"
         (Js.JObj IdentitySamples.request_with_sentinel) "project-1" "gemini-3-flash"
         Samples.fresh_config
       = (Eff.Ok payload, st')
    /\ Js.prop (Js.prop (Js.prop payload "request") "systemInstruction") "parts"
       = Js.JArr [Gemini.text_part (Js.JStr "You are Antigravity.")]
    /\ Text.includes GatewayConfig.DEFAULT_SYSTEM_INSTRUCTION "You are Antigravity."
       = false.
Proof.
  eexists. eexists. split; [vm_compute; reflexivity|].
  split; [vm_compute; reflexivity|]. split; reflexivity.
Qed.

Lemma identity_prepended_unless_present_witness :
  (exists payload st',
     Gemini.wrapGeminiRequest Samples.codec "0000"
       (Js.JObj IdentitySamples.plain_request) "project-1" "gemini-3-flash"
       Samples.fresh_config = (Eff.Ok payload, st')
     /\ Js.prop (Js.prop payload "request") "systemInstruction"
        = Js.JObj [("role", Js.JStr "user");
                   ("parts",
                    Js.JArr [Js.JObj [("text",
                       Js.JStr GatewayConfig.DEFAULT_SYSTEM_INSTRUCTION)]])])
  /\
  (exists payload st',
     Gemini.wrapGeminiRequest Samples.codec "0000"
       (Js.JObj IdentitySamples.request_with_identity) "project-1" "gemini-3-flash"
       Samples.fresh_config = (Eff.Ok payload, st')
     /\ Js.prop (Js.prop (Js.prop payload "request") "systemInstruction") "parts"
        = Js.JArr [Gemini.text_part
                     (Js.JStr ("Context. " ++ GatewayConfig.DEFAULT_SYSTEM_INSTRUCTION))])
  /\
  (exists payload st',
     Gemini.wrapGeminiRequest Samples.codec "0000"
       (Js.JObj IdentitySamples.request_without_sentinel) "project-1" "gemini-3-flash"
       Samples.fresh_config = (Eff.Ok payload, st')
     /\ Js.prop (Js.prop (Js.prop payload "request") "systemInstruction") "parts"
        = Js.JArr [Js.JObj [("text", Js.JStr GatewayConfig.DEFAULT_SYSTEM_INSTRUCTION)];
                   Gemini.text_part (Js.JStr "Be brief.");
                   Js.JObj []]).
Proof.
  split; [|split].
  - eexists. eexists. split; [vm_compute; reflexivity|].
    refine (proj1 (identity_prepended_unless_present Samples.codec "0000"
                     IdentitySamples.plain_request "project-1" "gemini-3-flash"
                     Samples.fresh_config _ _
                     GatewayConfig.DEFAULT_SYSTEM_INSTRUCTION _ _ _ _) _).
    + vm_compute. reflexivity.
    + reflexivity.
    + vm_compute. reflexivity.
    + reflexivity.
  - eexists. eexists. split; [vm_compute; reflexivity|].
    refine (proj1 (proj2 (proj2 (proj2
              (identity_prepended_unless_present Samples.codec "0000"
                 IdentitySamples.request_with_identity "project-1" "gemini-3-flash"
                 Samples.fresh_config _ _
                 GatewayConfig.DEFAULT_SYSTEM_INSTRUCTION _ _ _ _)))) _ _ _ _ _).
    + vm_compute. reflexivity.
    + reflexivity.
    + vm_compute. reflexivity.
    + reflexivity.
    + reflexivity.
    + vm_compute. reflexivity.
    + eexists. eexists. split; [left; reflexivity|]. split; [reflexivity|].
      exists "Context. ", "". vm_compute. reflexivity.
  - eexists. eexists. split; [vm_compute; reflexivity|].
    refine (proj2 (proj2 (proj2 (proj2
              (identity_prepended_unless_present Samples.codec "0000"
                 IdentitySamples.request_without_sentinel "project-1" "gemini-3-flash"
                 Samples.fresh_config _ _
                 GatewayConfig.DEFAULT_SYSTEM_INSTRUCTION _ _ _ _)))) _ _ _ _).
    + vm_compute. reflexivity.
    + reflexivity.
    + vm_compute. reflexivity.
    + reflexivity.
    + vm_compute. reflexivity.
    + intros p [<- | [<- | []]].
      * split; [reflexivity|]. right. exists "Be brief.". split; reflexivity.
      * split; [reflexivity|]. left. reflexivity.
Defined.

(** ** The handler, step by step *)

Module HandlerFacts.
Import Js Eff Gemini Props.

Lemma emit_run e w : emit e w = (Ok tt, logged [e] w).
Proof. reflexivity. Qed.

Lemma logged_logged a b w : logged b (logged a w) = logged (a ++ b)%list w.
Proof. unfold logged. cbn. now rewrite app_assoc. Qed.

Lemma logged_nil w : logged [] w = w.
Proof. unfold logged. rewrite app_nil_r. now destruct w. Qed.

Lemma headersSent_logged evs w :
  headersSent (logged evs w) = headersSent w || existsb commits evs.
Proof. unfold headersSent, logged. cbn. apply existsb_app. Qed.

Lemma res_status_run code w : res_status code w = (Ok tt, logged [Status code] w).
Proof. reflexivity. Qed.

Lemma res_json_run v w :
  headersSent w = false -> res_json v w = (Ok tt, logged [Json v] w).
Proof. intros H. unfold res_json, bind, get. now rewrite H. Qed.

Lemma res_send_run v w :
  headersSent w = false -> res_send v w = (Ok tt, logged [Send v] w).
Proof. intros H. unfold res_send, bind, get. now rewrite H. Qed.

Lemma res_setHeader_run name content w :
  headersSent w = false ->
  res_setHeader name content w = (Ok tt, logged [SetHeader name content] w).
Proof. intros H. unfold res_setHeader, bind, get. now rewrite H. Qed.

Lemma res_setHeader_sent name content w :
  headersSent w = true ->
  res_setHeader name content w = (Throw ERR_HTTP_HEADERS_SENT, w).
Proof. intros H. unfold res_setHeader, bind, get. now rewrite H. Qed.

(** The status the caller sees, when headers go out with the last
    event. *)
Lemma status_before_commit_app code evs rest :
  existsb commits evs = false ->
  status_before_commit code (evs ++ rest)
  = status_before_commit (status_before_commit code evs) rest.
Proof.
  revert code. induction evs as [|e evs IH]; intros code H; [reflexivity|].
  cbn in H. apply orb_false_elim in H. destruct H as [He Hevs].
  destruct e; cbn in He |- *; try discriminate; auto.
Qed.

Lemma sent_status_answer w code e :
  headersSent w = false -> commits e = true ->
  (forall c, e <> Status c) ->
  sent_status (logged [Status code; e] w) = code.
Proof.
  intros Hw He Hne. unfold sent_status, logged. cbn [log].
  rewrite status_before_commit_app by exact Hw.
  cbn. destruct e; cbn in He |- *; try discriminate; try reflexivity.
Qed.

Lemma sent_body_answer w evs :
  headersSent w = false ->
  sent_body (logged evs w) = filter is_output evs.
Proof.
  intros Hw. unfold sent_body, logged. cbn [log]. rewrite filter_app.
  assert (H : filter is_output (log w) = []).
  { unfold headersSent in Hw. induction (log w) as [|e l IH]; [reflexivity|].
    cbn in Hw. apply orb_false_elim in Hw. destruct Hw as [He Hl].
    cbn. destruct e; cbn in He |- *; try discriminate; auto. }
  now rewrite H.
Qed.

Section WithJson.
Variable J : json_codec.

(** A non-2xx answer other than 429 and 404, before anything was sent
    to the caller. *)
Lemma handle_error_response isStream r content w :
  status r <> 429%Z -> status r <> 404%Z -> response_ok r = false ->
  text r = inr content -> headersSent w = false ->
  handle_response J isStream r w
  = (Ok Return,
     logged [Status (status r);
             match parse J content with
             | Some errorJson => Json errorJson
             | None => Send content
             end] w).
Proof.
  intros H429 H404 Hok Ht Hw. unfold handle_response.
  apply Z.eqb_neq in H429. apply Z.eqb_neq in H404.
  rewrite H429, H404, Hok. cbn [negb].
  unfold response_text. rewrite Ht.
  unfold bind at 1. cbn [ret]. unfold try_catch.
  destruct (parse J content) as [errorJson|]; cbn [or_throw].
  - unfold bind at 1. cbn [ret]. unfold bind at 1. rewrite res_status_run.
    unfold bind at 1. rewrite res_json_run
      by (rewrite headersSent_logged, Hw; reflexivity).
    cbn [ret]. now rewrite logged_logged.
  - unfold bind at 1. cbn [throw]. unfold bind at 1. rewrite res_status_run.
    unfold bind at 1. rewrite res_send_run
      by (rewrite headersSent_logged, Hw; reflexivity).
    cbn [ret]. now rewrite logged_logged.
Qed.

(** [try_endpoint] when the response is handled without a throw. *)
Lemma try_endpoint_handled U isStream attempt position endpoint token wrapped r w c w' :
  fetch U attempt position = Responded r ->
  handle_response J isStream r
    (logged [Fetch (upstream_url endpoint) ("Bearer " ++ token) wrapped] w)
  = (Ok c, w') ->
  try_endpoint J U isStream attempt position endpoint token wrapped w = (Ok c, w').
Proof.
  intros Hf Hh. unfold try_endpoint, try_catch, bind. rewrite emit_run, Hf, Hh.
  reflexivity.
Qed.

(** The first dispatch of a request: an account, a token, a project and
    a wrapped request are there, and the primary endpoint's answer makes
    the handler return. *)
Lemma handler_first_dispatch U req model method acct token project payload cfg' w w2 :
  parseModelAction (params0 req) = (model, method) ->
  method = "generateContent" \/ method = "streamGenerateContent" ->
  pickNext U 0 = Some acct ->
  getTokenForAccount U 0 = inr token ->
  getProjectForAccount U 0 = inr project ->
  wrapGeminiRequest J (randomUUID U 0) (req_body req) project model (config w)
  = (Ok payload, cfg') ->
  try_endpoint J U (isStream_of method req) 0 0
    "https://cloudcode-pa.googleapis.com" token payload
    {| config := cfg'; lastError := lastError w; log := (log w ++ [PickNext 0])%list |}
  = (Ok Return, w2) ->
  handleGeminiGenerate J U req w = (Ok tt, w2).
Proof.
  intros Hp Hm Hpick Htok Hproj Hwrap Htry.
  unfold handleGeminiGenerate. rewrite Hp.
  assert (Hvalid : negb (String.eqb method "generateContent")
                   && negb (String.eqb method "streamGenerateContent") = false)
    by (destruct Hm as [-> | ->]; reflexivity).
  rewrite Hvalid. unfold maxAttempts. cbn [attempts].
  unfold bind at 1. unfold bind at 1. unfold bind at 1. rewrite emit_run, Hpick.
  unfold bind at 1. unfold attempt_body, try_catch.
  unfold bind at 1. rewrite Htok. cbn [of_sum ret].
  unfold bind at 1. rewrite Hproj. cbn [of_sum ret].
  unfold bind at 1. unfold with_config, zoom. cbn [config logged].
  rewrite Hwrap. cbn [endpoints try_endpoints].
  unfold bind at 1. unfold logged. cbn [config lastError log].
  rewrite Htry. reflexivity.
Qed.

End WithJson.
End HandlerFacts.

(** C7, as the code has it.  When the upstream answers a dispatch with a
    non-2xx status other than 429 and 404, its body is readable and
    nothing was sent to the caller before, the handler returns with the
    upstream's status code; the body is the upstream body parsed and sent
    as JSON when it parses, and the upstream text sent as it is, in no
    envelope, when it does not.  This holds for the dispatch to any
    endpoint in any attempt, and so for the whole handler when the first
    dispatch is answered that way. *)
Theorem upstream_error_passed_on :
  forall (J : Js.json_codec) (U : Gemini.upstream) (r : Gemini.response) content,
    Gemini.status r <> 429%Z -> Gemini.status r <> 404%Z ->
    Gemini.response_ok r = false ->
    Gemini.text r = inr content ->
    let answer :=
      match Js.parse J content with
      | Some errorJson => Gemini.Json errorJson
      | None => Gemini.Send content
      end in
    (forall isStream attempt position endpoint token wrapped w,
        Gemini.fetch U attempt position = Gemini.Responded r ->
        Gemini.headersSent w = false ->
        exists w',
          Gemini.try_endpoint J U isStream attempt position endpoint token wrapped w
          = (Eff.Ok Gemini.Return, w')
          /\ Props.sent_status w' = Gemini.status r
          /\ Props.sent_body w' = [answer])
    /\
    (forall req model method acct token project payload cfg' w,
        Gemini.parseModelAction (Gemini.params0 req) = (model, method) ->
        method = "generateContent" \/ method = "streamGenerateContent" ->
        Gemini.pickNext U 0 = Some acct ->
        Gemini.getTokenForAccount U 0 = inr token ->
        Gemini.getProjectForAccount U 0 = inr project ->
        Gemini.wrapGeminiRequest J (Gemini.randomUUID U 0) (Gemini.req_body req)
          project model (Gemini.config w) = (Eff.Ok payload, cfg') ->
        Gemini.fetch U 0 0 = Gemini.Responded r ->
        Gemini.headersSent w = false ->
        exists w',
          Gemini.handleGeminiGenerate J U req w = (Eff.Ok tt, w')
          /\ Props.sent_status w' = Gemini.status r
          /\ Props.sent_body w' = [answer]).
Proof.
  intros J U r content H429 H404 Hok Ht answer.
  assert (A : forall isStream attempt position endpoint token wrapped w,
             Gemini.fetch U attempt position = Gemini.Responded r ->
             Gemini.headersSent w = false ->
             exists w',
               Gemini.try_endpoint J U isStream attempt position endpoint token wrapped w
               = (Eff.Ok Gemini.Return, w')
               /\ Props.sent_status w' = Gemini.status r
               /\ Props.sent_body w' = [answer]).
  { intros isStream attempt position endpoint token wrapped w Hf Hw.
    set (w1 := Props.logged
                 [Gemini.Fetch (Gemini.upstream_url endpoint) ("Bearer " ++ token) wrapped] w).
    assert (Hw1 : Gemini.headersSent w1 = false)
      by (subst w1; rewrite HandlerFacts.headersSent_logged, Hw; reflexivity).
    eexists. split; [|split].
    - eapply HandlerFacts.try_endpoint_handled; [exact Hf|].
      exact (HandlerFacts.handle_error_response J isStream r content w1
               H429 H404 Hok Ht Hw1).
    - apply HandlerFacts.sent_status_answer; [exact Hw1| |].
      + subst answer. now destruct (Js.parse J content).
      + subst answer. intros c. destruct (Js.parse J content); discriminate.
    - rewrite HandlerFacts.sent_body_answer by exact Hw1.
      subst answer. cbn. now destruct (Js.parse J content). }
  split; [exact A|].
  intros req model method acct token project payload cfg' w
         Hp Hm Hpick Htok Hproj Hwrap Hf Hw.
  destruct (A (Gemini.isStream_of method req) 0 0
              "https://cloudcode-pa.googleapis.com" token payload
              {| Gemini.config := cfg'; Gemini.lastError := Gemini.lastError w;
                 Gemini.log := (Gemini.log w ++ [Gemini.PickNext 0])%list |} Hf)
    as [w' [Htry [Hs Hb]]].
  { unfold Gemini.headersSent in *. cbn [Gemini.log].
    rewrite existsb_app, Hw. reflexivity. }
  exists w'. split; [|split; assumption].
  eapply HandlerFacts.handler_first_dispatch; eauto.
Qed.

(** The claim of C7 fails on a body that is not JSON: a 502 whose body
    is the text [Bad Gateway] reaches the caller as that text, and not
    as a JSON error envelope. *)
Lemma bad_gateway_text_is_not_wrapped :
  exists w',
    Gemini.handleGeminiGenerate Samples.codec
      (HandlerSamples.pool (fun _ _ => HandlerSamples.bad_gateway))
      HandlerSamples.generate HandlerSamples.world0
    = (Eff.Ok tt, w')
    /\ Props.sent_status w' = 502%Z
    /\ Props.sent_body w' = [Gemini.Send "Bad Gateway"]
    /\ forall envelope, Props.sent_body w' <> [Gemini.Json envelope].
Proof.
  eexists. split; [vm_compute; reflexivity|].
  split; [reflexivity|]. split; [reflexivity|].
  intros envelope. vm_compute. discriminate.
Qed.

Lemma upstream_error_passed_on_witness :
  exists w',
    Gemini.handleGeminiGenerate Samples.codec
      (HandlerSamples.pool (fun _ _ => HandlerSamples.bad_gateway))
      HandlerSamples.generate HandlerSamples.world0
    = (Eff.Ok tt, w')
    /\ Props.sent_status w' = 502%Z
    /\ Props.sent_body w' = [Gemini.Send "Bad Gateway"].
Proof.
  refine (proj2 (upstream_error_passed_on Samples.codec
                   (HandlerSamples.pool (fun _ _ => HandlerSamples.bad_gateway))
                   {| Gemini.status := 502; Gemini.text := inr "Bad Gateway";
                      Gemini.body := Some [] |}
                   "Bad Gateway" _ _ _ _)
                HandlerSamples.generate "gemini-3-flash" "generateContent"
                {| Gemini.email := "user@example.com" |} "token" "project-1"
                _ _ HandlerSamples.world0 _ _ _ _ _ _ _ _).
  - discriminate.
  - discriminate.
  - reflexivity.
  - reflexivity.
  - reflexivity.
  - left. reflexivity.
  - reflexivity.
  - reflexivity.
  - reflexivity.
  - vm_compute. reflexivity.
  - reflexivity.
  - reflexivity.
Defined.

(** ** What a computation can add to the log, and what it can return *)

Module LogFacts.
Import Js Eff Gemini Props.

Section Grows.
Variable Q : event -> bool.

Lemma grows_ret {A} (a : A) : grows Q (ret a).
Proof. intros w. exists []. cbn. now rewrite app_nil_r. Qed.

Lemma grows_throw {A} e : grows Q (@throw world A e).
Proof. intros w. exists []. cbn. now rewrite app_nil_r. Qed.

Lemma grows_hang {A} : grows Q (@hang world A).
Proof. intros w. exists []. cbn. now rewrite app_nil_r. Qed.

Lemma grows_get : grows Q (@get world).
Proof. intros w. exists []. cbn. now rewrite app_nil_r. Qed.

Lemma grows_emit e : Q e = true -> grows Q (emit e).
Proof. intros H w. exists [e]. cbn. now rewrite H. Qed.

Lemma grows_set_lastError m : grows Q (set_lastError m).
Proof. intros w. exists []. cbn. now rewrite app_nil_r. Qed.

Lemma grows_or_throw {A} m (o : option A) : grows Q (or_throw m o).
Proof. destruct o; [apply grows_ret | apply grows_throw]. Qed.

Lemma grows_of_sum {A} (r : string + A) : grows Q (of_sum r).
Proof. destruct r; [apply grows_throw | apply grows_ret]. Qed.

Lemma grows_with_config {A} (c : M GatewayConfig.state A) : grows Q (with_config c).
Proof.
  intros w. exists []. unfold with_config, zoom.
  destruct (c (config w)) as [r t']. cbn. now rewrite app_nil_r.
Qed.

Lemma grows_bind {A B} (c : M world A) (k : A -> M world B) :
  grows Q c -> (forall a, grows Q (k a)) -> grows Q (bind c k).
Proof.
  intros Hc Hk w. destruct (Hc w) as [evs [E HQ]]. unfold bind.
  destruct (c w) as [[a|e|] w1]; cbn in E |- *; try (now exists evs).
  destruct (Hk a w1) as [evs' [E' HQ']]. exists (evs ++ evs')%list.
  rewrite E', E, app_assoc, forallb_app, HQ, HQ'. auto.
Qed.

Lemma grows_try_catch {A} (c : M world A) (h : string -> M world A) :
  grows Q c -> (forall e, grows Q (h e)) -> grows Q (try_catch c h).
Proof.
  intros Hc Hh w. destruct (Hc w) as [evs [E HQ]]. unfold try_catch.
  destruct (c w) as [[a|e|] w1]; cbn in E |- *; try (now exists evs).
  destruct (Hh e w1) as [evs' [E' HQ']]. exists (evs ++ evs')%list.
  rewrite E', E, app_assoc, forallb_app, HQ, HQ'. auto.
Qed.

Lemma grows_try_finally {A} (c : M world A) (f : M world unit) :
  grows Q c -> grows Q f -> grows Q (try_finally c f).
Proof.
  intros Hc Hf w. destruct (Hc w) as [evs [E HQ]]. unfold try_finally.
  destruct (c w) as [[a|e|] w1]; cbn in E |- *; try (now exists evs).
  - destruct (Hf w1) as [evs' [E' HQ']]. exists (evs ++ evs')%list.
    destruct (f w1) as [[[]|e'|] w2]; cbn in E' |- *;
      rewrite E', E, app_assoc, forallb_app, HQ, HQ'; auto.
  - destruct (Hf w1) as [evs' [E' HQ']]. exists (evs ++ evs')%list.
    destruct (f w1) as [[[]|e'|] w2]; cbn in E' |- *;
      rewrite E', E, app_assoc, forallb_app, HQ, HQ'; auto.
Qed.

End Grows.

Lemma grows_weaken (Q Q' : event -> bool) {A} (c : M world A) :
  (forall e, Q e = true -> Q' e = true) -> grows Q c -> grows Q' c.
Proof.
  intros H Hc w. destruct (Hc w) as [evs [E HQ]]. exists evs. split; [exact E|].
  rewrite forallb_forall in *. auto.
Qed.

Section Yields.
Context {A : Type} (P : A -> Prop).

Lemma yields_ret a : P a -> yields P (ret a).
Proof. intros H w b w' E. cbn in E. now inversion E; subst. Qed.

Lemma yields_throw e : yields P (throw e).
Proof. intros w b w' E. discriminate E. Qed.

Lemma yields_hang : yields P hang.
Proof. intros w b w' E. discriminate E. Qed.

Lemma yields_bind {B} (c : M world B) (k : B -> M world A) :
  (forall b, yields P (k b)) -> yields P (bind c k).
Proof.
  intros Hk w a w' E. apply EffFacts.bind_Ok in E.
  destruct E as [b [w1 [_ E]]]. exact (Hk b w1 a w' E).
Qed.

Lemma yields_try_catch (c : M world A) (h : string -> M world A) :
  yields P c -> (forall e, yields P (h e)) -> yields P (try_catch c h).
Proof.
  intros Hc Hh w a w' E. unfold try_catch in E.
  destruct (c w) as [[b|e|] w1] eqn:Ec; try discriminate.
  - inversion E; subst. exact (Hc w a w' Ec).
  - exact (Hh e w1 a w' E).
Qed.

Lemma yields_try_finally (c : M world A) (f : M world unit) :
  yields P c -> yields P (try_finally c f).
Proof.
  intros Hc w a w' E. unfold try_finally in E.
  destruct (c w) as [[b|e|] w1] eqn:Ec; try discriminate;
    destruct (f w1) as [[[]|e'|] w2]; try discriminate.
  inversion E; subst. exact (Hc w a w1 Ec).
Qed.

End Yields.

Section WithJson.
Variable J : json_codec.

Ltac grows_step :=
  first
    [ apply grows_ret | apply grows_throw | apply grows_hang | apply grows_get
    | apply grows_set_lastError | apply grows_or_throw
    | apply grows_emit; reflexivity
    | apply grows_bind; [|intros ?]
    | apply grows_try_catch; [|intros ?]
    | apply grows_try_finally
    | match goal with
      | |- grows _ (match ?x with _ => _ end) => destruct x
      | |- grows _ (if ?x then _ else _) => destruct x
      | |- grows _ (let (_, _) := ?x in _) => destruct x
      end ].

Lemma grows_settle Q result : grows Q (settle result).
Proof. unfold settle. repeat grows_step. Qed.

Lemma grows_await_read r : grows read_event (await_read r).
Proof. unfold await_read. repeat grows_step. apply grows_settle. Qed.

Lemma grows_await_read_race ms r : grows read_event (await_read_race ms r).
Proof. unfold await_read_race. repeat grows_step; apply grows_settle. Qed.

Lemma grows_merge_reads d reads buffer m :
  grows read_event (merge_reads J d reads buffer m).
Proof.
  revert d buffer m.
  induction reads as [|r rest IH]; intros d buffer m; cbn [merge_reads].
  - repeat grows_step.
  - apply grows_bind.
    + apply grows_try_catch; [apply grows_await_read | intros ?; apply grows_ret].
    + intros [bytes|]; [|apply grows_ret].
      destruct (decode J d bytes) as [d' chunk].
      destruct (Text.pop_last _). apply IH.
Qed.

Lemma grows_getReader Q r : grows Q (getReader r).
Proof. unfold getReader. apply grows_or_throw. Qed.

Lemma grows_res_setHeader name content : grows local_event (res_setHeader name content).
Proof. unfold res_setHeader. repeat grows_step. Qed.


Lemma grows_res_send v : grows local_event (res_send v).
Proof. unfold res_send. repeat grows_step. Qed.

Lemma grows_forward_line line : grows local_event (forward_line J line).
Proof. unfold forward_line, res_write. repeat grows_step. Qed.

Lemma grows_forward_lines lines : grows local_event (forward_lines J lines).
Proof.
  induction lines as [|line rest IH]; cbn [forward_lines]; [apply grows_ret|].
  apply grows_bind; [apply grows_forward_line | intros _; exact IH].
Qed.

Lemma grows_forward_chunk buffer bytes :
  grows local_event (forward_chunk J buffer bytes).
Proof.
  unfold forward_chunk. destruct (Text.pop_last _).
  apply grows_bind; [apply grows_forward_lines | intros _; apply grows_ret].
Qed.

Lemma read_is_local e : read_event e = true -> local_event e = true.
Proof. destruct e; cbn; auto; discriminate. Qed.

Lemma grows_forward_rest d reads buffer :
  grows local_event (forward_rest J d reads buffer).
Proof.
  revert d buffer.
  induction reads as [|r rest IH]; intros d buffer; cbn [forward_rest].
  - repeat grows_step.
  - apply grows_bind.
    + eapply grows_weaken; [apply read_is_local | apply grows_await_read].
    + intros [bytes|]; [|apply grows_ret].
      destruct (decode J d bytes) as [d' chunk].
      apply grows_bind; [apply grows_forward_chunk | intros ?; apply IH].
Qed.

Lemma grows_respond_stream r : grows local_event (respond_stream J r).
Proof.
  unfold respond_stream.
  repeat (apply grows_bind; [apply grows_res_setHeader | intros _]).
  apply grows_bind; [apply grows_getReader | intros reads].
  apply grows_try_finally; [|unfold res_end; repeat grows_step].
  apply grows_try_catch.
  - destruct (next_read reads) as [first rest].
    apply grows_bind.
    + eapply grows_weaken; [apply read_is_local | apply grows_await_read_race].
    + intros [[|c bytes]|].
      * repeat grows_step.
      * destruct (decode J (fresh J) _) as [d firstChunk].
        apply grows_bind; [apply grows_forward_chunk | intros buffer].
        apply grows_bind; [apply grows_forward_rest | intros _; apply grows_ret].
      * repeat grows_step.
  - intros e. repeat grows_step.
Qed.

Lemma grows_respond_merged r : grows local_event (respond_merged J r).
Proof.
  unfold respond_merged. apply grows_bind; [apply grows_getReader | intros reads].
  apply grows_bind.
  - eapply grows_weaken; [apply read_is_local | apply grows_merge_reads].
  - intros m. unfold res_status. destruct (truthy (mergedResponse m)).
    + repeat grows_step.
    + repeat grows_step.
Qed.

Lemma grows_response_text r : grows local_event (response_text r).
Proof. unfold response_text. repeat grows_step. Qed.

Lemma grows_handle_response isStream r :
  grows local_event (handle_response J isStream r).
Proof.
  unfold handle_response, res_status.
  destruct (status r =? 429)%Z.
  { apply grows_bind; [apply grows_response_text | intros _; apply grows_ret]. }
  destruct (status r =? 404)%Z; [apply grows_ret|].
  destruct (negb (response_ok r)).
  { apply grows_bind; [apply grows_response_text | intros errorText].
    apply grows_try_catch.
    - repeat grows_step.
    - intros _. repeat grows_step. }
  destruct isStream; [apply grows_respond_stream | apply grows_respond_merged].
Qed.

(** The stream path returns [Break] or [Return], the merged path and an
    error answer [Return]: only a 429 and a 404 make the response
    handling return [Continue]. *)
Lemma yields_respond_stream r : yields (fun c => c <> Continue) (respond_stream J r).
Proof.
  unfold respond_stream. repeat (apply yields_bind; intros _).
  apply yields_bind. intros reads.
  apply yields_try_finally. apply yields_try_catch.
  - destruct (next_read reads) as [first rest].
    apply yields_bind. intros [[|c bytes]|];
      try destruct (decode J (fresh J) _) as [d firstChunk];
      repeat (apply yields_bind; intros ?); apply yields_ret; discriminate.
  - intros e. destruct (String.eqb e "Timeout").
    + apply yields_bind. intros _. apply yields_ret. discriminate.
    + apply yields_ret. discriminate.
Qed.

Lemma yields_respond_merged r : yields (fun c => c = Return) (respond_merged J r).
Proof.
  unfold respond_merged. apply yields_bind. intros reads. apply yields_bind. intros m.
  destruct (truthy (mergedResponse m));
    repeat (apply yields_bind; intros ?); now apply yields_ret.
Qed.

Lemma handle_response_continue isStream r w w' :
  handle_response J isStream r w = (Ok Continue, w') ->
  status r = 429%Z \/ status r = 404%Z.
Proof.
  unfold handle_response.
  destruct (status r =? 429)%Z eqn:E1; [apply Z.eqb_eq in E1; auto|].
  destruct (status r =? 404)%Z eqn:E2; [apply Z.eqb_eq in E2; auto|].
  intros H. exfalso.
  destruct (negb (response_ok r)).
  - assert (Hy : yields (fun c => c = Return)
               (bind (response_text r) (fun errorText =>
                  try_catch
                    (bind (or_throw "SyntaxError" (parse J errorText)) (fun errorJson =>
                       bind (res_status (status r)) (fun _ =>
                         bind (res_json errorJson) (fun _ => ret Return))))
                    (fun _ => bind (res_status (status r)) (fun _ =>
                                bind (res_send errorText) (fun _ => ret Return)))))).
    { apply yields_bind. intros errorText. apply yields_try_catch.
      - repeat (apply yields_bind; intros ?). now apply yields_ret.
      - intros _. repeat (apply yields_bind; intros ?). now apply yields_ret. }
    pose proof (Hy w Continue w' H) as Hc. discriminate Hc.
  - destruct isStream.
    + exact (yields_respond_stream r w Continue w' H eq_refl).
    + pose proof (yields_respond_merged r w Continue w' H). discriminate.
Qed.

End WithJson.
End LogFacts.

(** ** One endpoint after the other *)

Module EndpointFacts.
Import Js Eff Gemini Props HandlerFacts LogFacts.

Lemma local_no_urls evs :
  forallb local_event evs = true ->
  flat_map (fun e => match e with Fetch url _ _ => [url] | _ => [] end) evs = [].
Proof.
  induction evs as [|e evs IH]; [reflexivity|]. cbn [forallb].
  intros H. apply andb_prop in H. destruct H as [He Hevs].
  destruct e; cbn in He |- *; try discriminate; auto.
Qed.

Lemma reads_commit_nothing evs :
  forallb read_event evs = true -> existsb commits evs = false.
Proof.
  induction evs as [|e evs IH]; [reflexivity|]. cbn [forallb].
  intros H. apply andb_prop in H. destruct H as [He Hevs].
  destruct e; cbn in He |- *; try discriminate; auto.
Qed.

Section WithJson.
Variable J : json_codec.

(** Every run of the loop body logs its fetch first, and no other
    fetch. *)
Lemma try_endpoint_log U isStream attempt position endpoint token wrapped w :
  exists evs,
    log (snd (try_endpoint J U isStream attempt position endpoint token wrapped w))
    = (log w ++ Fetch (upstream_url endpoint) ("Bearer " ++ token) wrapped :: evs)%list
    /\ forallb local_event evs = true.
Proof.
  unfold try_endpoint, try_catch, bind. rewrite emit_run.
  destruct (fetch U attempt position) as [message|r].
  - exists []. cbn. split; reflexivity.
  - destruct (grows_handle_response J isStream r
                (logged [Fetch (upstream_url endpoint) ("Bearer " ++ token) wrapped] w))
      as [evs [E HQ]].
    exists evs. split; [|exact HQ].
    destruct (handle_response J isStream r _) as [[c|e|] w1]; cbn in E |- *;
      rewrite E; cbn; now rewrite <- app_assoc.
Qed.

Lemma try_endpoint_urls U isStream attempt position endpoint token wrapped w :
  fetched_urls (snd (try_endpoint J U isStream attempt position endpoint token wrapped w))
  = (fetched_urls w ++ [upstream_url endpoint])%list.
Proof.
  destruct (try_endpoint_log U isStream attempt position endpoint token wrapped w)
    as [evs [E HQ]].
  unfold fetched_urls. rewrite E, flat_map_app. cbn [flat_map].
  now rewrite (local_no_urls evs HQ).
Qed.

(** The loop body asks for the next endpoint exactly on a network error,
    a 429, a 404, and an error thrown while the response is handled. *)
Lemma try_endpoint_continue U isStream attempt position endpoint token wrapped w :
  fst (try_endpoint J U isStream attempt position endpoint token wrapped w) = Ok Continue
  <->
  match fetch U attempt position with
  | NetworkError _ => True
  | Responded r =>
      status r = 429%Z \/ status r = 404%Z
      \/ exists e,
           fst (handle_response J isStream r
                  (logged [Fetch (upstream_url endpoint) ("Bearer " ++ token) wrapped] w))
           = Throw e
  end.
Proof.
  unfold try_endpoint, try_catch, bind. rewrite emit_run.
  destruct (fetch U attempt position) as [message|r]; [cbn; tauto|].
  set (w1 := logged _ w).
  destruct (handle_response J isStream r w1) as [[c|e|] w2] eqn:E; cbn [fst].
  - split.
    + intros [= ->]. apply handle_response_continue in E. tauto.
    + intros [H|[H|[e He]]]; try discriminate.
      * f_equal. unfold handle_response in E. apply Z.eqb_eq in H. rewrite H in E.
        apply EffFacts.bind_Ok in E. destruct E as [? [? [_ E]]].
        now inversion E.
      * f_equal. unfold handle_response in E.
        destruct (status r =? 429)%Z.
        -- apply EffFacts.bind_Ok in E. destruct E as [? [? [_ E]]]. now inversion E.
        -- apply Z.eqb_eq in H. rewrite H in E. now inversion E.
  - cbn. split; [|reflexivity]. intros _. right. right. now exists e.
  - split; [discriminate|]. intros [H|[H|[e He]]]; try discriminate.
    + exfalso. unfold handle_response in E. apply Z.eqb_eq in H. rewrite H in E.
      unfold bind, response_text in E. destruct (text r); discriminate.
    + exfalso. unfold handle_response in E.
      destruct (status r =? 429)%Z.
      * unfold bind, response_text in E. destruct (text r); discriminate.
      * apply Z.eqb_eq in H. rewrite H in E. discriminate.
Qed.

(** The non-streaming loop never throws, and sends nothing. *)
Lemma merge_reads_outcome d reads buffer m w :
  exists o w',
    merge_reads J d reads buffer m w = (o, w')
    /\ (o = Hang \/ exists m', o = Ok m')
    /\ config w' = config w /\ lastError w' = lastError w
    /\ headersSent w' = headersSent w.
Proof.
  revert d buffer m w.
  induction reads as [|r rest IH]; intros d buffer m w; cbn [merge_reads].
  - eexists. eexists. split; [reflexivity|]. split; [right; now eexists|].
    cbn. repeat split. unfold headersSent. cbn. rewrite existsb_app. cbn.
    now rewrite orb_false_r.
  - unfold bind at 1. unfold try_catch, await_read, bind. rewrite emit_run.
    assert (Hs : headersSent (logged [Read None] w) = headersSent w)
      by (rewrite headersSent_logged; cbn; now rewrite orb_false_r).
    destruct r as [after_ms [bytes| |message]|]; cbn.
    + destruct (decode J d bytes) as [d' chunk].
      destruct (IH d' (last (Text.split_LF (buffer ++ chunk)) "")
                   (fold_left (merge_line J)
                      (removelast (Text.split_LF (buffer ++ chunk))) m)
                   (logged [Read None] w))
        as [o [w' [E [Ho [Hc [Hl Hh]]]]]].
      exists o, w'. split; [exact E|]. split; [exact Ho|].
      rewrite Hc, Hl, Hh, Hs. auto.
    + eexists. eexists. split; [reflexivity|]. split; [right; now eexists|]. auto.
    + eexists. eexists. split; [reflexivity|]. split; [right; now eexists|]. auto.
    + eexists. eexists. split; [reflexivity|]. split; [now left|]. auto.
Qed.

(** A streamed answer, with nothing sent before, ends the endpoint
    loop: the path returns, breaks, or waits on a read for ever. *)
Lemma getReader_run r reads w :
  body r = Some reads -> getReader r w = (Ok reads, w).
Proof. intros H. unfold getReader. now rewrite H. Qed.

Lemma getReader_null r w :
  body r = None -> getReader r w = (Throw NULL_BODY, w).
Proof. intros H. unfold getReader. now rewrite H. Qed.

(** An answer without a body: reading it throws, after the headers of a
    stream are set and before anything is sent. *)
Lemma respond_stream_null r w :
  headersSent w = false -> body r = None ->
  exists w',
    respond_stream J r w = (Throw NULL_BODY, w') /\ headersSent w' = false.
Proof.
  intros Hw Hb. unfold respond_stream.
  unfold bind at 1. rewrite res_setHeader_run by exact Hw.
  unfold bind at 1.
  rewrite res_setHeader_run by (rewrite headersSent_logged, Hw; reflexivity).
  unfold bind at 1.
  rewrite res_setHeader_run by (rewrite !headersSent_logged, Hw; reflexivity).
  unfold bind at 1. rewrite getReader_null by exact Hb.
  eexists. split; [reflexivity|]. now rewrite !headersSent_logged, Hw.
Qed.

Lemma respond_merged_null r w :
  body r = None -> respond_merged J r w = (Throw NULL_BODY, w).
Proof.
  intros Hb. unfold respond_merged. unfold bind at 1.
  now rewrite getReader_null by exact Hb.
Qed.

Lemma respond_stream_fresh r reads w :
  headersSent w = false -> body r = Some reads ->
  exists o w',
    respond_stream J r w = (o, w')
    /\ (o = Ok Break \/ o = Ok Return \/ o = Hang).
Proof.
  intros Hw Hb. unfold respond_stream.
  unfold bind at 1. rewrite res_setHeader_run by exact Hw.
  unfold bind at 1.
  rewrite res_setHeader_run by (rewrite headersSent_logged, Hw; reflexivity).
  unfold bind at 1.
  rewrite res_setHeader_run by (rewrite !headersSent_logged, Hw; reflexivity).
  unfold bind at 1. rewrite getReader_run with (reads := reads) by exact Hb.
  unfold try_finally, try_catch.
  match goal with |- context [let (a, b) := next_read reads in @?k a b] =>
    set (inner := let (a, b) := next_read reads in k a b) end.
  match goal with |- context [inner ?x] => set (w1 := x) end.
  assert (Hy : yields (fun c => c <> Continue) inner).
  { subst inner. destruct (next_read reads) as [first rest].
    apply yields_bind. intros [[|c bytes]|];
      try destruct (decode J (fresh J) _) as [d firstChunk];
      repeat (apply yields_bind; intros ?); apply yields_ret; discriminate. }
  destruct (inner w1) as [[c|e|] w2] eqn:E.
  - cbn. eexists. eexists. split; [reflexivity|].
    specialize (Hy w1 c w2 E). destruct c; [contradiction|auto|auto].
  - destruct (String.eqb e "Timeout"); cbn; eexists; eexists;
      (split; [reflexivity|auto]).
  - eexists. eexists. split; [reflexivity|auto].
Qed.

(** The merged answer: the path returns, or waits for ever, or throws
    where the final frame cannot be assembled. *)
Lemma respond_merged_fresh r reads w :
  headersSent w = false -> body r = Some reads ->
  exists o w',
    respond_merged J r w = (o, w')
    /\ (o = Ok Return \/ o = Hang
        \/ exists m w2,
             merge_reads J (fresh J) reads "" merge_init w = (Ok m, w2)
             /\ truthy (mergedResponse m) = true /\ build_final m = None
             /\ o = Throw "TypeError").
Proof.
  intros Hw Hb. unfold respond_merged. unfold bind at 1.
  rewrite getReader_run with (reads := reads) by exact Hb.
  unfold bind at 1.
  destruct (merge_reads_outcome (fresh J) reads "" merge_init w)
    as [o [w2 [E [Ho [_ [_ Hh]]]]]].
  rewrite E. rewrite Hw in Hh.
  destruct Ho as [-> | [m ->]].
  - eexists. eexists. split; [reflexivity|auto].
  - destruct (truthy (mergedResponse m)) eqn:Et.
    + destruct (build_final m) as [final|] eqn:Eb; cbn [or_throw].
      * unfold bind at 1. cbn [ret]. unfold bind at 1.
        rewrite res_json_run by exact Hh. cbn.
        eexists. eexists. split; [reflexivity|auto].
      * unfold bind at 1. cbn [throw].
        eexists. eexists. split; [reflexivity|].
        right. right. exists m, w2. auto.
    + unfold bind at 1. rewrite res_status_run. unfold bind at 1.
      rewrite res_json_run by (rewrite headersSent_logged, Hh; reflexivity).
      cbn. eexists. eexists. split; [reflexivity|auto].
Qed.

End WithJson.
End EndpointFacts.

(** C6, as the code has it.  The endpoint list is fixed, the primary
    host first; the two are fetched in that order, the second only when
    the body of the loop asked for the next endpoint on the first.  The
    body asks for the next endpoint exactly when the fetch fails with a
    network error, when the status is 404, when the status is 429
    (whatever the body says, no rate-limit parser is asked), and when
    handling the response throws.  For any other response, nothing having
    been sent to the caller: an error status with a readable body ends
    the iteration; a 2xx answer without a body (a 204) asks for the next
    endpoint, since reading its body throws; a streamed answer with a
    body ends the iteration; a merged answer with a body ends it unless
    the final frame cannot be assembled, which throws. *)
Theorem endpoints_tried_in_order :
  Gemini.endpoints
  = ["https://cloudcode-pa.googleapis.com";
     "https://daily-cloudcode-pa.sandbox.googleapis.com"]
  /\
  (forall (J : Js.json_codec) U isStream attempt token wrapped w,
      Props.fetched_urls
        (snd (Gemini.try_endpoints J U isStream attempt 0 Gemini.endpoints
                token wrapped w))
      = (Props.fetched_urls w
         ++ Gemini.upstream_url "https://cloudcode-pa.googleapis.com"
         :: match fst (Gemini.try_endpoint J U isStream attempt 0
                         "https://cloudcode-pa.googleapis.com" token wrapped w) with
            | Eff.Ok Gemini.Continue =>
                [Gemini.upstream_url "https://daily-cloudcode-pa.sandbox.googleapis.com"]
            | _ => []
            end)%list)
  /\
  (forall (J : Js.json_codec) U isStream attempt position endpoint token wrapped w,
      fst (Gemini.try_endpoint J U isStream attempt position endpoint token wrapped w)
      = Eff.Ok Gemini.Continue
      <->
      match Gemini.fetch U attempt position with
      | Gemini.NetworkError _ => True
      | Gemini.Responded r =>
          Gemini.status r = 429%Z \/ Gemini.status r = 404%Z
          \/ exists e,
               fst (Gemini.handle_response J isStream r
                      (Props.logged
                         [Gemini.Fetch (Gemini.upstream_url endpoint)
                            ("Bearer " ++ token) wrapped] w))
               = Eff.Throw e
      end)
  /\
  (forall (J : Js.json_codec) U isStream attempt position endpoint token wrapped w r,
      Gemini.fetch U attempt position = Gemini.Responded r ->
      Gemini.status r <> 429%Z -> Gemini.status r <> 404%Z ->
      Gemini.headersSent w = false ->
      let o := fst (Gemini.try_endpoint J U isStream attempt position endpoint
                      token wrapped w) in
      (Gemini.response_ok r = false -> (exists content, Gemini.text r = inr content) ->
       o = Eff.Ok Gemini.Return)
      /\
      (Gemini.response_ok r = true -> Gemini.body r = None ->
       o = Eff.Ok Gemini.Continue)
      /\
      (forall reads,
          Gemini.response_ok r = true -> Gemini.body r = Some reads ->
          isStream = true ->
          o = Eff.Ok Gemini.Break \/ o = Eff.Ok Gemini.Return \/ o = Eff.Hang)
      /\
      (forall reads,
          Gemini.response_ok r = true -> Gemini.body r = Some reads ->
          isStream = false ->
          o = Eff.Ok Gemini.Return \/ o = Eff.Hang
          \/ (o = Eff.Ok Gemini.Continue
              /\ exists m w1 w2,
                   Gemini.merge_reads J (Js.fresh J) reads "" Gemini.merge_init w1
                   = (Eff.Ok m, w2)
                   /\ Gemini.build_final m = None))).
Proof.
  split; [reflexivity|]. split; [|split].
  - intros J U isStream attempt token wrapped w.
    cbn [Gemini.endpoints Gemini.try_endpoints]. unfold Eff.bind at 1.
    pose proof (EndpointFacts.try_endpoint_urls J U isStream attempt 0
                  "https://cloudcode-pa.googleapis.com" token wrapped w) as H1.
    destruct (Gemini.try_endpoint J U isStream attempt 0
                "https://cloudcode-pa.googleapis.com" token wrapped w)
      as [[c|e|] w1]; cbn [fst snd] in *;
      try (rewrite H1; reflexivity).
    destruct c; cbn [snd Eff.ret]; try (rewrite H1; reflexivity).
    unfold Eff.bind at 1.
    pose proof (EndpointFacts.try_endpoint_urls J U isStream attempt 1
                  "https://daily-cloudcode-pa.sandbox.googleapis.com" token wrapped w1)
      as H2.
    destruct (Gemini.try_endpoint J U isStream attempt 1
                "https://daily-cloudcode-pa.sandbox.googleapis.com" token wrapped w1)
      as [[c|e|] w2]; cbn [fst snd] in *;
      try (rewrite H2, H1, <- app_assoc; reflexivity).
    destruct c; cbn [snd Eff.ret]; rewrite H2, H1, <- app_assoc; reflexivity.
  - intros. apply EndpointFacts.try_endpoint_continue.
  - intros J U isStream attempt position endpoint token wrapped w r
           Hf H429 H404 Hw o.
    set (w1 := Props.logged
                 [Gemini.Fetch (Gemini.upstream_url endpoint) ("Bearer " ++ token) wrapped] w).
    assert (Hw1 : Gemini.headersSent w1 = false)
      by (subst w1; rewrite HandlerFacts.headersSent_logged, Hw; reflexivity).
    assert (Ho : o = match Gemini.handle_response J isStream r w1 with
                     | (Eff.Throw _, _) => Eff.Ok Gemini.Continue
                     | (x, _) => x
                     end).
    { subst o. unfold Gemini.try_endpoint, Eff.try_catch, Eff.bind.
      rewrite HandlerFacts.emit_run, Hf. fold w1.
      destruct (Gemini.handle_response J isStream r w1) as [[c|e|] w2]; reflexivity. }
    assert (H429' := proj2 (Z.eqb_neq _ _) H429).
    assert (H404' := proj2 (Z.eqb_neq _ _) H404).
    split; [|split; [|split]].
    + intros Hok [content Ht]. rewrite Ho.
      now rewrite (HandlerFacts.handle_error_response J isStream r content w1
                     H429 H404 Hok Ht Hw1).
    + intros Hok Hb. rewrite Ho. unfold Gemini.handle_response.
      rewrite H429', H404', Hok. cbn [negb]. destruct isStream.
      * destruct (EndpointFacts.respond_stream_null J r w1 Hw1 Hb) as [w2 [E _]].
        now rewrite E.
      * now rewrite (EndpointFacts.respond_merged_null J r w1 Hb).
    + intros reads Hok Hb ->. rewrite Ho. unfold Gemini.handle_response.
      rewrite H429', H404', Hok. cbn [negb].
      destruct (EndpointFacts.respond_stream_fresh J r reads w1 Hw1 Hb) as [x [w2 [E Hx]]].
      rewrite E. destruct Hx as [-> | [-> | ->]]; auto.
    + intros reads Hok Hb ->. rewrite Ho. unfold Gemini.handle_response.
      rewrite H429', H404', Hok. cbn [negb].
      destruct (EndpointFacts.respond_merged_fresh J r reads w1 Hw1 Hb)
        as [x [w2 [E Hx]]].
      rewrite E. destruct Hx as [-> | [-> | [m [w3 [Em [_ [Eb ->]]]]]]]; auto.
      right. right. split; [reflexivity|]. now exists m, w1, w3.
Qed.

(** The claim of C6 fails on a 429 that speaks of the account: whatever
    parser were to attribute this body to an account quota, the loop
    still asks for the next endpoint, and the secondary host is
    fetched. *)
Lemma account_quota_429_still_advances :
  let exhausted : Gemini.fetch_result :=
    Gemini.Responded {| Gemini.status := 429;
                        Gemini.text := inr "Quota exceeded for this account";
                        Gemini.body := Some [] |} in
  Props.fetched_urls
    (snd (Gemini.try_endpoints Samples.codec
            (HandlerSamples.pool (fun _ position =>
               match position with
               | O => exhausted
               | _ => HandlerSamples.bad_gateway
               end))
            false 0 0 Gemini.endpoints "token" (Js.JObj []) HandlerSamples.world0))
  = ["https://cloudcode-pa.googleapis.com/v1internal:streamGenerateContent?alt=sse";
     "https://daily-cloudcode-pa.sandbox.googleapis.com/v1internal:streamGenerateContent?alt=sse"]
  /\
  ~ (exists per_endpoint_quota : string -> bool,
       per_endpoint_quota "Quota exceeded for this account" = false
       /\ forall U isStream attempt position endpoint token wrapped w,
            fst (Gemini.try_endpoint Samples.codec U isStream attempt position
                   endpoint token wrapped w) = Eff.Ok Gemini.Continue ->
            match Gemini.fetch U attempt position with
            | Gemini.NetworkError _ => True
            | Gemini.Responded r =>
                Gemini.status r = 404%Z
                \/ (Gemini.status r = 429%Z
                    /\ exists content, Gemini.text r = inr content
                                       /\ per_endpoint_quota content = true)
            end).
Proof.
  intros exhausted. split; [vm_compute; reflexivity|].
  intros [per_endpoint_quota [Hq H]].
  specialize (H (HandlerSamples.pool (fun _ _ => exhausted)) false 0 0
                "https://cloudcode-pa.googleapis.com" "token" (Js.JObj [])
                HandlerSamples.world0 eq_refl).
  cbn in H. destruct H as [H | [_ [content [Hc Hp]]]]; [discriminate|].
  inversion Hc; subst content. rewrite Hq in Hp. discriminate.
Qed.

Lemma endpoints_tried_in_order_witness :
  fst (Gemini.try_endpoint Samples.codec
         (HandlerSamples.pool (fun _ _ => HandlerSamples.bad_gateway))
         false 0 0 "https://cloudcode-pa.googleapis.com" "token" (Js.JObj [])
         HandlerSamples.world0)
  = Eff.Ok Gemini.Return
  /\
  fst (Gemini.try_endpoint Samples.codec
         (HandlerSamples.pool (fun _ _ => HandlerSamples.no_content))
         true 0 0 "https://cloudcode-pa.googleapis.com" "token" (Js.JObj [])
         HandlerSamples.world0)
  = Eff.Ok Gemini.Continue.
Proof.
  split.
  - refine (proj1 (proj2 (proj2 (proj2 endpoints_tried_in_order))
                     Samples.codec
                     (HandlerSamples.pool (fun _ _ => HandlerSamples.bad_gateway))
                     false 0 0 "https://cloudcode-pa.googleapis.com" "token" (Js.JObj [])
                     HandlerSamples.world0
                     {| Gemini.status := 502; Gemini.text := inr "Bad Gateway";
                        Gemini.body := Some [] |} _ _ _ _) _ _).
    + reflexivity.
    + discriminate.
    + discriminate.
    + reflexivity.
    + reflexivity.
    + now exists "Bad Gateway".
  - refine (proj1 (proj2 (proj2 (proj2 (proj2 endpoints_tried_in_order))
                            Samples.codec
                            (HandlerSamples.pool (fun _ _ => HandlerSamples.no_content))
                            true 0 0 "https://cloudcode-pa.googleapis.com" "token"
                            (Js.JObj []) HandlerSamples.world0
                            {| Gemini.status := 204; Gemini.text := inr "";
                               Gemini.body := None |} _ _ _ _)) _ _).
    + reflexivity.
    + discriminate.
    + discriminate.
    + reflexivity.
    + reflexivity.
    + reflexivity.
Defined.

(** ** Attempts that fail before any response is handled *)

Module RetryFacts.
Import Js Eff Gemini Props HandlerFacts.

Lemma picked_app a b : picked (a ++ b) = (picked a ++ picked b)%list.
Proof. apply flat_map_app. Qed.

Lemma fetches_pick_nothing evs : forallb is_fetch evs = true -> picked evs = [].
Proof.
  induction evs as [|e evs IH]; [reflexivity|]. cbn [forallb].
  intros H. apply andb_prop in H. destruct H as [He Hevs].
  destruct e; cbn in He |- *; try discriminate; auto.
Qed.

Lemma fetches_are_pick_or_fetch evs :
  forallb is_fetch evs = true -> forallb pick_or_fetch evs = true.
Proof.
  rewrite !forallb_forall. intros H e He. unfold pick_or_fetch.
  rewrite (H e He). apply orb_true_r.
Qed.

Lemma pick_or_fetch_commit_nothing evs :
  forallb pick_or_fetch evs = true -> existsb commits evs = false.
Proof.
  induction evs as [|e evs IH]; [reflexivity|]. cbn [forallb].
  intros H. apply andb_prop in H. destruct H as [He Hevs].
  destruct e; cbn in He |- *; try discriminate; auto.
Qed.

Lemma pick_or_fetch_no_status code evs :
  forallb pick_or_fetch evs = true -> status_before_commit code evs = code.
Proof.
  induction evs as [|e evs IH]; [reflexivity|]. cbn [forallb].
  intros H. apply andb_prop in H. destruct H as [He Hevs].
  destruct e; cbn in He |- *; try discriminate; auto.
Qed.

Section WithJson.
Variable J : json_codec.

Lemma getSystemInstruction_no_hang st :
  fst (GatewayConfig.getSystemInstruction J st) <> Hang.
Proof.
  unfold GatewayConfig.getSystemInstruction, bind.
  destruct (ConfigFacts.getGatewayConfig_total J st) as [c [st' ->]].
  destruct (member c "systemInstruction"); cbn; discriminate.
Qed.

Lemma wrap_no_hang uuid body projectId model st :
  fst (wrapGeminiRequest J uuid body projectId model st) <> Hang.
Proof.
  unfold wrapGeminiRequest. unfold bind at 1.
  destruct (json_roundtrip body); cbn [or_throw ret throw]; [|discriminate].
  unfold bind at 1.
  pose proof (getSystemInstruction_no_hang st) as Hs.
  destruct (GatewayConfig.getSystemInstruction J st) as [[identity|e|] st1];
    cbn [fst] in *; try discriminate; [|contradiction].
  unfold bind at 1.
  destruct (member _ "systemInstruction"); cbn [or_throw ret throw]; [|discriminate].
  unfold bind at 1.
  match goal with |- context [or_throw _ ?o] => destruct o end;
    cbn; discriminate.
Qed.

Lemma try_endpoint_transient U isStream attempt position endpoint token wrapped w :
  transient (fetch U attempt position) ->
  exists le,
    try_endpoint J U isStream attempt position endpoint token wrapped w
    = (Ok Continue,
       {| config := config w; lastError := le;
          log := (log w ++ [Fetch (upstream_url endpoint) ("Bearer " ++ token) wrapped])%list |}).
Proof.
  intros Ht. unfold try_endpoint, try_catch, bind. rewrite emit_run.
  destruct (fetch U attempt position) as [message|r]; cbn in Ht.
  - eexists. reflexivity.
  - unfold handle_response. destruct Ht as [H|H].
    + apply Z.eqb_eq in H. rewrite H. unfold bind, response_text.
      destruct (text r); eexists; reflexivity.
    + destruct (status r =? 429)%Z.
      * unfold bind, response_text. destruct (text r); eexists; reflexivity.
      * apply Z.eqb_eq in H. rewrite H. eexists. reflexivity.
Qed.

Lemma try_endpoints_transient U isStream attempt token wrapped w :
  (forall position, position < 2 -> transient (fetch U attempt position)) ->
  exists le evs,
    try_endpoints J U isStream attempt 0 endpoints token wrapped w
    = (Ok false, {| config := config w; lastError := le; log := (log w ++ evs)%list |})
    /\ forallb is_fetch evs = true /\ length evs = 2.
Proof.
  intros Ht. cbn [endpoints try_endpoints].
  destruct (try_endpoint_transient U isStream attempt 0
              "https://cloudcode-pa.googleapis.com" token wrapped w (Ht 0 ltac:(lia)))
    as [le1 E1].
  unfold bind at 1. rewrite E1. cbv beta iota. unfold bind at 1.
  match goal with |- context [try_endpoint J U isStream attempt 1 ?ep token wrapped ?w1] =>
    destruct (try_endpoint_transient U isStream attempt 1 ep token wrapped w1
                (Ht 1 ltac:(lia))) as [le2 E2]
  end.
  rewrite E2. cbv beta iota. cbn [config log ret].
  eexists. eexists. rewrite <- app_assoc. split; [reflexivity|]. split; reflexivity.
Qed.

Lemma attempt_body_transient U isStream attempt body model w :
  (forall position, position < 2 -> transient (fetch U attempt position)) ->
  exists cfg le evs,
    attempt_body J U isStream attempt body model w
    = (Ok false, {| config := cfg; lastError := le; log := (log w ++ evs)%list |})
    /\ forallb is_fetch evs = true.
Proof.
  intros Ht. unfold attempt_body, try_catch.
  unfold bind at 1.
  destruct (getTokenForAccount U attempt) as [message|token]; cbn [of_sum throw ret].
  { cbn. eexists. eexists. exists []. rewrite app_nil_r. split; reflexivity. }
  unfold bind at 1.
  destruct (getProjectForAccount U attempt) as [message|project]; cbn [of_sum throw ret].
  { cbn. eexists. eexists. exists []. rewrite app_nil_r. split; reflexivity. }
  unfold bind at 1. unfold with_config, zoom.
  pose proof (wrap_no_hang (randomUUID U attempt) body project model (config w)) as Hh.
  destruct (wrapGeminiRequest J (randomUUID U attempt) body project model (config w))
    as [[payload|e|] cfg']; cbn [fst] in Hh; [| |contradiction].
  - match goal with |- context [try_endpoints J U isStream attempt 0 endpoints token payload ?w1] =>
      destruct (try_endpoints_transient U isStream attempt token payload w1 Ht)
        as [le [evs [E [Hf _]]]]
    end.
    rewrite E. cbn [config log] in *. eexists. eexists. exists evs. split; [reflexivity|exact Hf].
  - cbn. eexists. eexists. exists []. rewrite app_nil_r. split; reflexivity.
Qed.


End WithJson.
End RetryFacts.




(** ** A stream that stays silent *)

Module SilentFacts.
Import Js Eff Gemini Props HandlerFacts.

Section WithJson.
Variable J : json_codec.

(** On a silent stream nothing of the stream is written; the headers
    are set, the response is ended, and the endpoint loop is left. *)
Lemma respond_stream_silent r reads w :
  headersSent w = false -> body r = Some reads -> silent reads ->
  exists w' released,
    respond_stream J r w = (Ok Break, w')
    /\ log w'
       = (log w
          ++ [SetHeader "Content-Type" "text/event-stream";
              SetHeader "Cache-Control" "no-cache";
              SetHeader "Connection" "keep-alive";
              Read (Some 30000%N)]
          ++ released ++ [End_])%list
    /\ (released = [] \/ released = [ReleaseLock])
    /\ headersSent w' = true.
Proof.
  intros Hw Hb Hs. unfold respond_stream.
  unfold bind at 1. rewrite res_setHeader_run by exact Hw.
  unfold bind at 1.
  rewrite res_setHeader_run by (rewrite headersSent_logged, Hw; reflexivity).
  unfold bind at 1.
  rewrite res_setHeader_run by (rewrite !headersSent_logged, Hw; reflexivity).
  rewrite !logged_logged. cbn [app].
  unfold bind at 1. unfold getReader. rewrite Hb. cbn [or_throw ret].
  unfold silent in Hs. destruct (next_read reads) as [first rest]. cbn [fst] in Hs.
  unfold try_finally, try_catch, await_read_race.
  unfold bind at 1. unfold bind at 1. rewrite emit_run, logged_logged. cbn [app].
  assert (Hend : forall evs, headersSent (logged (evs ++ [End_]) w) = true).
  { intros evs. rewrite headersSent_logged, existsb_app. cbn.
    now rewrite !orb_true_r. }
  destruct first as [after_ms result|].
  - destruct (after_ms <? FIRST_READ_TIMEOUT_MS)%N eqn:Et.
    + destruct Hs as [Hs | [-> | ->]].
      * apply N.ltb_lt in Et. lia.
      * cbn. eexists. exists [ReleaseLock]. split; [reflexivity|].
        split; [cbn; rewrite <- ?app_assoc; reflexivity|]. split; [auto|].
        unfold headersSent. cbn. rewrite existsb_app. cbn. now rewrite !orb_true_r.
      * cbn. eexists. exists [ReleaseLock]. split; [reflexivity|].
        split; [cbn; rewrite <- ?app_assoc; reflexivity|]. split; [auto|].
        unfold headersSent. cbn. rewrite existsb_app. cbn. now rewrite !orb_true_r.
    + cbn. eexists. exists []. split; [reflexivity|].
      split; [cbn; rewrite <- ?app_assoc; reflexivity|]. split; [auto|].
      unfold headersSent. cbn. rewrite existsb_app. cbn. now rewrite !orb_true_r.
  - cbn. eexists. exists []. split; [reflexivity|].
    split; [cbn; rewrite <- ?app_assoc; reflexivity|]. split; [auto|].
    unfold headersSent. cbn. rewrite existsb_app. cbn. now rewrite !orb_true_r.
Qed.

(** Once headers are sent, no stream can be forwarded: setting the
    stream headers throws. *)
Lemma respond_stream_after_end r w :
  headersSent w = true ->
  respond_stream J r w = (Throw ERR_HTTP_HEADERS_SENT, w).
Proof.
  intros Hw. unfold respond_stream. unfold bind at 1.
  now rewrite res_setHeader_sent by exact Hw.
Qed.

End WithJson.
End SilentFacts.

(** C3 at work.  The first attempt's stream is closed at once, the
    upstream of the second attempt is healthy.  Nothing of the first
    stream is written and the handler picks an account for every
    attempt; but the response was ended when the first stream was given
    up, so the healthy stream is never forwarded: the caller has an empty
    200 response, and the handler ends by throwing.  A healthy stream on
    the first attempt is forwarded as it should be. *)
Theorem silent_stream_ends_the_response :
  (exists w',
     Gemini.handleGeminiGenerate Samples.codec SilentSamples.first_silent
       HandlerSamples.stream HandlerSamples.world0
     = (Eff.Throw Gemini.ERR_HTTP_HEADERS_SENT, w')
     /\ Props.picked (Gemini.log w') = [0; 1; 2]
     /\ filter Props.is_write (Gemini.log w') = []
     /\ Props.sent_status w' = 200%Z
     /\ Props.sent_body w' = [Gemini.End_])
  /\
  (exists w',
     Gemini.handleGeminiGenerate Samples.codec
       (HandlerSamples.pool (fun _ _ => SilentSamples.healthy))
       HandlerSamples.stream HandlerSamples.world0
     = (Eff.Ok tt, w')
     /\ Props.sent_body w'
        = [Gemini.Write ("data: " ++ Js.stringify Samples.codec (Js.JNum 5)
                         ++ Text.LF ++ Text.LF);
           Gemini.End_]).
Proof.
  split.
  - eexists. split; [vm_compute; reflexivity|]. repeat split.
  - eexists. split; [vm_compute; reflexivity|]. reflexivity.
Qed.

(** ** Lines across chunk boundaries *)

Module LineFacts.
Import Text Props.

Lemma pop_last_split s : pop_last (split_LF s) = (complete_lines s, remainder s).
Proof. reflexivity. Qed.

Lemma split_LF_cons c s :
  split_LF (String c s) =
  if Ascii.eqb c LF_char then "" :: split_LF s
  else match split_LF s with
       | seg :: segs => String c seg :: segs
       | [] => [String c ""]
       end.
Proof. reflexivity. Qed.

Lemma split_LF_nonempty s : split_LF s <> [].
Proof.
  destruct s as [|c s]; [discriminate|]. rewrite split_LF_cons.
  destruct (Ascii.eqb c LF_char); [discriminate|].
  destruct (split_LF s); discriminate.
Qed.

(** Splitting a text and what follows it: the complete lines of the
    text, then the split of what follows the last line feed. *)
Lemma split_LF_app a b :
  split_LF (a ++ b) = (complete_lines a ++ split_LF (remainder a ++ b))%list.
Proof.
  unfold complete_lines, remainder.
  induction a as [|c a IH]; [reflexivity|].
  cbn [append]. rewrite !split_LF_cons.
  pose proof (split_LF_nonempty a) as Hne.
  destruct (Ascii.eqb c LF_char) eqn:Ec.
  - rewrite IH. destruct (split_LF a) as [|seg segs] eqn:Ea; [contradiction|].
    reflexivity.
  - rewrite IH. destruct (split_LF a) as [|seg segs] eqn:Ea; [contradiction|].
    destruct segs as [|seg' segs].
    + cbn [removelast last app append]. rewrite split_LF_cons, Ec.
      reflexivity.
    + reflexivity.
Qed.

Lemma complete_lines_app a b :
  complete_lines (a ++ b)
  = (complete_lines a ++ complete_lines (remainder a ++ b))%list.
Proof.
  unfold complete_lines at 1. rewrite split_LF_app.
  rewrite removelast_app by apply split_LF_nonempty. reflexivity.
Qed.

Lemma last_of_app {A} (l l' : list A) d : l' <> [] -> last (l ++ l') d = last l' d.
Proof.
  intros Hne. induction l as [|x l IH]; [reflexivity|].
  cbn [app]. rewrite <- IH. cbn [last].
  destruct (l ++ l')%list eqn:E; [|reflexivity].
  apply app_eq_nil in E. destruct E as [_ E]. contradiction.
Qed.

Lemma remainder_app a b : remainder (a ++ b) = remainder (remainder a ++ b).
Proof.
  unfold remainder at 1. rewrite split_LF_app.
  rewrite last_of_app by apply split_LF_nonempty. reflexivity.
Qed.

End LineFacts.

(** ** Writing into a nested object and reading it back *)

Module UpdateFacts.
Import Js Props.

Lemma set_prop_twice key x y props :
  set_prop key y (set_prop key x props) = set_prop key y props.
Proof.
  induction props as [|[k v] rest IH]; cbn.
  - now rewrite String.eqb_refl.
  - destruct (String.eqb k key) eqn:E; cbn; rewrite E; [reflexivity|].
    now rewrite IH.
Qed.

Lemma prop_set_same key x props : prop (JObj (set_prop key x props)) key = x.
Proof. cbn. now rewrite ConfigFacts.lookup_set_prop. Qed.

Lemma prop_set_other key key' x props :
  String.eqb key' key = false ->
  prop (JObj (set_prop key' x props)) key = prop (JObj props) key.
Proof. intros H. cbn. now rewrite ConfigFacts.lookup_set_prop_other. Qed.

Lemma prop0_set_same x props : prop0 (JObj (set_prop "0" x props)) = x.
Proof. cbn. now rewrite ConfigFacts.lookup_set_prop. Qed.

Lemma assign_twice target key x y target' :
  assign target key x = Some target' ->
  assign target' key y = assign target key y.
Proof.
  destruct target; cbn; try discriminate; intros [= <-]; cbn; [reflexivity|].
  now rewrite set_prop_twice.
Qed.

Lemma update_twice target key f g h target' :
  update target key f = Some target' ->
  (forall y, f (prop target key) = Some y -> g y = h (prop target key)) ->
  update target' key g = update target key h.
Proof.
  destruct target; cbn -[prop]; try discriminate.
  destruct (f (prop (JObj props) key)) as [y|] eqn:E; [|discriminate].
  intros [= <-] H. cbn -[prop]. rewrite prop_set_same, (H y eq_refl).
  destruct (h (prop (JObj props) key)); [|reflexivity].
  now rewrite set_prop_twice.
Qed.

Lemma update0_twice target f g h target' :
  update0 target f = Some target' ->
  (forall y, f (prop0 target) = Some y -> g y = h (prop0 target)) ->
  update0 target' g = update0 target h.
Proof.
  destruct target as [| | | | |items|props]; cbn -[prop0]; try discriminate.
  - destruct items as [|x rest]; [discriminate|].
    destruct (f x) as [y|] eqn:E; [|discriminate].
    intros [= <-] H. cbn. now rewrite (H y E).
  - destruct (f (prop0 (JObj props))) as [y|] eqn:E; [|discriminate].
    intros [= <-] H. cbn -[prop0]. rewrite prop0_set_same, (H y eq_refl).
    destruct (h (prop0 (JObj props))); [|reflexivity].
    now rewrite set_prop_twice.
Qed.

(** [update] on an object whose inner write succeeds. *)
Lemma update_object props key f y :
  f (prop (JObj props) key) = Some y ->
  update (JObj props) key f = Some (JObj (set_prop key y props)).
Proof. intros H. cbn -[prop]. now rewrite H. Qed.

(** [update0] where element 0 is an object. *)
Lemma update0_object target inner f y :
  prop0 target = JObj inner -> f (JObj inner) = Some y ->
  exists target', update0 target f = Some target' /\ prop0 target' = y.
Proof.
  destruct target as [| | | | s |items|props]; cbn -[prop0]; try discriminate.
  - destruct s; discriminate.
  - destruct items as [|x rest]; [discriminate|]. cbn. intros -> ->.
    now eexists.
  - intros Hp Hf. rewrite Hp, Hf. eexists. split; [reflexivity|].
    apply prop0_set_same.
Qed.

(** A property that is an object belongs to an object. *)
Lemma prop_object v key inner : prop v key = JObj inner -> exists props, v = JObj props.
Proof. destruct v; cbn; try discriminate. now eexists. Qed.

Lemma json_copy_id v : is_json v = true -> json_copy v = v.
Proof.
  induction v as [| | | | |items IH|props IH] using ValueInd.value_nested_ind;
    intros H; try reflexivity; try discriminate.
  - cbn in H |- *. f_equal.
    induction IH as [|x rest Hx _ IHrest]; [reflexivity|].
    cbn in H |- *. apply andb_prop in H. destruct H as [H1 H2].
    now rewrite Hx, IHrest.
  - rewrite IdentityFacts.copy_obj. f_equal. rewrite CleanFacts.is_json_obj in H.
    induction IH as [|[k x] rest Hx _ IHrest]; [reflexivity|].
    cbn in H, Hx. apply andb_prop in H. destruct H as [H1 H2].
    rewrite IdentityFacts.copied_entries_cons.
    destruct (is_undefined x) eqn:E; [destruct x; discriminate|].
    now rewrite Hx, IHrest.
Qed.

End UpdateFacts.

(** ** Merging the frames of a stream into one response *)

Module MergeFacts.
Import Js Eff Gemini Props HandlerFacts LineFacts UpdateFacts.

(** [set_first_parts] where [candidates[0].content] is an object. *)
Lemma set_first_parts_object d content parts :
  first_content d = JObj content ->
  exists props candidates,
    d = JObj props
    /\ set_first_parts d parts = Some (JObj (set_prop "candidates" candidates props))
    /\ first_content (JObj (set_prop "candidates" candidates props))
       = JObj (set_prop "parts" parts content).
Proof.
  unfold first_content. intros H.
  destruct (prop_object _ _ _ H) as [candidate Hc].
  assert (Hd : exists props, d = JObj props).
  { destruct d; cbn in Hc; try discriminate. now eexists. }
  destruct Hd as [props ->].
  assert (Hinner : update (JObj candidate) "content"
                     (fun c => assign c "parts" parts)
                   = Some (JObj (set_prop "content" (JObj (set_prop "parts" parts content))
                                          candidate))).
  { apply update_object. rewrite <- Hc, H. reflexivity. }
  destruct (update0_object (prop (JObj props) "candidates") candidate
              (fun c => update c "content" (fun c' => assign c' "parts" parts))
              _ Hc Hinner) as [candidates [Hu Hp0]].
  exists props, candidates. split; [reflexivity|]. split.
  - unfold set_first_parts. now apply update_object.
  - rewrite prop_set_same, Hp0. apply prop_set_same.
Qed.

Lemma set_first_parts_twice d x y e :
  set_first_parts d x = Some e -> set_first_parts e y = set_first_parts d y.
Proof.
  unfold set_first_parts. intros H.
  eapply update_twice; [exact H|]. cbv beta. intros candidates Hc.
  eapply update0_twice; [exact Hc|]. cbv beta. intros candidate Hd.
  eapply update_twice; [exact Hd|]. cbv beta. intros content He.
  eapply assign_twice; exact He.
Qed.

(** A truthy parts property sits in an object. *)
Lemma truthy_parts_content d :
  truthy (first_parts d) = true -> exists content, first_content d = JObj content.
Proof.
  unfold first_parts. destruct (first_content d); cbn; try discriminate.
  intros _. now eexists.
Qed.

Lemma first_parts_of_content d content :
  first_content d = JObj content -> first_parts d = prop (JObj content) "parts".
Proof. unfold first_parts. now intros ->. Qed.

(** A later frame: its parts are appended, its usage metadata kept. *)
Lemma merge_frame_later d m :
  well_formed d = true -> truthy (mergedResponse m) = true ->
  merge_frame d m
  = {| mergedResponse := mergedResponse m;
       allParts := (allParts m ++ parts_of d)%list;
       usageMetadata := usage_of [d] (usageMetadata m) |}.
Proof.
  intros Hwf Hm. unfold merge_frame, store_base. rewrite Hm. cbn [negb andb].
  unfold collect_parts, parts_of, keep_usage, usage_of. cbn [fold_left].
  unfold well_formed in Hwf. destruct d; try discriminate.
  destruct (truthy (first_parts (JObj props))) eqn:Et.
  - cbn in Hwf. destruct (first_parts (JObj props)); try discriminate.
    cbn [iterate push_parts mergedResponse allParts usageMetadata].
    destruct (truthy (prop (JObj props) "usageMetadata")); reflexivity.
  - assert (Hp : match first_parts (JObj props) with JArr parts => parts | _ => [] end = [])
      by (destruct (first_parts (JObj props)); try reflexivity; discriminate).
    rewrite Hp, app_nil_r.
    destruct (truthy (prop (JObj props) "usageMetadata")); destruct m; reflexivity.
Qed.

Lemma merge_frames_later ds : forall m,
  forallb well_formed ds = true -> truthy (mergedResponse m) = true ->
  merge_frames ds m
  = {| mergedResponse := mergedResponse m;
       allParts := (allParts m ++ flat_map parts_of ds)%list;
       usageMetadata := usage_of ds (usageMetadata m) |}.
Proof.
  induction ds as [|d ds IH]; intros m Hwf Hm.
  - cbn. rewrite app_nil_r. now destruct m.
  - cbn [forallb] in Hwf. apply andb_prop in Hwf. destruct Hwf as [Hd Hds].
    unfold merge_frames. cbn [fold_left]. fold (merge_frames ds (merge_frame d m)).
    rewrite (merge_frame_later d m Hd Hm).
    rewrite IH by (auto). cbn [mergedResponse allParts usageMetadata flat_map].
    now rewrite app_assoc.
Qed.

Lemma merge_frame_first d :
  well_formed d = true -> is_json d = true ->
  merge_frame d merge_init
  = {| mergedResponse := base_of d;
       allParts := parts_of d;
       usageMetadata := usage_of [d] JNull |}
    /\ truthy (base_of d) = true.
Proof.
  intros Hwf Hj.
  assert (Hobj : exists props, d = JObj props)
    by (destruct d; try discriminate; now eexists).
  assert (Ht : truthy d = true) by (destruct Hobj as [props ->]; reflexivity).
  unfold merge_frame, store_base, merge_init, base_of.
  cbn [mergedResponse truthy negb andb]. rewrite Ht, (json_copy_id d Hj).
  destruct (truthy (first_parts d)) eqn:Et.
  - destruct (truthy_parts_content d Et) as [content Hc].
    destruct (set_first_parts_object d content (JArr []) Hc)
      as [props [candidates [-> [Hs _]]]].
    rewrite Hs. split; [|reflexivity].
    unfold collect_parts, parts_of. rewrite Et.
    unfold well_formed in Hwf. rewrite Et in Hwf. cbn in Hwf.
    destruct (first_parts (JObj props)); try discriminate.
    cbn [iterate]. unfold keep_usage, usage_of, push_parts, with_merged. cbn.
    destruct (lookup "usageMetadata" props) as [u|]; [|reflexivity].
    destruct (truthy u); reflexivity.
  - split; [|exact Ht].
    unfold collect_parts, parts_of. rewrite Et.
    assert (Hp : match first_parts d with JArr parts => parts | _ => [] end = [])
      by (destruct (first_parts d); try reflexivity; discriminate).
    rewrite Hp. unfold keep_usage, usage_of, with_merged. cbn [fold_left].
    destruct (truthy (prop d "usageMetadata")); reflexivity.
Qed.

(** The final frame: the first frame with all parts and the last usage
    metadata written into it. *)
Lemma build_final_spec d content parts usage :
  first_content d = JObj content ->
  exists props candidates,
    d = JObj props
    /\ set_first_parts d (JArr parts)
       = Some (JObj (set_prop "candidates" candidates props))
    /\ build_final {| mergedResponse := base_of d; allParts := parts;
                      usageMetadata := usage |}
       = Some (if truthy usage
               then JObj (set_prop "usageMetadata" usage
                            (set_prop "candidates" candidates props))
               else JObj (set_prop "candidates" candidates props)).
Proof.
  intros Hc.
  destruct (set_first_parts_object d content (JArr parts) Hc)
    as [props [candidates [-> [Hs Hfc]]]].
  exists props, candidates. split; [reflexivity|]. split; [exact Hs|].
  unfold build_final. cbn [mergedResponse allParts usageMetadata].
  assert (Hbase : truthy (first_content (base_of (JObj props))) = true
                  /\ set_first_parts (base_of (JObj props)) (JArr parts)
                     = set_first_parts (JObj props) (JArr parts)).
  { unfold base_of. destruct (truthy (first_parts (JObj props))).
    - destruct (set_first_parts_object (JObj props) content (JArr []) Hc)
        as [props' [candidates' [Hp [Hs' Hfc']]]].
      rewrite Hs'. split; [now rewrite Hfc'|].
      eapply set_first_parts_twice. exact Hs'.
    - split; [now rewrite Hc | reflexivity]. }
  destruct Hbase as [Hb1 Hb2]. rewrite Hb1, Hb2, Hs.
  destruct (truthy usage); reflexivity.
Qed.

Section WithJson.
Variable J : json_codec.

Lemma merge_lines_frames lines : forall m,
  fold_left (merge_line J) lines m = merge_frames (flat_map (frame_of_line J) lines) m.
Proof.
  induction lines as [|line lines IH]; intros m; [reflexivity|].
  cbn [fold_left flat_map]. unfold merge_frames. rewrite fold_left_app.
  fold (merge_frames (flat_map (frame_of_line J) lines)). rewrite IH. f_equal.
  unfold merge_line, frame_of_line, merge_data.
  destruct (Text.startsWith "data: " line); [|reflexivity].
  destruct (String.eqb _ "[DONE]"); [reflexivity|].
  destruct (parse J _); reflexivity.
Qed.

Lemma remainder_no_LF s : no_LF (remainder s).
Proof.
  unfold no_LF, remainder. induction s as [|c s IH]; [reflexivity|].
  rewrite split_LF_cons. pose proof (split_LF_nonempty s) as Hne.
  destruct (Ascii.eqb c Text.LF_char) eqn:Ec.
  - destruct (Text.split_LF s) as [|seg segs] eqn:Es; [contradiction|]. exact IH.
  - destruct (Text.split_LF s) as [|seg segs] eqn:Es; [contradiction|].
    destruct segs as [|seg' segs].
    + cbn [last] in IH |- *. rewrite split_LF_cons, Ec, IH. reflexivity.
    + exact IH.
Qed.

Lemma append_empty (s : string) : s ++ "" = s.
Proof. induction s as [|c s IH]; cbn; [reflexivity | now rewrite IH]. Qed.

(** The loop over the reads of a chunked body folds [merge_line] over
    the complete lines of the whole text. *)
Lemma merge_reads_chunked chunks : forall d buffer m w,
  no_LF buffer ->
  merge_reads J d (chunked chunks) buffer m w
  = (Ok (fold_left (merge_line J) (complete_lines (buffer ++ text_from J d chunks)) m),
     logged (repeat (Read None) (S (length chunks))) w).
Proof.
  induction chunks as [|[t c] chunks IH]; intros d buffer m w Hb.
  - cbn [chunked map merge_reads text_from length repeat].
    rewrite append_empty. unfold complete_lines. rewrite Hb. reflexivity.
  - cbn [chunked map merge_reads text_from length fst snd].
    fold (chunked chunks).
    unfold bind at 1. unfold try_catch, await_read, bind.
    rewrite emit_run. cbn [settle ret].
    destruct (decode J d c) as [d' chunk].
    rewrite pop_last_split, IH by apply remainder_no_LF.
    rewrite logged_logged. cbn [repeat app]. f_equal.
    rewrite <- fold_left_app, <- TextFacts.append_assoc, <- complete_lines_app.
    reflexivity.
Qed.

End WithJson.
End MergeFacts.

Module MergedAnswerFacts.
Import Js Eff Gemini Props HandlerFacts LineFacts UpdateFacts MergeFacts.

Lemma status_before_reads code n rest :
  status_before_commit code (repeat (Read None) n ++ rest)
  = status_before_commit code rest.
Proof. induction n as [|n IH]; [reflexivity | exact IH]. Qed.

Lemma output_of_reads n rest :
  filter is_output (repeat (Read None) n ++ rest) = filter is_output rest.
Proof. induction n as [|n IH]; [reflexivity | exact IH]. Qed.

Lemma urls_of_reads n rest :
  flat_map (fun e => match e with Fetch url _ _ => [url] | _ => [] end)
           (repeat (Read None) n ++ rest)
  = flat_map (fun e => match e with Fetch url _ _ => [url] | _ => [] end) rest.
Proof. induction n as [|n IH]; [reflexivity | exact IH]. Qed.

Lemma reads_send_nothing n : existsb commits (repeat (Read None) n) = false.
Proof. induction n as [|n IH]; [reflexivity | exact IH]. Qed.

Lemma ok_is_not_429_404 r :
  response_ok r = true -> (status r =? 429)%Z = false /\ (status r =? 404)%Z = false.
Proof.
  unfold response_ok. intros H. apply andb_prop in H. destruct H as [H1 H2].
  apply Z.leb_le in H1. apply Z.leb_le in H2.
  split; apply Z.eqb_neq; lia.
Qed.

Section WithJson.
Variable J : json_codec.

(** The merged path on a chunked body whose frames are well formed. *)
Lemma respond_merged_chunked r chunks d ds content w :
  headersSent w = false ->
  body r = Some (chunked chunks) ->
  frames J (body_text J chunks) = d :: ds ->
  forallb well_formed (d :: ds) = true -> is_json d = true ->
  first_content d = JObj content ->
  exists props candidates,
    d = JObj props
    /\ set_first_parts d (JArr (flat_map parts_of (d :: ds)))
       = Some (JObj (set_prop "candidates" candidates props))
    /\ respond_merged J r w
       = (Ok Return,
          logged (repeat (Read None) (S (length chunks))
                  ++ [Json (let usage := usage_of (d :: ds) JNull in
                            if truthy usage
                            then JObj (set_prop "usageMetadata" usage
                                         (set_prop "candidates" candidates props))
                            else JObj (set_prop "candidates" candidates props))]) w).
Proof.
  intros Hw Hb Hf Hwf Hj Hc.
  cbn [forallb] in Hwf. apply andb_prop in Hwf. destruct Hwf as [Hd Hds].
  destruct (merge_frame_first d Hd Hj) as [Hfirst Hbase].
  destruct (build_final_spec d content (flat_map parts_of (d :: ds))
              (usage_of (d :: ds) JNull) Hc)
    as [props [candidates [Hp [Hs Hfinal]]]].
  exists props, candidates. split; [exact Hp|]. split; [exact Hs|].
  unfold respond_merged. unfold bind at 1. unfold getReader.
  rewrite Hb. cbn [or_throw ret]. unfold bind at 1.
  rewrite merge_reads_chunked by reflexivity.
  cbn [append]. rewrite merge_lines_frames. fold (body_text J chunks).
  fold (frames J (body_text J chunks)).
  rewrite Hf.
  assert (Hm : merge_frames (d :: ds) merge_init
               = {| mergedResponse := base_of d;
                    allParts := flat_map parts_of (d :: ds);
                    usageMetadata := usage_of (d :: ds) JNull |}).
  { unfold merge_frames. cbn [fold_left].
    fold (merge_frames ds (merge_frame d merge_init)).
    rewrite Hfirst, merge_frames_later by (auto). reflexivity. }
  rewrite Hm. cbn [mergedResponse]. rewrite Hbase, Hfinal.
  cbn [or_throw]. unfold bind at 1. cbn [ret].
  unfold bind at 1.
  rewrite res_json_run
    by (rewrite headersSent_logged, Hw, reads_send_nothing; reflexivity).
  cbn [ret]. now rewrite logged_logged.
Qed.

End WithJson.
End MergedAnswerFacts.

(** C2, as the code has it.  A caller that asks for [generateContent]
    without [alt=sse] is served from the upstream's
    [streamGenerateContent?alt=sse]: when the first dispatch is answered
    2xx with an SSE body whose frames (the data of the [data: ] lines of
    the text the decoder gives for the chunks, trimmed of white space
    as [trim] does, parsed and unwrapped) are objects, the first of them with
    a content object under [candidates[0]] and each parts property an
    array, the caller receives one JSON response with status 200.  It is
    the first frame with two properties written: its
    [candidates[0].content.parts] is the concatenation, in arrival order,
    of the parts arrays of all frames, and its usageMetadata is that of
    the last frame that carried one. *)
Theorem merged_answer_for_non_streaming_caller :
  forall (J : Js.json_codec) (U : Gemini.upstream) req model acct token project
         payload cfg' w r chunks d ds content,
    Gemini.parseModelAction (Gemini.params0 req) = (model, "generateContent") ->
    Js.is_string "sse" (Gemini.query_alt req) = false ->
    Gemini.log w = [] ->
    Gemini.pickNext U 0 = Some acct ->
    Gemini.getTokenForAccount U 0 = inr token ->
    Gemini.getProjectForAccount U 0 = inr project ->
    Gemini.wrapGeminiRequest J (Gemini.randomUUID U 0) (Gemini.req_body req)
      project model (Gemini.config w) = (Eff.Ok payload, cfg') ->
    Gemini.fetch U 0 0 = Gemini.Responded r ->
    Gemini.response_ok r = true ->
    Gemini.body r = Some (Props.chunked chunks) ->
    Props.frames J (Props.body_text J chunks) = d :: ds ->
    forallb Props.well_formed (d :: ds) = true ->
    Js.is_json d = true ->
    Gemini.first_content d = Js.JObj content ->
    let parts := flat_map Props.parts_of (d :: ds) in
    let usage := Props.usage_of (d :: ds) Js.JNull in
    exists final with_parts w',
      Gemini.handleGeminiGenerate J U req w = (Eff.Ok tt, w')
      /\ Props.fetched_urls w'
         = ["https://cloudcode-pa.googleapis.com/v1internal:streamGenerateContent?alt=sse"]
      /\ Props.sent_status w' = 200%Z
      /\ Props.sent_body w' = [Gemini.Json final]
      /\ Gemini.set_first_parts d (Js.JArr parts) = Some with_parts
      /\ final = (if Js.truthy usage
                  then match Js.assign with_parts "usageMetadata" usage with
                       | Some v => v
                       | None => with_parts
                       end
                  else with_parts)
      /\ Gemini.first_parts final = Js.JArr parts
      /\ (Js.truthy usage = true -> Js.prop final "usageMetadata" = usage)
      /\ (forall key, String.eqb "candidates" key = false ->
                      String.eqb "usageMetadata" key = false ->
                      Js.prop final key = Js.prop d key).
Proof.
  intros J U req model acct token project payload cfg' w r chunks d ds content
         Hp Halt Hlog Hpick Htok Hproj Hwrap Hf Hok Hb Hfr Hwf Hj Hc parts usage.
  set (w1 := {| Gemini.config := cfg'; Gemini.lastError := Gemini.lastError w;
                Gemini.log := (Gemini.log w ++ [Gemini.PickNext 0])%list |}).
  set (w2 := Props.logged
               [Gemini.Fetch (Gemini.upstream_url "https://cloudcode-pa.googleapis.com")
                  ("Bearer " ++ token) payload] w1).
  assert (Hw2 : Gemini.headersSent w2 = false)
    by (unfold Gemini.headersSent, w2, w1; cbn; rewrite Hlog; reflexivity).
  destruct (MergedAnswerFacts.respond_merged_chunked J r chunks d ds content w2
              Hw2 Hb Hfr Hwf Hj Hc) as [props [candidates [Hd [Hs Hrun]]]].
  fold parts in Hs. fold usage in Hrun. cbv zeta in Hrun.
  destruct (MergedAnswerFacts.ok_is_not_429_404 r Hok) as [H429 H404].
  assert (Hstream : Gemini.isStream_of "generateContent" req = false)
    by (unfold Gemini.isStream_of; now rewrite Halt).
  eexists. exists (Js.JObj (Js.set_prop "candidates" candidates props)). eexists.
  split.
  { eapply HandlerFacts.handler_first_dispatch; eauto.
    eapply HandlerFacts.try_endpoint_handled; [exact Hf|].
    fold w1. fold w2. unfold Gemini.handle_response.
    rewrite H429, H404, Hok, Hstream. cbn [negb]. exact Hrun. }
  assert (Hfc : Gemini.first_parts (Js.JObj (Js.set_prop "candidates" candidates props))
                = Js.JArr parts).
  { destruct (MergeFacts.set_first_parts_object d content (Js.JArr parts) Hc)
      as [props' [candidates' [Hd' [Hs' Hfc']]]].
    rewrite Hs in Hs'. inversion Hs' as [Heq]. rewrite Heq.
    unfold Gemini.first_parts. rewrite Hfc'. apply UpdateFacts.prop_set_same. }
  unfold Props.fetched_urls, Props.sent_status, Props.sent_body.
  unfold Props.logged, w2, w1, Props.logged.
  cbn [Gemini.log Gemini.config Gemini.lastError]. rewrite Hlog.
  cbn [app flat_map Props.status_before_commit Gemini.commits filter Props.is_output].
  rewrite MergedAnswerFacts.urls_of_reads, MergedAnswerFacts.status_before_reads,
    MergedAnswerFacts.output_of_reads.
  split; [reflexivity|]. split; [reflexivity|]. split; [reflexivity|].
  split; [exact Hs|].
  destruct (Js.truthy usage) eqn:Eu; cbn [Js.assign].
  - split; [reflexivity|]. split; [|split].
    + unfold Gemini.first_parts, Gemini.first_content in *.
      rewrite UpdateFacts.prop_set_other by reflexivity. exact Hfc.
    + intros _. apply UpdateFacts.prop_set_same.
    + intros key Hk1 Hk2. subst d.
      rewrite UpdateFacts.prop_set_other by exact Hk2.
      now rewrite UpdateFacts.prop_set_other by exact Hk1.
  - split; [reflexivity|]. split; [exact Hfc|]. split; [discriminate|].
    intros key Hk1 Hk2. subst d.
    now rewrite UpdateFacts.prop_set_other by exact Hk1.
Qed.

(** The sample texts are the JSON texts of the sample frames. *)
Lemma sample_texts_are_json :
  JsonText.stringify MergeSamples.usage_frame = MergeSamples.usage_text
  /\ JsonText.stringify MergeSamples.po_frame = MergeSamples.po_text
  /\ JsonText.stringify MergeSamples.ng_frame = MergeSamples.ng_text.
Proof. repeat split; vm_compute; reflexivity. Qed.

(** The claim of C2 fails when the first frame has no candidate
    content: a frame with usage metadata only, then a frame with a text
    part.  The response is the first frame alone, and the part of the
    second frame is in none of its properties. *)
Lemma parts_lost_after_a_frame_without_content :
  exists w' final,
    Gemini.handleGeminiGenerate MergeSamples.codec
      (MergeSamples.answering MergeSamples.usage_then_text)
      HandlerSamples.generate HandlerSamples.world0
    = (Eff.Ok tt, w')
    /\ Props.frames MergeSamples.codec
         (Props.body_text MergeSamples.codec MergeSamples.usage_then_text)
       = [MergeSamples.usage_frame; MergeSamples.text_frame "po" []]
    /\ flat_map Props.parts_of
         [MergeSamples.usage_frame; MergeSamples.text_frame "po" []]
       = [Js.JObj [("text", Js.JStr "po")]]
    /\ Props.sent_body w' = [Gemini.Json final]
    /\ final = MergeSamples.usage_frame
    /\ Gemini.first_parts final <> Js.JArr [Js.JObj [("text", Js.JStr "po")]].
Proof.
  eexists. eexists. split; [vm_compute; reflexivity|].
  split; [vm_compute; reflexivity|]. split; [vm_compute; reflexivity|].
  split; [vm_compute; reflexivity|]. split; [reflexivity|].
  vm_compute. discriminate.
Qed.

Lemma merged_answer_for_non_streaming_caller_witness :
  exists final w',
    Gemini.handleGeminiGenerate MergeSamples.codec
      (MergeSamples.answering MergeSamples.po_ng)
      HandlerSamples.generate HandlerSamples.world0
    = (Eff.Ok tt, w')
    /\ Props.fetched_urls w'
       = ["https://cloudcode-pa.googleapis.com/v1internal:streamGenerateContent?alt=sse"]
    /\ Props.sent_status w' = 200%Z
    /\ Props.sent_body w' = [Gemini.Json final]
    /\ Gemini.first_parts final
       = Js.JArr [Js.JObj [("text", Js.JStr "po")]; Js.JObj [("text", Js.JStr "ng")]]
    /\ Js.prop final "usageMetadata" = Js.JObj [("totalTokenCount", Js.JNum 7)].
Proof.
  destruct (merged_answer_for_non_streaming_caller MergeSamples.codec
              (MergeSamples.answering MergeSamples.po_ng)
              HandlerSamples.generate "gemini-3-flash"
              {| Gemini.email := "user@example.com" |} "token" "project-1"
              (Js.JObj
                 [("project", Js.JStr "project-1");
                  ("model", Js.JStr "gemini-3-flash");
                  ("request",
                   Js.JObj [("contents", Js.JArr []);
                            ("systemInstruction",
                             Gemini.new_systemInstruction
                               (Js.JStr GatewayConfig.DEFAULT_SYSTEM_INSTRUCTION))]);
                  ("userAgent", Js.JStr "antigravity");
                  ("requestId", Js.JStr "agent-0000");
                  ("requestType", Js.JStr "agent")])
              (GatewayConfig.set_cache GatewayConfig.default_config Samples.fresh_config)
              HandlerSamples.world0
              {| Gemini.status := 200; Gemini.text := inr "";
                 Gemini.body := Some (Props.chunked MergeSamples.po_ng) |}
              MergeSamples.po_ng
              (MergeSamples.text_frame "po" [])
              [MergeSamples.text_frame "ng"
                 [("usageMetadata", Js.JObj [("totalTokenCount", Js.JNum 7)])]]
              [("role", Js.JStr "model");
               ("parts", Js.JArr [Js.JObj [("text", Js.JStr "po")]])])
    as [final [with_parts [w' [H1 [H2 [H3 [H4 [H5 [H6 [H7 [H8 H9]]]]]]]]]]].
  - reflexivity.
  - reflexivity.
  - reflexivity.
  - reflexivity.
  - reflexivity.
  - reflexivity.
  - vm_compute. reflexivity.
  - reflexivity.
  - reflexivity.
  - reflexivity.
  - vm_compute. reflexivity.
  - reflexivity.
  - reflexivity.
  - reflexivity.
  - exists final, w'. split; [exact H1|]. split; [exact H2|]. split; [exact H3|].
    split; [exact H4|]. split; [exact H7|]. apply H8. reflexivity.
Defined.

(** ** A stream that speaks *)

Module StreamFacts.
Import Js Eff Gemini Props HandlerFacts LineFacts MergeFacts.

Section WithJson.
Variable J : json_codec.

Lemma forward_line_run line w :
  forward_line J line w = (Ok tt, logged (map Write (line_output J line)) w).
Proof.
  unfold forward_line, line_output, res_write.
  destruct (Text.startsWith "data: " line).
  - destruct (String.eqb _ "[DONE]"); [reflexivity|].
    unfold try_catch, bind. destruct (parse J _); reflexivity.
  - destruct (truthy _); [reflexivity|]. cbn. now rewrite logged_nil.
Qed.

Lemma forward_lines_run lines : forall w,
  forward_lines J lines w
  = (Ok tt, logged (map Write (flat_map (line_output J) lines)) w).
Proof.
  induction lines as [|line lines IH]; intros w.
  - cbn. now rewrite logged_nil.
  - cbn [forward_lines flat_map]. unfold bind. rewrite forward_line_run, IH.
    now rewrite logged_logged, map_app.
Qed.

Lemma forward_chunk_run buffer bytes w :
  forward_chunk J buffer bytes w
  = (Ok (remainder (buffer ++ bytes)),
     logged (map Write (flat_map (line_output J) (complete_lines (buffer ++ bytes)))) w).
Proof.
  unfold forward_chunk. rewrite pop_last_split. unfold bind.
  now rewrite forward_lines_run.
Qed.

Lemma output_of_writes texts : filter is_output (map Write texts) = map Write texts.
Proof. induction texts as [|t texts IH]; cbn; [reflexivity | now rewrite IH]. Qed.

Lemma reads_of_writes texts : reads_of (map Write texts) = [].
Proof. induction texts as [|t texts IH]; cbn; [reflexivity | exact IH]. Qed.

(** The loop over the remaining reads of a chunked body: every read is
    a plain read, and the writes are those of the complete lines of the
    buffered text and the chunks, in order. *)
Lemma forward_rest_chunked chunks : forall d buffer w,
  no_LF buffer ->
  exists evs,
    forward_rest J d (chunked chunks) buffer w = (Ok tt, logged evs w)
    /\ filter is_output evs
       = map Write (flat_map (line_output J)
                      (complete_lines (buffer ++ text_from J d chunks)))
    /\ reads_of evs = repeat (Read None) (S (length chunks)).
Proof.
  induction chunks as [|[t bytes] chunks IH]; intros d buffer w Hb.
  - exists [Read None]. cbn [chunked map forward_rest text_from].
    rewrite append_empty. unfold complete_lines. rewrite Hb. cbn. auto.
  - cbn [chunked map forward_rest text_from length fst snd].
    fold (chunked chunks).
    unfold bind at 1. unfold await_read, bind at 1. rewrite emit_run. cbn [settle ret].
    destruct (decode J d bytes) as [d' c].
    unfold bind at 1. rewrite forward_chunk_run.
    destruct (IH d' (remainder (buffer ++ c))
                 (logged (map Write (flat_map (line_output J)
                                       (complete_lines (buffer ++ c))))
                         (logged [Read None] w))
                 (remainder_no_LF _)) as [evs [E [Hout Hreads]]].
    rewrite E, !logged_logged.
    eexists. split; [reflexivity|]. split.
    + cbn [app filter is_output]. rewrite filter_app, output_of_writes, Hout.
      rewrite <- map_app, <- flat_map_app, <- TextFacts.append_assoc,
        <- complete_lines_app. reflexivity.
    + unfold reads_of in *. cbn [app filter read_event].
      rewrite filter_app. fold (reads_of (map Write (flat_map (line_output J)
                                         (complete_lines (buffer ++ c))))).
      rewrite reads_of_writes, Hreads. reflexivity.
Qed.

(** A stream whose first chunk arrives in time and is not empty: the
    first read is the only one raced against the timer, every line of
    the body is forwarded in arrival order, and the response is ended. *)
Lemma respond_stream_chunked r t c chunks w :
  headersSent w = false ->
  body r = Some (chunked ((t, c) :: chunks)) ->
  (t < FIRST_READ_TIMEOUT_MS)%N -> c <> "" ->
  exists evs,
    respond_stream J r w = (Ok Return, logged evs w)
    /\ filter is_output evs
       = (map Write (flat_map (line_output J)
                       (complete_lines (body_text J ((t, c) :: chunks))))
          ++ [End_])%list
    /\ reads_of evs
       = Read (Some FIRST_READ_TIMEOUT_MS) :: repeat (Read None) (S (length chunks)).
Proof.
  intros Hw Hb Ht Hc. unfold respond_stream.
  unfold bind at 1. rewrite res_setHeader_run by exact Hw.
  unfold bind at 1.
  rewrite res_setHeader_run by (rewrite headersSent_logged, Hw; reflexivity).
  unfold bind at 1.
  rewrite res_setHeader_run by (rewrite !headersSent_logged, Hw; reflexivity).
  rewrite !logged_logged. cbn [app].
  unfold bind at 1. unfold getReader. rewrite Hb. cbn [or_throw ret].
  cbn [chunked map next_read fst snd]. fold (chunked chunks).
  unfold try_finally, try_catch, await_read_race.
  unfold bind at 1. unfold bind at 1. rewrite emit_run, logged_logged. cbn [app].
  apply N.ltb_lt in Ht. rewrite Ht. cbn [settle ret].
  destruct c as [|a c]; [contradiction|].
  unfold body_text. cbn [text_from].
  destruct (decode J (fresh J) (String a c)) as [d1 firstChunk].
  unfold bind at 1. rewrite forward_chunk_run, logged_logged.
  unfold bind at 1.
  match goal with |- context [forward_rest J d1 (chunked chunks) ?b ?w1] =>
    destruct (forward_rest_chunked chunks d1 b w1 (remainder_no_LF _))
      as [evs [E [Hout Hreads]]]
  end.
  rewrite E. cbn [ret]. unfold res_end. rewrite emit_run, !logged_logged.
  eexists. split; [reflexivity|]. split.
  - cbn [app filter is_output]. rewrite !filter_app, output_of_writes, Hout.
    cbn [filter is_output].
    cbn [append]. rewrite app_assoc. f_equal.
    rewrite <- map_app, <- flat_map_app.
    change firstChunk with ("" ++ firstChunk) at 3.
    rewrite <- complete_lines_app. reflexivity.
  - unfold reads_of in *. cbn [app filter read_event].
    rewrite !filter_app. fold (reads_of (map Write (flat_map (line_output J)
                                         (complete_lines ("" ++ firstChunk))))).
    rewrite reads_of_writes, Hreads. cbn [filter read_event app].
    now rewrite app_nil_r.
Qed.

End WithJson.
End StreamFacts.

(* ================================================================== *)
(** * Further properties of the sources *)
(* ================================================================== *)

(** ** The path of a request *)

Module PathFacts.
Import Text Gemini.

Lemma includes_colon_cons c s :
  includes ":" (String c s) = Ascii.eqb ":" c || includes ":" s.
Proof. cbn [includes startsWith]. now rewrite andb_true_r. Qed.

Lemma no_colon_no_split s : includes ":" s = false -> split_last_colon s = None.
Proof.
  induction s as [|c s IH]; [reflexivity|].
  rewrite includes_colon_cons. intros H. apply orb_false_elim in H.
  destruct H as [Hc Hs]. cbn [split_last_colon]. rewrite (IH Hs).
  rewrite Ascii.eqb_sym. now rewrite Hc.
Qed.

Lemma split_at_last_colon model method :
  includes ":" method = false ->
  split_last_colon (model ++ ":" ++ method) = Some (model, method).
Proof.
  intros H. induction model as [|c model IH].
  - cbn. now rewrite (no_colon_no_split method H).
  - cbn [append split_last_colon] in *. now rewrite IH.
Qed.

Lemma split_last_colon_Some s : forall model method,
  split_last_colon s = Some (model, method) ->
  s = model ++ ":" ++ method /\ includes ":" method = false.
Proof.
  induction s as [|c s IH]; intros model method; [discriminate|].
  cbn [split_last_colon].
  destruct (split_last_colon s) as [[before after]|] eqn:E.
  - intros [= <- <-]. destruct (IH before after eq_refl) as [-> Hn].
    split; [reflexivity | exact Hn].
  - destruct (Ascii.eqb c ":") eqn:Ec; [|discriminate].
    intros [= <- <-]. apply Ascii.eqb_eq in Ec. subst c. split; [reflexivity|].
    clear IH. induction s as [|d s IH]; [reflexivity|].
    cbn [split_last_colon] in E.
    destruct (split_last_colon s) as [[? ?]|]; [discriminate|].
    destruct (Ascii.eqb d ":") eqn:Ed; [discriminate|].
    rewrite includes_colon_cons, Ascii.eqb_sym, Ed. now apply IH.
Qed.

End PathFacts.

(** X1. [parseModelAction] splits the path at its last colon: a model
    name followed by a colon and a method without a colon is taken apart
    into the two, whatever colons the model name holds; a path without a
    colon is a model name with the method [generateContent]; and what it
    returns for a path with a colon puts the path together again. *)
Theorem parseModelAction_splits_at_last_colon :
  (forall model method,
      Text.includes ":" method = false ->
      Gemini.parseModelAction (model ++ ":" ++ method) = (model, method))
  /\
  (forall path,
      Text.includes ":" path = false ->
      Gemini.parseModelAction path = (path, "generateContent"))
  /\
  (forall path model method,
      Text.includes ":" path = true ->
      Gemini.parseModelAction path = (model, method) ->
      path = model ++ ":" ++ method /\ Text.includes ":" method = false).
Proof.
  split; [|split].
  - intros model method H. unfold Gemini.parseModelAction.
    now rewrite PathFacts.split_at_last_colon.
  - intros path H. unfold Gemini.parseModelAction.
    now rewrite PathFacts.no_colon_no_split.
  - intros path model method Hc. unfold Gemini.parseModelAction.
    destruct (Gemini.split_last_colon path) as [[a b]|] eqn:E.
    + intros [= <- <-]. now apply PathFacts.split_last_colon_Some.
    + assert (Hn : Text.includes ":" path = false).
      { destruct (Text.includes ":" path) eqn:Ei; [|reflexivity].
        exfalso. clear Hc. induction path as [|c path IH]; [discriminate|].
        cbn [Gemini.split_last_colon] in E.
        destruct (Gemini.split_last_colon path) as [[? ?]|]; [discriminate|].
        destruct (Ascii.eqb c ":") eqn:Ec; [discriminate|].
        rewrite PathFacts.includes_colon_cons, Ascii.eqb_sym, Ec in Ei.
        now apply IH. }
      rewrite Hn in Hc. discriminate.
Qed.

Lemma parseModelAction_splits_at_last_colon_witness :
  Gemini.parseModelAction ("tuned:gemini-pro" ++ ":" ++ "streamGenerateContent")
  = ("tuned:gemini-pro", "streamGenerateContent")
  /\ Gemini.parseModelAction "gemini-pro" = ("gemini-pro", "generateContent")
  /\ ("models/gemini-pro:countTokens" = "models/gemini-pro" ++ ":" ++ "countTokens"
      /\ Text.includes ":" "countTokens" = false).
Proof.
  split; [|split].
  - apply (proj1 parseModelAction_splits_at_last_colon). reflexivity.
  - apply (proj1 (proj2 parseModelAction_splits_at_last_colon)). reflexivity.
  - apply (proj2 (proj2 parseModelAction_splits_at_last_colon)
             "models/gemini-pro:countTokens"); reflexivity.
Defined.

(** ** Model names *)

(** The mapping of the handler is idempotent, and the request type does
    not depend on whether the name is mapped. *)
Lemma mapModelForUpstream_fixed :
  forall model,
    RunProps.prototype_member model = false ->
    Gemini.mapModelForUpstream (Gemini.mapModelForUpstream model)
    = Gemini.mapModelForUpstream model
    /\ Gemini.getRequestType (Gemini.mapModelForUpstream model)
       = Gemini.getRequestType model.
Proof.
  intros model _. unfold Gemini.mapModelForUpstream. cbn [find fst].
  destruct (String.eqb "gemini-3-pro-preview" model) eqn:E1.
  { apply String.eqb_eq in E1. subst model. split; reflexivity. }
  destruct (String.eqb "gemini-3-pro-image-preview" model) eqn:E2.
  { apply String.eqb_eq in E2. subst model. split; reflexivity. }
  destruct (String.eqb "gemini-3-flash-preview" model) eqn:E3.
  { apply String.eqb_eq in E3. subst model. split; reflexivity. }
  now rewrite E1, E2, E3.
Qed.

(** ** The generation config of a wrapped request *)

Module GenerationConfigFacts.
Import Js Eff Gemini Props.

Lemma lookup_delete_same key props : lookup key (delete_prop key props) = None.
Proof.
  induction props as [|[k x] rest IH]; [reflexivity|]. cbn [delete_prop].
  destruct (String.eqb k key) eqn:E; [exact IH|]. cbn [lookup]. now rewrite E.
Qed.

Lemma lookup_delete_other key key' props :
  String.eqb key' key = false ->
  lookup key (delete_prop key' props) = lookup key props.
Proof.
  intros Hk. induction props as [|[k x] rest IH]; [reflexivity|]. cbn [delete_prop].
  destruct (String.eqb k key') eqn:E; cbn [lookup].
  - apply String.eqb_eq in E. subst k. now rewrite Hk.
  - now rewrite IH.
Qed.

Lemma prop_update_other target key key' f target' :
  update target key' f = Some target' -> String.eqb key' key = false ->
  prop target' key = prop target key.
Proof.
  destruct target; cbn -[prop]; try discriminate.
  destruct (f (prop (JObj props) key')); [|discriminate].
  intros [= <-] Hk. cbn. now rewrite ConfigFacts.lookup_set_prop_other.
Qed.

(** The generation config after [clean_generationConfig]: the count of
    candidates is gone, every other property is as it was. *)
Lemma generationConfig_cleaned v :
  prop (prop (clean_generationConfig v) "generationConfig") "candidateCount" = JUndefined
  /\ forall key, String.eqb "candidateCount" key = false ->
       prop (prop (clean_generationConfig v) "generationConfig") key
       = prop (prop v "generationConfig") key.
Proof.
  unfold clean_generationConfig. destruct v as [| | | | | |props]; try (split; reflexivity).
  destruct (prop (JObj props) "generationConfig") as [| | | | | |config] eqn:E;
    try (rewrite E; split; reflexivity).
  rewrite IdentityFacts.prop_assign_obj. split.
  - cbn [prop]. now rewrite lookup_delete_same.
  - intros key Hk. cbn [prop]. now rewrite lookup_delete_other.
Qed.

End GenerationConfigFacts.

(** X2. In every request that [wrapGeminiRequest] wraps, the generation
    config has no [candidateCount], and every other property of the
    generation config is the one of the caller's request after cleaning;
    the system instruction put into the request does not touch it.
    (For every body that has no key [__proto__], at any depth.) *)
Theorem wrapped_request_drops_candidateCount :
  forall (J : Js.json_codec) uuid body projectId model st payload st',
    Js.plain body = true ->
    Gemini.wrapGeminiRequest J uuid body projectId model st = (Eff.Ok payload, st') ->
    let incoming :=
      Js.prop (Gemini.deepCleanUndefined (Js.json_copy body)) "generationConfig" in
    let outgoing := Js.prop (Js.prop payload "request") "generationConfig" in
    Js.prop outgoing "candidateCount" = Js.JUndefined
    /\ forall key, key <> "candidateCount" ->
         Js.prop outgoing key = Js.prop incoming key.
Proof.
  intros J uuid body projectId model st payload st' _ Hw incoming outgoing.
  destruct (WrapFacts.wrap_returns _ _ _ _ _ _ _ _ Hw)
    as [identity [inner [_ [Hinner ->]]]].
  subst incoming outgoing.
  cbn [Js.prop Js.lookup String.eqb Ascii.eqb Bool.eqb].
  assert (Hsame : Js.prop inner "generationConfig"
                  = Js.prop (Gemini.deepCleanUndefined (Js.json_copy body))
                            "generationConfig").
  { cbv zeta in Hinner.
    destruct (Js.truthy (Js.prop (Gemini.deepCleanUndefined (Js.json_copy body))
                                 "systemInstruction")).
    - exact (GenerationConfigFacts.prop_update_other _ "generationConfig" _ _ _
               Hinner eq_refl).
    - exact (IdentityFacts.prop_assign_other _ "generationConfig" _ _ _
               Hinner eq_refl). }
  destruct (GenerationConfigFacts.generationConfig_cleaned inner) as [Hgone Hkept].
  split; [exact Hgone|].
  intros key Hk. rewrite <- Hsame. apply Hkept.
  apply String.eqb_neq. congruence.
Qed.

Lemma wrapped_request_drops_candidateCount_witness :
  exists payload st',
    Gemini.wrapGeminiRequest Samples.codec "0000"
      (Js.JObj [("contents", Js.JArr []);
                ("generationConfig",
                 Js.JObj [("candidateCount", Js.JNum 1); ("temperature", Js.JNum 0)])])
      "project-1" "gemini-3-flash" Samples.fresh_config
    = (Eff.Ok payload, st')
    /\ Js.prop (Js.prop (Js.prop payload "request") "generationConfig") "candidateCount"
       = Js.JUndefined
    /\ Js.prop (Js.prop (Js.prop payload "request") "generationConfig") "temperature"
       = Js.JNum 0.
Proof.
  eexists. eexists. split; [vm_compute; reflexivity|].
  split.
  - refine (proj1 (wrapped_request_drops_candidateCount Samples.codec "0000"
                     (Js.JObj [("contents", Js.JArr []);
                               ("generationConfig",
                                Js.JObj [("candidateCount", Js.JNum 1);
                                         ("temperature", Js.JNum 0)])])
                     "project-1" "gemini-3-flash" Samples.fresh_config _ _
                     eq_refl _)).
    vm_compute. reflexivity.
  - reflexivity.
Defined.

(** ** Requests that are answered without a fetch *)

Module RefusalFacts.
Import Js Eff Gemini Props RunProps HandlerFacts.

Lemma valid_method method :
  method = "generateContent" \/ method = "streamGenerateContent" ->
  negb (String.eqb method "generateContent")
  && negb (String.eqb method "streamGenerateContent") = false.
Proof. intros [-> | ->]; reflexivity. Qed.

Lemma fetches_commit_nothing evs :
  forallb is_fetch evs = true -> existsb commits evs = false.
Proof.
  intros H. apply RetryFacts.pick_or_fetch_commit_nothing.
  now apply RetryFacts.fetches_are_pick_or_fetch.
Qed.

Section WithJson.
Variable J : json_codec.

(** The answer of the attempt loop when the account manager has no
    account. *)
Lemma no_account_run U isStream remaining attempt body model w :
  pickNext U attempt = None -> headersSent w = false ->
  attempts J U isStream (S remaining) attempt body model w
  = (Ok true,
     logged [PickNext attempt; Status 503;
             Json (error_body 503 "No available accounts" "UNAVAILABLE")] w).
Proof.
  intros Hp Hw. cbn [attempts]. unfold bind at 1. rewrite emit_run, Hp.
  unfold bind at 1. rewrite res_status_run. unfold bind at 1.
  rewrite res_json_run by (rewrite !headersSent_logged, Hw; reflexivity).
  cbn [ret]. now rewrite !logged_logged.
Qed.

(** Attempts that fail on every fetch, then an attempt for which there
    is no account. *)
Lemma attempts_until_no_account U isStream body model k :
  forall remaining attempt w,
    headersSent w = false ->
    (forall a, attempt <= a < attempt + k -> pickNext U a <> None) ->
    (forall a position, attempt <= a < attempt + k -> position < 2 ->
                        transient (fetch U a position)) ->
    pickNext U (attempt + k) = None ->
    exists cfg le evs,
      attempts J U isStream (k + S remaining) attempt body model w
      = (Ok true,
         {| config := cfg; lastError := le;
            log := (log w ++ evs
                    ++ [PickNext (attempt + k); Status 503;
                        Json (error_body 503 "No available accounts" "UNAVAILABLE")])%list |})
      /\ forallb pick_or_fetch evs = true
      /\ picked evs = seq attempt k.
Proof.
  induction k as [|k IH]; intros remaining attempt w Hw Hpick Hfetch Hnone.
  - rewrite Nat.add_0_r in Hnone. cbn [Nat.add].
    rewrite (no_account_run U isStream remaining attempt body model w Hnone Hw).
    exists (config w), (lastError w), []. rewrite Nat.add_0_r. auto.
  - cbn [Nat.add attempts]. unfold bind at 1. rewrite emit_run.
    destruct (pickNext U attempt) as [acct|] eqn:Ep;
      [|exfalso; apply (Hpick attempt); [lia|exact Ep]].
    unfold bind at 1.
    destruct (RetryFacts.attempt_body_transient J U isStream attempt body model
                (logged [PickNext attempt] w))
      as [cfg1 [le1 [evs1 [E1 Hf1]]]].
    { intros position Hpos. apply Hfetch; lia. }
    rewrite E1.
    match goal with |- context [attempts J U isStream _ (S attempt) body model ?w1] =>
      destruct (IH remaining (S attempt) w1) as [cfg2 [le2 [evs2 [E2 [Hq2 Hp2]]]]]
    end.
    { unfold headersSent. cbn [log logged]. rewrite !existsb_app.
      unfold headersSent in Hw. rewrite Hw, (fetches_commit_nothing _ Hf1).
      reflexivity. }
    { intros a Ha. apply Hpick. lia. }
    { intros a position Ha Hpos. apply Hfetch; [lia|exact Hpos]. }
    { replace (S attempt + k) with (attempt + S k) by lia. exact Hnone. }
    rewrite E2. cbn [log logged].
    exists cfg2, le2, (PickNext attempt :: evs1 ++ evs2)%list.
    split; [|split].
    + f_equal. f_equal. rewrite <- !app_assoc. cbn [app].
      replace (S attempt + k) with (attempt + S k) by lia.
      rewrite <- !app_assoc. reflexivity.
    + cbn [forallb]. rewrite forallb_app, (RetryFacts.fetches_are_pick_or_fetch _ Hf1), Hq2.
      reflexivity.
    + change (PickNext attempt :: evs1 ++ evs2)%list
        with ([PickNext attempt] ++ evs1 ++ evs2)%list.
      rewrite !RetryFacts.picked_app, (RetryFacts.fetches_pick_nothing _ Hf1), Hp2.
      reflexivity.
Qed.

(** A body that is neither an object nor an array is not wrapped. *)
Lemma wrap_needs_structure uuid body projectId model st :
  structured body = false ->
  exists e st', wrapGeminiRequest J uuid body projectId model st = (Throw e, st').
Proof.
  intros Hb.
  pose proof (RetryFacts.wrap_no_hang J uuid body projectId model st) as Hh.
  destruct (wrapGeminiRequest J uuid body projectId model st) as [[payload|e|] st'] eqn:E.
  - exfalso.
    destruct (WrapFacts.wrap_returns _ _ _ _ _ _ _ _ E)
      as [identity [inner [_ [Hinner _]]]].
    destruct body; try discriminate Hb; cbn in Hinner; discriminate.
  - now exists e, st'.
  - now contradiction Hh.
Qed.

(** An attempt whose request cannot be wrapped fetches nothing. *)
Lemma attempt_body_unwrapped U isStream attempt body model w :
  structured body = false ->
  exists cfg le,
    attempt_body J U isStream attempt body model w
    = (Ok false, {| config := cfg; lastError := Some le; log := log w |}).
Proof.
  intros Hb. unfold attempt_body, try_catch.
  unfold bind at 1.
  destruct (getTokenForAccount U attempt) as [message|token]; cbn [of_sum throw ret].
  { cbn. now eexists; eexists. }
  unfold bind at 1.
  destruct (getProjectForAccount U attempt) as [message|project]; cbn [of_sum throw ret].
  { cbn. now eexists; eexists. }
  unfold bind at 1. unfold with_config, zoom.
  destruct (wrap_needs_structure (randomUUID U attempt) body project model (config w) Hb)
    as [e [st' ->]].
  cbn. now eexists; eexists.
Qed.

Lemma attempts_unwrapped U isStream body model remaining :
  structured body = false ->
  forall attempt w,
    (forall a, attempt <= a < attempt + remaining -> pickNext U a <> None) ->
    exists cfg le,
      attempts J U isStream remaining attempt body model w
      = (Ok false,
         {| config := cfg; lastError := le;
            log := (log w ++ map PickNext (seq attempt remaining))%list |}).
Proof.
  intros Hb. induction remaining as [|remaining IH]; intros attempt w Hpick.
  - cbn. exists (config w), (lastError w). rewrite app_nil_r. now destruct w.
  - cbn [attempts]. unfold bind at 1. rewrite emit_run.
    destruct (pickNext U attempt) as [acct|] eqn:Ep;
      [|exfalso; apply (Hpick attempt); [lia|exact Ep]].
    unfold bind at 1.
    destruct (attempt_body_unwrapped U isStream attempt body model
                (logged [PickNext attempt] w) Hb) as [cfg1 [le1 E1]].
    rewrite E1.
    match goal with |- context [attempts J U isStream remaining (S attempt) body model ?w1] =>
      destruct (IH (S attempt) w1) as [cfg2 [le2 E2]]
    end.
    { intros a Ha. apply Hpick. lia. }
    rewrite E2. cbn [log logged seq map]. exists cfg2, le2.
    now rewrite <- app_assoc.
Qed.

End WithJson.
End RefusalFacts.

(** X3. A path whose method is neither [generateContent] nor
    [streamGenerateContent] is answered 400 with an INVALID_ARGUMENT
    error body that names the method; no account is picked and nothing
    is fetched. *)
Theorem unsupported_method_answers_400 :
  forall (J : Js.json_codec) (U : Gemini.upstream) req model method w,
    Gemini.parseModelAction (Gemini.params0 req) = (model, method) ->
    method <> "generateContent" -> method <> "streamGenerateContent" ->
    Gemini.headersSent w = false ->
    exists w',
      Gemini.handleGeminiGenerate J U req w = (Eff.Ok tt, w')
      /\ Gemini.log w'
         = (Gemini.log w
            ++ [Gemini.Status 400;
                Gemini.Json
                  (Gemini.error_body 400
                     ("Unsupported method: " ++ method
                      ++ ". Use generateContent or streamGenerateContent.")
                     "INVALID_ARGUMENT")])%list
      /\ Props.sent_status w' = 400%Z.
Proof.
  intros J U req model method w Hp H1 H2 Hw.
  unfold Gemini.handleGeminiGenerate. rewrite Hp.
  apply String.eqb_neq in H1. apply String.eqb_neq in H2. rewrite H1, H2.
  cbn [negb andb]. unfold Eff.bind at 1. rewrite HandlerFacts.res_status_run.
  rewrite HandlerFacts.res_json_run
    by (rewrite HandlerFacts.headersSent_logged, Hw; reflexivity).
  rewrite HandlerFacts.logged_logged.
  eexists. split; [reflexivity|]. split; [reflexivity|].
  apply HandlerFacts.sent_status_answer; [exact Hw|reflexivity|discriminate].
Qed.

Lemma unsupported_method_answers_400_witness :
  exists w',
    Gemini.handleGeminiGenerate Samples.codec
      (HandlerSamples.pool (fun _ _ => HandlerSamples.bad_gateway))
      {| Gemini.params0 := "gemini-3-flash:countTokens";
         Gemini.query_alt := Js.JUndefined;
         Gemini.req_body := Js.JObj [] |}
      HandlerSamples.world0
    = (Eff.Ok tt, w')
    /\ Gemini.log w'
       = (Gemini.log HandlerSamples.world0
          ++ [Gemini.Status 400;
              Gemini.Json
                (Gemini.error_body 400
                   ("Unsupported method: " ++ "countTokens"
                    ++ ". Use generateContent or streamGenerateContent.")
                   "INVALID_ARGUMENT")])%list
    /\ Props.sent_status w' = 400%Z.
Proof.
  apply (unsupported_method_answers_400 Samples.codec
           (HandlerSamples.pool (fun _ _ => HandlerSamples.bad_gateway))
           {| Gemini.params0 := "gemini-3-flash:countTokens";
              Gemini.query_alt := Js.JUndefined;
              Gemini.req_body := Js.JObj [] |}
           "gemini-3-flash" "countTokens" HandlerSamples.world0).
  - reflexivity.
  - discriminate.
  - discriminate.
  - reflexivity.
Defined.

(** X4. When the account manager has no account for an attempt, the
    attempts before it having failed on every fetch (a network error, a
    429 or a 404), the handler answers 503 with an UNAVAILABLE error
    body saying that there are no available accounts; it fetches nothing
    for that attempt and makes no further attempt. *)
Theorem no_account_answers_503 :
  forall (J : Js.json_codec) (U : Gemini.upstream) req model method w k,
    Gemini.parseModelAction (Gemini.params0 req) = (model, method) ->
    method = "generateContent" \/ method = "streamGenerateContent" ->
    Gemini.headersSent w = false ->
    k < 3 ->
    (forall attempt, attempt < k -> Gemini.pickNext U attempt <> None) ->
    (forall attempt position, attempt < k -> position < 2 ->
        Props.transient (Gemini.fetch U attempt position)) ->
    Gemini.pickNext U k = None ->
    exists w' evs,
      Gemini.handleGeminiGenerate J U req w = (Eff.Ok tt, w')
      /\ Gemini.log w'
         = (Gemini.log w ++ evs
            ++ [Gemini.PickNext k; Gemini.Status 503;
                Gemini.Json
                  (Gemini.error_body 503 "No available accounts" "UNAVAILABLE")])%list
      /\ forallb Props.pick_or_fetch evs = true
      /\ Props.picked evs = seq 0 k
      /\ Props.sent_status w' = 503%Z
      /\ Props.sent_body w'
         = [Gemini.Json (Gemini.error_body 503 "No available accounts" "UNAVAILABLE")].
Proof.
  intros J U req model method w k Hp Hm Hw Hk Hpick Hfetch Hnone.
  unfold Gemini.handleGeminiGenerate. rewrite Hp.
  rewrite (RefusalFacts.valid_method method Hm).
  destruct (RefusalFacts.attempts_until_no_account J U
              (Gemini.isStream_of method req) (Gemini.req_body req) model k
              (2 - k) 0 w Hw)
    as [cfg [le [evs [E [Hq Hpk]]]]].
  { intros a Ha. apply Hpick. lia. }
  { intros a position Ha Hpos. apply Hfetch; [lia|exact Hpos]. }
  { exact Hnone. }
  replace (k + S (2 - k)) with Gemini.maxAttempts in E
    by (unfold Gemini.maxAttempts; lia).
  unfold Eff.bind at 1. rewrite E. cbn [Nat.add Eff.ret].
  eexists. exists evs. split; [reflexivity|]. cbn [Gemini.log].
  split; [reflexivity|]. split; [exact Hq|]. split; [exact Hpk|].
  assert (Hs : existsb Gemini.commits (Gemini.log w ++ evs ++ [Gemini.PickNext k]) = false).
  { rewrite !existsb_app. unfold Gemini.headersSent in Hw.
    now rewrite Hw, (RetryFacts.pick_or_fetch_commit_nothing _ Hq). }
  split.
  - unfold Props.sent_status. cbn [Gemini.log].
    replace (Gemini.log w ++ evs
             ++ [Gemini.PickNext k; Gemini.Status 503;
                 Gemini.Json (Gemini.error_body 503 "No available accounts" "UNAVAILABLE")])%list
      with ((Gemini.log w ++ evs ++ [Gemini.PickNext k])
            ++ [Gemini.Status 503;
                Gemini.Json (Gemini.error_body 503 "No available accounts" "UNAVAILABLE")])%list
      by (rewrite <- !app_assoc; reflexivity).
    rewrite HandlerFacts.status_before_commit_app by exact Hs. reflexivity.
  - unfold Props.sent_body. cbn [Gemini.log].
    rewrite !filter_app. cbn.
    assert (Hnone' : forall l, existsb Gemini.commits l = false ->
                               filter Props.is_output l = []).
    { induction l as [|e l IH]; [reflexivity|]. cbn [existsb]. intros H.
      apply orb_false_elim in H. destruct H as [He Hl].
      destruct e; cbn in He |- *; try discriminate; auto. }
    rewrite !existsb_app in Hs. apply orb_false_elim in Hs. destruct Hs as [H1 Hs].
    apply orb_false_elim in Hs. destruct Hs as [H2 _].
    now rewrite (Hnone' _ H1), (Hnone' _ H2).
Qed.

Lemma no_account_answers_503_witness :
  exists w' evs,
    Gemini.handleGeminiGenerate Samples.codec
      {| Gemini.pickNext := fun attempt =>
           match attempt with
           | O => Some {| Gemini.email := "user@example.com" |}
           | _ => None
           end;
         Gemini.getTokenForAccount := fun _ => inr "token";
         Gemini.getProjectForAccount := fun _ => inr "project-1";
         Gemini.randomUUID := fun _ => "0000";
         Gemini.fetch := fun _ _ => Gemini.NetworkError "ECONNRESET" |}
      HandlerSamples.generate HandlerSamples.world0
    = (Eff.Ok tt, w')
    /\ Gemini.log w'
       = (Gemini.log HandlerSamples.world0 ++ evs
          ++ [Gemini.PickNext 1; Gemini.Status 503;
              Gemini.Json
                (Gemini.error_body 503 "No available accounts" "UNAVAILABLE")])%list
    /\ forallb Props.pick_or_fetch evs = true
    /\ Props.picked evs = seq 0 1
    /\ Props.sent_status w' = 503%Z
    /\ Props.sent_body w'
       = [Gemini.Json (Gemini.error_body 503 "No available accounts" "UNAVAILABLE")].
Proof.
  apply (no_account_answers_503 Samples.codec _ HandlerSamples.generate
           "gemini-3-flash" "generateContent" HandlerSamples.world0 1).
  - reflexivity.
  - now left.
  - reflexivity.
  - lia.
  - intros attempt Ha. assert (attempt = 0) as -> by lia. discriminate.
  - intros attempt position _ _. exact I.
  - reflexivity.
Defined.

(** X5. A request whose body is neither an object nor an array (no
    body, [null], a string, a number, a boolean) is not wrapped: every
    attempt picks an account and fails before anything is fetched, and
    after three attempts the caller is answered 429 with a
    RESOURCE_EXHAUSTED error body. *)
Theorem unstructured_body_answers_429 :
  forall (J : Js.json_codec) (U : Gemini.upstream) req model method w,
    Gemini.parseModelAction (Gemini.params0 req) = (model, method) ->
    method = "generateContent" \/ method = "streamGenerateContent" ->
    Gemini.headersSent w = false ->
    RunProps.structured (Gemini.req_body req) = false ->
    (forall attempt, attempt < 3 -> Gemini.pickNext U attempt <> None) ->
    exists w' message,
      Gemini.handleGeminiGenerate J U req w = (Eff.Ok tt, w')
      /\ Gemini.log w'
         = (Gemini.log w
            ++ [Gemini.PickNext 0; Gemini.PickNext 1; Gemini.PickNext 2;
                Gemini.Status 429;
                Gemini.Json (Gemini.error_body 429 message "RESOURCE_EXHAUSTED")])%list
      /\ Props.fetched_urls w' = Props.fetched_urls w.
Proof.
  intros J U req model method w Hp Hm Hw Hb Hpick.
  unfold Gemini.handleGeminiGenerate. rewrite Hp.
  rewrite (RefusalFacts.valid_method method Hm).
  destruct (RefusalFacts.attempts_unwrapped J U (Gemini.isStream_of method req)
              (Gemini.req_body req) model Gemini.maxAttempts Hb 0 w)
    as [cfg [le E]].
  { intros a Ha. apply Hpick. unfold Gemini.maxAttempts in Ha. lia. }
  unfold Eff.bind at 1. rewrite E.
  unfold Eff.bind at 1. cbn [Eff.get].
  unfold Eff.bind at 1. rewrite HandlerFacts.res_status_run.
  rewrite HandlerFacts.res_json_run.
  2:{ rewrite HandlerFacts.headersSent_logged. unfold Gemini.headersSent.
      cbn [Gemini.log]. rewrite existsb_app. unfold Gemini.headersSent in Hw.
      rewrite Hw. reflexivity. }
  rewrite HandlerFacts.logged_logged.
  eexists. eexists. split; [reflexivity|]. split.
  - cbn. now rewrite <- app_assoc.
  - unfold Props.fetched_urls. cbn. rewrite <- app_assoc, flat_map_app. cbn.
    now rewrite app_nil_r.
Qed.

Lemma unstructured_body_answers_429_witness :
  exists w' message,
    Gemini.handleGeminiGenerate Samples.codec
      (HandlerSamples.pool (fun _ _ => HandlerSamples.bad_gateway))
      {| Gemini.params0 := "gemini-3-flash:generateContent";
         Gemini.query_alt := Js.JUndefined;
         Gemini.req_body := Js.JUndefined |}
      HandlerSamples.world0
    = (Eff.Ok tt, w')
    /\ Gemini.log w'
       = (Gemini.log HandlerSamples.world0
          ++ [Gemini.PickNext 0; Gemini.PickNext 1; Gemini.PickNext 2;
              Gemini.Status 429;
              Gemini.Json (Gemini.error_body 429 message "RESOURCE_EXHAUSTED")])%list
    /\ Props.fetched_urls w' = Props.fetched_urls HandlerSamples.world0.
Proof.
  apply (unstructured_body_answers_429 Samples.codec
           (HandlerSamples.pool (fun _ _ => HandlerSamples.bad_gateway))
           {| Gemini.params0 := "gemini-3-flash:generateContent";
              Gemini.query_alt := Js.JUndefined;
              Gemini.req_body := Js.JUndefined |}
           "gemini-3-flash" "generateContent" HandlerSamples.world0).
  - reflexivity.
  - now left.
  - reflexivity.
  - reflexivity.
  - intros attempt _. discriminate.
Defined.

(** ** The events of a streamed answer *)

Module EventFacts.
Import Text Js Eff Gemini Props RunProps HandlerFacts LogFacts.

Ltac grows_auto :=
  repeat first
    [ apply grows_ret | apply grows_throw | apply grows_hang | apply grows_get
    | apply grows_set_lastError | apply grows_or_throw | apply grows_of_sum
    | apply grows_with_config
    | apply grows_emit; reflexivity
    | apply grows_bind; [|intros ?]
    | apply grows_try_catch; [|intros ?]
    | apply grows_try_finally
    | match goal with
      | |- grows _ (match ?x with _ => _ end) => destruct x
      | |- grows _ (if ?x then _ else _) => destruct x
      | |- grows _ (let (_, _) := ?x in _) => destruct x
      end ].

Lemma endsWith_refl s : endsWith s s = true.
Proof. destruct s; cbn; now rewrite ?String.eqb_refl, ?Ascii.eqb_refl. Qed.

Lemma endsWith_app suffix x s :
  endsWith suffix s = true -> endsWith suffix (x ++ s) = true.
Proof.
  intros H. induction x as [|c x IH]; [exact H|].
  cbn [append endsWith]. rewrite IH. apply orb_true_r.
Qed.

Ltac solve_log :=
  cbn [log logged app]; rewrite <- ?app_assoc; cbn [app];
  rewrite <- ?app_assoc, ?app_nil_r; reflexivity.

Lemma write_ends a : body_event (Write (a ++ LF ++ LF)) = true.
Proof. cbn [body_event]. apply endsWith_app, endsWith_refl. Qed.

Lemma write_ends2 a b : body_event (Write (a ++ b ++ LF ++ LF)) = true.
Proof. cbn [body_event]. apply endsWith_app, endsWith_app, endsWith_refl. Qed.

Lemma read_is_body e : read_event e = true -> body_event e = true.
Proof. destruct e; cbn; auto; discriminate. Qed.

Lemma body_is_stream_free evs :
  forallb body_event evs = true ->
  forallb (fun e => negb (is_status e)) evs = true
  /\ filter is_header evs = [] /\ picked evs = []
  /\ flat_map (fun e => match e with Fetch url _ _ => [url] | _ => [] end) evs = [].
Proof.
  induction evs as [|e evs IH]; [auto|]. cbn [forallb]. intros H.
  apply andb_prop in H. destruct H as [He Hevs].
  destruct (IH Hevs) as [H1 [H2 [H3 H4]]].
  destruct e; cbn in He |- *; try discriminate; auto.
Qed.

Lemma no_status_keeps_code evs : forall code,
  forallb (fun e => negb (is_status e)) evs = true ->
  status_before_commit code evs = code.
Proof.
  induction evs as [|e evs IH]; intros code H; [reflexivity|].
  cbn [forallb] in H. apply andb_prop in H. destruct H as [He Hevs].
  destruct e; cbn in He |- *; try discriminate; auto.
Qed.

Section WithJson.
Variable J : json_codec.

Lemma body_forward_line line : grows body_event (forward_line J line).
Proof.
  unfold forward_line, res_write.
  destruct (startsWith "data: " line).
  - destruct (String.eqb _ "[DONE]").
    + apply grows_emit. apply (write_ends "data: [DONE]").
    + apply grows_try_catch.
      * apply grows_bind; [apply grows_or_throw | intros parsed].
        apply grows_emit. apply write_ends2.
      * intros _. apply grows_emit. apply write_ends.
  - destruct (truthy _); [|apply grows_ret].
    apply grows_emit. apply write_ends.
Qed.

Lemma body_forward_lines lines : grows body_event (forward_lines J lines).
Proof.
  induction lines as [|line rest IH]; cbn [forward_lines]; [apply grows_ret|].
  apply grows_bind; [apply body_forward_line | intros _; exact IH].
Qed.

Lemma body_forward_chunk buffer bytes :
  grows body_event (forward_chunk J buffer bytes).
Proof.
  unfold forward_chunk. destruct (pop_last _).
  apply grows_bind; [apply body_forward_lines | intros _; apply grows_ret].
Qed.

Lemma body_forward_rest reads : forall d buffer,
  grows body_event (forward_rest J d reads buffer).
Proof.
  induction reads as [|r rest IH]; intros d buffer; cbn [forward_rest].
  - now apply grows_emit.
  - apply grows_bind.
    + eapply grows_weaken; [apply read_is_body | apply grows_await_read].
    + intros [bytes|]; [|apply grows_ret].
      destruct (decode J d bytes) as [d' chunk].
      apply grows_bind; [apply body_forward_chunk | intros ?; apply IH].
Qed.

(** The streaming path, nothing having been sent before: the three
    headers first, then reads, writes of complete events, the release
    of the reader and the end of the response, nothing else. *)
Lemma respond_stream_log r w :
  headersSent w = false ->
  exists evs,
    log (snd (respond_stream J r w)) = (log w ++ stream_headers ++ evs)%list
    /\ forallb body_event evs = true.
Proof.
  intros Hw. unfold respond_stream.
  unfold bind at 1. rewrite res_setHeader_run by exact Hw.
  unfold bind at 1.
  rewrite res_setHeader_run by (rewrite headersSent_logged, Hw; reflexivity).
  unfold bind at 1.
  rewrite res_setHeader_run by (rewrite !headersSent_logged, Hw; reflexivity).
  rewrite !logged_logged. cbn [app].
  match goal with |- context [bind (getReader r) ?k ?w1] =>
    assert (G : grows body_event (bind (getReader r) k));
      [|destruct (G w1) as [evs [E HQ]]]
  end.
  { apply grows_bind; [apply grows_getReader | intros reads].
    apply grows_try_finally; [|unfold res_end; now apply grows_emit].
    apply grows_try_catch.
    - destruct (next_read reads) as [first rest].
      apply grows_bind.
      + eapply grows_weaken; [apply read_is_body | apply grows_await_read_race].
      + intros [[|c bytes]|].
        * apply grows_bind; [apply grows_set_lastError | intros _].
          apply grows_bind; [now apply grows_emit | intros _; apply grows_ret].
        * destruct (decode J (fresh J) _) as [d firstChunk].
          apply grows_bind; [apply body_forward_chunk | intros buffer].
          apply grows_bind; [apply body_forward_rest | intros _; apply grows_ret].
        * apply grows_bind; [apply grows_set_lastError | intros _].
          apply grows_bind; [now apply grows_emit | intros _; apply grows_ret].
    - intros e. destruct (String.eqb e "Timeout"); [|apply grows_ret].
      apply grows_bind; [apply grows_set_lastError | intros _; apply grows_ret]. }
  exists evs. split; [|exact HQ]. rewrite E. cbn [log logged].
  unfold stream_headers. now rewrite <- app_assoc.
Qed.

(** The loop over the remaining reads, up to a read that carries no
    chunk: the lines of the chunks before it are forwarded, then the
    loop ends as that read has it. *)
Lemma forward_rest_until chunks tail o : forall d buffer w,
  no_LF buffer -> ending_of tail = Some o ->
  exists evs,
    forward_rest J d (chunked chunks ++ tail) buffer w = (o, logged evs w)
    /\ filter is_output evs
       = map Write (flat_map (line_output J)
                      (complete_lines (buffer ++ text_from J d chunks)))
    /\ reads_of evs = repeat (Read None) (S (length chunks)).
Proof.
  intros d buffer w Hb Hr. revert d buffer w Hb.
  induction chunks as [|[t bytes] chunks IH]; intros d buffer w Hb.
  - exists [Read None]. cbn [chunked map app text_from].
    rewrite MergeFacts.append_empty. unfold complete_lines. rewrite Hb.
    cbn [removelast flat_map map filter length repeat].
    split; [|split; reflexivity].
    destruct tail as [|r rest]; cbn [forward_rest].
    + cbn in Hr. inversion Hr. now rewrite emit_run.
    + unfold bind, await_read, bind. rewrite emit_run.
      destruct r as [after_ms [bytes| |message]|]; cbn in Hr |- *;
        try discriminate; now inversion Hr.
  - cbn [chunked map app forward_rest text_from length fst snd].
    fold (chunked chunks).
    unfold bind at 1. unfold await_read, bind at 1. rewrite emit_run. cbn [settle ret].
    destruct (decode J d bytes) as [d' c].
    unfold bind at 1. rewrite StreamFacts.forward_chunk_run.
    destruct (IH d' (remainder (buffer ++ c))
                 (logged (map Write (flat_map (line_output J)
                                       (complete_lines (buffer ++ c))))
                         (logged [Read None] w))
                 (MergeFacts.remainder_no_LF _)) as [evs [E [Hout Hreads]]].
    rewrite E, !logged_logged.
    eexists. split; [reflexivity|]. split.
    + cbn [app filter is_output]. rewrite filter_app, StreamFacts.output_of_writes, Hout.
      rewrite <- map_app, <- flat_map_app, <- TextFacts.append_assoc,
        <- LineFacts.complete_lines_app. reflexivity.
    + unfold reads_of in *. cbn [app filter read_event].
      rewrite filter_app. fold (reads_of (map Write (flat_map (line_output J)
                                         (complete_lines (buffer ++ c))))).
      rewrite StreamFacts.reads_of_writes, Hreads. reflexivity.
Qed.

End WithJson.
End EventFacts.

(** ** A streamed answer, from the first dispatch on *)

Module StreamRunFacts.
Import Text Js Eff Gemini Props RunProps HandlerFacts LogFacts EventFacts.

Section WithJson.
Variable J : json_codec.

(** A 2xx answer is handled by the streaming path or by the merging
    path. *)
Lemma handle_ok_response isStream r w :
  response_ok r = true ->
  handle_response J isStream r w
  = if isStream then respond_stream J r w else respond_merged J r w.
Proof.
  intros Hok. unfold handle_response.
  destruct (MergedAnswerFacts.ok_is_not_429_404 r Hok) as [-> ->].
  rewrite Hok. cbn [negb]. now destruct isStream.
Qed.

(** The loop body on a response whose handling returns or never ends. *)
Lemma try_endpoint_passes U isStream attempt position endpoint token wrapped r w o w' :
  fetch U attempt position = Responded r ->
  handle_response J isStream r
    (logged [Fetch (upstream_url endpoint) ("Bearer " ++ token) wrapped] w)
  = (o, w') ->
  (forall e, o <> Throw e) ->
  try_endpoint J U isStream attempt position endpoint token wrapped w = (o, w').
Proof.
  intros Hf Hh Ho. unfold try_endpoint, try_catch, bind. rewrite emit_run, Hf, Hh.
  destruct o as [c|e|]; [reflexivity| |reflexivity]. now contradiction (Ho e).
Qed.

(** The first dispatch of a request when the primary endpoint's answer
    makes the handler wait for ever. *)
Lemma handler_first_dispatch_hang U req model method acct token project payload cfg' w w2 :
  parseModelAction (params0 req) = (model, method) ->
  method = "generateContent" \/ method = "streamGenerateContent" ->
  pickNext U 0 = Some acct ->
  getTokenForAccount U 0 = inr token ->
  getProjectForAccount U 0 = inr project ->
  wrapGeminiRequest J (randomUUID U 0) (req_body req) project model (config w)
  = (Ok payload, cfg') ->
  try_endpoint J U (isStream_of method req) 0 0
    "https://cloudcode-pa.googleapis.com" token payload
    {| config := cfg'; lastError := lastError w; log := (log w ++ [PickNext 0])%list |}
  = (Hang, w2) ->
  handleGeminiGenerate J U req w = (Hang, w2).
Proof.
  intros Hp Hm Hpick Htok Hproj Hwrap Htry.
  unfold handleGeminiGenerate. rewrite Hp.
  rewrite (RefusalFacts.valid_method method Hm).
  unfold maxAttempts. cbn [attempts].
  unfold bind at 1. unfold bind at 1. unfold bind at 1. rewrite emit_run, Hpick.
  unfold bind at 1. unfold attempt_body, try_catch.
  unfold bind at 1. rewrite Htok. cbn [of_sum ret].
  unfold bind at 1. rewrite Hproj. cbn [of_sum ret].
  unfold bind at 1. unfold with_config, zoom. cbn [config logged].
  rewrite Hwrap. cbn [endpoints try_endpoints].
  unfold bind at 1. unfold logged. cbn [config lastError log].
  rewrite Htry. reflexivity.
Qed.

(** The streaming path on a body whose first chunk arrives in time and
    is not empty, up to the first read that carries no chunk. *)
Lemma respond_stream_until r t c chunks tail o w :
  headersSent w = false ->
  body r = Some (Settles t (Chunk c) :: chunked chunks ++ tail)%list ->
  (t < FIRST_READ_TIMEOUT_MS)%N -> c <> "" ->
  ending_of tail = Some o ->
  exists evs w',
    respond_stream J r w = (stream_outcome o, w')
    /\ log w' = (log w ++ stream_headers ++ evs ++ stream_end o)%list
    /\ filter is_output evs
       = map Write (flat_map (line_output J)
                      (complete_lines (body_text J ((t, c) :: chunks))))
    /\ reads_of evs
       = Read (Some FIRST_READ_TIMEOUT_MS) :: repeat (Read None) (S (length chunks))
    /\ forallb body_event evs = true.
Proof.
  intros Hw Hb Ht Hc Hlast.
  destruct (respond_stream_log J r w Hw) as [all [Hall Hbody]].
  destruct (respond_stream J r w) as [res w'] eqn:Erun. cbn [snd] in Hall.
  unfold respond_stream in Erun.
  unfold bind at 1 in Erun. rewrite res_setHeader_run in Erun by exact Hw.
  unfold bind at 1 in Erun.
  rewrite res_setHeader_run in Erun by (rewrite headersSent_logged, Hw; reflexivity).
  unfold bind at 1 in Erun.
  rewrite res_setHeader_run in Erun by (rewrite !headersSent_logged, Hw; reflexivity).
  rewrite !logged_logged in Erun. cbn [app] in Erun.
  unfold bind at 1 in Erun. unfold getReader in Erun.
  rewrite Hb in Erun. cbn [or_throw ret next_read fst snd] in Erun.
  unfold try_finally, try_catch, await_read_race in Erun.
  unfold bind at 1 in Erun. unfold bind at 1 in Erun.
  rewrite emit_run, logged_logged in Erun. cbn [app] in Erun.
  apply N.ltb_lt in Ht. rewrite Ht in Erun. cbn [settle ret] in Erun.
  destruct c as [|a c]; [contradiction|].
  unfold body_text. cbn [text_from].
  destruct (decode J (fresh J) (String a c)) as [d1 firstChunk].
  unfold bind at 1 in Erun. rewrite StreamFacts.forward_chunk_run, logged_logged in Erun.
  unfold bind at 1 in Erun.
  match type of Erun with context [forward_rest J d1 _ ?b ?w1] =>
    destruct (forward_rest_until J chunks tail o d1 b w1
                (MergeFacts.remainder_no_LF _) Hlast)
      as [evs [E [Hout Hreads]]]
  end.
  rewrite E in Erun. rewrite !logged_logged in Erun.
  set (first := map Write (flat_map (line_output J)
                             (complete_lines ("" ++ firstChunk)))) in *.
  exists (Read (Some FIRST_READ_TIMEOUT_MS) :: first ++ evs)%list, w'.
  assert (Hout' :
            filter is_output (Read (Some FIRST_READ_TIMEOUT_MS) :: first ++ evs)
            = map Write (flat_map (line_output J)
                           (complete_lines (firstChunk ++ text_from J d1 chunks)))).
  { cbn [filter is_output]. rewrite filter_app. subst first.
    rewrite StreamFacts.output_of_writes, Hout, <- map_app, <- flat_map_app.
    change firstChunk with ("" ++ firstChunk) at 3.
    now rewrite <- LineFacts.complete_lines_app. }
  assert (Hreads' :
            reads_of (Read (Some FIRST_READ_TIMEOUT_MS) :: first ++ evs)
            = Read (Some FIRST_READ_TIMEOUT_MS)
              :: repeat (Read None) (S (length chunks))).
  { unfold reads_of in *. cbn [filter read_event]. rewrite filter_app.
    subst first.
    fold (reads_of (map Write (flat_map (line_output J)
                                 (complete_lines ("" ++ firstChunk))))).
    now rewrite StreamFacts.reads_of_writes, Hreads. }
  assert (Hlog : res = stream_outcome o
                 /\ log w' = (log w ++ stream_headers
                              ++ (Read (Some FIRST_READ_TIMEOUT_MS) :: first ++ evs)
                              ++ stream_end o)%list).
  { unfold stream_headers.
    destruct o as [[]|message|]; cbn [ret stream_outcome stream_end] in *.
    - unfold res_end in Erun. rewrite emit_run, logged_logged in Erun.
      inversion Erun; subst res w'. split; [reflexivity|]. solve_log.
    - destruct (String.eqb message "Timeout") eqn:Em.
      + unfold bind at 1 in Erun. unfold set_lastError, modify, res_end in Erun.
        cbn [ret] in Erun. rewrite emit_run in Erun.
        inversion Erun; subst res w'. split; [reflexivity|]. solve_log.
      + cbn [ret] in Erun. unfold res_end in Erun.
        rewrite emit_run, logged_logged in Erun.
        inversion Erun; subst res w'. split; [reflexivity|]. solve_log.
    - inversion Erun; subst res w'. split; [reflexivity|]. solve_log. }
  destruct Hlog as [-> Hlog].
  split; [reflexivity|]. split; [exact Hlog|].
  split; [exact Hout'|]. split; [exact Hreads'|].
  rewrite Hlog in Hall. apply app_inv_head in Hall. apply app_inv_head in Hall.
  subst all. rewrite forallb_app in Hbody. apply andb_prop in Hbody. tauto.
Qed.

End WithJson.
End StreamRunFacts.

Module StreamAnswerFacts.
Import Text Js Eff Gemini Props RunProps HandlerFacts LogFacts EventFacts StreamRunFacts.

(** What the caller and the upstream have seen of a request whose first
    dispatch was answered by a stream. *)
Lemma stream_observations w' url auth payload evs o :
  log w' = ([PickNext 0; Fetch url auth payload]
            ++ stream_headers ++ evs ++ stream_end o)%list ->
  forallb body_event evs = true ->
  sent_status w' = 200%Z
  /\ filter is_header (log w') = stream_headers
  /\ sent_body w' = (filter is_output evs ++ stream_end o)%list
  /\ fetched_urls w' = [url]
  /\ picked (log w') = [0].
Proof.
  intros Hlog Hevs.
  assert (Hend : forallb body_event (evs ++ stream_end o) = true).
  { rewrite forallb_app, Hevs. now destruct o. }
  destruct (body_is_stream_free _ Hend) as [Hs [Hh [Hp Hf]]].
  unfold sent_status, sent_body, fetched_urls. rewrite Hlog.
  cbn [app stream_headers].
  split; [|split; [|split; [|split]]].
  - cbn [status_before_commit commits]. now apply no_status_keeps_code.
  - cbn [filter is_header]. now rewrite Hh.
  - cbn [filter is_output]. rewrite filter_app. now destruct o.
  - cbn [flat_map app]. now rewrite Hf.
  - cbn [picked flat_map app]. fold (picked (evs ++ stream_end o)). now rewrite Hp.
Qed.

Section WithJson.
Variable J : json_codec.

(** The first dispatch of a streaming caller's request, answered 2xx. *)
Lemma first_stream_dispatch U req model method acct token project payload cfg' w r o w3 :
  parseModelAction (params0 req) = (model, method) ->
  method = "generateContent" \/ method = "streamGenerateContent" ->
  isStream_of method req = true ->
  pickNext U 0 = Some acct ->
  getTokenForAccount U 0 = inr token ->
  getProjectForAccount U 0 = inr project ->
  wrapGeminiRequest J (randomUUID U 0) (req_body req) project model (config w)
  = (Ok payload, cfg') ->
  fetch U 0 0 = Responded r ->
  response_ok r = true ->
  respond_stream J r
    (logged [Fetch (upstream_url "https://cloudcode-pa.googleapis.com")
               ("Bearer " ++ token) payload]
       {| config := cfg'; lastError := lastError w;
          log := (log w ++ [PickNext 0])%list |})
  = (o, w3) ->
  o = Ok Return \/ o = Hang ->
  handleGeminiGenerate J U req w
  = (match o with Ok _ => Ok tt | Throw e => Throw e | Hang => Hang end, w3).
Proof.
  intros Hp Hm Hs Hpick Htok Hproj Hwrap Hf Hok Hrun Ho.
  assert (Htry : try_endpoint J U (isStream_of method req) 0 0
                   "https://cloudcode-pa.googleapis.com" token payload
                   {| config := cfg'; lastError := lastError w;
                      log := (log w ++ [PickNext 0])%list |}
                 = (o, w3)).
  { apply (try_endpoint_passes J U _ 0 0 _ token payload r _ o w3 Hf).
    - rewrite (handle_ok_response J _ r _ Hok), Hs. exact Hrun.
    - intros e He. destruct Ho as [-> | ->]; discriminate. }
  destruct Ho as [-> | ->].
  - now apply (HandlerFacts.handler_first_dispatch J U req model method acct token
                 project payload cfg' w w3).
  - now apply (handler_first_dispatch_hang J U req model method acct token
                 project payload cfg' w w3).
Qed.

(** The same, for a body whose first chunk arrives in time and is not
    empty: what the caller has when the streaming path is through, or
    stuck. *)
Lemma first_stream_answer U req model method acct token project payload cfg' w r
    t c chunks tail o :
  parseModelAction (params0 req) = (model, method) ->
  method = "generateContent" \/ method = "streamGenerateContent" ->
  isStream_of method req = true ->
  log w = [] ->
  pickNext U 0 = Some acct ->
  getTokenForAccount U 0 = inr token ->
  getProjectForAccount U 0 = inr project ->
  wrapGeminiRequest J (randomUUID U 0) (req_body req) project model (config w)
  = (Ok payload, cfg') ->
  fetch U 0 0 = Responded r ->
  response_ok r = true ->
  body r = Some (Settles t (Chunk c) :: chunked chunks ++ tail)%list ->
  (t < FIRST_READ_TIMEOUT_MS)%N -> c <> "" ->
  ending_of tail = Some o ->
  stream_outcome o = Ok Return \/ stream_outcome o = Hang ->
  exists w',
    handleGeminiGenerate J U req w
    = (match stream_outcome o with
       | Ok _ => Ok tt
       | Throw e => Throw e
       | Hang => Hang
       end, w')
    /\ sent_status w' = 200%Z
    /\ filter is_header (log w') = stream_headers
    /\ sent_body w'
       = (map Write (flat_map (line_output J)
                       (complete_lines (body_text J ((t, c) :: chunks))))
          ++ stream_end o)%list
    /\ fetched_urls w' = [upstream_url "https://cloudcode-pa.googleapis.com"]
    /\ picked (log w') = [0].
Proof.
  intros Hp Hm Hs Hlog Hpick Htok Hproj Hwrap Hf Hok Hb Ht Hc He Ho.
  set (w2 := logged
               [Fetch (upstream_url "https://cloudcode-pa.googleapis.com")
                  ("Bearer " ++ token) payload]
               {| config := cfg'; lastError := lastError w;
                  log := (log w ++ [PickNext 0])%list |}).
  assert (Hw2 : headersSent w2 = false)
    by (unfold headersSent, w2; cbn; now rewrite Hlog).
  destruct (respond_stream_until J r t c chunks tail o w2 Hw2 Hb Ht Hc He)
    as [evs [w' [Hrun [Hall [Hout [_ Hbody]]]]]].
  exists w'. split.
  - exact (first_stream_dispatch U req model method acct token
             project payload cfg' w r _ _ Hp Hm Hs Hpick Htok Hproj Hwrap Hf Hok
             Hrun Ho).
  - unfold w2 in Hall. cbn [log logged] in Hall.
    rewrite Hlog in Hall. cbn [app] in Hall.
    destruct (stream_observations w' _ _ _ evs o Hall Hbody)
      as [H1 [H2 [H3 [H4 H5]]]].
    split; [exact H1|]. split; [exact H2|]. split; [|split; [exact H4|exact H5]].
    rewrite H3, Hout. reflexivity.
Qed.

End WithJson.
End StreamAnswerFacts.

(** X6. A streaming caller whose first dispatch is answered 2xx, the
    first chunk of the body arriving within the 30 seconds and not
    empty, receives status 200 with the three event-stream headers, one
    write for every line of the body's text, as the decoder gives it,
    that is not blank (a [data: ] line
    that parses with its [response] wrapper taken off, the [DONE] line
    and every other line as they are), in the order of the body and
    whatever the chunk boundaries, and then the end of the response.
    One account is picked and only the primary endpoint is fetched. *)
Theorem healthy_stream_is_forwarded :
  forall (J : Js.json_codec) (U : Gemini.upstream) req model method acct token
         project payload cfg' w r t c chunks,
    Gemini.parseModelAction (Gemini.params0 req) = (model, method) ->
    method = "generateContent" \/ method = "streamGenerateContent" ->
    Gemini.isStream_of method req = true ->
    Gemini.log w = [] ->
    Gemini.pickNext U 0 = Some acct ->
    Gemini.getTokenForAccount U 0 = inr token ->
    Gemini.getProjectForAccount U 0 = inr project ->
    Gemini.wrapGeminiRequest J (Gemini.randomUUID U 0) (Gemini.req_body req)
      project model (Gemini.config w) = (Eff.Ok payload, cfg') ->
    Gemini.fetch U 0 0 = Gemini.Responded r ->
    Gemini.response_ok r = true ->
    Gemini.body r = Some (Props.chunked ((t, c) :: chunks)) ->
    (t < Gemini.FIRST_READ_TIMEOUT_MS)%N -> c <> "" ->
    exists w',
      Gemini.handleGeminiGenerate J U req w = (Eff.Ok tt, w')
      /\ Props.sent_status w' = 200%Z
      /\ filter RunProps.is_header (Gemini.log w') = RunProps.stream_headers
      /\ Props.sent_body w'
         = (map Gemini.Write
              (flat_map (Props.line_output J)
                 (Props.complete_lines (Props.body_text J ((t, c) :: chunks))))
            ++ [Gemini.End_])%list
      /\ Props.fetched_urls w'
         = [Gemini.upstream_url "https://cloudcode-pa.googleapis.com"]
      /\ Props.picked (Gemini.log w') = [0].
Proof.
  intros J U req model method acct token project payload cfg' w r t c chunks
         Hp Hm Hs Hlog Hpick Htok Hproj Hwrap Hf Hok Hb Ht Hc.
  assert (Hb' : Gemini.body r
                = Some (Gemini.Settles t (Gemini.Chunk c)
                        :: Props.chunked chunks ++ [])%list)
    by (rewrite Hb, app_nil_r; reflexivity).
  exact (StreamAnswerFacts.first_stream_answer J U req model method acct token project
           payload cfg' w r t c chunks [] (Eff.Ok tt) Hp Hm Hs Hlog Hpick Htok Hproj
           Hwrap Hf Hok Hb' Ht Hc eq_refl (or_introl eq_refl)).
Qed.

Lemma healthy_stream_is_forwarded_witness :
  exists w',
    Gemini.handleGeminiGenerate MergeSamples.codec
      (MergeSamples.answering MergeSamples.po_ng)
      HandlerSamples.stream HandlerSamples.world0
    = (Eff.Ok tt, w')
    /\ Props.sent_status w' = 200%Z
    /\ filter RunProps.is_header (Gemini.log w') = RunProps.stream_headers
    /\ Props.sent_body w'
       = (map Gemini.Write
            (flat_map (Props.line_output MergeSamples.codec)
               (Props.complete_lines (Props.body_text MergeSamples.codec MergeSamples.po_ng)))
          ++ [Gemini.End_])%list
    /\ Props.fetched_urls w'
       = [Gemini.upstream_url "https://cloudcode-pa.googleapis.com"]
    /\ Props.picked (Gemini.log w') = [0].
Proof.
  eapply (healthy_stream_is_forwarded MergeSamples.codec
            (MergeSamples.answering MergeSamples.po_ng)
            HandlerSamples.stream "gemini-3-flash" "streamGenerateContent"
            {| Gemini.email := "user@example.com" |} "token" "project-1" _ _
            HandlerSamples.world0
            {| Gemini.status := 200; Gemini.text := inr "";
               Gemini.body := Some (Props.chunked MergeSamples.po_ng) |}).
  - reflexivity.
  - now right.
  - reflexivity.
  - reflexivity.
  - reflexivity.
  - reflexivity.
  - reflexivity.
  - vm_compute. reflexivity.
  - reflexivity.
  - reflexivity.
  - reflexivity.
  - reflexivity.
  - discriminate.
Defined.

(** X7. When a read of the body fails after the first chunk (with a
    message other than [Timeout]), the streaming caller keeps what was
    written: the lines of the chunks read so far, then the end of the
    response.  The handler returns; no other endpoint and no other
    account is tried. *)
Theorem broken_stream_ends_the_response :
  forall (J : Js.json_codec) (U : Gemini.upstream) req model method acct token
         project payload cfg' w r t c chunks after_ms message rest,
    Gemini.parseModelAction (Gemini.params0 req) = (model, method) ->
    method = "generateContent" \/ method = "streamGenerateContent" ->
    Gemini.isStream_of method req = true ->
    Gemini.log w = [] ->
    Gemini.pickNext U 0 = Some acct ->
    Gemini.getTokenForAccount U 0 = inr token ->
    Gemini.getProjectForAccount U 0 = inr project ->
    Gemini.wrapGeminiRequest J (Gemini.randomUUID U 0) (Gemini.req_body req)
      project model (Gemini.config w) = (Eff.Ok payload, cfg') ->
    Gemini.fetch U 0 0 = Gemini.Responded r ->
    Gemini.response_ok r = true ->
    Gemini.body r
    = Some (Gemini.Settles t (Gemini.Chunk c)
            :: Props.chunked chunks
            ++ Gemini.Settles after_ms (Gemini.Failed message) :: rest)%list ->
    (t < Gemini.FIRST_READ_TIMEOUT_MS)%N -> c <> "" ->
    message <> "Timeout" ->
    exists w',
      Gemini.handleGeminiGenerate J U req w = (Eff.Ok tt, w')
      /\ Props.sent_status w' = 200%Z
      /\ Props.sent_body w'
         = (map Gemini.Write
              (flat_map (Props.line_output J)
                 (Props.complete_lines (Props.body_text J ((t, c) :: chunks))))
            ++ [Gemini.End_])%list
      /\ Props.fetched_urls w'
         = [Gemini.upstream_url "https://cloudcode-pa.googleapis.com"]
      /\ Props.picked (Gemini.log w') = [0].
Proof.
  intros J U req model method acct token project payload cfg' w r t c chunks
         after_ms message rest Hp Hm Hs Hlog Hpick Htok Hproj Hwrap Hf Hok Hb Ht Hc Hne.
  apply String.eqb_neq in Hne.
  destruct (StreamAnswerFacts.first_stream_answer J U req model method acct token
              project payload cfg' w r t c chunks
              (Gemini.Settles after_ms (Gemini.Failed message) :: rest)
              (Eff.Throw message) Hp Hm Hs Hlog Hpick Htok Hproj
              Hwrap Hf Hok Hb Ht Hc eq_refl)
    as [w' [H1 [H2 [_ [H4 [H5 H6]]]]]].
  { left. cbn. now rewrite Hne. }
  exists w'. cbn [RunProps.stream_outcome RunProps.stream_end] in H1, H4. auto.
Qed.

Lemma broken_stream_ends_the_response_witness :
  exists w',
    Gemini.handleGeminiGenerate Samples.codec
      (HandlerSamples.pool (fun _ _ => RunSamples.answer RunSamples.breaking))
      HandlerSamples.stream HandlerSamples.world0
    = (Eff.Ok tt, w')
    /\ Props.sent_status w' = 200%Z
    /\ Props.sent_body w'
       = (map Gemini.Write
            (flat_map (Props.line_output Samples.codec)
               (Props.complete_lines
                  (Props.body_text Samples.codec [(5%N, RunSamples.line5)])))
          ++ [Gemini.End_])%list
    /\ Props.fetched_urls w'
       = [Gemini.upstream_url "https://cloudcode-pa.googleapis.com"]
    /\ Props.picked (Gemini.log w') = [0].
Proof.
  eapply (broken_stream_ends_the_response Samples.codec
            (HandlerSamples.pool (fun _ _ => RunSamples.answer RunSamples.breaking))
            HandlerSamples.stream "gemini-3-flash" "streamGenerateContent"
            {| Gemini.email := "user@example.com" |} "token" "project-1" _ _
            HandlerSamples.world0
            {| Gemini.status := 200; Gemini.text := inr "";
               Gemini.body := Some RunSamples.breaking |}
            5%N RunSamples.line5 [] 9%N "ECONNRESET" []).
  - reflexivity.
  - now right.
  - reflexivity.
  - reflexivity.
  - reflexivity.
  - reflexivity.
  - reflexivity.
  - vm_compute. reflexivity.
  - reflexivity.
  - reflexivity.
  - reflexivity.
  - reflexivity.
  - discriminate.
  - discriminate.
Defined.

(** X8. Only the first read of a stream is raced against a timer.  When
    a later read never settles, the handler never completes: the lines
    of the chunks read so far are written, and the response is never
    ended. *)
Theorem stalled_stream_is_never_ended :
  forall (J : Js.json_codec) (U : Gemini.upstream) req model method acct token
         project payload cfg' w r t c chunks rest,
    Gemini.parseModelAction (Gemini.params0 req) = (model, method) ->
    method = "generateContent" \/ method = "streamGenerateContent" ->
    Gemini.isStream_of method req = true ->
    Gemini.log w = [] ->
    Gemini.pickNext U 0 = Some acct ->
    Gemini.getTokenForAccount U 0 = inr token ->
    Gemini.getProjectForAccount U 0 = inr project ->
    Gemini.wrapGeminiRequest J (Gemini.randomUUID U 0) (Gemini.req_body req)
      project model (Gemini.config w) = (Eff.Ok payload, cfg') ->
    Gemini.fetch U 0 0 = Gemini.Responded r ->
    Gemini.response_ok r = true ->
    Gemini.body r
    = Some (Gemini.Settles t (Gemini.Chunk c)
            :: Props.chunked chunks ++ Gemini.Never :: rest)%list ->
    (t < Gemini.FIRST_READ_TIMEOUT_MS)%N -> c <> "" ->
    exists w',
      Gemini.handleGeminiGenerate J U req w = (Eff.Hang, w')
      /\ Props.sent_body w'
         = map Gemini.Write
             (flat_map (Props.line_output J)
                (Props.complete_lines (Props.body_text J ((t, c) :: chunks))))
      /\ ~ In Gemini.End_ (Gemini.log w').
Proof.
  intros J U req model method acct token project payload cfg' w r t c chunks
         rest Hp Hm Hs Hlog Hpick Htok Hproj Hwrap Hf Hok Hb Ht Hc.
  destruct (StreamAnswerFacts.first_stream_answer J U req model method acct token
              project payload cfg' w r t c chunks (Gemini.Never :: rest)
              Eff.Hang Hp Hm Hs Hlog Hpick Htok Hproj
              Hwrap Hf Hok Hb Ht Hc eq_refl (or_intror eq_refl))
    as [w' [H1 [_ [_ [H4 _]]]]].
  exists w'. cbn [RunProps.stream_outcome RunProps.stream_end] in H1, H4.
  rewrite app_nil_r in H4. split; [exact H1|]. split; [exact H4|].
  intros Hin.
  assert (Hout : In Gemini.End_ (Props.sent_body w')).
  { unfold Props.sent_body. apply filter_In. split; [exact Hin|reflexivity]. }
  rewrite H4 in Hout. apply in_map_iff in Hout.
  destruct Hout as [x [Hx _]]. discriminate.
Qed.

Lemma stalled_stream_is_never_ended_witness :
  exists w',
    Gemini.handleGeminiGenerate Samples.codec
      (HandlerSamples.pool (fun _ _ => RunSamples.answer RunSamples.stalling))
      HandlerSamples.stream HandlerSamples.world0
    = (Eff.Hang, w')
    /\ Props.sent_body w'
       = map Gemini.Write
           (flat_map (Props.line_output Samples.codec)
              (Props.complete_lines
                 (Props.body_text Samples.codec [(5%N, RunSamples.line5)])))
    /\ ~ In Gemini.End_ (Gemini.log w').
Proof.
  eapply (stalled_stream_is_never_ended Samples.codec
            (HandlerSamples.pool (fun _ _ => RunSamples.answer RunSamples.stalling))
            HandlerSamples.stream "gemini-3-flash" "streamGenerateContent"
            {| Gemini.email := "user@example.com" |} "token" "project-1" _ _
            HandlerSamples.world0
            {| Gemini.status := 200; Gemini.text := inr "";
               Gemini.body := Some RunSamples.stalling |}
            5%N RunSamples.line5 [] []).
  - reflexivity.
  - now right.
  - reflexivity.
  - reflexivity.
  - reflexivity.
  - reflexivity.
  - reflexivity.
  - vm_compute. reflexivity.
  - reflexivity.
  - reflexivity.
  - reflexivity.
  - reflexivity.
  - discriminate.
Defined.

(** ** The merging path on any chunked body *)

Module MergedRunFacts.
Import Text Js Eff Gemini Props RunProps HandlerFacts LineFacts MergeFacts.

Lemma merge_frame_falsy d m : falsy d = true -> merge_frame d m = m.
Proof.
  unfold falsy. intros H. apply negb_true_iff in H.
  unfold merge_frame, store_base, collect_parts, keep_usage.
  rewrite H, andb_false_r.
  assert (Hp : forall key, prop d key = JUndefined)
    by (intros key; destruct d; try reflexivity; discriminate).
  unfold first_parts, first_content. rewrite (Hp "candidates"), (Hp "usageMetadata").
  reflexivity.
Qed.

Lemma merge_frames_falsy ds : forall m,
  forallb falsy ds = true -> merge_frames ds m = m.
Proof.
  induction ds as [|d ds IH]; intros m H; [reflexivity|].
  cbn [forallb] in H. apply andb_prop in H. destruct H as [Hd Hds].
  unfold merge_frames. cbn [fold_left]. rewrite (merge_frame_falsy d m Hd).
  exact (IH m Hds).
Qed.

Lemma no_LF_cons c s :
  no_LF (String c s) <-> Ascii.eqb c LF_char = false /\ no_LF s.
Proof.
  unfold no_LF. rewrite split_LF_cons. pose proof (split_LF_nonempty s) as Hne.
  destruct (Ascii.eqb c LF_char) eqn:Ec.
  - split; [|intros [H _]; discriminate]. intros H. inversion H.
  - destruct (split_LF s) as [|seg segs]; [contradiction|]. split.
    + intros H. inversion H; subst. auto.
    + intros [_ H]. inversion H; subst. reflexivity.
Qed.

Lemma no_LF_app a b : no_LF a -> no_LF b -> no_LF (a ++ b).
Proof.
  induction a as [|c a IH]; intros Ha Hb; [exact Hb|].
  apply no_LF_cons in Ha. destruct Ha as [Hc Ha].
  cbn [append]. apply no_LF_cons. auto.
Qed.

Lemma no_LF_no_lines s : no_LF s -> complete_lines s = [].
Proof. unfold no_LF, complete_lines. now intros ->. Qed.

(** Text without a line feed, added at the end, adds no line. *)
Lemma complete_lines_tail text tail :
  no_LF tail -> complete_lines (text ++ tail) = complete_lines text.
Proof.
  intros H. rewrite complete_lines_app.
  rewrite (no_LF_no_lines (remainder text ++ tail)), app_nil_r; [reflexivity|].
  apply no_LF_app; [apply remainder_no_LF | exact H].
Qed.

Section WithJson.
Variable J : json_codec.

(** The text of chunks, then of more chunks: the decoder goes on where
    the first ones left it. *)
Lemma text_from_app a b : forall d,
  text_from J d (a ++ b) = text_from J d a ++ text_from J (decoder_after J d a) b.
Proof.
  induction a as [|[t c] a IH]; intros d; [reflexivity|].
  cbn [app text_from decoder_after].
  destruct (decode J d c) as [d' chunk]. cbn [fst].
  now rewrite IH, TextFacts.append_assoc.
Qed.

(** A last chunk whose text has no line feed adds no line. *)
Lemma complete_lines_last chunks after_ms tail :
  no_LF (snd (decode J (decoder_after J (fresh J) chunks) tail)) ->
  complete_lines (body_text J (chunks ++ [(after_ms, tail)]))
  = complete_lines (body_text J chunks).
Proof.
  intros H. unfold body_text. rewrite text_from_app. cbn [text_from].
  destruct (decode J (decoder_after J (fresh J) chunks) tail) as [d' chunk].
  cbn [snd] in H. rewrite MergeFacts.append_empty.
  now apply complete_lines_tail.
Qed.

(** The merging path, nothing having been sent before: one read after
    the other, then the answer the frames of the body make. *)
Lemma respond_merged_run r chunks w :
  headersSent w = false -> body r = Some (chunked chunks) ->
  let m := merge_frames (frames J (body_text J chunks)) merge_init in
  respond_merged J r w
  = (fst (merged_answer m),
     logged (repeat (Read None) (S (length chunks)) ++ snd (merged_answer m)) w).
Proof.
  intros Hw Hb m. unfold respond_merged. unfold bind at 1.
  unfold getReader. rewrite Hb. cbn [or_throw ret]. unfold bind at 1.
  rewrite merge_reads_chunked by reflexivity.
  cbn [append]. rewrite merge_lines_frames. fold (body_text J chunks).
  fold (frames J (body_text J chunks)).
  fold m. unfold merged_answer.
  assert (Hr : headersSent (logged (repeat (Read None) (S (length chunks))) w) = false)
    by (rewrite headersSent_logged, Hw, MergedAnswerFacts.reads_send_nothing;
        reflexivity).
  destruct (truthy (mergedResponse m)).
  - destruct (build_final m) as [final|]; cbn [or_throw fst snd].
    + unfold bind at 1. cbn [ret]. unfold bind at 1.
      rewrite res_json_run by exact Hr. cbn [ret]. now rewrite logged_logged.
    + unfold bind at 1. cbn [throw]. now rewrite app_nil_r.
  - cbn [fst snd]. unfold bind at 1. rewrite res_status_run. unfold bind at 1.
    rewrite res_json_run by (rewrite headersSent_logged, Hr; reflexivity).
    cbn [ret]. now rewrite !logged_logged.
Qed.

End WithJson.
End MergedRunFacts.

(** X9. Text of the upstream body after its last line feed is never
    used.  Two bodies that differ only in a last chunk without a line
    feed (in the text the decoder, having read the chunks before it,
    gives for it) give a streaming caller (whose first chunk arrives
    within the 30 seconds and is not empty) the same writes and the
    same end of the response, and a non-streaming caller the same
    answer: a last line that is not terminated is dropped, whatever it
    holds. *)
Theorem unterminated_last_line_is_dropped :
  forall (J : Js.json_codec) r r' chunks after_ms tail w,
    Gemini.headersSent w = false ->
    Gemini.body r = Some (Props.chunked chunks) ->
    Gemini.body r' = Some (Props.chunked (chunks ++ [(after_ms, tail)])) ->
    Props.no_LF
      (snd (Js.decode J (Props.decoder_after J (Js.fresh J) chunks) tail)) ->
    (forall t c others,
        chunks = (t, c) :: others ->
        (t < Gemini.FIRST_READ_TIMEOUT_MS)%N -> c <> "" ->
        Props.sent_body (snd (Gemini.respond_stream J r' w))
        = Props.sent_body (snd (Gemini.respond_stream J r w)))
    /\ Props.sent_body (snd (Gemini.respond_merged J r' w))
       = Props.sent_body (snd (Gemini.respond_merged J r w))
    /\ fst (Gemini.respond_merged J r' w) = fst (Gemini.respond_merged J r w).
Proof.
  intros J r r' chunks after_ms tail w Hw Hb Hb' Htail.
  assert (Hlines : Props.complete_lines
                     (Props.body_text J (chunks ++ [(after_ms, tail)]))
                   = Props.complete_lines (Props.body_text J chunks))
    by now apply MergedRunFacts.complete_lines_last.
  split; [|].
  - intros t c others -> Ht Hc.
    assert (H1 : Gemini.body r
                 = Some (Gemini.Settles t (Gemini.Chunk c)
                         :: Props.chunked others ++ [])%list)
      by (rewrite Hb, app_nil_r; reflexivity).
    assert (H2 : Gemini.body r'
                 = Some (Gemini.Settles t (Gemini.Chunk c)
                         :: Props.chunked (others ++ [(after_ms, tail)]) ++ [])%list)
      by (rewrite Hb', app_nil_r; reflexivity).
    destruct (StreamRunFacts.respond_stream_until J r t c others [] (Eff.Ok tt) w
                Hw H1 Ht Hc eq_refl) as [evs [w1 [E1 [L1 [O1 _]]]]].
    destruct (StreamRunFacts.respond_stream_until J r' t c
                (others ++ [(after_ms, tail)]) [] (Eff.Ok tt) w
                Hw H2 Ht Hc eq_refl) as [evs' [w2 [E2 [L2 [O2 _]]]]].
    rewrite E1, E2. cbn [snd]. unfold Props.sent_body. rewrite L1, L2.
    rewrite !filter_app, O1, O2.
    cbn [app] in Hlines. now rewrite Hlines.
  - rewrite (MergedRunFacts.respond_merged_run J r' _ w Hw Hb').
    rewrite (MergedRunFacts.respond_merged_run J r _ w Hw Hb).
    unfold Props.frames. rewrite Hlines. cbn [fst snd].
    split; [|reflexivity].
    unfold Props.sent_body, Props.logged. cbn [Gemini.log].
    rewrite (filter_app _ (Gemini.log w)), MergedAnswerFacts.output_of_reads.
    rewrite (filter_app _ (Gemini.log w)), MergedAnswerFacts.output_of_reads.
    reflexivity.
Qed.

Lemma unterminated_last_line_is_dropped_witness :
  let r := {| Gemini.status := 200; Gemini.text := inr "";
              Gemini.body := Some (Props.chunked RunSamples.one_event) |} in
  let r' := {| Gemini.status := 200; Gemini.text := inr "";
               Gemini.body := Some (Props.chunked
                                (RunSamples.one_event
                                 ++ [(9%N, RunSamples.unterminated)])) |} in
  Props.sent_body (snd (Gemini.respond_stream Samples.codec r' HandlerSamples.world0))
  = Props.sent_body (snd (Gemini.respond_stream Samples.codec r HandlerSamples.world0))
  /\ Props.sent_body (snd (Gemini.respond_merged Samples.codec r' HandlerSamples.world0))
     = Props.sent_body (snd (Gemini.respond_merged Samples.codec r HandlerSamples.world0)).
Proof.
  intros r r'.
  destruct (unterminated_last_line_is_dropped Samples.codec r r' RunSamples.one_event
              9%N RunSamples.unterminated HandlerSamples.world0
              eq_refl eq_refl eq_refl eq_refl) as [H1 [H2 _]].
  split; [|exact H2].
  apply (H1 5%N RunSamples.line5 [] eq_refl); [reflexivity | discriminate].
Defined.

(** ** A body without data *)

(** X10. A non-streaming caller whose first dispatch is answered 2xx
    with a body that can be read and carries no data (no [data: ] line
    of its text, as the decoder gives it, that parses to
    something other than [null], [false], [0] or the empty string; so
    an empty body, or the [DONE] line alone) is answered 500 with the
    body [{ error: 'No response data received' }]; no other endpoint is
    tried. *)
Theorem answer_without_data_is_a_500 :
  forall (J : Js.json_codec) (U : Gemini.upstream) req model acct token project
         payload cfg' w r chunks,
    Gemini.parseModelAction (Gemini.params0 req) = (model, "generateContent") ->
    Js.is_string "sse" (Gemini.query_alt req) = false ->
    Gemini.headersSent w = false ->
    Gemini.pickNext U 0 = Some acct ->
    Gemini.getTokenForAccount U 0 = inr token ->
    Gemini.getProjectForAccount U 0 = inr project ->
    Gemini.wrapGeminiRequest J (Gemini.randomUUID U 0) (Gemini.req_body req)
      project model (Gemini.config w) = (Eff.Ok payload, cfg') ->
    Gemini.fetch U 0 0 = Gemini.Responded r ->
    Gemini.response_ok r = true ->
    Gemini.body r = Some (Props.chunked chunks) ->
    forallb RunProps.falsy (Props.frames J (Props.body_text J chunks)) = true ->
    exists w',
      Gemini.handleGeminiGenerate J U req w = (Eff.Ok tt, w')
      /\ Props.sent_status w' = 500%Z
      /\ Props.sent_body w' = [Gemini.Json RunProps.no_data]
      /\ Props.fetched_urls w'
         = (Props.fetched_urls w
            ++ [Gemini.upstream_url "https://cloudcode-pa.googleapis.com"])%list.
Proof.
  intros J U req model acct token project payload cfg' w r chunks
         Hp Hq Hw Hpick Htok Hproj Hwrap Hf Hok Hb Hfalsy.
  set (w1 := {| Gemini.config := cfg'; Gemini.lastError := Gemini.lastError w;
                Gemini.log := (Gemini.log w ++ [Gemini.PickNext 0])%list |}).
  set (fetched := Gemini.Fetch (Gemini.upstream_url "https://cloudcode-pa.googleapis.com")
                    ("Bearer " ++ token) payload).
  assert (Hw2 : Gemini.headersSent (Props.logged [fetched] w1) = false).
  { rewrite HandlerFacts.headersSent_logged. unfold Gemini.headersSent, w1.
    cbn [Gemini.log]. rewrite existsb_app. unfold Gemini.headersSent in Hw.
    now rewrite Hw. }
  pose proof (MergedRunFacts.respond_merged_run J r chunks _ Hw2 Hb) as Hrun.
  cbv zeta in Hrun.
  rewrite (MergedRunFacts.merge_frames_falsy _ _ Hfalsy) in Hrun.
  cbn [RunProps.merged_answer Gemini.merge_init Gemini.mergedResponse Js.truthy
       fst snd] in Hrun.
  assert (Hs : Gemini.isStream_of "generateContent" req = false)
    by (unfold Gemini.isStream_of; now rewrite Hq).
  eexists. split.
  - apply (HandlerFacts.handler_first_dispatch J U req model "generateContent" acct
             token project payload cfg' w _ Hp (or_introl eq_refl) Hpick Htok Hproj
             Hwrap).
    apply (HandlerFacts.try_endpoint_handled J U _ 0 0 _ token payload r _ _ _ Hf).
    rewrite (StreamRunFacts.handle_ok_response J _ r _ Hok), Hs. exact Hrun.
  - assert (Hquiet : existsb Gemini.commits
                       (Gemini.log w ++ [Gemini.PickNext 0] ++ [fetched]
                        ++ repeat (Gemini.Read None) (S (length chunks))) = false).
    { rewrite !existsb_app. unfold Gemini.headersSent in Hw.
      now rewrite Hw, MergedAnswerFacts.reads_send_nothing. }
    assert (Hlog : Gemini.log
                     (Props.logged
                        (repeat (Gemini.Read None) (S (length chunks))
                         ++ [Gemini.Status 500; Gemini.Json RunProps.no_data])
                        (Props.logged [fetched] w1))
                   = ((Gemini.log w ++ [Gemini.PickNext 0] ++ [fetched]
                       ++ repeat (Gemini.Read None) (S (length chunks)))
                      ++ [Gemini.Status 500; Gemini.Json RunProps.no_data])%list).
    { unfold Props.logged, w1. cbn [Gemini.log]. now rewrite <- !app_assoc. }
    unfold Props.sent_status, Props.sent_body, Props.fetched_urls. rewrite Hlog.
    split; [|split].
    + now rewrite HandlerFacts.status_before_commit_app by exact Hquiet.
    + rewrite filter_app.
      assert (Hnone : forall l, existsb Gemini.commits l = false ->
                                filter Props.is_output l = []).
      { induction l as [|e l IH]; [reflexivity|]. cbn [existsb]. intros H.
        apply orb_false_elim in H. destruct H as [He Hl].
        destruct e; cbn in He |- *; try discriminate; auto. }
      now rewrite (Hnone _ Hquiet).
    + rewrite <- !app_assoc, !flat_map_app. cbn [flat_map fetched app].
      rewrite <- (app_nil_r (repeat _ _)), MergedAnswerFacts.urls_of_reads.
      reflexivity.
Qed.

Lemma answer_without_data_is_a_500_witness :
  exists w',
    Gemini.handleGeminiGenerate Samples.codec
      (HandlerSamples.pool
         (fun _ _ => RunSamples.answer (Props.chunked RunSamples.only_done)))
      HandlerSamples.generate HandlerSamples.world0
    = (Eff.Ok tt, w')
    /\ Props.sent_status w' = 500%Z
    /\ Props.sent_body w' = [Gemini.Json RunProps.no_data]
    /\ Props.fetched_urls w'
       = (Props.fetched_urls HandlerSamples.world0
          ++ [Gemini.upstream_url "https://cloudcode-pa.googleapis.com"])%list.
Proof.
  eapply (answer_without_data_is_a_500 Samples.codec
            (HandlerSamples.pool
               (fun _ _ => RunSamples.answer (Props.chunked RunSamples.only_done)))
            HandlerSamples.generate "gemini-3-flash"
            {| Gemini.email := "user@example.com" |} "token" "project-1" _ _
            HandlerSamples.world0
            {| Gemini.status := 200; Gemini.text := inr "";
               Gemini.body := Some (Props.chunked RunSamples.only_done) |}
            RunSamples.only_done).
  - reflexivity.
  - reflexivity.
  - reflexivity.
  - reflexivity.
  - reflexivity.
  - reflexivity.
  - vm_compute. reflexivity.
  - reflexivity.
  - reflexivity.
  - reflexivity.
  - reflexivity.
Defined.

(** ** How much the handler asks of the account manager and the upstream *)

Module BoundFacts.
Import Text Js Eff Gemini Props RunProps HandlerFacts LogFacts.





Section WithJson.
Variable J : json_codec.





End WithJson.
End BoundFacts.


(** ** One answer for a caller that does not stream *)

Module AnswerFacts.
Import Text Js Eff Gemini Props RunProps HandlerFacts LogFacts.

Lemma quiet_nil : quiet [].
Proof. reflexivity. Qed.

Lemma quiet_app a b : quiet a -> quiet b -> quiet (a ++ b).
Proof. unfold quiet. intros Ha Hb. now rewrite existsb_app, Ha, Hb. Qed.

Lemma quiet_reads evs : forallb read_event evs = true -> quiet evs.
Proof. apply EndpointFacts.reads_commit_nothing. Qed.

Lemma answered_after a b : quiet a -> answered b -> answered (a ++ b).
Proof.
  intros Ha [before [x [-> [Hb Hx]]]]. exists (a ++ before)%list, x.
  rewrite app_assoc. split; [reflexivity|]. split; [|exact Hx].
  now apply quiet_app.
Qed.

Lemma answered_last before a :
  quiet before -> is_answer a = true -> answered (before ++ [a]).
Proof. intros Hb Ha. now exists before, a. Qed.

Lemma quiet_keeps_fresh w evs :
  headersSent w = false -> quiet evs ->
  forall w', log w' = (log w ++ evs)%list -> headersSent w' = false.
Proof.
  intros Hw He w' Hl. unfold headersSent in *. now rewrite Hl, existsb_app, Hw, He.
Qed.

Section WithJson.
Variable J : json_codec.

(** The loop over the reads of a body whose reads all settle ends, and
    does nothing but read. *)
Lemma merge_reads_settles reads : forall d buffer m w,
  forallb settles reads = true ->
  exists m' evs,
    merge_reads J d reads buffer m w = (Ok m', logged evs w)
    /\ forallb read_event evs = true.
Proof.
  induction reads as [|r rest IH]; intros d buffer m w Hs; cbn [merge_reads].
  - exists m, [Read None]. unfold bind. now rewrite emit_run.
  - cbn [forallb] in Hs. apply andb_prop in Hs. destruct Hs as [Hr Hrest].
    unfold bind at 1. unfold try_catch, await_read, bind. rewrite emit_run.
    destruct r as [after_ms [bytes| |message]|]; try discriminate; cbn [settle ret throw].
    + destruct (decode J d bytes) as [d' chunk].
      destruct (pop_last (split_LF (buffer ++ chunk))) as [lines buffer'].
      destruct (IH d' buffer' (fold_left (merge_line J) lines m)
                  (logged [Read None] w) Hrest)
        as [m' [evs [E HQ]]].
      exists m', (Read None :: evs). rewrite E, logged_logged. split; [reflexivity|].
      cbn [forallb read_event]. exact HQ.
    + exists m, [Read None]. split; reflexivity.
    + exists m, [Read None]. split; reflexivity.
Qed.

Lemma respond_merged_once r w :
  headersSent w = false ->
  (forall reads, body r = Some reads -> forallb settles reads = true) ->
  exists evs o w',
    respond_merged J r w = (o, w')
    /\ log w' = (log w ++ evs)%list
    /\ once is_return o evs.
Proof.
  intros Hw Hs. unfold respond_merged. unfold bind at 1. unfold getReader.
  destruct (body r) as [contents|]; cbn [or_throw ret throw].
  2:{ exists [], (Throw NULL_BODY), w. rewrite app_nil_r.
      split; [reflexivity|]. split; reflexivity. }
  unfold bind at 1.
  destruct (merge_reads_settles contents (fresh J) "" merge_init w (Hs _ eq_refl))
    as [m [reads [E HQ]]].
  rewrite E.
  assert (Hr : headersSent (logged reads w) = false)
    by (rewrite headersSent_logged, Hw; now apply quiet_reads).
  destruct (truthy (mergedResponse m)).
  - destruct (build_final m) as [final|]; cbn [or_throw].
    + unfold bind at 1. cbn [ret]. unfold bind at 1.
      rewrite res_json_run by exact Hr. cbn [ret]. rewrite logged_logged.
      eexists. eexists. eexists. split; [reflexivity|]. split; [reflexivity|].
      cbn [once is_return]. apply answered_last; [now apply quiet_reads | reflexivity].
    + unfold bind at 1. cbn [throw].
      exists reads. eexists. eexists. split; [reflexivity|]. split; [reflexivity|].
      cbn [once]. now apply quiet_reads.
  - unfold bind at 1. rewrite res_status_run. unfold bind at 1.
    rewrite res_json_run by (rewrite headersSent_logged, Hr; reflexivity).
    rewrite !logged_logged. cbn [ret].
    eexists. eexists. eexists. split; [reflexivity|]. split; [reflexivity|].
    cbn [once is_return]. rewrite app_assoc. apply answered_last; [|reflexivity].
    apply quiet_app; [now apply quiet_reads | reflexivity].
Qed.

(** What the loop body makes of a response, for a caller that does not
    stream. *)
Lemma handle_response_once r w :
  headersSent w = false ->
  (forall reads, body r = Some reads -> forallb settles reads = true) ->
  exists evs o w',
    handle_response J false r w = (o, w')
    /\ log w' = (log w ++ evs)%list
    /\ once is_return o evs.
Proof.
  intros Hw Hs.
  assert (Hnone : forall o : outcome ctl,
            once is_return o [] ->
            exists evs o' w', (o, w) = (o', w') /\ log w' = (log w ++ evs)%list
                              /\ once is_return o' evs).
  { intros o Ho. exists [], o, w. rewrite app_nil_r. auto. }
  destruct (status r =? 429)%Z eqn:E429.
  { unfold handle_response. rewrite E429. unfold bind, response_text.
    destruct (text r); cbn [throw ret]; apply Hnone; reflexivity. }
  destruct (status r =? 404)%Z eqn:E404.
  { unfold handle_response. rewrite E429, E404. apply Hnone. reflexivity. }
  destruct (negb (response_ok r)) eqn:Eok.
  - destruct (text r) as [message|content] eqn:Et.
    + unfold handle_response. rewrite E429, E404, Eok.
      unfold bind, response_text. rewrite Et. cbn [throw]. apply Hnone. reflexivity.
    + rewrite (handle_error_response J false r content w); auto.
      * eexists. eexists. eexists. split; [reflexivity|]. split; [reflexivity|].
        cbn [once is_return].
        apply (answered_last [Status (status r)]); [reflexivity|].
        now destruct (parse J content).
      * now apply Z.eqb_neq.
      * now apply Z.eqb_neq.
      * now apply negb_true_iff.
  - unfold handle_response. rewrite E429, E404, Eok. now apply respond_merged_once.
Qed.

Lemma try_endpoint_once U attempt position endpoint token wrapped w :
  headersSent w = false -> responsive U ->
  exists evs c w',
    try_endpoint J U false attempt position endpoint token wrapped w = (Ok c, w')
    /\ log w' = (log w ++ evs)%list
    /\ (if is_return c then answered evs else quiet evs).
Proof.
  intros Hw HU. unfold try_endpoint, try_catch, bind. rewrite emit_run.
  set (fetched := Fetch (upstream_url endpoint) ("Bearer " ++ token) wrapped).
  destruct (fetch U attempt position) as [message|r] eqn:Ef.
  - exists [fetched], Continue. eexists. cbn. split; [reflexivity|].
    split; reflexivity.
  - assert (Hw1 : headersSent (logged [fetched] w) = false)
      by (rewrite headersSent_logged, Hw; reflexivity).
    destruct (handle_response_once r (logged [fetched] w) Hw1 (HU _ _ _ Ef))
      as [evs [o [w1 [E [L Ho]]]]].
    rewrite E. cbn [log logged] in L.
    destruct o as [c|e|]; cbn [once] in Ho; [| |contradiction].
    + exists (fetched :: evs), c, w1. split; [reflexivity|].
      split; [rewrite L; now rewrite <- app_assoc|].
      change (fetched :: evs) with ([fetched] ++ evs)%list.
      destruct (is_return c).
      * now apply answered_after.
      * now apply quiet_app.
    + exists (fetched :: evs), Continue. eexists.
      cbn [set_lastError modify ret]. split; [reflexivity|].
      cbn [log is_return]. split; [rewrite L; now rewrite <- app_assoc|].
      change (fetched :: evs) with ([fetched] ++ evs)%list.
      now apply quiet_app.
Qed.

Lemma try_endpoints_once U attempt token wrapped remaining : forall position w,
  headersSent w = false -> responsive U ->
  exists evs returned w',
    try_endpoints J U false attempt position remaining token wrapped w
    = (Ok returned, w')
    /\ log w' = (log w ++ evs)%list
    /\ (if returned : bool then answered evs else quiet evs).
Proof.
  induction remaining as [|endpoint rest IH]; intros position w Hw HU.
  - exists [], false, w. cbn. rewrite app_nil_r. repeat split.
  - cbn [try_endpoints]. unfold bind at 1.
    destruct (try_endpoint_once U attempt position endpoint token wrapped w Hw HU)
      as [evs1 [c [w1 [E1 [L1 A1]]]]].
    rewrite E1. destruct c; cbn [is_return] in A1.
    + assert (Hw1 : headersSent w1 = false)
        by (eapply quiet_keeps_fresh; eauto).
      destruct (IH (S position) w1 Hw1 HU) as [evs2 [returned [w2 [E2 [L2 A2]]]]].
      exists (evs1 ++ evs2)%list, returned, w2. split; [exact E2|].
      split; [rewrite L2, L1; now rewrite app_assoc|].
      destruct returned; [now apply answered_after | now apply quiet_app].
    + exists evs1, false, w1. cbn [ret]. auto.
    + exists evs1, true, w1. cbn [ret]. auto.
Qed.

Lemma attempt_body_once U attempt body model w :
  headersSent w = false -> responsive U ->
  exists evs returned w',
    attempt_body J U false attempt body model w = (Ok returned, w')
    /\ log w' = (log w ++ evs)%list
    /\ (if returned : bool then answered evs else quiet evs).
Proof.
  intros Hw HU.
  assert (Hnone : forall cfg le,
            exists evs returned w',
              (Ok false, {| config := cfg; lastError := le; log := log w |})
              = (Ok returned, w')
              /\ log w' = (log w ++ evs)%list
              /\ (if returned : bool then answered evs else quiet evs)).
  { intros. exists [], false. eexists. split; [reflexivity|]. cbn.
    rewrite app_nil_r. split; reflexivity. }
  unfold attempt_body, try_catch. unfold bind at 1.
  destruct (getTokenForAccount U attempt) as [message|token]; cbn [of_sum throw ret].
  { apply Hnone. }
  unfold bind at 1.
  destruct (getProjectForAccount U attempt) as [message|project]; cbn [of_sum throw ret].
  { apply Hnone. }
  unfold bind at 1. unfold with_config, zoom.
  pose proof (RetryFacts.wrap_no_hang J (randomUUID U attempt) body project model (config w))
    as Hh.
  destruct (wrapGeminiRequest J (randomUUID U attempt) body project model (config w))
    as [[payload|e|] cfg']; cbn [fst] in Hh; [|apply Hnone|contradiction].
  match goal with |- context [try_endpoints J U false attempt 0 endpoints token payload ?w1] =>
    assert (Hw1 : headersSent w1 = false) by exact Hw;
    destruct (try_endpoints_once U attempt token payload endpoints 0 w1 Hw1 HU)
      as [evs [returned [w2 [E [L A]]]]]
  end.
  rewrite E. exists evs, returned, w2. auto.
Qed.

Lemma attempts_once U body model remaining : forall attempt w,
  headersSent w = false -> responsive U ->
  exists evs returned w',
    attempts J U false remaining attempt body model w = (Ok returned, w')
    /\ log w' = (log w ++ evs)%list
    /\ (if returned : bool then answered evs else quiet evs).
Proof.
  induction remaining as [|remaining IH]; intros attempt w Hw HU.
  - exists [], false, w. cbn. rewrite app_nil_r. repeat split.
  - cbn [attempts]. unfold bind at 1. rewrite emit_run.
    assert (Hw0 : headersSent (logged [PickNext attempt] w) = false)
      by (rewrite headersSent_logged, Hw; reflexivity).
    destruct (pickNext U attempt) as [acct|].
    + unfold bind at 1.
      destruct (attempt_body_once U attempt body model _ Hw0 HU)
        as [evs1 [returned [w1 [E1 [L1 A1]]]]].
      rewrite E1. destruct returned.
      * exists (PickNext attempt :: evs1), true, w1. cbn [ret].
        split; [reflexivity|]. split.
        -- rewrite L1. cbn [log logged]. now rewrite <- app_assoc.
        -- change (PickNext attempt :: evs1) with ([PickNext attempt] ++ evs1)%list.
           now apply answered_after.
      * assert (Hw1 : headersSent w1 = false)
          by (eapply quiet_keeps_fresh; eauto).
        destruct (IH (S attempt) w1 Hw1 HU) as [evs2 [returned [w2 [E2 [L2 A2]]]]].
        exists (PickNext attempt :: evs1 ++ evs2)%list, returned, w2.
        split; [exact E2|]. split.
        -- rewrite L2, L1. cbn [log logged]. now rewrite <- !app_assoc.
        -- change (PickNext attempt :: evs1 ++ evs2)%list
             with ([PickNext attempt] ++ evs1 ++ evs2)%list.
           destruct returned.
           ++ apply answered_after; [reflexivity|]. now apply answered_after.
           ++ apply quiet_app; [reflexivity|]. now apply quiet_app.
    + unfold bind. rewrite res_status_run.
      rewrite res_json_run by (rewrite headersSent_logged, Hw0; reflexivity).
      rewrite !logged_logged. cbn [ret].
      eexists. exists true. eexists. split; [reflexivity|].
      cbn [log logged]. split; [reflexivity|].
      apply (answered_last [PickNext attempt; Status 503]); reflexivity.
Qed.

End WithJson.
End AnswerFacts.

(** X12. A caller that does not ask for a stream is answered exactly
    once.  Whatever the request and whatever the accounts and the
    upstream do, as long as every read of a body settles: the handler
    returns, without throwing, and one JSON or text answer has gone out
    to the caller, as the last thing the handler did. *)
Theorem one_answer_without_streaming :
  forall (J : Js.json_codec) (U : Gemini.upstream) req model method w,
    Gemini.parseModelAction (Gemini.params0 req) = (model, method) ->
    Gemini.isStream_of method req = false ->
    Gemini.headersSent w = false ->
    RunProps.responsive U ->
    exists w' before a,
      Gemini.handleGeminiGenerate J U req w = (Eff.Ok tt, w')
      /\ Gemini.log w' = (Gemini.log w ++ before ++ [a])%list
      /\ existsb Gemini.commits before = false
      /\ RunProps.is_answer a = true
      /\ Props.sent_body w' = [a].
Proof.
  intros J U req model method w Hp Hs Hw HU.
  assert (Hbody : forall w' before a,
            Gemini.log w' = (Gemini.log w ++ before ++ [a])%list ->
            existsb Gemini.commits before = false ->
            RunProps.is_answer a = true ->
            Props.sent_body w' = [a]).
  { intros w' before a Hl Hb Ha. unfold Props.sent_body. rewrite Hl, !filter_app.
    assert (Hnone : forall l, existsb Gemini.commits l = false ->
                              filter Props.is_output l = []).
    { induction l as [|e l IH]; [reflexivity|]. cbn [existsb]. intros H.
      apply orb_false_elim in H. destruct H as [He Hl'].
      destruct e; cbn in He |- *; try discriminate; auto. }
    unfold Gemini.headersSent in Hw. rewrite (Hnone _ Hw), (Hnone _ Hb).
    destruct a; try discriminate; reflexivity. }
  unfold Gemini.handleGeminiGenerate. rewrite Hp.
  destruct (negb (String.eqb method "generateContent")
            && negb (String.eqb method "streamGenerateContent")).
  - unfold Eff.bind. rewrite HandlerFacts.res_status_run.
    rewrite HandlerFacts.res_json_run
      by (rewrite HandlerFacts.headersSent_logged, Hw; reflexivity).
    rewrite HandlerFacts.logged_logged.
    eexists. exists [Gemini.Status 400]. eexists.
    split; [reflexivity|]. split; [reflexivity|]. split; [reflexivity|].
    split; [reflexivity|]. eapply Hbody; reflexivity.
  - rewrite Hs. unfold Eff.bind at 1.
    destruct (AnswerFacts.attempts_once J U (Gemini.req_body req) model
                Gemini.maxAttempts 0 w Hw HU)
      as [evs [returned [w1 [E [L A]]]]].
    rewrite E. destruct returned.
    + destruct A as [before [a [-> [Hb Ha]]]].
      exists w1, before, a. cbn [Eff.ret]. split; [reflexivity|].
      split; [exact L|]. split; [exact Hb|]. split; [exact Ha|].
      now apply (Hbody w1 before a).
    + assert (Hw1 : Gemini.headersSent w1 = false)
        by (eapply AnswerFacts.quiet_keeps_fresh; eauto).
      unfold Eff.bind. cbn [Eff.get]. rewrite HandlerFacts.res_status_run.
      rewrite HandlerFacts.res_json_run
        by (rewrite HandlerFacts.headersSent_logged, Hw1; reflexivity).
      rewrite HandlerFacts.logged_logged.
      eexists. exists (evs ++ [Gemini.Status 429])%list. eexists.
      assert (Hq : existsb Gemini.commits (evs ++ [Gemini.Status 429]) = false)
        by (apply AnswerFacts.quiet_app; [exact A | reflexivity]).
      split; [reflexivity|].
      assert (Hl : forall x, Gemini.log (Props.logged [Gemini.Status 429; x] w1)
                             = (Gemini.log w ++ (evs ++ [Gemini.Status 429]) ++ [x])%list).
      { intros x. cbn [Gemini.log Props.logged]. rewrite L.
        now rewrite <- !app_assoc. }
      split; [apply Hl|]. split; [exact Hq|]. split; [reflexivity|].
      eapply Hbody; [apply Hl | exact Hq | reflexivity].
Qed.

Lemma one_answer_without_streaming_witness :
  exists w' before a,
    Gemini.handleGeminiGenerate Samples.codec
      (HandlerSamples.pool (fun _ _ => HandlerSamples.bad_gateway))
      HandlerSamples.generate HandlerSamples.world0
    = (Eff.Ok tt, w')
    /\ Gemini.log w' = (Gemini.log HandlerSamples.world0 ++ before ++ [a])%list
    /\ existsb Gemini.commits before = false
    /\ RunProps.is_answer a = true
    /\ Props.sent_body w' = [a].
Proof.
  apply (one_answer_without_streaming Samples.codec
           (HandlerSamples.pool (fun _ _ => HandlerSamples.bad_gateway))
           HandlerSamples.generate "gemini-3-flash" "generateContent"
           HandlerSamples.world0).
  - reflexivity.
  - reflexivity.
  - reflexivity.
  - intros attempt position r H reads Hb. cbn in H. inversion H; subst r.
    cbn in Hb. inversion Hb. reflexivity.
Defined.

(** ** What is written to the caller *)

Module WriteFacts.
Import Text Js Eff Gemini Props RunProps HandlerFacts LogFacts EventFacts.

Lemma body_is_sse e : body_event e = true -> sse_event e = true.
Proof. destruct e; cbn; auto. Qed.

Lemma read_is_sse e : read_event e = true -> sse_event e = true.
Proof. destruct e; cbn; auto; discriminate. Qed.

Section WithJson.
Variable J : json_codec.

Lemma sse_res_setHeader name content : grows sse_event (res_setHeader name content).
Proof. unfold res_setHeader. grows_auto. Qed.

Lemma sse_res_json v : grows sse_event (res_json v).
Proof. unfold res_json. grows_auto. Qed.

Lemma sse_res_send v : grows sse_event (res_send v).
Proof. unfold res_send. grows_auto. Qed.

Lemma sse_respond_stream r : grows sse_event (respond_stream J r).
Proof.
  unfold respond_stream.
  repeat (apply grows_bind; [apply sse_res_setHeader | intros _]).
  eapply grows_weaken; [apply body_is_sse|].
  apply grows_bind; [apply grows_getReader | intros reads].
  apply grows_try_finally; [|unfold res_end; now apply grows_emit].
  apply grows_try_catch.
  - destruct (next_read reads) as [first rest].
    apply grows_bind.
    + eapply grows_weaken; [apply read_is_body | apply grows_await_read_race].
    + intros [[|c bytes]|].
      * apply grows_bind; [apply grows_set_lastError | intros _].
        apply grows_bind; [now apply grows_emit | intros _; apply grows_ret].
      * destruct (decode J (fresh J) _) as [d firstChunk].
        apply grows_bind; [apply body_forward_chunk | intros buffer].
        apply grows_bind; [apply body_forward_rest | intros _; apply grows_ret].
      * apply grows_bind; [apply grows_set_lastError | intros _].
        apply grows_bind; [now apply grows_emit | intros _; apply grows_ret].
  - intros e. destruct (String.eqb e "Timeout"); [|apply grows_ret].
    apply grows_bind; [apply grows_set_lastError | intros _; apply grows_ret].
Qed.

Lemma sse_respond_merged r : grows sse_event (respond_merged J r).
Proof.
  unfold respond_merged. apply grows_bind; [apply grows_getReader | intros reads].
  apply grows_bind.
  - eapply grows_weaken; [apply read_is_sse | apply grows_merge_reads].
  - intros m. unfold res_status. destruct (truthy (mergedResponse m)).
    + apply grows_bind; [apply grows_or_throw | intros final].
      apply grows_bind; [apply sse_res_json | intros _; apply grows_ret].
    + apply grows_bind; [now apply grows_emit | intros _].
      apply grows_bind; [apply sse_res_json | intros _; apply grows_ret].
Qed.

Lemma sse_handle_response isStream r : grows sse_event (handle_response J isStream r).
Proof.
  unfold handle_response, res_status, response_text.
  destruct (status r =? 429)%Z.
  { apply grows_bind; [destruct (text r); [apply grows_throw | apply grows_ret]
                      | intros _; apply grows_ret]. }
  destruct (status r =? 404)%Z; [apply grows_ret|].
  destruct (negb (response_ok r)).
  { apply grows_bind; [destruct (text r); [apply grows_throw | apply grows_ret]
                      | intros errorText].
    apply grows_try_catch.
    - apply grows_bind; [apply grows_or_throw | intros errorJson].
      apply grows_bind; [now apply grows_emit | intros _].
      apply grows_bind; [apply sse_res_json | intros _; apply grows_ret].
    - intros _. apply grows_bind; [now apply grows_emit | intros _].
      apply grows_bind; [apply sse_res_send | intros _; apply grows_ret]. }
  destruct isStream; [apply sse_respond_stream | apply sse_respond_merged].
Qed.

Lemma sse_try_endpoint U isStream attempt position endpoint token wrapped :
  grows sse_event (try_endpoint J U isStream attempt position endpoint token wrapped).
Proof.
  unfold try_endpoint. apply grows_try_catch.
  - apply grows_bind; [now apply grows_emit | intros _].
    destruct (fetch U attempt position); [apply grows_throw | apply sse_handle_response].
  - intros message.
    apply grows_bind; [apply grows_set_lastError | intros _; apply grows_ret].
Qed.

Lemma sse_try_endpoints U isStream attempt token wrapped remaining : forall position,
  grows sse_event (try_endpoints J U isStream attempt position remaining token wrapped).
Proof.
  induction remaining as [|endpoint rest IH]; intros position; cbn [try_endpoints].
  - apply grows_ret.
  - apply grows_bind; [apply sse_try_endpoint | intros c].
    destruct c; [apply IH | apply grows_ret | apply grows_ret].
Qed.

Lemma sse_attempt_body U isStream attempt body model :
  grows sse_event (attempt_body J U isStream attempt body model).
Proof.
  unfold attempt_body. apply grows_try_catch.
  - apply grows_bind; [apply grows_of_sum | intros token].
    apply grows_bind; [apply grows_of_sum | intros project].
    apply grows_bind; [apply grows_with_config | intros wrapped].
    apply sse_try_endpoints.
  - intros message.
    apply grows_bind; [apply grows_set_lastError | intros _; apply grows_ret].
Qed.

Lemma sse_attempts U isStream body model remaining : forall attempt,
  grows sse_event (attempts J U isStream remaining attempt body model).
Proof.
  induction remaining as [|remaining IH]; intros attempt; cbn [attempts].
  - apply grows_ret.
  - apply grows_bind; [now apply grows_emit | intros _].
    destruct (pickNext U attempt).
    + apply grows_bind; [apply sse_attempt_body | intros returned].
      destruct returned; [apply grows_ret | apply IH].
    + unfold res_status. apply grows_bind; [now apply grows_emit | intros _].
      apply grows_bind; [apply sse_res_json | intros _; apply grows_ret].
Qed.

Lemma sse_handler U req : grows sse_event (handleGeminiGenerate J U req).
Proof.
  unfold handleGeminiGenerate, res_status.
  destruct (parseModelAction (params0 req)) as [model method].
  destruct (negb (String.eqb method "generateContent")
            && negb (String.eqb method "streamGenerateContent")).
  - apply grows_bind; [now apply grows_emit | intros _; apply sse_res_json].
  - apply grows_bind; [apply sse_attempts | intros returned].
    destruct returned; [apply grows_ret|].
    apply grows_bind; [apply grows_get | intros w].
    apply grows_bind; [now apply grows_emit | intros _; apply sse_res_json].
Qed.

End WithJson.
End WriteFacts.

(** X13. Everything the handler ever writes to the caller with
    [res.write] is a complete SSE event: each chunk written ends with an
    empty line, whatever the request, the accounts and the upstream, and
    wherever the upstream's chunks cut its lines. *)
Theorem every_write_is_a_complete_event :
  forall (J : Js.json_codec) (U : Gemini.upstream) req w,
  exists evs,
    Gemini.log (snd (Gemini.handleGeminiGenerate J U req w)) = (Gemini.log w ++ evs)%list
    /\ forall chunk,
         In (Gemini.Write chunk) evs ->
         RunProps.endsWith (Text.LF ++ Text.LF) chunk = true.
Proof.
  intros J U req w.
  destruct (WriteFacts.sse_handler J U req w) as [evs [E HQ]].
  exists evs. split; [exact E|].
  intros chunk Hin. rewrite forallb_forall in HQ. exact (HQ _ Hin).
Qed.

(** ** The message of the final failure *)

Module MessageFacts.
Import Text Js Eff Gemini Props RunProps HandlerFacts.

Section WithJson.
Variable J : json_codec.

(** An attempt for which no token can be had: nothing is fetched, and
    the message of the rejection is remembered. *)
Lemma attempt_body_without_token U isStream attempt body model w message :
  getTokenForAccount U attempt = inl message ->
  attempt_body J U isStream attempt body model w
  = (Ok false, {| config := config w; lastError := Some message; log := log w |}).
Proof.
  intros Ht. unfold attempt_body, try_catch. unfold bind at 1. rewrite Ht.
  reflexivity.
Qed.

Lemma attempts_without_token U isStream body model (messages : nat -> string) remaining :
  forall attempt w,
    (forall a, attempt <= a < attempt + remaining -> pickNext U a <> None) ->
    (forall a, attempt <= a < attempt + remaining ->
               getTokenForAccount U a = inl (messages a)) ->
    attempts J U isStream remaining attempt body model w
    = (Ok false,
       {| config := config w;
          lastError := match remaining with
                       | O => lastError w
                       | S n => Some (messages (attempt + n))
                       end;
          log := (log w ++ map PickNext (seq attempt remaining))%list |}).
Proof.
  induction remaining as [|remaining IH]; intros attempt w Hpick Htok.
  - cbn. rewrite app_nil_r. now destruct w.
  - cbn [attempts]. unfold bind at 1. rewrite emit_run.
    destruct (pickNext U attempt) as [acct|] eqn:Ep;
      [|exfalso; apply (Hpick attempt); [lia|exact Ep]].
    unfold bind at 1.
    rewrite (attempt_body_without_token U isStream attempt body model _ (messages attempt))
      by (apply Htok; lia).
    rewrite IH.
    + cbn [config lastError log logged seq map]. f_equal. f_equal.
      * destruct remaining as [|n]; [now rewrite Nat.add_0_r|].
        f_equal. f_equal. lia.
      * now rewrite <- app_assoc.
    + intros a Ha. apply Hpick. lia.
    + intros a Ha. apply Htok. lia.
Qed.

End WithJson.
End MessageFacts.

(** X14. When no token can be had for any of the three accounts, nothing
    is fetched and the caller is answered 429 RESOURCE_EXHAUSTED with the
    message of the last rejection, that of the third account; the fixed
    text [All endpoints rate limited or unavailable] stands in for an
    empty message. *)
Theorem last_failure_is_the_one_reported :
  forall (J : Js.json_codec) (U : Gemini.upstream) req model method w
         (messages : nat -> string),
    Gemini.parseModelAction (Gemini.params0 req) = (model, method) ->
    method = "generateContent" \/ method = "streamGenerateContent" ->
    Gemini.headersSent w = false ->
    (forall attempt, attempt < 3 -> Gemini.pickNext U attempt <> None) ->
    (forall attempt, attempt < 3 ->
        Gemini.getTokenForAccount U attempt = inl (messages attempt)) ->
    exists w',
      Gemini.handleGeminiGenerate J U req w = (Eff.Ok tt, w')
      /\ Gemini.log w'
         = (Gemini.log w
            ++ [Gemini.PickNext 0; Gemini.PickNext 1; Gemini.PickNext 2;
                Gemini.Status 429;
                Gemini.Json
                  (Gemini.error_body 429
                     (if String.eqb (messages 2) ""
                      then "All endpoints rate limited or unavailable"
                      else messages 2)
                     "RESOURCE_EXHAUSTED")])%list.
Proof.
  intros J U req model method w messages Hp Hm Hw Hpick Htok.
  unfold Gemini.handleGeminiGenerate. rewrite Hp.
  rewrite (RefusalFacts.valid_method method Hm).
  unfold Eff.bind at 1.
  rewrite (MessageFacts.attempts_without_token J U _ _ model messages
             Gemini.maxAttempts 0 w).
  - unfold Eff.bind at 1. cbn [Eff.get].
    unfold Eff.bind at 1. rewrite HandlerFacts.res_status_run.
    rewrite HandlerFacts.res_json_run.
    + rewrite HandlerFacts.logged_logged. eexists. split; [reflexivity|].
      cbn. now rewrite <- app_assoc.
    + rewrite HandlerFacts.headersSent_logged. unfold Gemini.headersSent.
      cbn [Gemini.log]. rewrite existsb_app. unfold Gemini.headersSent in Hw.
      now rewrite Hw.
  - intros a Ha. apply Hpick. unfold Gemini.maxAttempts in Ha. lia.
  - intros a Ha. apply Htok. unfold Gemini.maxAttempts in Ha. lia.
Qed.

Lemma last_failure_is_the_one_reported_witness :
  exists w',
    Gemini.handleGeminiGenerate Samples.codec RunSamples.no_tokens
      HandlerSamples.generate HandlerSamples.world0
    = (Eff.Ok tt, w')
    /\ Gemini.log w'
       = (Gemini.log HandlerSamples.world0
          ++ [Gemini.PickNext 0; Gemini.PickNext 1; Gemini.PickNext 2;
              Gemini.Status 429;
              Gemini.Json
                (Gemini.error_body 429
                   (if String.eqb (RunSamples.refusal 2) ""
                    then "All endpoints rate limited or unavailable"
                    else RunSamples.refusal 2)
                   "RESOURCE_EXHAUSTED")])%list.
Proof.
  apply (last_failure_is_the_one_reported Samples.codec RunSamples.no_tokens
           HandlerSamples.generate "gemini-3-flash" "generateContent"
           HandlerSamples.world0 RunSamples.refusal).
  - reflexivity.
  - now left.
  - reflexivity.
  - intros attempt _. discriminate.
  - intros attempt _. reflexivity.
Defined.

(** ** The gateway configuration: loading, caching, saving *)

Module ConfigRunFacts.
Import Js Eff GatewayConfig ConfigProps.

Section WithJson.
Variable J : json_codec.

(** What a load leaves in the cache is what it returns, and the rest of
    the state is as it was. *)
Lemma getGatewayConfig_state st c st' :
  getGatewayConfig J st = (Ok c, st') -> st' = set_cache c st \/ (st' = st /\ c = cachedConfig st).
Proof.
  unfold getGatewayConfig, bind, get, try_catch, existsSync_file, readFileSync,
    JSON_parse, or_throw, modify, ret, throw.
  cbn. destruct (truthy (cachedConfig st)); [intros [= <- <-]; auto|].
  destruct (config_file st) as [|m|data] eqn:E; cbn; rewrite ?E; cbn;
    try (intros [= <- <-]; auto).
  destruct (parse J data); cbn; intros [= <- <-]; auto.
Qed.

Lemma getGatewayConfig_caches st c st' :
  getGatewayConfig J st = (Ok c, st') ->
  cachedConfig st' = c /\ config_file st' = config_file st
  /\ config_dir st' = config_dir st /\ writable st' = writable st.
Proof.
  intros H. destruct (getGatewayConfig_state st c st' H) as [-> | [-> ->]]; auto.
Qed.

(** A second load returns what the first returned. *)
Lemma getGatewayConfig_again st c st' :
  getGatewayConfig J st = (Ok c, st') -> getGatewayConfig J st' = (Ok c, st').
Proof.
  intros H. destruct (truthy c) eqn:Et.
  - destruct (getGatewayConfig_caches st c st' H) as [Hc _].
    rewrite <- Hc. apply ConfigFacts.getGatewayConfig_cached. now rewrite Hc.
  - revert H.
    unfold getGatewayConfig, bind, get, try_catch, existsSync_file, readFileSync,
      JSON_parse, or_throw, modify, ret, throw.
    cbn. destruct (truthy (cachedConfig st)) eqn:Ec.
    { intros [= <- <-]. now rewrite Ec. }
    destruct (config_file st) as [|m|data] eqn:E; cbn; rewrite ?E; cbn.
    + intros [= <- <-]. discriminate Et.
    + intros [= <- <-]. discriminate Et.
    + destruct (parse J data) as [v|] eqn:Ep; cbn; intros [= <- <-].
      * cbn. rewrite Et. cbn. rewrite ?E. cbn. rewrite ?E, ?Ep. reflexivity.
      * discriminate Et.
Qed.

(** A load does not look at the config directory. *)
Lemma getGatewayConfig_dir st c st1 :
  writable st = true ->
  getGatewayConfig J (if config_dir st then st
                      else {| cachedConfig := cachedConfig st; config_dir := true;
                              config_file := config_file st; writable := true |})
  = (Ok c, st1) ->
  exists st0, getGatewayConfig J st = (Ok c, st0).
Proof.
  intros Hw. destruct (config_dir st); [intros H; now exists st1|].
  unfold getGatewayConfig, bind, get, try_catch, existsSync_file, readFileSync,
    JSON_parse, or_throw, modify, ret, throw.
  cbn. destruct (truthy (cachedConfig st));
    [intros H; inversion H; subst; eexists; reflexivity|].
  destruct (config_file st) as [|m|data] eqn:E; cbn; rewrite ?E; cbn.
  - intros H; inversion H; subst; eexists; reflexivity.
  - intros H; inversion H; subst; eexists; reflexivity.
  - destruct (parse J data); cbn; intros H; inversion H; subst; eexists; reflexivity.
Qed.

Lemma fold_set_prop_lookup key (l : list (string * value)) : forall acc,
  distinct_keys l ->
  lookup key (fold_left (fun a kv => set_prop (fst kv) (snd kv) a) l acc)
  = match lookup key l with
    | Some v => Some v
    | None => lookup key acc
    end.
Proof.
  unfold distinct_keys.
  induction l as [|[k v] rest IH]; intros acc Hd; [reflexivity|].
  cbn [map fst] in Hd. inversion Hd as [|? ? Hnotin Hrest]. subst.
  cbn [fold_left fst snd lookup]. rewrite (IH _ Hrest).
  destruct (String.eqb k key) eqn:E.
  - apply String.eqb_eq in E. subst k.
    assert (Hn : lookup key rest = None).
    { clear -Hnotin. induction rest as [|[k' x] rest IH]; [reflexivity|].
      cbn [lookup]. destruct (String.eqb k' key) eqn:E.
      - apply String.eqb_eq in E. subst k'. exfalso. apply Hnotin. now left.
      - apply IH. intros Hin. apply Hnotin. now right. }
    rewrite Hn. apply ConfigFacts.lookup_set_prop.
  - now rewrite (ConfigFacts.lookup_set_prop_other key k v acc E).
Qed.

(** [{...a, ...b}] read by key: the property of [b] where [b] has one,
    the property of [a] otherwise. *)
Lemma spread2_lookup a b key :
  distinct_keys a -> distinct_keys b ->
  prop (spread2 (JObj a) (JObj b)) key
  = match lookup key b with
    | Some v => v
    | None => prop (JObj a) key
    end.
Proof.
  intros Ha Hb. unfold spread2. cbn [own_props prop].
  rewrite fold_left_app, (fold_set_prop_lookup key b _ Hb).
  destruct (lookup key b); [reflexivity|].
  rewrite (fold_set_prop_lookup key a [] Ha).
  now destruct (lookup key a).
Qed.

End WithJson.
End ConfigRunFacts.

(** X15. [getSystemInstruction] never returns an empty instruction:
    what it returns is truthy, the configured instruction or the
    default.  It throws exactly when the configuration that is loaded
    is [null] (a config file that holds the JSON text [null]), and then
    it throws a TypeError. *)
Theorem system_instruction_is_never_empty :
  forall (J : Js.json_codec) (st : GatewayConfig.state),
  exists config st',
    GatewayConfig.getGatewayConfig J st = (Eff.Ok config, st')
    /\ if Js.nullish config
       then GatewayConfig.getSystemInstruction J st = (Eff.Throw "TypeError", st')
       else exists instruction,
              GatewayConfig.getSystemInstruction J st = (Eff.Ok instruction, st')
              /\ Js.truthy instruction = true
              /\ (instruction = Js.prop config "systemInstruction"
                  \/ instruction = Js.JStr GatewayConfig.DEFAULT_SYSTEM_INSTRUCTION).
Proof.
  intros J st.
  destruct (ConfigFacts.getGatewayConfig_total J st) as [config [st' Hg]].
  exists config, st'. split; [exact Hg|].
  unfold GatewayConfig.getSystemInstruction, Eff.bind. rewrite Hg.
  unfold Js.member. destruct (Js.nullish config); [reflexivity|].
  cbn [Eff.or_throw Eff.ret]. eexists. split; [reflexivity|].
  unfold Js.js_or. destruct (Js.truthy (Js.prop config "systemInstruction")) eqn:E.
  - split; [exact E | now left].
  - split; [reflexivity | now right].
Qed.

(** X16. Once a configuration is loaded it is served from the cache:
    when [getGatewayConfig] has returned a truthy configuration, every
    later call returns the same one without looking at the file,
    whatever the file has become in the meantime. *)
Theorem loaded_config_is_not_read_again :
  forall (J : Js.json_codec) st config st' file,
    GatewayConfig.getGatewayConfig J st = (Eff.Ok config, st') ->
    Js.truthy config = true ->
    GatewayConfig.getGatewayConfig J (ConfigProps.with_file file st')
    = (Eff.Ok config, ConfigProps.with_file file st').
Proof.
  intros J st config st' file Hg Ht.
  destruct (ConfigRunFacts.getGatewayConfig_caches J st config st' Hg) as [Hc _].
  assert (Hc' : GatewayConfig.cachedConfig (ConfigProps.with_file file st') = config)
    by exact Hc.
  rewrite <- Hc'. apply ConfigFacts.getGatewayConfig_cached. now rewrite Hc'.
Qed.

Lemma loaded_config_is_not_read_again_witness :
  GatewayConfig.getGatewayConfig Samples.codec
    (ConfigProps.with_file (GatewayConfig.Content "{}")
       (GatewayConfig.set_cache GatewayConfig.default_config Samples.fresh_config))
  = (Eff.Ok GatewayConfig.default_config,
     ConfigProps.with_file (GatewayConfig.Content "{}")
       (GatewayConfig.set_cache GatewayConfig.default_config Samples.fresh_config)).
Proof.
  apply (loaded_config_is_not_read_again Samples.codec Samples.fresh_config).
  - reflexivity.
  - reflexivity.
Defined.

(** A save that can write: the configuration given is merged into the
    one that was loaded. *)
Lemma saveGatewayConfig_merges :
  forall (J : Js.json_codec) st given,
    GatewayConfig.writable st = true ->
    ConfigProps.distinct_keys given ->
    exists current st0 st',
      GatewayConfig.getGatewayConfig J st = (Eff.Ok current, st0)
      /\ GatewayConfig.saveGatewayConfig J (Js.JObj given) st = (Eff.Ok tt, st')
      /\ (forall before, current = Js.JObj before ->
            ConfigProps.distinct_keys before ->
            forall key,
              Js.prop (GatewayConfig.cachedConfig st') key
              = match Js.lookup key given with
                | Some v => v
                | None => Js.prop current key
                end)
      /\ GatewayConfig.config_file st'
         = GatewayConfig.Content
             (Js.stringify_indent J 2 (GatewayConfig.cachedConfig st'))
      /\ GatewayConfig.getGatewayConfig J st'
         = (Eff.Ok (GatewayConfig.cachedConfig st'), st').
Proof.
  intros J st given Hw Hd.
  destruct (ConfigFacts.saveGatewayConfig_stores J st (Js.JObj given) Hw)
    as [current [st1 [Hload [Hsave _]]]].
  destruct (ConfigRunFacts.getGatewayConfig_dir J st current st1 Hw Hload) as [st0 H0].
  exists current, st0. eexists. split; [exact H0|].
  split; [exact Hsave|]. cbn [GatewayConfig.cachedConfig GatewayConfig.config_file].
  split; [|split; [reflexivity|]].
  - intros before -> Hb key. now apply ConfigRunFacts.spread2_lookup.
  - now apply ConfigFacts.getGatewayConfig_cached.
Qed.

(** A save that cannot write. *)
Lemma saveGatewayConfig_refused :
  forall (J : Js.json_codec) st given,
    GatewayConfig.writable st = false ->
    exists message st',
      GatewayConfig.saveGatewayConfig J given st = (Eff.Throw message, st')
      /\ GatewayConfig.config_file st' = GatewayConfig.config_file st
      /\ fst (GatewayConfig.getGatewayConfig J st')
         = fst (GatewayConfig.getGatewayConfig J st).
Proof.
  intros J st given Hw.
  unfold GatewayConfig.saveGatewayConfig, GatewayConfig.ensureConfigDir,
    GatewayConfig.mkdirSync, Eff.bind.
  destruct (GatewayConfig.config_dir st) eqn:Ed.
  - destruct (ConfigFacts.getGatewayConfig_total J st) as [current [st1 Hg]].
    rewrite Hg.
    destruct (ConfigRunFacts.getGatewayConfig_caches J st current st1 Hg)
      as [_ [Hf [_ Hw1]]].
    unfold GatewayConfig.writeFileSync. rewrite Hw1, Hw.
    eexists. exists st1. split; [reflexivity|]. split; [exact Hf|].
    now rewrite (ConfigRunFacts.getGatewayConfig_again J st current st1 Hg).
  - rewrite Hw. eexists. exists st. auto.
Qed.

(** X17. A save merges, or changes nothing.  With the file system
    accepting writes, [saveGatewayConfig] succeeds, and the
    configuration it leaves in the cache has, for every key, the
    property of the configuration it was given where that has one, and
    the property of the configuration that was loaded before otherwise;
    the file holds this configuration as text, indented by two, and the
    next load returns it.  With the file system refusing writes,
    [saveGatewayConfig] throws, the config file is as it was, and the
    next load returns what a load would have returned before, not the
    configuration that was given. *)
Theorem save_merges_or_changes_nothing :
  forall (J : Js.json_codec) st given,
    ConfigProps.distinct_keys given ->
    (GatewayConfig.writable st = true ->
     exists current st0 st',
       GatewayConfig.getGatewayConfig J st = (Eff.Ok current, st0)
       /\ GatewayConfig.saveGatewayConfig J (Js.JObj given) st = (Eff.Ok tt, st')
       /\ (forall before, current = Js.JObj before ->
             ConfigProps.distinct_keys before ->
             forall key,
               Js.prop (GatewayConfig.cachedConfig st') key
               = match Js.lookup key given with
                 | Some v => v
                 | None => Js.prop current key
                 end)
       /\ GatewayConfig.config_file st'
          = GatewayConfig.Content
              (Js.stringify_indent J 2 (GatewayConfig.cachedConfig st'))
       /\ GatewayConfig.getGatewayConfig J st'
          = (Eff.Ok (GatewayConfig.cachedConfig st'), st'))
    /\
    (GatewayConfig.writable st = false ->
     exists message st',
       GatewayConfig.saveGatewayConfig J (Js.JObj given) st = (Eff.Throw message, st')
       /\ GatewayConfig.config_file st' = GatewayConfig.config_file st
       /\ fst (GatewayConfig.getGatewayConfig J st')
          = fst (GatewayConfig.getGatewayConfig J st)).
Proof.
  intros J st given Hd. split; intros Hw.
  - now apply saveGatewayConfig_merges.
  - now apply saveGatewayConfig_refused.
Qed.

Lemma save_merges_or_changes_nothing_witness :
  (exists current st0 st',
     GatewayConfig.getGatewayConfig Samples.codec Samples.fresh_config
     = (Eff.Ok current, st0)
     /\ GatewayConfig.saveGatewayConfig Samples.codec
          (Js.JObj [("port", Js.JNum 8080)]) Samples.fresh_config
        = (Eff.Ok tt, st')
     /\ Js.prop (GatewayConfig.cachedConfig st') "port" = Js.JNum 8080
     /\ Js.prop (GatewayConfig.cachedConfig st') "systemInstruction"
        = Js.JStr GatewayConfig.DEFAULT_SYSTEM_INSTRUCTION)
  /\
  (exists message st',
     GatewayConfig.saveGatewayConfig Samples.codec (Js.JObj [("port", Js.JNum 8080)])
       RunSamples.read_only
     = (Eff.Throw message, st')
     /\ GatewayConfig.config_file st' = GatewayConfig.config_file RunSamples.read_only
     /\ fst (GatewayConfig.getGatewayConfig Samples.codec st')
        = fst (GatewayConfig.getGatewayConfig Samples.codec RunSamples.read_only)).
Proof.
  assert (Hgiven : ConfigProps.distinct_keys [("port", Js.JNum 8080)]).
  { repeat constructor. intros []. }
  split.
  - destruct (proj1 (save_merges_or_changes_nothing Samples.codec Samples.fresh_config
                       [("port", Js.JNum 8080)] Hgiven) eq_refl)
      as [current [st0 [st' [H0 [Hsave [Hkeys _]]]]]].
    exists current, st0, st'. split; [exact H0|]. split; [exact Hsave|].
    assert (Hc : current = GatewayConfig.default_config).
    { cbn in H0. now inversion H0. }
    assert (Hd : ConfigProps.distinct_keys
                   [("systemInstruction",
                     Js.JStr GatewayConfig.DEFAULT_SYSTEM_INSTRUCTION)]).
    { repeat constructor. intros []. }
    split.
    + rewrite (Hkeys _ Hc Hd "port"). reflexivity.
    + rewrite (Hkeys _ Hc Hd "systemInstruction"). rewrite Hc. reflexivity.
  - apply (proj2 (save_merges_or_changes_nothing Samples.codec RunSamples.read_only
                    [("port", Js.JNum 8080)] Hgiven)).
    reflexivity.
Defined.

(** X18. What is saved survives a restart: after a save, a process that
    starts with an empty cache and reads the file back loads the
    configuration that was saved, provided [JSON.parse] reads the text
    that [JSON.stringify] wrote as the value it was written from. *)
Theorem saved_config_survives_a_restart :
  forall (J : Js.json_codec) st given st',
    GatewayConfig.saveGatewayConfig J given st = (Eff.Ok tt, st') ->
    Js.parse J (Js.stringify_indent J 2 (GatewayConfig.cachedConfig st'))
    = Some (GatewayConfig.cachedConfig st') ->
    GatewayConfig.getGatewayConfig J (ConfigProps.restarted st')
    = (Eff.Ok (GatewayConfig.cachedConfig st'), st').
Proof.
  intros J st given st' Hsave Hparse.
  assert (Hfile : GatewayConfig.config_file st'
                  = GatewayConfig.Content
                      (Js.stringify_indent J 2 (GatewayConfig.cachedConfig st'))).
  { revert Hsave.
    unfold GatewayConfig.saveGatewayConfig, GatewayConfig.ensureConfigDir, Eff.bind.
    destruct (if GatewayConfig.config_dir st then (Eff.Ok tt, st)
              else GatewayConfig.mkdirSync st) as [[[]|e|] s0]; try discriminate.
    destruct (GatewayConfig.getGatewayConfig J s0) as [[current|e|] s1]; try discriminate.
    unfold GatewayConfig.writeFileSync.
    destruct (GatewayConfig.writable s1); [|discriminate].
    unfold Eff.modify. intros [= <-]. reflexivity. }
  unfold ConfigProps.restarted, GatewayConfig.getGatewayConfig, Eff.bind, Eff.get,
    Eff.try_catch, GatewayConfig.existsSync_file, GatewayConfig.readFileSync,
    GatewayConfig.JSON_parse, Eff.or_throw, Eff.modify, Eff.ret.
  cbn. rewrite Hfile. cbn. rewrite Hfile. cbn. rewrite Hparse. cbn.
  f_equal. destruct st'. cbn in *. now rewrite Hfile.
Qed.

Lemma saved_config_survives_a_restart_witness :
  exists st',
    GatewayConfig.saveGatewayConfig RunSamples.reading_back
      (WebUi.posted_body "You are Antigravity. Be brief.") Samples.fresh_config
    = (Eff.Ok tt, st')
    /\ GatewayConfig.getGatewayConfig RunSamples.reading_back (ConfigProps.restarted st')
       = (Eff.Ok (GatewayConfig.cachedConfig st'), st').
Proof.
  eexists. split; [vm_compute; reflexivity|].
  eapply (saved_config_survives_a_restart RunSamples.reading_back Samples.fresh_config
            (WebUi.posted_body "You are Antigravity. Be brief.")).
  - vm_compute. reflexivity.
  - vm_compute. reflexivity.
Defined.

(** ** The request builder *)

Module BuilderFacts.
Import Js RunProps.

Lemma not_in_table model (table : list (string * string)) :
  (forall k v, In (k, v) table -> k <> model) ->
  find (fun kv => String.eqb (fst kv) model) table = None.
Proof.
  induction table as [|[k v] rest IH]; intros H; [reflexivity|].
  cbn [find fst]. destruct (String.eqb k model) eqn:E.
  - apply String.eqb_eq in E. exfalso. apply (H k v); [now left | exact E].
  - apply IH. intros k' v' Hin. apply (H k' v'). now right.
Qed.

Lemma unmapped_passes model :
  find (fun kv => String.eqb (fst kv) model) RequestBuilderSession.MODEL_NAME_MAPPING
  = None ->
  RequestBuilderSession.mapToApiModelName model = model.
Proof.
  intros H. unfold RequestBuilderSession.mapToApiModelName. rewrite H.
  destruct (Text.startsWith "gemini-3-pro-image" model); [reflexivity|].
  now destruct (Text.startsWith "gemini-" model || Text.startsWith "claude-" model).
Qed.

End BuilderFacts.

(** The mapping of the request builder is idempotent, and a name that
    is not in the table passes through. *)
Lemma mapToApiModelName_fixed :
  forall model,
    RunProps.prototype_member model = false ->
    RequestBuilderSession.mapToApiModelName
      (RequestBuilderSession.mapToApiModelName model)
    = RequestBuilderSession.mapToApiModelName model
    /\ ((forall k v, In (k, v) RequestBuilderSession.MODEL_NAME_MAPPING -> k <> model) ->
        RequestBuilderSession.mapToApiModelName model = model).
Proof.
  intros model _. split.
  - destruct (find (fun kv => String.eqb (fst kv) model)
                   RequestBuilderSession.MODEL_NAME_MAPPING) as [[k mapped]|] eqn:E.
    + assert (Hmap : RequestBuilderSession.mapToApiModelName model = mapped)
        by (unfold RequestBuilderSession.mapToApiModelName; now rewrite E).
      rewrite Hmap.
      apply find_some in E. destruct E as [Hin _].
      cbn [RequestBuilderSession.MODEL_NAME_MAPPING In] in Hin.
      repeat (destruct Hin as [Hin|Hin]; [inversion Hin; subst; reflexivity|]).
      contradiction.
    + now rewrite !(BuilderFacts.unmapped_passes model E).
  - intros H. apply BuilderFacts.unmapped_passes. now apply BuilderFacts.not_in_table.
Qed.

(** X19. The two mappings of model names are idempotent.  A name mapped
    by [mapModelForUpstream] of the handler, or by [mapToApiModelName]
    of the request builder, is mapped to itself, so mapping twice is
    mapping once.  The request type of the handler is the same whether
    it is taken from the name the caller gave or from the mapped name,
    and the request builder passes a name that is not in its table
    through unchanged, whatever its prefix.  (For every model name that
    is not the name of a member of [Object.prototype].) *)
Theorem model_name_mappings_are_idempotent :
  forall model,
    RunProps.prototype_member model = false ->
    (Gemini.mapModelForUpstream (Gemini.mapModelForUpstream model)
     = Gemini.mapModelForUpstream model
     /\ Gemini.getRequestType (Gemini.mapModelForUpstream model)
        = Gemini.getRequestType model)
    /\ (RequestBuilderSession.mapToApiModelName
          (RequestBuilderSession.mapToApiModelName model)
        = RequestBuilderSession.mapToApiModelName model
        /\ ((forall k v, In (k, v) RequestBuilderSession.MODEL_NAME_MAPPING -> k <> model) ->
            RequestBuilderSession.mapToApiModelName model = model)).
Proof.
  intros model H. split.
  - now apply mapModelForUpstream_fixed.
  - now apply mapToApiModelName_fixed.
Qed.

Lemma model_name_mappings_are_idempotent_witness :
  (Gemini.mapModelForUpstream (Gemini.mapModelForUpstream "gemini-3-pro-image-preview")
   = Gemini.mapModelForUpstream "gemini-3-pro-image-preview"
   /\ Gemini.getRequestType (Gemini.mapModelForUpstream "gemini-3-pro-image-preview")
      = Gemini.getRequestType "gemini-3-pro-image-preview")
  /\ RequestBuilderSession.mapToApiModelName
       (RequestBuilderSession.mapToApiModelName "gemini-3-pro-low")
     = RequestBuilderSession.mapToApiModelName "gemini-3-pro-low"
  /\ RequestBuilderSession.mapToApiModelName "gpt-4o" = "gpt-4o".
Proof.
  split; [|split].
  - apply (proj1 (model_name_mappings_are_idempotent "gemini-3-pro-image-preview"
                    eq_refl)).
  - apply (proj1 (proj2 (model_name_mappings_are_idempotent "gemini-3-pro-low" eq_refl))).
  - apply (proj2 (proj2 (model_name_mappings_are_idempotent "gpt-4o" eq_refl))).
    intros k v Hin. cbn in Hin.
    repeat (destruct Hin as [Hin|Hin]; [inversion Hin; discriminate|]).
    contradiction.
Defined.

(** X20. The request builder that stores a session id puts the derived
    id into the converted request under [sessionId], in place of any
    [sessionId] the conversion produced; every other property of the
    converted request is passed on as it is, and the payload's model is
    the mapped name.  (For every model name that is not the name of a
    member of [Object.prototype].) *)
Theorem session_id_is_stored_in_the_request :
  forall (convert derive : Js.value -> option Js.value) uuid anthropicRequest
         projectId name converted sessionId,
    Js.prop anthropicRequest "model" = Js.JStr name ->
    RunProps.prototype_member name = false ->
    convert anthropicRequest = Some (Js.JObj converted) ->
    derive anthropicRequest = Some sessionId ->
    exists payload,
      RequestBuilderSession.buildCloudCodeRequest convert derive uuid
        anthropicRequest projectId = Some payload
      /\ Js.prop (Js.prop payload "request") "sessionId" = sessionId
      /\ (forall key, key <> "sessionId" ->
            Js.prop (Js.prop payload "request") key = Js.prop (Js.JObj converted) key)
      /\ Js.prop payload "model"
         = Js.JStr (RequestBuilderSession.mapToApiModelName name)
      /\ Js.prop payload "requestId" = Js.JStr ("agent-" ++ uuid).
Proof.
  intros convert derive uuid req projectId name converted sessionId Hm _ Hc Hd.
  unfold RequestBuilderSession.buildCloudCodeRequest, Js.member.
  assert (Hn : Js.nullish req = false)
    by (destruct req; try reflexivity; discriminate).
  rewrite Hn, Hm, Hc, Hd. cbn [Js.assign].
  eexists. split; [reflexivity|].
  cbn [Js.prop Js.lookup String.eqb Ascii.eqb Bool.eqb].
  split; [now rewrite ConfigFacts.lookup_set_prop|].
  split; [|split; reflexivity].
  intros key Hk. rewrite ConfigFacts.lookup_set_prop_other; [reflexivity|].
  apply String.eqb_neq. congruence.
Qed.

Lemma session_id_is_stored_in_the_request_witness :
  exists payload,
    RequestBuilderSession.buildCloudCodeRequest
      (fun r => Some (Js.JObj [("contents", Js.JArr []); ("sessionId", Js.JStr "old")]))
      (fun r => Some (Js.JStr "-42")) "0000"
      (Js.JObj [("model", Js.JStr "gemini-3-pro-high")]) "project-1"
    = Some payload
    /\ Js.prop (Js.prop payload "request") "sessionId" = Js.JStr "-42"
    /\ (forall key, key <> "sessionId" ->
          Js.prop (Js.prop payload "request") key
          = Js.prop (Js.JObj [("contents", Js.JArr []); ("sessionId", Js.JStr "old")]) key)
    /\ Js.prop payload "model"
       = Js.JStr (RequestBuilderSession.mapToApiModelName "gemini-3-pro-high")
    /\ Js.prop payload "requestId" = Js.JStr ("agent-" ++ "0000").
Proof.
  apply (session_id_is_stored_in_the_request
           (fun r => Some (Js.JObj [("contents", Js.JArr []); ("sessionId", Js.JStr "old")]))
           (fun r => Some (Js.JStr "-42")) "0000"
           (Js.JObj [("model", Js.JStr "gemini-3-pro-high")]) "project-1"
           "gemini-3-pro-high"); reflexivity.
Defined.

(** X21. The headers [buildHeaders] builds, read by name.  [Accept] is
    the value asked for, unless that is [application/json] or left out:
    then no [Accept] is added.  [anthropic-beta] asks for interleaved
    thinking exactly for a thinking model of the Claude family.  Every
    other header is the constant header of that name where there is one;
    the constant headers come after [Authorization] and [Content-Type]
    and so replace them, and only where the constants have none is
    [Authorization] the bearer token and [Content-Type]
    [application/json]. *)
Theorem buildHeaders_by_name :
  forall (ANTIGRAVITY_HEADERS : list (string * Js.value))
         (getModelFamily : string -> string) (isThinkingModel : string -> bool)
         token model accept key,
    ConfigProps.distinct_keys ANTIGRAVITY_HEADERS ->
    let asked := match accept with Some a => a | None => "application/json" end in
    Js.prop (RequestHeaders.buildHeaders ANTIGRAVITY_HEADERS getModelFamily
               isThinkingModel token model accept) key
    = if String.eqb "Accept" key && negb (String.eqb asked "application/json")
      then Js.JStr asked
      else if String.eqb "anthropic-beta" key
              && (String.eqb (getModelFamily model) "claude" && isThinkingModel model)
      then Js.JStr "interleaved-thinking-2025-05-14"
      else match Js.lookup key ANTIGRAVITY_HEADERS with
           | Some v => v
           | None =>
               Js.prop (Js.JObj [("Authorization", Js.JStr ("Bearer " ++ token));
                                 ("Content-Type", Js.JStr "application/json")]) key
           end.
Proof.
  intros H family thinking token model accept key Hd asked.
  unfold RequestHeaders.buildHeaders. fold asked.
  set (base := [("Authorization", Js.JStr ("Bearer " ++ token));
                ("Content-Type", Js.JStr "application/json")]).
  assert (Hbase : Js.prop (Js.JObj (Js.own_props (Js.spread2 (Js.JObj base) (Js.JObj H)))) key
                  = match Js.lookup key H with
                    | Some v => v
                    | None => Js.prop (Js.JObj base) key
                    end).
  { apply (ConfigRunFacts.spread2_lookup base H key); [|exact Hd].
    unfold ConfigProps.distinct_keys, base. cbn [map fst].
    repeat constructor; cbn; intuition discriminate. }
  set (h1 := Js.own_props (Js.spread2 (Js.JObj base) (Js.JObj H))) in *.
  set (claude := String.eqb (family model) "claude" && thinking model).
  set (h2 := if claude
             then Js.set_prop "anthropic-beta" (Js.JStr "interleaved-thinking-2025-05-14") h1
             else h1).
  assert (H2 : Js.prop (Js.JObj h2) key
               = if String.eqb "anthropic-beta" key && claude
                 then Js.JStr "interleaved-thinking-2025-05-14"
                 else match Js.lookup key H with
                      | Some v => v
                      | None => Js.prop (Js.JObj base) key
                      end).
  { unfold h2. destruct claude.
    - rewrite andb_true_r. destruct (String.eqb "anthropic-beta" key) eqn:E.
      + apply String.eqb_eq in E. subst key. apply IdentityFacts.prop_assign_obj.
      + cbn [Js.prop]. rewrite ConfigFacts.lookup_set_prop_other by exact E.
        exact Hbase.
    - rewrite andb_false_r. exact Hbase. }
  destruct (negb (String.eqb asked "application/json")).
  - rewrite andb_true_r. destruct (String.eqb "Accept" key) eqn:E.
    + apply String.eqb_eq in E. subst key. apply IdentityFacts.prop_assign_obj.
    + cbn [Js.prop]. rewrite ConfigFacts.lookup_set_prop_other by exact E.
      exact H2.
  - rewrite andb_false_r. exact H2.
Qed.

Lemma buildHeaders_by_name_witness :
  Js.prop (RequestHeaders.buildHeaders
             [("User-Agent", Js.JStr "antigravity/1.11.9")]
             (fun _ => "claude") (fun _ => true)
             "token" "claude-sonnet-4-5-thinking" (Some "text/event-stream"))
          "Accept"
  = Js.JStr "text/event-stream".
Proof.
  exact (buildHeaders_by_name [("User-Agent", Js.JStr "antigravity/1.11.9")]
           (fun _ => "claude") (fun _ => true)
           "token" "claude-sonnet-4-5-thinking" (Some "text/event-stream") "Accept"
           ltac:(repeat constructor; cbn; intuition discriminate)).
Defined.

(** ** The gatewayConfig component of the web UI *)

Module ComponentFacts.
Import Js Eff ConfigComponent.

Lemma default_passes_the_check :
  includes_sentinel (JStr DEFAULT_INSTRUCTION) = Some true.
Proof. reflexivity. Qed.

Section WithServer.
Variable S : server.

(** A load that is answered without an instruction. *)
Lemma load_without_instruction c data :
  get_config S = Answers true (Some data) ->
  nullish data = false ->
  truthy (prop data "systemInstruction") = false ->
  exists c',
    loadConfig S c = (Ok tt, c')
    /\ systemInstruction c' = JStr DEFAULT_INSTRUCTION
    /\ calls c' = (calls c ++ [Get])%list.
Proof.
  intros Hg Hn Hf. unfold loadConfig, try_catch, bind, called, modify.
  rewrite Hg. unfold or_throw, ret, member, js_or. rewrite Hn, Hf.
  eexists. split; [reflexivity|]. cbn. auto.
Qed.

(** [saveSystemInstruction] once the check has passed. *)
Lemma save_checked c :
  includes_sentinel (systemInstruction c) = Some true ->
  exists kind message,
    saveSystemInstruction S c
    = (Ok tt,
       {| systemInstruction := systemInstruction c; loading := false;
          toasts := (toasts c ++ [WebUi.Toast message kind])%list;
          calls := (calls c ++ [Post (JObj [("systemInstruction", systemInstruction c)])])%list |})
    /\ (kind = "success"
        <-> exists json,
              post_config S (JObj [("systemInstruction", systemInstruction c)])
              = Answers true json).
Proof.
  intros Hc. unfold saveSystemInstruction, bind, get. rewrite Hc. cbn [or_throw ret negb].
  unfold modify, set_loading, try_finally, try_catch, called, showToast, modify.
  cbn [systemInstruction loading toasts calls].
  destruct (post_config S (JObj [("systemInstruction", systemInstruction c)]))
    as [message|ok json] eqn:E.
  - cbn. eexists. eexists. split; [reflexivity|].
    split; [discriminate | intros [json H]; discriminate].
  - destruct ok; cbn.
    + eexists. eexists. split; [reflexivity|].
      split; [intros _; now exists json | reflexivity].
    + eexists. eexists. split; [reflexivity|].
      split; [discriminate | intros [j H]; discriminate].
Qed.

End WithServer.
End ComponentFacts.

(** What a load does, whatever the server answers. *)
Lemma loadConfig_run :
  forall (S : ConfigComponent.server) (c : ConfigComponent.component),
  exists c',
    ConfigComponent.loadConfig S c = (Eff.Ok tt, c')
    /\ ConfigComponent.calls c' = (ConfigComponent.calls c ++ [ConfigComponent.Get])%list
    /\ ConfigComponent.loading c' = ConfigComponent.loading c
    /\ ConfigComponent.toasts c' = ConfigComponent.toasts c
    /\ ConfigComponent.systemInstruction c'
       = match ConfigComponent.get_config S with
         | ConfigComponent.Answers true (Some data) =>
             if Js.nullish data then ConfigComponent.systemInstruction c
             else Js.js_or (Js.prop data "systemInstruction")
                           (Js.JStr ConfigComponent.DEFAULT_INSTRUCTION)
         | _ => ConfigComponent.systemInstruction c
         end
    /\ (ConfigComponent.systemInstruction c' = ConfigComponent.systemInstruction c
        \/ Js.truthy (ConfigComponent.systemInstruction c') = true).
Proof.
  intros S c. unfold ConfigComponent.loadConfig, Eff.try_catch, Eff.bind,
    ConfigComponent.called, Eff.modify.
  destruct (ConfigComponent.get_config S) as [message|ok json].
  - cbn. eexists. split; [reflexivity|]. cbn. auto 10.
  - destruct ok; [|cbn; eexists; split; [reflexivity|]; cbn; auto 10].
    destruct json as [data|]; [|cbn; eexists; split; [reflexivity|]; cbn; auto 10].
    cbn [Eff.or_throw Eff.ret]. unfold Js.member.
    destruct (Js.nullish data); [cbn; eexists; split; [reflexivity|]; cbn; auto 10|].
    cbn. eexists. split; [reflexivity|]. cbn.
    split; [reflexivity|]. split; [reflexivity|]. split; [reflexivity|].
    split; [reflexivity|]. right. unfold Js.js_or.
    destruct (Js.truthy (Js.prop data "systemInstruction")) eqn:E; [exact E|reflexivity].
Qed.

(** X22. [saveSystemInstruction] on an instruction that is a string.
    Without [You are Antigravity] in it, nothing is sent: one error toast
    is shown and the component is otherwise as it was.  With it, the
    instruction is posted once, one toast is shown, a success exactly
    when the server answers with an ok status, and the loading flag is
    cleared however the post ends (an ok status, an error status, a
    fetch that rejects). *)
Theorem saveSystemInstruction_posts_once :
  forall (S : ConfigComponent.server) (c : ConfigComponent.component) text,
    ConfigComponent.systemInstruction c = Js.JStr text ->
    (Text.includes "You are Antigravity" text = false ->
     ConfigComponent.saveSystemInstruction S c
     = (Eff.Ok tt,
        {| ConfigComponent.systemInstruction := Js.JStr text;
           ConfigComponent.loading := ConfigComponent.loading c;
           ConfigComponent.toasts :=
             (ConfigComponent.toasts c
              ++ [WebUi.Toast WebUi.must_contain_message "error"])%list;
           ConfigComponent.calls := ConfigComponent.calls c |}))
    /\
    (Text.includes "You are Antigravity" text = true ->
     exists kind message,
       ConfigComponent.saveSystemInstruction S c
       = (Eff.Ok tt,
          {| ConfigComponent.systemInstruction := Js.JStr text;
             ConfigComponent.loading := false;
             ConfigComponent.toasts :=
               (ConfigComponent.toasts c ++ [WebUi.Toast message kind])%list;
             ConfigComponent.calls :=
               (ConfigComponent.calls c
                ++ [ConfigComponent.Post (WebUi.posted_body text)])%list |})
       /\ (kind = "success"
           <-> exists json,
                 ConfigComponent.post_config S (WebUi.posted_body text)
                 = ConfigComponent.Answers true json)).
Proof.
  intros S c text Hi. split.
  - intros Hn. unfold ConfigComponent.saveSystemInstruction, Eff.bind, Eff.get.
    rewrite Hi. cbn [ConfigComponent.includes_sentinel Eff.or_throw Eff.ret].
    rewrite Hn. cbn [negb]. unfold ConfigComponent.showToast, Eff.modify.
    now rewrite Hi.
  - intros Hy.
    destruct (ComponentFacts.save_checked S c) as [kind [message [E Hk]]].
    { rewrite Hi. cbn. now rewrite Hy. }
    exists kind, message. rewrite Hi in E, Hk. auto.
Qed.

Lemma saveSystemInstruction_posts_once_witness :
  ConfigComponent.saveSystemInstruction RunSamples.refusing
    (ConfigComponent.set_instruction (Js.JStr "Be brief.") ConfigComponent.created)
  = (Eff.Ok tt,
     {| ConfigComponent.systemInstruction := Js.JStr "Be brief.";
        ConfigComponent.loading := false;
        ConfigComponent.toasts := [WebUi.Toast WebUi.must_contain_message "error"];
        ConfigComponent.calls := [] |})
  /\
  exists kind message,
    ConfigComponent.saveSystemInstruction RunSamples.refusing
      (ConfigComponent.set_instruction (Js.JStr "You are Antigravity. Be brief.")
         ConfigComponent.created)
    = (Eff.Ok tt,
       {| ConfigComponent.systemInstruction := Js.JStr "You are Antigravity. Be brief.";
          ConfigComponent.loading := false;
          ConfigComponent.toasts := [WebUi.Toast message kind];
          ConfigComponent.calls :=
            [ConfigComponent.Post
               (WebUi.posted_body "You are Antigravity. Be brief.")] |})
    /\ (kind = "success"
        <-> exists json,
              ConfigComponent.post_config RunSamples.refusing
                (WebUi.posted_body "You are Antigravity. Be brief.")
              = ConfigComponent.Answers true json).
Proof.
  split.
  - apply (proj1 (saveSystemInstruction_posts_once RunSamples.refusing
                    (ConfigComponent.set_instruction (Js.JStr "Be brief.")
                       ConfigComponent.created)
                    "Be brief." eq_refl)).
    reflexivity.
  - apply (proj2 (saveSystemInstruction_posts_once RunSamples.refusing
                    (ConfigComponent.set_instruction
                       (Js.JStr "You are Antigravity. Be brief.")
                       ConfigComponent.created)
                    "You are Antigravity. Be brief." eq_refl)).
    reflexivity.
Defined.

(** A load answered without an instruction, and a save right after
    it. *)
Lemma default_is_saved :
  forall (S : ConfigComponent.server) (c : ConfigComponent.component) data,
    ConfigComponent.get_config S = ConfigComponent.Answers true (Some data) ->
    Js.nullish data = false ->
    Js.truthy (Js.prop data "systemInstruction") = false ->
    exists c',
      Eff.bind (ConfigComponent.init S)
               (fun _ => ConfigComponent.saveSystemInstruction S) c
      = (Eff.Ok tt, c')
      /\ ConfigComponent.systemInstruction c'
         = Js.JStr GatewayConfig.DEFAULT_SYSTEM_INSTRUCTION
      /\ ConfigComponent.calls c'
         = (ConfigComponent.calls c
            ++ [ConfigComponent.Get;
                ConfigComponent.Post
                  (WebUi.posted_body GatewayConfig.DEFAULT_SYSTEM_INSTRUCTION)])%list
      /\ ConfigComponent.loading c' = false.
Proof.
  intros S c data Hg Hn Hf.
  destruct (ComponentFacts.load_without_instruction S c data Hg Hn Hf) as [c1 [E1 [H1 H2]]].
  unfold ConfigComponent.init, Eff.bind at 1. rewrite E1.
  destruct (ComponentFacts.save_checked S c1) as [kind [message [E _]]].
  { now rewrite H1. }
  rewrite E, H1, H2. eexists. split; [reflexivity|].
  cbn. rewrite <- app_assoc. auto.
Qed.

(** X23. [loadConfig] never throws, and its default can be saved.
    Whatever the server does (a fetch that rejects, an error status, a
    body that is not JSON, a body that is [null]), a load makes one call
    and leaves the loading flag and the toasts as they were; the
    instruction of the component is afterwards the one it had or a
    truthy one.  When the server answers with a configuration that has
    no instruction, the component shows the default instruction, the
    same text as the default of the gateway, and a save right after the
    load passes the component's own check and posts that default. *)
Theorem loadConfig_never_throws :
  forall (S : ConfigComponent.server) (c : ConfigComponent.component),
    (exists c',
       ConfigComponent.loadConfig S c = (Eff.Ok tt, c')
       /\ ConfigComponent.calls c'
          = (ConfigComponent.calls c ++ [ConfigComponent.Get])%list
       /\ ConfigComponent.loading c' = ConfigComponent.loading c
       /\ ConfigComponent.toasts c' = ConfigComponent.toasts c
       /\ (ConfigComponent.systemInstruction c' = ConfigComponent.systemInstruction c
           \/ Js.truthy (ConfigComponent.systemInstruction c') = true))
    /\
    (forall data,
       ConfigComponent.get_config S = ConfigComponent.Answers true (Some data) ->
       Js.nullish data = false ->
       Js.truthy (Js.prop data "systemInstruction") = false ->
       exists c',
         Eff.bind (ConfigComponent.init S)
                  (fun _ => ConfigComponent.saveSystemInstruction S) c
         = (Eff.Ok tt, c')
         /\ ConfigComponent.systemInstruction c'
            = Js.JStr GatewayConfig.DEFAULT_SYSTEM_INSTRUCTION
         /\ ConfigComponent.calls c'
            = (ConfigComponent.calls c
               ++ [ConfigComponent.Get;
                   ConfigComponent.Post
                     (WebUi.posted_body GatewayConfig.DEFAULT_SYSTEM_INSTRUCTION)])%list
         /\ ConfigComponent.loading c' = false).
Proof.
  intros S c. split.
  - destruct (loadConfig_run S c) as [c' [E [Hc [Hl [Ht [_ Hi]]]]]].
    exists c'. auto.
  - intros data. apply default_is_saved.
Qed.

Lemma loadConfig_never_throws_witness :
  exists c',
    Eff.bind (ConfigComponent.init RunSamples.unconfigured)
             (fun _ => ConfigComponent.saveSystemInstruction RunSamples.unconfigured)
             ConfigComponent.created
    = (Eff.Ok tt, c')
    /\ ConfigComponent.systemInstruction c'
       = Js.JStr GatewayConfig.DEFAULT_SYSTEM_INSTRUCTION
    /\ ConfigComponent.calls c'
       = (ConfigComponent.calls ConfigComponent.created
          ++ [ConfigComponent.Get;
              ConfigComponent.Post
                (WebUi.posted_body GatewayConfig.DEFAULT_SYSTEM_INSTRUCTION)])%list
    /\ ConfigComponent.loading c' = false.
Proof.
  apply (proj2 (loadConfig_never_throws RunSamples.unconfigured ConfigComponent.created)
           (Js.JObj [])); reflexivity.
Defined.

(** ** The SQLite database of the editor *)

Module DatabaseFacts.
Import Js Eff AuthDatabase.



Section WithMachine.
Variable J : json_codec.
Variable syntax_error : string -> string.
Variable K : machine.

(** Loading the library: what is returned is whether the library is
    there afterwards; the library is asked for once at most. *)
Lemma ensureSqliteLoaded_run st :
  reachable st ->
  exists st',
    ensureSqliteLoaded K st = (Ok (Database st'), st')
    /\ sqliteLoadAttempted st' = true
    /\ opened st' = opened st /\ closed st' = closed st
    /\ required st' = (if sqliteLoadAttempted st then required st else S (required st))
    /\ Database st' = (if sqliteLoadAttempted st then Database st else sqlite_installed K).
Proof.
  intros Hr. unfold ensureSqliteLoaded, bind, get.
  destruct (sqliteLoadAttempted st) eqn:Ea.
  - exists st. cbn. rewrite Ea. repeat split; reflexivity.
  - specialize (Hr Ea). unfold modify.
    destruct (sqlite_installed K); cbn.
    + exists (loaded (attempt_load st)). repeat split; reflexivity.
    + exists (attempt_load st). cbn. rewrite Hr. repeat split; reflexivity.
Qed.


End WithMachine.
End DatabaseFacts.

(** X24. Every connection is closed again.  Whatever the machine and
    the database hold and however the call ends, [getAuthStatus] and
    [isDatabaseAccessible] open at most one connection and close what
    they opened; neither of them waits for ever, and
    [isDatabaseAccessible] never throws: it answers [true] exactly when
    the library is there and the database can be opened. *)
Theorem database_connections_are_closed :
  forall (J : Js.json_codec) (syntax_error : string -> string)
         (K : AuthDatabase.machine) dbPath st,
    AuthDatabase.reachable st ->
    (let run := AuthDatabase.getAuthStatus J syntax_error K dbPath st in
     fst run <> Eff.Hang
     /\ AuthDatabase.opened (snd run) <= S (AuthDatabase.opened st)
     /\ AuthDatabase.opened (snd run) + AuthDatabase.closed st
        = AuthDatabase.closed (snd run) + AuthDatabase.opened st)
    /\
    (let run := AuthDatabase.isDatabaseAccessible K dbPath st in
     AuthDatabase.opened (snd run) <= S (AuthDatabase.opened st)
     /\ AuthDatabase.opened (snd run) + AuthDatabase.closed st
        = AuthDatabase.closed (snd run) + AuthDatabase.opened st
     /\ fst run
        = Eff.Ok (AuthDatabase.Database (snd run)
                  && match AuthDatabase.open_database K dbPath with
                     | inl _ => false
                     | inr _ => true
                     end)).
Proof.
  intros J syntax_error K dbPath st Hr.
  destruct (DatabaseFacts.ensureSqliteLoaded_run K st Hr)
    as [st1 [E [_ [Ho [Hc [_ _]]]]]].
  split; cbv zeta.
  - destruct (AuthDatabase.getAuthStatus J syntax_error K dbPath st) as [o st'] eqn:Erun.
    unfold AuthDatabase.getAuthStatus, Eff.bind at 1 in Erun. rewrite E in Erun.
    destruct (AuthDatabase.Database st1) eqn:Ed; cbn [negb] in Erun.
    + destruct (AuthDatabase.open_database K dbPath) as [e|db].
      * inversion Erun; subst. cbn. repeat split; [discriminate | lia | lia].
      * unfold Eff.bind, Eff.modify, Eff.try_finally in Erun.
        destruct (AuthDatabase.read_auth J syntax_error db) as [e|authData];
          cbn in Erun; inversion Erun; subst; cbn;
          (repeat split; [discriminate | lia | lia]).
    + inversion Erun; subst. cbn. repeat split; [discriminate | lia | lia].
  - destruct (AuthDatabase.isDatabaseAccessible K dbPath st) as [o st'] eqn:Erun.
    unfold AuthDatabase.isDatabaseAccessible, Eff.bind at 1 in Erun. rewrite E in Erun.
    destruct (AuthDatabase.Database st1) eqn:Ed; cbn [negb] in Erun.
    + destruct (AuthDatabase.open_database K dbPath) as [e|db].
      * inversion Erun; subst. cbn. rewrite Ed. repeat split; lia.
      * unfold Eff.bind, Eff.modify, Eff.try_finally in Erun. cbn in Erun.
        inversion Erun; subst. cbn. rewrite Ed. repeat split; lia.
    + inversion Erun; subst. cbn. rewrite Ed. repeat split; lia.
Qed.

Lemma database_connections_are_closed_witness :
  let run := AuthDatabase.getAuthStatus Samples.codec (fun _ => "Unexpected token")
               RunSamples.signed_out "state.vscdb" AuthDatabase.initial in
  fst run <> Eff.Hang
  /\ AuthDatabase.opened (snd run) <= S (AuthDatabase.opened AuthDatabase.initial)
  /\ AuthDatabase.opened (snd run) + AuthDatabase.closed AuthDatabase.initial
     = AuthDatabase.closed (snd run) + AuthDatabase.opened AuthDatabase.initial.
Proof.
  apply (proj1 (database_connections_are_closed Samples.codec (fun _ => "Unexpected token")
                  RunSamples.signed_out "state.vscdb" AuthDatabase.initial
                  (fun _ => eq_refl))).
Defined.



(** X26. The SQLite library is asked for once.  The first call that
    needs it tries to load it; a load that failed is not tried again,
    and every later check answers what the first one answered, without
    another [require]. *)
Theorem sqlite_is_loaded_at_most_once :
  forall (K : AuthDatabase.machine) st,
    AuthDatabase.reachable st ->
    exists available st',
      AuthDatabase.isSqliteAvailable K st = (Eff.Ok available, st')
      /\ AuthDatabase.isSqliteAvailable K st' = (Eff.Ok available, st')
      /\ AuthDatabase.required st'
         = (if AuthDatabase.sqliteLoadAttempted st
            then AuthDatabase.required st
            else S (AuthDatabase.required st))
      /\ available
         = (if AuthDatabase.sqliteLoadAttempted st
            then AuthDatabase.Database st
            else AuthDatabase.sqlite_installed K)
      /\ AuthDatabase.reachable st'.
Proof.
  intros K st Hr.
  destruct (DatabaseFacts.ensureSqliteLoaded_run K st Hr)
    as [st1 [E [Ha [_ [_ [Hq Hd]]]]]].
  exists (AuthDatabase.Database st1), st1.
  assert (Hr1 : AuthDatabase.reachable st1)
    by (intros H; rewrite Ha in H; discriminate).
  split; [|split; [|split; [exact Hq|split; [exact Hd|exact Hr1]]]].
  - unfold AuthDatabase.isSqliteAvailable, Eff.bind at 1. now rewrite E.
  - unfold AuthDatabase.isSqliteAvailable, Eff.bind at 1.
    unfold AuthDatabase.ensureSqliteLoaded, Eff.bind, Eff.get. now rewrite Ha.
Qed.

Lemma sqlite_is_loaded_at_most_once_witness :
  exists available st',
    AuthDatabase.isSqliteAvailable RunSamples.no_sqlite AuthDatabase.initial
    = (Eff.Ok available, st')
    /\ AuthDatabase.isSqliteAvailable RunSamples.no_sqlite st' = (Eff.Ok available, st')
    /\ AuthDatabase.required st'
       = (if AuthDatabase.sqliteLoadAttempted AuthDatabase.initial
          then AuthDatabase.required AuthDatabase.initial
          else S (AuthDatabase.required AuthDatabase.initial))
    /\ available
       = (if AuthDatabase.sqliteLoadAttempted AuthDatabase.initial
          then AuthDatabase.Database AuthDatabase.initial
          else AuthDatabase.sqlite_installed RunSamples.no_sqlite)
    /\ AuthDatabase.reachable st'.
Proof.
  apply (sqlite_is_loaded_at_most_once RunSamples.no_sqlite AuthDatabase.initial).
  intros _. reflexivity.
Defined.

(** ** The command line *)

Module CliFacts.
Import Cli.

Lemma load_imports imports path q :
  In (ImportModule q) (load imports path) <-> q = path.
Proof.
  unfold load. split.
  - intros [H|H]; [now inversion H|].
    destruct (imports path); [|contradiction].
    destruct H as [H|[H|[]]]; discriminate.
  - intros ->. now left.
Qed.

End CliFacts.

(** X27. What starts the server.  [main] imports the server module
    exactly when the arguments hold none of [--help], [-h],
    [--version], [-v] and the command is [start] or absent; with a help
    option anywhere in the arguments it prints the help and exits with
    code 0, whatever the command; and it never imports more than one
    module. *)
Theorem server_is_started_only_by_start :
  forall (imports : string -> option string) (args : list string),
    (In (Cli.ImportModule Cli.index_js) (Cli.main imports args)
     <-> Cli.asks_help args = false
         /\ Cli.asks_version args = false
         /\ (args = [] \/ hd_error args = Some "start"))
    /\ (Cli.asks_help args = true
        -> Cli.main imports args = [Cli.ShowHelp; Cli.Exit 0])
    /\ (forall p q,
           In (Cli.ImportModule p) (Cli.main imports args) ->
           In (Cli.ImportModule q) (Cli.main imports args) -> p = q).
Proof.
  intros imports args. unfold Cli.main, Cli.asks_help, Cli.asks_version.
  destruct (Cli.includes "--help" args || Cli.includes "-h" args) eqn:Eh.
  { split; [|split].
    - split; [intros [H|[H|[]]]; discriminate | intros [H _]; discriminate].
    - reflexivity.
    - intros p q [H|[H|[]]]; discriminate. }
  destruct (Cli.includes "--version" args || Cli.includes "-v" args) eqn:Ev.
  { split; [|split].
    - split; [intros [H|[H|[]]]; discriminate | intros [_ [H _]]; discriminate].
    - discriminate.
    - intros p q [H|[H|[]]]; discriminate. }
  destruct args as [|command rest]; cbn [nth_error hd_error].
  { split; [|split].
    - split; [auto | intros _; apply CliFacts.load_imports; reflexivity].
    - discriminate.
    - intros p q Hp Hq. apply CliFacts.load_imports in Hp, Hq. congruence. }
  destruct (String.eqb command "start") eqn:Es.
  { apply String.eqb_eq in Es. subst command. split; [|split].
    - split; [auto | intros _; apply CliFacts.load_imports; reflexivity].
    - discriminate.
    - intros p q Hp Hq. apply CliFacts.load_imports in Hp, Hq. congruence. }
  assert (Hne : ~ ([] = command :: rest \/ Some command = Some "start")).
  { intros [H|H]; [discriminate|]. inversion H. subst.
    rewrite String.eqb_refl in Es. discriminate. }
  destruct (String.eqb command "accounts") eqn:Ea.
  { split; [|split].
    - split.
      + intros [H|H]; [discriminate|]. apply CliFacts.load_imports in H. discriminate.
      + intros [_ [_ [H|H]]]; [discriminate|]. exfalso. apply Hne. now right.
    - discriminate.
    - intros p q [Hp|Hp] [Hq|Hq]; try discriminate.
      apply CliFacts.load_imports in Hp, Hq. congruence. }
  split; [|split].
  - split.
    + destruct (String.eqb command "help"); [intros [H|[]]; discriminate|].
      destruct (String.eqb command "version"); [intros [H|[]]; discriminate|].
      intros [H|[H|[H|[]]]]; discriminate.
    + intros [_ [_ [H|H]]]; [discriminate|]. exfalso. apply Hne. now right.
  - discriminate.
  - intros p q Hp. exfalso. revert Hp.
    destruct (String.eqb command "help"); [intros [H|[]]; discriminate|].
    destruct (String.eqb command "version"); [intros [H|[]]; discriminate|].
    intros [H|[H|[H|[]]]]; discriminate.
Qed.

(** ** The first revision of the Gemini handler *)

Module LegacyFacts.
Import Js Eff Gemini Props HandlerFacts GeminiLegacy.

Lemma pass_through_chunks J chunks : forall d w,
  pass_through J d (in_chunks chunks) w
  = (Ok tt, logged (passed (decoded J d chunks) ++ [Read None]) w).
Proof.
  induction chunks as [|[t c] chunks IH]; intros d w; [reflexivity|].
  cbn [in_chunks map pass_through decoded fst snd].
  unfold bind at 1. unfold await_read, bind at 1. rewrite emit_run.
  cbn [settle ret]. destruct (decode J d c) as [d' chunk].
  unfold bind at 1, res_write. rewrite emit_run.
  fold (in_chunks chunks). rewrite IH, !logged_logged. reflexivity.
Qed.

Lemma ok_is_not_429 r : response_ok r = true -> (status r =? 429)%Z = false.
Proof.
  unfold response_ok. intros H. apply andb_prop in H. destruct H as [_ H].
  apply Z.leb_le in H. apply Z.eqb_neq. lia.
Qed.

Section WithUpstream.
Variable J : json_codec.
Variable U : upstream.

(** Endpoints that give no answer to pass on are fetched one after the
    other, and nothing is said to the caller. *)
Lemma try_endpoints_unusable isStream accessToken wrappedRequest remaining :
  forall position w,
    (forall i, i < length remaining -> unusable (fetch U (position + i))) ->
    try_endpoints J U isStream position remaining accessToken wrappedRequest w
    = (Ok false,
       logged (map (fun endpoint =>
                      Fetch (upstream_url isStream endpoint)
                            ("Bearer " ++ accessToken) wrappedRequest)
                   remaining) w).
Proof.
  induction remaining as [|endpoint rest IH]; intros position w H.
  - cbn. now rewrite logged_nil.
  - cbn [try_endpoints map]. unfold bind at 1.
    assert (Hone : try_endpoint J U isStream position endpoint accessToken wrappedRequest w
                   = (Ok false,
                      logged [Fetch (upstream_url isStream endpoint)
                                    ("Bearer " ++ accessToken) wrappedRequest] w)).
    { unfold try_endpoint, try_catch, bind at 1. rewrite emit_run.
      specialize (H 0 (Nat.lt_0_succ _)). rewrite Nat.add_0_r in H.
      destruct (fetch U position) as [message|r]; [reflexivity|].
      cbn in H. unfold handle_response. rewrite H. reflexivity. }
    rewrite Hone, IH, logged_logged; [reflexivity|].
    intros i Hi. replace (S position + i) with (position + S i) by lia.
    apply H. cbn. lia.
Qed.

End WithUpstream.
End LegacyFacts.

(** X28. The first revision of the handler passes a stream through as it
    comes.  For a streaming caller, with an account at hand and the
    first endpoint answering 2xx with a body, the handler fetches that
    endpoint once, sets the three stream headers, writes for every
    chunk of the upstream body the text that its one decoder, fresh at
    the first chunk, gives for the bytes read, one write for each read
    and in their order, and ends the response when the body is done; no
    other endpoint is fetched and the text is not looked into. *)
Theorem first_revision_passes_the_stream_through :
  forall (J : Js.json_codec) endpoint others (U : GeminiLegacy.upstream) req w
         model method a r chunks,
    Gemini.parseModelAction (Gemini.params0 req) = (model, method) ->
    GeminiLegacy.supported method ->
    Gemini.isStream_of method req = true ->
    Gemini.headersSent w = false ->
    GeminiLegacy.getNextAccount U = GeminiLegacy.Account a ->
    GeminiLegacy.fetch U 0 = GeminiLegacy.Responded r ->
    Gemini.response_ok (GeminiLegacy.head r) = true ->
    Gemini.body (GeminiLegacy.head r) = Some (GeminiLegacy.in_chunks chunks) ->
    GeminiLegacy.handleGeminiGenerate J (endpoint :: others) U req w
    = (Eff.Ok tt,
       Props.logged
         ([Gemini.PickNext 0;
           Gemini.Fetch (GeminiLegacy.upstream_url true endpoint)
                        ("Bearer " ++ GeminiLegacy.accessToken a)
                        (GeminiLegacy.wrapGeminiRequest
                           (GeminiLegacy.randomUUID U) (Gemini.req_body req)
                           (GeminiLegacy.projectId a) model)]
          ++ RunProps.stream_headers
          ++ GeminiLegacy.passed (GeminiLegacy.decoded J (Js.fresh J) chunks)
          ++ [Gemini.Read None; Gemini.End_]) w).
Proof.
  intros J endpoint others U req w model method a r chunks
         Hparse Hm Hs Hw Ha Hf Hok Hb.
  unfold GeminiLegacy.handleGeminiGenerate. rewrite Hparse.
  assert (Hvalid : negb (String.eqb method "generateContent")
                   && negb (String.eqb method "streamGenerateContent") = false)
    by (destruct Hm as [-> | ->]; reflexivity).
  rewrite Hvalid, Hs, Ha.
  unfold Eff.try_catch, Eff.bind at 1. rewrite HandlerFacts.emit_run.
  cbn [GeminiLegacy.try_endpoints]. unfold Eff.bind at 1, Eff.bind at 1.
  unfold GeminiLegacy.try_endpoint, Eff.try_catch, Eff.bind at 1.
  rewrite HandlerFacts.emit_run, Hf, HandlerFacts.logged_logged.
  unfold GeminiLegacy.handle_response.
  rewrite (LegacyFacts.ok_is_not_429 _ Hok), Hok. cbn [negb].
  assert (Hsent : forall evs, existsb Gemini.commits evs = false ->
                              Gemini.headersSent (Props.logged evs w) = false)
    by (intros evs He; now rewrite HandlerFacts.headersSent_logged, Hw, He).
  unfold Eff.bind at 1.
  rewrite HandlerFacts.res_setHeader_run by (apply Hsent; reflexivity).
  rewrite HandlerFacts.logged_logged. unfold Eff.bind at 1.
  rewrite HandlerFacts.res_setHeader_run by (apply Hsent; reflexivity).
  rewrite HandlerFacts.logged_logged. unfold Eff.bind at 1.
  rewrite HandlerFacts.res_setHeader_run by (apply Hsent; reflexivity).
  rewrite HandlerFacts.logged_logged. unfold Eff.bind at 1.
  unfold Gemini.getReader. rewrite Hb. cbn [Eff.or_throw Eff.ret].
  unfold Eff.bind at 1.
  unfold Eff.try_finally. rewrite LegacyFacts.pass_through_chunks.
  unfold Gemini.res_end. rewrite HandlerFacts.emit_run, !HandlerFacts.logged_logged.
  cbn [Eff.ret]. f_equal. f_equal. unfold RunProps.stream_headers.
  cbn [app]. rewrite <- !app_assoc. reflexivity.
Qed.

Lemma first_revision_passes_the_stream_through_witness :
  GeminiLegacy.handleGeminiGenerate Samples.codec RunSamples.hosts
    RunSamples.streaming_once HandlerSamples.stream HandlerSamples.world0
  = (Eff.Ok tt,
     Props.logged
       ([Gemini.PickNext 0;
         Gemini.Fetch (GeminiLegacy.upstream_url true "cloudcode-pa.googleapis.com")
                      ("Bearer " ++ "token")
                      (GeminiLegacy.wrapGeminiRequest
                         "0000" (Gemini.req_body HandlerSamples.stream)
                         "project-1" "gemini-3-flash")]
        ++ RunProps.stream_headers
        ++ GeminiLegacy.passed
             (GeminiLegacy.decoded Samples.codec (Js.fresh Samples.codec)
                RunSamples.one_event)
        ++ [Gemini.Read None; Gemini.End_]) HandlerSamples.world0).
Proof.
  apply (first_revision_passes_the_stream_through Samples.codec
           "cloudcode-pa.googleapis.com"
           ["daily-cloudcode-pa.sandbox.googleapis.com"]
           RunSamples.streaming_once HandlerSamples.stream HandlerSamples.world0
           "gemini-3-flash" "streamGenerateContent"
           {| GeminiLegacy.accessToken := "token";
              GeminiLegacy.projectId := "project-1";
              GeminiLegacy.email := "user@example.com" |}
           {| GeminiLegacy.head :=
                {| Gemini.status := 200; Gemini.text := inr "";
                   Gemini.body := Some (GeminiLegacy.in_chunks RunSamples.one_event) |};
              GeminiLegacy.json := inl "Unexpected token d" |}
           RunSamples.one_event);
    try reflexivity.
  right. reflexivity.
Defined.

(** X29. The first revision of the handler makes one pass over the
    endpoints.  With an account at hand, when every endpoint either
    cannot be fetched or answers 429, the handler fetches each endpoint
    once, in the order of the list and with the same token and payload,
    and then answers 503 [All endpoints failed]; it asks for no second
    account and reads no body. *)
Theorem first_revision_gives_up_after_one_pass :
  forall (J : Js.json_codec) endpoints (U : GeminiLegacy.upstream) req w
         model method a,
    Gemini.parseModelAction (Gemini.params0 req) = (model, method) ->
    GeminiLegacy.supported method ->
    Gemini.headersSent w = false ->
    GeminiLegacy.getNextAccount U = GeminiLegacy.Account a ->
    (forall position, position < length endpoints ->
                      GeminiLegacy.unusable (GeminiLegacy.fetch U position)) ->
    GeminiLegacy.handleGeminiGenerate J endpoints U req w
    = (Eff.Ok tt,
       Props.logged
         ([Gemini.PickNext 0]
          ++ map (fun endpoint =>
                    Gemini.Fetch
                      (GeminiLegacy.upstream_url (Gemini.isStream_of method req) endpoint)
                      ("Bearer " ++ GeminiLegacy.accessToken a)
                      (GeminiLegacy.wrapGeminiRequest
                         (GeminiLegacy.randomUUID U) (Gemini.req_body req)
                         (GeminiLegacy.projectId a) model))
                 endpoints
          ++ [Gemini.Status 503;
              Gemini.Json (Gemini.error_body 503 "All endpoints failed" "UNAVAILABLE")])
         w).
Proof.
  intros J endpoints U req w model method a Hparse Hm Hw Ha Hall.
  unfold GeminiLegacy.handleGeminiGenerate. rewrite Hparse.
  assert (Hvalid : negb (String.eqb method "generateContent")
                   && negb (String.eqb method "streamGenerateContent") = false)
    by (destruct Hm as [-> | ->]; reflexivity).
  rewrite Hvalid, Ha.
  unfold Eff.try_catch, Eff.bind at 1. rewrite HandlerFacts.emit_run.
  unfold Eff.bind at 1.
  rewrite LegacyFacts.try_endpoints_unusable by exact Hall.
  rewrite HandlerFacts.logged_logged.
  unfold Eff.bind at 1. rewrite HandlerFacts.res_status_run, HandlerFacts.logged_logged.
  rewrite HandlerFacts.res_json_run.
  - rewrite HandlerFacts.logged_logged. f_equal. f_equal.
    cbn [app]. rewrite <- !app_assoc. reflexivity.
  - rewrite HandlerFacts.headersSent_logged, Hw. cbn [orb app existsb Gemini.commits].
    rewrite existsb_app. cbn. rewrite orb_false_r.
    induction endpoints as [|e l IH]; [reflexivity|]. cbn. apply IH.
    intros position Hp. apply Hall. cbn. lia.
Qed.

Lemma first_revision_gives_up_after_one_pass_witness :
  GeminiLegacy.handleGeminiGenerate Samples.codec RunSamples.hosts
    RunSamples.limited_then_down HandlerSamples.generate HandlerSamples.world0
  = (Eff.Ok tt,
     Props.logged
       ([Gemini.PickNext 0]
        ++ map (fun endpoint =>
                  Gemini.Fetch
                    (GeminiLegacy.upstream_url
                       (Gemini.isStream_of "generateContent" HandlerSamples.generate)
                       endpoint)
                    ("Bearer " ++ "token")
                    (GeminiLegacy.wrapGeminiRequest
                       "0000" (Gemini.req_body HandlerSamples.generate)
                       "project-1" "gemini-3-flash"))
               RunSamples.hosts
        ++ [Gemini.Status 503;
            Gemini.Json (Gemini.error_body 503 "All endpoints failed" "UNAVAILABLE")])
       HandlerSamples.world0).
Proof.
  apply (first_revision_gives_up_after_one_pass Samples.codec RunSamples.hosts
           RunSamples.limited_then_down HandlerSamples.generate HandlerSamples.world0
           "gemini-3-flash" "generateContent"
           {| GeminiLegacy.accessToken := "token";
              GeminiLegacy.projectId := "project-1";
              GeminiLegacy.email := "user@example.com" |});
    try reflexivity.
  - left. reflexivity.
  - intros [|[|position]] Hp; cbn in Hp |- *; [reflexivity | exact I | lia].
Defined.

(** ** The start banner *)

Module BannerFacts.
Import Banner.

Lemma length_blanks n : Text.length16 (blanks n) = n.
Proof. induction n as [|n IH]; [reflexivity|]. cbn [blanks]. rewrite <- IH at 2. reflexivity. Qed.

Lemma length_app (a b : string) :
  Text.length16 (a ++ b) = Text.length16 a + Text.length16 b.
Proof.
  induction a as [|c a IH]; [reflexivity|].
  cbn [append Text.length16]. rewrite IH. lia.
Qed.

Lemma padding_spec width text :
  (0 <= width)%Z ->
  Text.length16 text + padding width text
  = Nat.max (Z.to_nat width) (Text.length16 text).
Proof. unfold padding. lia. Qed.

(** A text with a character of two bytes: the line is 62 units long,
    and 63 bytes. *)
Lemma line_of_accented_text :
  let text := Text.of_bytes [47; 114; 101; 110; 195; 169; 101] in
  Text.length16 text = 6 /\ String.length text = 7
  /\ Text.length16 (line2 text) = 62 /\ String.length (line2 text) = 63.
Proof. vm_compute. repeat split. Qed.

End BannerFacts.

(** X30. The computed lines of the start banner fill the frame.  Between
    the two borders the frame is 62 characters wide; a line built with
    [align] or [align4] starts with its indentation and its text, whole,
    and is padded with blanks to exactly 62 characters.  A text longer
    than 60 characters ([align]) or 58 ([align4]) is never cut: the line
    is then as long as indentation and text, and its right border stands
    out of the frame.  Characters are counted as [text.length] counts
    them, in UTF-16 code units. *)
Theorem banner_lines_fill_the_frame :
  forall text : string,
    Text.length16 (Banner.line2 text) = Nat.max 62 (2 + Text.length16 text)
    /\ Text.length16 (Banner.line4 text) = Nat.max 62 (4 + Text.length16 text)
    /\ Text.startsWith ("  " ++ text) (Banner.line2 text) = true
    /\ Text.startsWith ("    " ++ text) (Banner.line4 text) = true.
Proof.
  intros text. unfold Banner.line2, Banner.line4, Banner.align, Banner.align4.
  repeat split.
  - rewrite !BannerFacts.length_app, BannerFacts.length_blanks.
    pose proof (BannerFacts.padding_spec 60 text).
    change (Text.length16 "  ") with 2. lia.
  - rewrite !BannerFacts.length_app, BannerFacts.length_blanks.
    pose proof (BannerFacts.padding_spec 58 text).
    change (Text.length16 "    ") with 4. lia.
  - apply TextFacts.startsWith_spec. exists (Banner.blanks (Banner.padding 60 text)).
    cbn. reflexivity.
  - apply TextFacts.startsWith_spec. exists (Banner.blanks (Banner.padding 58 text)).
    cbn. reflexivity.
Qed.
